(* ===== verification/_CoqProject ===== *)
-Q . S2P
Prelude.v
Effects.v
Std.v
Ip.v
Handler.v
Icmp.v
Udp.v
TcpSegment.v
TcpConn.v
TcpSend.v
TcpReceive.v
TcpTable.v
TcpInv.v
TcpState.v
TcpSystem.v
TcpEmit.v
TcpNet.v
TcpNetwork.v
TcpLoss.v
TcpPersist.v
TcpOpen.v
TcpClose.v
Wire.v
Stack.v
StackProps.v
StackWire.v
Tun.v
Demo.v
DemoProps.v
UnitTests.v
