(* ===== verification/Prelude.v ===== *)
(** * MiniTCP: a verification of the user-space TCP/IP stack

    MiniTCP reads IPv4 packets from a TUN device and answers them without the
    kernel: an ICMP echo responder, UDP sockets, and TCP with retransmission,
    flow control, reassembly and the full state machine, behind a blocking
    socket API.  This library models the implementation files of the crate as
    executable functions and proves what makes them correct.

    ** Parts and files

    - [Prelude] (this file): machine integers ([u8] to [u64] are [Z], the
      wrap-around and the panics are written out), byte slices with Rust's
      bounds checks, the world and the monad, traversal of hash maps, tactics
      and the hint database [minitcp].
    - [Effects]: a program logic for the monad, [wp] and [sends]: a
      computation returns, and its result and the packets it writes satisfy a
      predicate.
    - [Std]: what the programs use of Rust's standard library: decimal
      numbers, [Ipv4Addr], UTF-8.
    - [Ip] ([src/src/ip.rs]): [parse_ip_header], [build_ip_header],
      [checksum16], [verify_ip_checksum], [send_ip_packet].
    - [Handler]: the class [PacketHandler], what [dispatch_ip_packet] needs of
      a protocol.  ICMP, UDP and TCP are instances; the dispatcher is verified
      against the class.
    - [Icmp] ([src/src/icmp.rs]): [handle_icmp].
    - [Udp] ([src/src/udp.rs]): [UdpTable] with its bounded queues,
      [handle_datagram], [send_datagram].
    - [TcpSegment], [TcpConn], [TcpTable] ([src/src/tcp.rs]): the header and
      checksum; the control block [TcpConnection] with sending,
      acknowledgement and receiving; the table with demultiplexing, the
      [process_*] functions of the eleven states, the timers of [tick], and
      [connect], [listen], [accept], [send], [recv], [close].
    - [TcpSend], [TcpReceive]: the theorems about one connection.
    - [TcpInv], [TcpState]: the invariant of connections and table, the
      abstract state machine, and the theorems about the table.
    - [TcpSystem], [TcpClose]: two tables that exchange packets.
    - [TcpEmit], [TcpNet], [TcpNetwork]: whose packets are whose; what a
      connection has sent, as a history; two hosts and a network that loses,
      repeats and reorders.
    - [TcpLoss], [TcpPersist]: recovery from loss by retransmission, and from
      a closed window by the persist timer.
    - [TcpOpen]: the listen guard and ephemeral ports.
    - [Wire]: everything the table writes is well-formed.
    - [Stack], [StackProps], [StackWire] ([src/src/stack.rs]): sockets, packet
      dispatch, the event-loop step [pump_once], the blocking calls, the
      options; their theorems; what they write.
    - [Tun] ([src/src/tun.rs]): [tun_alloc] and [Stack::init], over arbitrary
      results of the system calls.
    - [Demo], [DemoProps] ([src/src/bin]): [bench_echo_server], [chat_server],
      [chat_client] and [minitcp] as clients of the socket layer.
    - [UnitTests]: the unit tests of [ip.rs], [udp.rs] and [tcp.rs], run on
      the model.

    ** How the code is modelled

    A method with [&mut self] becomes a function that takes the state and
    returns the new one.  What the code takes from outside is the [World]:
    the successive readings of the clock, the random numbers, the packets the
    device has ready, the visit order of each hash-map traversal, and the log
    of the packets written.  The type [M A] is [World → option (A * World)];
    [None] is a panic: a slice out of range or an arithmetic overflow, under
    the overflow checks of the debug profile.  (The one place where packets or
    calls can make the release profile differ is the total length in
    [send_datagram]; [send_datagram_release] is that profile's version.)  No theorem fixes the streams of
    the world, except where a statement says so (a clock that passes the
    deadline).  Hash maps are [gmap]s; the only place where their order
    matters is the traversal in [tick], for which it is an input.  A program
    is a computation over a [Process], its stack and its standard streams; for
    each write to these, whether it succeeds is an input.

    ** Fuel

    - [fold_carry] runs at most [FOLD_FUEL] = 2 rounds: any [u32]
      accumulator is below 2^16 after two ([fold_carry_done]).
    - [flush_loop] has as fuel the number of pending bytes, since every round
      removes at least one; [splice_ooo] the number of buffered segments,
      since every round removes one.  The reference definitions they are
      proved equal to do not depend on fuel.
    - The blocking calls ([accept], [recv], [recvfrom]) take the fuel as an
      argument and return [None] inside the result when it did not suffice;
      [blocking_calls_time_out] shows that the number of clock readings up to
      the deadline is enough.  [connect] and the linger of [close] are
      bounded loops in the source.
    - [send_all] has the length of its chunk, which suffices
      ([echo_step_returns]); the endless loops of the programs run for as many
      rounds as they are given.  [digits] has 20, enough for a [u64].

    ** What is proved

    - Over an unreliable network: what an application reads is a prefix of
      what the other one sent, whatever is lost, repeated, delayed or
      reordered, and the end of the stream comes only after all of it
      ([stream_integrity]); what is lost is brought across by retransmission
      once packets get through ([retransmission_recovers]); a closed window
      is found open again by a probe ([persist_probe_reopens]).
    - End to end: the three-way handshake ([handshake_completes]), delivery
      of a byte stream under reordering and duplication
      ([transfer_any_order]), the four-packet close ([orderly_release]), the
      close from both sides at once ([simultaneous_close]), a UDP datagram
      ([udp_end_to_end]).
    - Safety: no sequence of packets, timer ticks and calls makes the TCP
      engine panic, and the invariants hold throughout ([tcp_never_panics]);
      a socket call panics exactly when it is an oversized [sendto]
      ([stack_panics_only_oversized]); the programs panic on arguments that
      are not Unicode and otherwise only when a standard stream refuses a
      write ([programs_panic_conditions]); everything written is a well-formed
      packet ([stack_writes_wellformed]).
    - Refinement: a segment moves a connection as the transition table of
      [docs/state_machine.md] says ([process_segment_refines_fsm]).
    - One connection: reassembly is sound and complete, flow control keeps
      the buffers bounded, the send loop fills the window exactly, the FIN
      follows the data, acknowledgements remove exactly what they cover,
      timers back off and give up.
    - Formats: the checksum is RFC 1071's, headers round-trip, every packet
      the stack frames is accepted by its peer, damaged packets are dropped.
    - Socket calls: they return, with the data before the end of the stream;
      options read back and take effect.
    - Programs: they run on the address they were given or exit with an error
      ([address_arguments]), the device request is in bounds and leaks
      nothing, the servers answer what they receive.
    - Behaviour the documentation does not promise, stated as theorems as
      well: an acknowledgement of unsent data, wrapped sequence numbers,
      in-order data beyond the window, a repeated FIN in CLOSE_WAIT, dead
      connections in the accept queue, sending after a close, a closed
      listener, a shared automatic binding, an ephemeral port used twice,
      messages lost to a full send buffer, a datagram whose length wraps.
    - The crate's own unit tests run on the model, for a sample of initial
      sequence numbers ([unit_tests_verdict]).

    ** What is not modelled

    The trace output ([--trace]; it only prints, and panics as any [println!]
    when standard output refuses a write); the system calls behind the TUN
    device, which are parameters; integration tests, benchmarks and container
    files.

    ** Plan

    Next: [connect] and [accept] of two stacks over their
    event loops; the two-host theorems from the handshake to the close, with
    retransmission of SYN and FIN. *)

From stdpp Require Export base list gmap sets strings numbers.
From Stdlib Require Export ZArith Lia.
Global Open Scope Z_scope.

(** ** Machine integers

    Every Rust integer is a [Z]; the width is kept by the operations that
    can leave it ([wrapping_add], [as u16], ...) and by the range
    predicates below. *)

Abbreviation u8 := Z (only parsing).
Abbreviation u16 := Z (only parsing).
Abbreviation u32 := Z (only parsing).
Abbreviation u64 := Z (only parsing).
Abbreviation usize := Z (only parsing).
Abbreviation Instant := Z (only parsing).
Abbreviation Duration := Z (only parsing).
Abbreviation bytes := (list Z).

(** [uN n z]: the value fits an unsigned [n]-bit integer. *)
Definition uN (n z : Z) : Prop := 0 ≤ z < 2 ^ n.

Abbreviation is_u8 := (uN 8).
Abbreviation is_u16 := (uN 16).
Abbreviation is_u32 := (uN 32).

Global Instance uN_dec n z : Decision (uN n z).
Proof. unfold uN. apply _. Defined.

(** [x as uN]: truncation of a wider unsigned value. *)
Definition as_u8 (z : Z) : u8 := z mod 2 ^ 8.
Definition as_u16 (z : Z) : u16 := z mod 2 ^ 16.
Definition as_u32 (z : Z) : u32 := z mod 2 ^ 32.

(** [u32::wrapping_add], [u32::wrapping_sub], [u16::wrapping_add]. *)
Definition wadd32 (a b : u32) : u32 := (a + b) mod 2 ^ 32.
Definition wsub32 (a b : u32) : u32 := (a - b) mod 2 ^ 32.
Definition wadd16 (a b : u16) : u16 := (a + b) mod 2 ^ 16.

(** [Vec::len], as an integer. *)
Definition len {A} (l : list A) : usize := Z.of_nat (length l).

(** The byte strings the program handles. *)
Definition bytes_ok (l : bytes) : Prop := Forall is_u8 l.

Global Instance bytes_ok_dec l : Decision (bytes_ok l).
Proof. unfold bytes_ok. apply _. Defined.

(** [flags & mask != 0]. *)
Definition has_flag (flags mask : u8) : bool := negb (Z.land flags mask =? 0).

(** *** Big-endian conversions ([to_be_bytes], [from_be_bytes]) *)

Definition u16_to_be_bytes (v : u16) : bytes := [v / 256 mod 256; v mod 256].

Definition u16_from_be_bytes (a b : u8) : u16 := a * 256 + b.

Definition u32_to_be_bytes (v : u32) : bytes :=
  [v / 2 ^ 24 mod 256; v / 2 ^ 16 mod 256; v / 2 ^ 8 mod 256; v mod 256].

Definition u32_from_be_bytes (a b c d : u8) : u32 :=
  a * 2 ^ 24 + b * 2 ^ 16 + c * 2 ^ 8 + d.

(** *** Slices

    [bytes.[i]] is an index read; the source's reads are dominated by a
    length check.  The two writes panic out of range ([None]): [set_byte]
    is [buf[i] = v] and [copy_slice] is
    [buf[a..b].copy_from_slice(src)]. *)

Declare Scope minitcp_scope.
Delimit Scope minitcp_scope with minitcp.
Global Open Scope minitcp_scope.

Notation "l .[ i ]" := (nth i%nat l 0%Z)
  (at level 1, format "l .[ i ]") : minitcp_scope.

Definition vec_zero (n : nat) : bytes := replicate n 0.

Definition set_byte (i : nat) (v : u8) (buf : bytes) : option bytes :=
  if decide (i < length buf)%nat then Some (<[i := v]> buf) else None.

Definition copy_slice (a b : nat) (src buf : bytes) : option bytes :=
  if decide (a ≤ b ∧ b ≤ length buf ∧ length src = b - a)%nat
  then Some (take a buf ++ src ++ drop b buf) else None.

(** [&buf[a..b]] of a slice with [b] in range. *)
Definition slice (a b : nat) (buf : bytes) : bytes := take (b - a) (drop a buf).

(** [f(&mut buf[a..b])]: the callee works on the sub-slice in place. *)
Definition on_subslice (a b : nat) (f : bytes → option bytes) (buf : bytes) : option bytes :=
  if decide (a ≤ b ∧ b ≤ length buf)%nat
  then sub ← f (slice a b buf); Some (take a buf ++ sub ++ drop b buf) else None.

(** ** The world outside the program

    What the code reaches through the operating system and the [rand]
    crate: the readings of [Instant::now()] (nanoseconds), the draws of
    [rand::random()], the packets [poll]/[read] deliver on the TUN
    descriptor, and the buffers handed to [write] on it.  The order in which
    a [HashMap] is traversed is unspecified, so it comes from outside too:
    [w_picks] says which of the remaining entries is visited next.  The four
    input streams are arbitrary functions: nothing is assumed about them. *)

Record World := mkWorld {
  w_clock : nat → Instant;
  w_reads : nat;
  w_rng : nat → u32;
  w_draws : nat;
  w_inbox : nat → option bytes;
  w_polls : nat;
  w_picks : nat → nat;
  w_picked : nat;
  w_sent : list bytes;
}.

(** Computations with access to the world that may panic ([None]).  A
    panic is an out-of-range slice operation or an arithmetic overflow
    (the checks of the debug profile). *)
Definition M (A : Type) : Type := World → option (A * World).

Global Instance M_ret : MRet M := λ A a w, Some (a, w).

Global Instance M_bind : MBind M := λ A B f m w,
  match m w with
  | Some (a, w') => f a w'
  | None => None
  end.

Definition lift {A} (o : option A) : M A := λ w,
  match o with Some a => Some (a, w) | None => None end.

(** [Instant::now()]. *)
Definition instant_now : M Instant := λ w,
  Some (w.(w_clock) w.(w_reads),
        mkWorld w.(w_clock) (S w.(w_reads)) w.(w_rng) w.(w_draws)
                w.(w_inbox) w.(w_polls) w.(w_picks) w.(w_picked) w.(w_sent)).

(** [rand::random::<u32>()]. *)
Definition rand_u32 : M u32 := λ w,
  Some (as_u32 (w.(w_rng) w.(w_draws)),
        mkWorld w.(w_clock) w.(w_reads) w.(w_rng) (S w.(w_draws))
                w.(w_inbox) w.(w_polls) w.(w_picks) w.(w_picked) w.(w_sent)).

(** An order to visit the entries [l] in: the next pick, modulo how many
    are left, is visited first.  Every permutation of [l] is the result of
    some picks, and every result is a permutation. *)
Fixpoint pick_order {A} (picks : nat → nat) (n : nat) (fuel : nat) (l : list A) : list A :=
  match fuel, l with
  | O, _ | _, [] => l
  | S fuel', _ =>
      let i := (picks n mod length l)%nat in
      match l !! i with
      | Some x => x :: pick_order picks (S n) fuel' (delete i l)
      | None => l
      end
  end.

Definition visit_order {A} (l : list A) : M (list A) := λ w,
  Some (pick_order w.(w_picks) w.(w_picked) (length l) l,
        mkWorld w.(w_clock) w.(w_reads) w.(w_rng) w.(w_draws) w.(w_inbox) w.(w_polls)
                w.(w_picks) (length l + w.(w_picked))%nat w.(w_sent)).

(** The world after one more buffer was handed to [write(2)]. *)
Definition emit (p : bytes) (w : World) : World :=
  mkWorld w.(w_clock) w.(w_reads) w.(w_rng) w.(w_draws)
          w.(w_inbox) w.(w_polls) w.(w_picks) w.(w_picked) (w.(w_sent) ++ [p]).

(** The next clock reading, and the world after it was taken. *)
Definition clock_now (w : World) : Instant := w.(w_clock) w.(w_reads).

Definition clock_next (w : World) : World :=
  mkWorld w.(w_clock) (S w.(w_reads)) w.(w_rng) w.(w_draws)
          w.(w_inbox) w.(w_polls) w.(w_picks) w.(w_picked) w.(w_sent).

(** What every operation does to the world: the input streams are fixed,
    more of them may have been consumed, more packets may have been sent. *)
Record world_ext (w w' : World) : Prop := {
  ext_clock : w'.(w_clock) = w.(w_clock);
  ext_rng : w'.(w_rng) = w.(w_rng);
  ext_inbox : w'.(w_inbox) = w.(w_inbox);
  ext_picks : w'.(w_picks) = w.(w_picks);
  ext_reads : (w.(w_reads) ≤ w'.(w_reads))%nat;
  ext_draws : (w.(w_draws) ≤ w'.(w_draws))%nat;
  ext_polls : (w.(w_polls) ≤ w'.(w_polls))%nat;
  ext_picked : (w.(w_picked) ≤ w'.(w_picked))%nat;
  ext_sent : w.(w_sent) `prefix_of` w'.(w_sent);
}.

(** ** Automation *)

Create HintDb minitcp.

(** [lia] after division and remainder were replaced by their equations. *)
Ltac zdm := unfold uN in *; Z.div_mod_to_equations; lia.

(** Prove a decidable fact about closed data by evaluating its decision. *)
Ltac by_decide := refine (bool_decide_unpack _ _); vm_compute; exact I.

(** ** Generic lemmas *)

Lemma bind_Some {A B} (m : M A) (f : A → M B) w a w' :
  m w = Some (a, w') → (m ≫= f) w = f a w'.
Proof. intros H. unfold mbind, M_bind. by rewrite H. Qed.

Lemma bind_ret {A B} (a : A) (f : A → M B) : ((mret a : M A) ≫= f) = f a.
Proof. reflexivity. Qed.

Lemma bind_lift {A B} (o : option A) (f : A → M B) w a :
  o = Some a → (lift o ≫= f) w = f a w.
Proof. intros ->. reflexivity. Qed.

(** A bind that returns: its first part returned. *)
Lemma bind_inv {A B} (m : M A) (f : A → M B) w r :
  (m ≫= f) w = Some r → ∃ a w', m w = Some (a, w') ∧ f a w' = Some r.
Proof.
  unfold mbind, M_bind. destruct (m w) as [[a w']|]; [|discriminate].
  intros H. exists a, w'. done.
Qed.

Global Instance world_ext_preorder : PreOrder world_ext.
Proof.
  split.
  - intros w. split; auto.
  - intros w1 w2 w3 [] []. split; try (congruence || lia). by etrans.
Qed.

Lemma emit_ext p w : world_ext w (emit p w).
Proof. split; cbn; auto. by exists [p]. Qed.

Lemma clock_next_ext w : world_ext w (clock_next w).
Proof. split; cbn; auto. Qed.

Lemma clock_next_emit_ext p w : world_ext w (clock_next (emit p w)).
Proof. etrans; [apply emit_ext|apply clock_next_ext]. Qed.

#[export] Hint Resolve emit_ext clock_next_ext clock_next_emit_ext : minitcp.

Lemma pick_order_perm {A} picks n fuel (l : list A) : pick_order picks n fuel l ≡ₚ l.
Proof.
  revert n l. induction fuel as [|fuel IH]; intros n l; [by destruct l|].
  destruct l as [|x l]; [done|]. cbn [pick_order]. set (i := (_ mod _)%nat).
  destruct ((x :: l) !! i) as [y|] eqn:E; [|done]. rewrite IH. symmetry. by apply delete_Permutation.
Qed.

Lemma pick_order_ext {A} picks picks' n fuel (l : list A) :
  (∀ m, (n ≤ m)%nat → picks m = picks' m) → pick_order picks n fuel l = pick_order picks' n fuel l.
Proof.
  revert n l. induction fuel as [|fuel IH]; intros n l H; [done|].
  destruct l as [|x l]; [done|]. cbn [pick_order]. rewrite (H n) by lia.
  destruct (_ !! _); [|done]. f_equal. apply IH. intros m Hm. apply H. lia.
Qed.

(** No order is left out. *)
Lemma pick_order_all {A} n (l l' : list A) :
  l ≡ₚ l' → ∃ picks, pick_order picks n (length l) l = l'.
Proof.
  revert n l. induction l' as [|x l' IH]; intros n l Hp.
  { exists (λ _, O). by apply Permutation_nil_r in Hp as ->. }
  destruct (list_elem_of_lookup_1 l x) as [i Hi]; [rewrite Hp; by left|].
  assert (Hd : delete i l ≡ₚ l') by (apply (Permutation_cons_inv (a:=x)); by rewrite <- Hp, <- delete_Permutation).
  pose proof (lookup_lt_Some _ _ _ Hi) as Hlt.
  destruct (IH (S n) _ Hd) as [picks Hpk]. exists (λ m, if decide (m = n) then i else picks m).
  rewrite length_delete in Hpk by eauto. destruct l as [|y l]; [cbn in Hlt; lia|].
  cbn [length pick_order]. rewrite decide_True by done. rewrite Nat.mod_small by done. rewrite Hi.
  f_equal. rewrite <- Hpk. cbn [length Nat.sub]. rewrite Nat.sub_0_r. apply pick_order_ext.
  intros m Hm. rewrite decide_False by lia. done.
Qed.

Lemma visit_order_spec {A} (l : list A) w :
  ∃ l' w', visit_order l w = Some (l', w') ∧ l' ≡ₚ l ∧ w'.(w_sent) = w.(w_sent) ∧ world_ext w w'.
Proof.
  eexists _, _. split; [reflexivity|]. split; [apply pick_order_perm|].
  split; [done|]. split; cbn; auto. lia.
Qed.

(** Run a computation one bind at a time, rewriting with an equation. *)
Tactic Notation "mrun" uconstr(H) := erewrite bind_Some; [|refine H].

(** *** Integers *)

Lemma uN_mod n z : 0 ≤ n → uN n (z mod 2 ^ n).
Proof. intros. apply Z.mod_pos_bound. lia. Qed.

Lemma uN_8_mod256 z : is_u8 (z mod 256).
Proof. apply (uN_mod 8). lia. Qed.

Lemma wadd32_u32 a b : is_u32 (wadd32 a b).
Proof. apply uN_mod. lia. Qed.

Lemma wsub32_u32 a b : is_u32 (wsub32 a b).
Proof. apply uN_mod. lia. Qed.

Lemma wadd16_u16 a b : is_u16 (wadd16 a b).
Proof. apply uN_mod. lia. Qed.

Lemma as_u16_u16 a : is_u16 (as_u16 a).
Proof. apply uN_mod. lia. Qed.

Lemma as_u32_u32 a : is_u32 (as_u32 a).
Proof. apply uN_mod. lia. Qed.

#[export] Hint Resolve uN_8_mod256 wadd32_u32 wsub32_u32 wadd16_u16 as_u16_u16
  as_u32_u32 : minitcp.

Lemma wadd32_small a b : 0 ≤ a + b < 2 ^ 32 → wadd32 a b = a + b.
Proof. intros. unfold wadd32. by rewrite Z.mod_small. Qed.

Lemma wsub32_small a b : 0 ≤ a - b < 2 ^ 32 → wsub32 a b = a - b.
Proof. intros. unfold wsub32. by rewrite Z.mod_small. Qed.

Lemma as_u16_small a : is_u16 a → as_u16 a = a.
Proof. intros. unfold as_u16. by rewrite Z.mod_small. Qed.

Lemma wadd32_assoc a b c : wadd32 (wadd32 a b) c = wadd32 a (b + c).
Proof. unfold wadd32. rewrite Zplus_mod_idemp_l. f_equal. lia. Qed.

Lemma wadd32_idemp_r a b : wadd32 a (b mod 2 ^ 32) = wadd32 a b.
Proof. unfold wadd32. by rewrite Zplus_mod_idemp_r. Qed.

Lemma wadd32_r a b c : wadd32 a (wadd32 b c) = wadd32 a (b + c).
Proof. apply wadd32_idemp_r. Qed.

Lemma wadd32_0_r a : is_u32 a → wadd32 a 0 = a.
Proof. intros. unfold wadd32. rewrite Z.add_0_r. by rewrite Z.mod_small. Qed.

(** A left shift leaves room for the low bits. *)
Lemma lor_shiftl_low a b n :
  0 ≤ n → 0 ≤ b < 2 ^ n → Z.lor (Z.shiftl a n) b = a * 2 ^ n + b.
Proof.
  intros Hn Hb. rewrite <- Z.shiftl_mul_pow2 by done.
  rewrite Z.add_nocarry_lxor, Z.lxor_lor; [done| |];
    apply Z.bits_inj'; intros i Hi; rewrite Z.land_spec, Z.bits_0;
    (destruct (decide (i < n));
     [by rewrite Z.shiftl_spec_low|
      rewrite <- (Z.mod_small b (2 ^ n)) by done;
      by rewrite Z.mod_pow2_bits_high, andb_false_r by lia]).
Qed.

Lemma land_ones_small a n : 0 ≤ n → uN n a → Z.land a (Z.ones n) = a.
Proof. intros. rewrite Z.land_ones by done. by rewrite Z.mod_small. Qed.

(** *** Big-endian round trips *)

Lemma length_u16_to_be_bytes v : length (u16_to_be_bytes v) = 2%nat.
Proof. reflexivity. Qed.

Lemma length_u32_to_be_bytes v : length (u32_to_be_bytes v) = 4%nat.
Proof. reflexivity. Qed.

Lemma u16_to_be_bytes_ok v : bytes_ok (u16_to_be_bytes v).
Proof. repeat constructor; apply uN_8_mod256. Qed.

Lemma u32_to_be_bytes_ok v : bytes_ok (u32_to_be_bytes v).
Proof. repeat constructor; apply uN_8_mod256. Qed.

Lemma u16_be_roundtrip v :
  is_u16 v → u16_from_be_bytes (v / 256 mod 256) (v mod 256) = v.
Proof. unfold u16_from_be_bytes. intros. zdm. Qed.

Lemma u32_be_roundtrip v : is_u32 v →
  u32_from_be_bytes (v / 2 ^ 24 mod 256) (v / 2 ^ 16 mod 256)
                    (v / 2 ^ 8 mod 256) (v mod 256) = v.
Proof. unfold u32_from_be_bytes. intros. zdm. Qed.

Lemma u16_from_be_bytes_u16 a b :
  is_u8 a → is_u8 b → is_u16 (u16_from_be_bytes a b).
Proof. unfold u16_from_be_bytes, uN. lia. Qed.

Lemma u32_from_be_bytes_u32 a b c d :
  is_u8 a → is_u8 b → is_u8 c → is_u8 d → is_u32 (u32_from_be_bytes a b c d).
Proof. unfold u32_from_be_bytes, uN. lia. Qed.

#[export] Hint Resolve u16_from_be_bytes_u16 u32_from_be_bytes_u32
  u16_to_be_bytes_ok u32_to_be_bytes_ok : minitcp.

(** *** Slices and byte strings *)

Lemma set_byte_ok i v buf :
  (i < length buf)%nat → set_byte i v buf = Some (<[i := v]> buf).
Proof. intros. unfold set_byte. by rewrite decide_True. Qed.

Lemma copy_slice_ok a b src buf :
  (a ≤ b ∧ b ≤ length buf ∧ length src = b - a)%nat →
  copy_slice a b src buf = Some (take a buf ++ src ++ drop b buf).
Proof. intros. unfold copy_slice. by rewrite decide_True. Qed.

(** The ways a buffer write panics. *)
Lemma copy_slice_panics a b src buf :
  (length src ≠ b - a ∨ length buf < b)%nat → copy_slice a b src buf = None.
Proof. intros. unfold copy_slice. rewrite decide_False; [done|lia]. Qed.

Lemma copy_slice_app a src mid rest i j :
  i = length a → j = (length a + length mid)%nat → length src = length mid →
  copy_slice i j src (a ++ mid ++ rest) = Some (a ++ src ++ rest).
Proof.
  intros -> -> Hl. rewrite copy_slice_ok by (rewrite !length_app; lia).
  rewrite take_app_length. do 3 f_equal.
  rewrite app_assoc, drop_app_length'; [done|]. by rewrite length_app.
Qed.

Lemma vec_zero_app n m : vec_zero (n + m) = vec_zero n ++ vec_zero m.
Proof. apply replicate_add. Qed.

Lemma length_vec_zero n : length (vec_zero n) = n.
Proof. apply length_replicate. Qed.

Lemma on_subslice_app f a mid rest r i j :
  f mid = Some r → i = length a → j = (length a + length mid)%nat →
  on_subslice i j f (a ++ mid ++ rest) = Some (a ++ r ++ rest).
Proof.
  intros Hf -> ->. unfold on_subslice, slice. rewrite decide_True by (rewrite !length_app; lia).
  rewrite drop_app_length, (take_app_length' mid) by lia. rewrite Hf. cbn [mbind option_bind].
  rewrite take_app_length. do 3 f_equal.
  rewrite app_assoc, drop_app_length'; [done|]. by rewrite length_app.
Qed.

Lemma set_byte_app a x v rest :
  set_byte (length a) v (a ++ x :: rest) = Some (a ++ v :: rest).
Proof.
  unfold set_byte. rewrite decide_True by (rewrite length_app; simpl; lia).
  rewrite insert_app_r_alt, Nat.sub_diag by lia. reflexivity.
Qed.

Lemma filter_all {A} (P : A → Prop) `{!∀ x, Decision (P x)} (l : list A) :
  Forall P l → filter P l = l.
Proof.
  induction l as [|x l IH]; [done|]. intros [Hx Hl]%Forall_cons_iff.
  rewrite filter_cons_True by done. by rewrite IH.
Qed.

Lemma len_app {A} (l k : list A) : len (l ++ k) = len l + len k.
Proof. unfold len. rewrite length_app. lia. Qed.

Lemma len_nonneg {A} (l : list A) : 0 ≤ len l.
Proof. unfold len. lia. Qed.

Lemma len_nil_inv {A} (l : list A) : len l = 0 → l = [].
Proof. unfold len. destruct l; simpl; [done|lia]. Qed.

Lemma nth_bytes_ok l i : bytes_ok l → is_u8 l.[i].
Proof.
  intros H. rewrite nth_lookup. destruct (l !! i) as [x|] eqn:E; simpl.
  - by eapply Forall_lookup_1.
  - unfold uN. lia.
Qed.

Lemma bytes_ok_cons x l : bytes_ok (x :: l) ↔ is_u8 x ∧ bytes_ok l.
Proof. apply Forall_cons_iff. Qed.

Lemma bytes_ok_app l k : bytes_ok (l ++ k) ↔ bytes_ok l ∧ bytes_ok k.
Proof. apply Forall_app. Qed.

Lemma bytes_ok_take n l : bytes_ok l → bytes_ok (take n l).
Proof. apply Forall_take. Qed.

Lemma bytes_ok_drop n l : bytes_ok l → bytes_ok (drop n l).
Proof. apply Forall_drop. Qed.

Lemma bytes_ok_zero n : bytes_ok (vec_zero n).
Proof. apply Forall_replicate. unfold uN. lia. Qed.

#[export] Hint Resolve nth_bytes_ok bytes_ok_take bytes_ok_drop bytes_ok_zero : minitcp.
