(* ===== verification/Effects.v ===== *)
(** * What a computation sends

    A small program logic for the monad of [Prelude]: [wp m Φ] says that [m]
    returns in every world, uses the world as operations may, and that its
    result and the packets it writes satisfy [Φ]. *)

From S2P Require Import Prelude.

Definition wp {A} (m : M A) (Φ : A → list bytes → Prop) : Prop :=
  ∀ w, ∃ a w' ps, m w = Some (a, w') ∧ w'.(w_sent) = w.(w_sent) ++ ps ∧ world_ext w w' ∧ Φ a ps.

Lemma wp_mono {A} (m : M A) (Φ Ψ : A → list bytes → Prop) :
  wp m Φ → (∀ a ps, Φ a ps → Ψ a ps) → wp m Ψ.
Proof. intros H Hi w. destruct (H w) as (a & w' & ps & ? & ? & ? & ?). exists a, w', ps. auto. Qed.

Lemma wp_ret {A} (a : A) (Φ : A → list bytes → Prop) : Φ a [] → wp (mret a) Φ.
Proof. intros H w. exists a, w, []. by rewrite app_nil_r. Qed.

Lemma wp_bind {A B} (m : M A) (f : A → M B) (Φ : A → list bytes → Prop) (Ψ : B → list bytes → Prop) :
  wp m Φ → (∀ a ps, Φ a ps → wp (f a) (λ b qs, Ψ b (ps ++ qs))) → wp (m ≫= f) Ψ.
Proof.
  intros Hm Hf w. destruct (Hm w) as (a & w1 & ps & E & Hs & Hw & Ha).
  destruct (Hf a ps Ha w1) as (b & w2 & qs & E2 & Hs2 & Hw2 & Hb).
  exists b, w2, (ps ++ qs). split; [by erewrite bind_Some|].
  split; [by rewrite Hs2, Hs, app_assoc|]. split; [by etrans|done].
Qed.

Lemma wp_lift {A} (o : option A) a (Φ : A → list bytes → Prop) : o = Some a → Φ a [] → wp (lift o) Φ.
Proof. intros -> H. by apply wp_ret. Qed.

Lemma wp_now (Φ : Instant → list bytes → Prop) : (∀ now, Φ now []) → wp instant_now Φ.
Proof.
  intros H w. exists (clock_now w), (clock_next w), []. rewrite app_nil_r. auto with minitcp.
Qed.

Lemma wp_rand (Φ : u32 → list bytes → Prop) : (∀ v, is_u32 v → Φ v []) → wp rand_u32 Φ.
Proof.
  intros H w. eexists _, _, []. rewrite app_nil_r. split; [reflexivity|]. split; [done|].
  split; [split; cbn; auto|]. apply H. auto with minitcp.
Qed.

Lemma wp_visit_order {A} (l : list A) (Φ : list A → list bytes → Prop) :
  (∀ l', l' ≡ₚ l → Φ l' []) → wp (visit_order l) Φ.
Proof.
  intros H w. destruct (visit_order_spec l w) as (l' & w' & E & Hp & Hs & Hw).
  exists l', w', []. rewrite app_nil_r. auto.
Qed.

(** From a closed form of the run. *)
Lemma wp_emit {A} (m : M A) a p (Φ : A → list bytes → Prop) :
  (∀ w, m w = Some (a, emit p w)) → Φ a [p] → wp m Φ.
Proof. intros H Ha w. exists a, (emit p w), [p]. rewrite H. auto with minitcp. Qed.

(** The run of a computation that is known to return. *)
Lemma wp_run {A} (m : M A) (Φ : A → list bytes → Prop) w a w' :
  wp m Φ → m w = Some (a, w') → ∃ ps, w'.(w_sent) = w.(w_sent) ++ ps ∧ world_ext w w' ∧ Φ a ps.
Proof.
  intros H E. destruct (H w) as (a' & w1 & ps & E' & ? & ? & ?). rewrite E in E'. injection E' as <- <-.
  by exists ps.
Qed.

(** Whatever is sent satisfies [Q]. *)
Definition sends {A} (Q : bytes → Prop) (m : M A) (Φ : A → Prop) : Prop :=
  wp m (λ a ps, Φ a ∧ Forall Q ps).

Lemma sends_ret {A} Q (a : A) (Φ : A → Prop) : Φ a → sends Q (mret a) Φ.
Proof. intros H. apply wp_ret. auto. Qed.

Lemma sends_bind {A B} Q (m : M A) (f : A → M B) (Φ : A → Prop) (Ψ : B → Prop) :
  sends Q m Φ → (∀ a, Φ a → sends Q (f a) Ψ) → sends Q (m ≫= f) Ψ.
Proof.
  intros Hm Hf. eapply wp_bind; [exact Hm|]. intros a ps [Ha Hps].
  eapply wp_mono; [exact (Hf a Ha)|]. intros b qs [Hb Hqs]. split; [done|]. by apply Forall_app.
Qed.

Lemma sends_mono {A} (Q Q' : bytes → Prop) (m : M A) (Φ Ψ : A → Prop) :
  sends Q m Φ → (∀ p, Q p → Q' p) → (∀ a, Φ a → Ψ a) → sends Q' m Ψ.
Proof.
  intros H HQ Hi. eapply wp_mono; [exact H|]. intros a ps [Ha Hps]. split; [auto|].
  eapply Forall_impl; [exact HQ|exact Hps].
Qed.

Lemma sends_lift {A} Q (o : option A) a (Φ : A → Prop) : o = Some a → Φ a → sends Q (lift o) Φ.
Proof. intros. eapply wp_lift; eauto. Qed.

Lemma sends_now Q (Φ : Instant → Prop) : (∀ now, Φ now) → sends Q instant_now Φ.
Proof. intros H. apply wp_now. auto. Qed.

(** What it sends and what it returns, shown apart. *)
Lemma sends_result {A} Q (m : M A) (Φ : A → Prop) :
  sends Q m (λ _, True) → (∀ w, ∃ a w', m w = Some (a, w') ∧ Φ a) → sends Q m Φ.
Proof.
  intros H Hr w. destruct (H w) as (a & w' & ps & E & Hs & Hw & _ & Hps).
  destruct (Hr w) as (a' & w2 & E' & Ha). rewrite E in E'. injection E' as <- <-. by exists a, w', ps.
Qed.

#[export] Hint Resolve sends_ret : minitcp.
