(* ===== verification/Std.v ===== *)
(** * Strings and numbers of Rust's standard library

    What the programs use of it: [str] as its UTF-8 bytes, the decimal
    [Display] and [FromStr] of unsigned integers and of [Ipv4Addr], and the
    UTF-8 checks behind [String::from_utf8_lossy] and [std::env::args]. *)

From S2P Require Import Prelude.
From Stdlib Require Import Ascii.

(** A string literal. *)
Fixpoint str (s : string) : bytes :=
  match s with
  | EmptyString => []
  | String a s => Z.of_N (N_of_ascii a) :: str s
  end.

(** ** Decimal digits *)

(** [char::to_digit(10)]. *)
Definition to_digit (b : u8) : option Z :=
  if (48 <=? b) && (b <=? 57) then Some (b - 48) else None.

(** [Display] of an unsigned integer; a [u64] has at most 20 digits. *)
Fixpoint digits (fuel : nat) (n : Z) (acc : bytes) : bytes :=
  match fuel with
  | O => acc
  | S fuel' => let acc := (48 + n mod 10) :: acc in if n <? 10 then acc else digits fuel' (n / 10) acc
  end.

Definition display (n : Z) : bytes := digits 20 n [].
Arguments display : simpl never.

(** [FromStr] of a [w]-bit unsigned integer: a plus sign, then digits, at
    least one; a value that does not fit is an error. *)
Fixpoint parse_digits (w : Z) (acc : Z) (l : bytes) : option Z :=
  match l with
  | [] => Some acc
  | b :: l =>
      d ← to_digit b;
      let acc := acc * 10 + d in
      if acc <? 2 ^ w then parse_digits w acc l else None
  end.

Definition parse_uint (w : Z) (s : bytes) : option Z :=
  match s with
  | [] => None
  | b :: rest =>
      if bool_decide (rest = []) && ((b =? 43) || (b =? 45)) then None
      else parse_digits w 0 (if b =? 43 then rest else s)
  end.

(** ** [Ipv4Addr] *)

(** The digits of an octet: at most three. *)
Fixpoint read_digits (l : bytes) (result : Z) (count : nat) : option (Z * nat * bytes) :=
  match l with
  | [] => Some (result, count, [])
  | b :: l' =>
      match to_digit b with
      | None => Some (result, count, l)
      | Some d => if (3 <? S count)%nat then None else read_digits l' (result * 10 + d) (S count)
      end
  end.

(** An octet: no superfluous leading zero. *)
Definition read_octet (l : bytes) : option (u8 * bytes) :=
  '(r, count, rest) ← read_digits l 0 0;
  if (count =? 0)%nat then None
  else if bool_decide (head l = Some 48) && (1 <? count)%nat then None
  else if r <? 256 then Some (r, rest) else None.

Definition read_dot (l : bytes) : option bytes :=
  match l with b :: l => if b =? 46 then Some l else None | [] => None end.

(** [str::parse::<Ipv4Addr>()], and [u32::from] of the result. *)
Definition parse_ipv4 (s : bytes) : option u32 :=
  if (15 <? length s)%nat then None
  else
    '(a, s) ← read_octet s; s ← read_dot s;
    '(b, s) ← read_octet s; s ← read_dot s;
    '(c, s) ← read_octet s; s ← read_dot s;
    '(d, s) ← read_octet s;
    if bool_decide (s = []) then Some (u32_from_be_bytes a b c d) else None.

Definition display_octets (a b c d : u8) : bytes :=
  display a ++ 46 :: display b ++ 46 :: display c ++ 46 :: display d.

(** [Display] of an [Ipv4Addr]. *)
Definition display_ipv4 (addr : u32) : bytes :=
  display_octets (addr / 2 ^ 24 mod 256) (addr / 2 ^ 16 mod 256) (addr / 2 ^ 8 mod 256) (addr mod 256).

(** ** [String::from_utf8_lossy] *)

Definition within (lo hi b : Z) : bool := (lo <=? b) && (b <=? hi).

(** A byte past the end reads as zero. *)
Definition cont (b : u8) : bool := within 0x80 0xBF b.

(** The second byte that may follow a leading byte of three or four. *)
Definition second_ok (b c : u8) : bool :=
  if b =? 0xE0 then within 0xA0 0xBF c
  else if b =? 0xED then within 0x80 0x9F c
  else if b =? 0xF0 then within 0x90 0xBF c
  else if b =? 0xF4 then within 0x80 0x8F c
  else cont c.

(** The next sequence of a non-empty string: whether it is a character, and
    how many bytes it has. *)
Definition utf8_step (l : bytes) : bool * nat :=
  let b := l.[0] in
  if b <? 128 then (true, 1%nat)
  else if within 0xC2 0xDF b then (if cont l.[1] then (true, 2%nat) else (false, 1%nat))
  else if within 0xE0 0xEF b then
    if negb (second_ok b l.[1]) then (false, 1%nat)
    else if cont l.[2] then (true, 3%nat) else (false, 2%nat)
  else if within 0xF0 0xF4 b then
    if negb (second_ok b l.[1]) then (false, 1%nat)
    else if negb (cont l.[2]) then (false, 2%nat)
    else if cont l.[3] then (true, 4%nat) else (false, 3%nat)
  else (false, 1%nat).

(** U+FFFD in UTF-8. *)
Definition replacement : bytes := [0xEF; 0xBF; 0xBD].

Fixpoint lossy (fuel : nat) (l : bytes) : bytes :=
  match fuel, l with
  | O, _ | _, [] => []
  | S fuel', _ =>
      let '(ok, n) := utf8_step l in
      (if ok : bool then take n l else replacement) ++ lossy fuel' (drop n l)
  end.

Definition from_utf8_lossy (l : bytes) : bytes := lossy (length l) l.

(** [OsString::into_string] succeeds: every sequence is a character. *)
Fixpoint valid_utf8_from (fuel : nat) (l : bytes) : bool :=
  match fuel, l with
  | _, [] => true
  | O, _ => false
  | S fuel', _ => let '(ok, n) := utf8_step l in ok && valid_utf8_from fuel' (drop n l)
  end.

Definition valid_utf8 (l : bytes) : bool := valid_utf8_from (length l) l.

(** ** Lemmas *)

Lemma to_digit_ok d : 0 ≤ d < 10 → to_digit (48 + d) = Some d.
Proof.
  intros. unfold to_digit. destruct (Z.leb_spec 48 (48 + d)); [|lia]. destruct (Z.leb_spec (48 + d) 57); [|lia].
  cbn. f_equal. lia.
Qed.

Lemma to_digit_Some b d : to_digit b = Some d → b = 48 + d ∧ 0 ≤ d < 10.
Proof.
  unfold to_digit. destruct (Z.leb_spec 48 b), (Z.leb_spec b 57); cbn; intros [= <-]. lia.
Qed.

Lemma digits_parse w fuel n acc :
  0 ≤ n → n < 10 ^ Z.of_nat fuel → (0 < fuel)%nat → n < 2 ^ w →
  parse_digits w 0 (digits fuel n acc) = parse_digits w n acc.
Proof.
  revert n acc. induction fuel as [|fuel IH]; intros n acc H0 Hf Hp Hw; [lia|]. cbn [digits].
  pose proof (Z.mod_pos_bound n 10 ltac:(lia)) as Hd. destruct (Z.ltb_spec n 10).
  - rewrite Z.mod_small by lia. cbn [parse_digits]. rewrite to_digit_ok by lia. cbn [mbind option_bind].
    by rewrite (proj2 (Z.ltb_lt _ _)) by lia.
  - rewrite Nat2Z.inj_succ, Z.pow_succ_r in Hf by lia.
    pose proof (Z.div_mod n 10 ltac:(lia)) as Hdm.
    assert (Hq : n / 10 < 10 ^ Z.of_nat fuel) by (apply Z.div_lt_upper_bound; lia).
    rewrite IH; [|apply Z.div_pos; lia|exact Hq| |lia].
    + cbn [parse_digits]. rewrite to_digit_ok by lia. cbn [mbind option_bind].
      replace (n / 10 * 10 + n mod 10) with n by lia. by rewrite (proj2 (Z.ltb_lt _ _)) by lia.
    + destruct fuel; [|lia]. cbn in Hf. lia.
Qed.

(** Every byte written is a digit. *)
Lemma digits_head fuel n acc :
  (0 < fuel)%nat → 0 ≤ n → ∃ b l, digits fuel n acc = b :: l ∧ 48 ≤ b ≤ 57.
Proof.
  revert n acc. induction fuel as [|fuel IH]; intros n acc Hf Hn; [lia|]. cbn [digits].
  pose proof (Z.mod_pos_bound n 10 ltac:(lia)) as Hd.
  destruct (Z.ltb_spec n 10); [eexists _, acc; split; [done|lia]|].
  destruct fuel as [|fuel]; [cbn; eexists _, acc; split; [done|lia]|]. apply IH; [lia|apply Z.div_pos; lia].
Qed.

Lemma parse_display w n : 0 ≤ n < 2 ^ w → n < 2 ^ 64 → parse_uint w (display n) = Some n.
Proof.
  intros Hn H64. unfold display. destruct (digits_head 20 n [] ltac:(lia) ltac:(lia)) as (b & l & E & Hb).
  pose proof (digits_parse w 20 n [] (proj1 Hn) ltac:(change (10 ^ Z.of_nat 20) with 100000000000000000000; lia)
    ltac:(lia) (proj2 Hn)) as Hp.
  rewrite E in Hp |- *. cbn [parse_uint]. destruct (Z.eqb_spec b 43); [lia|]. destruct (Z.eqb_spec b 45); [lia|].
  cbn [orb]. by rewrite andb_false_r.
Qed.

(** What parses is in range. *)
Lemma parse_digits_range w acc l n : 0 ≤ acc < 2 ^ w → parse_digits w acc l = Some n → 0 ≤ n < 2 ^ w.
Proof.
  revert acc. induction l as [|b l IH]; intros acc Ha; cbn [parse_digits]; [by intros [= <-]|].
  destruct (to_digit b) as [d|] eqn:Ed; [|done]. apply to_digit_Some in Ed as [_ Hd]. cbn [mbind option_bind].
  destruct (Z.ltb_spec (acc * 10 + d) (2 ^ w)); [|done]. apply IH. lia.
Qed.

Lemma parse_uint_range w s n : 0 ≤ w → parse_uint w s = Some n → uN w n.
Proof.
  intros Hw. destruct s as [|b rest]; [done|]. cbn [parse_uint]. destruct (_ && _); [done|].
  apply parse_digits_range. pose proof (Z.pow_pos_nonneg 2 w). lia.
Qed.

(** *** Octets *)

(** Up to three digits, without leading zeros. *)
Definition octet_digits (d1 d2 d3 : Z) : bytes :=
  if d1 =? 0 then if d2 =? 0 then [48 + d3] else [48 + d2; 48 + d3] else [48 + d1; 48 + d2; 48 + d3].

Lemma display_octet n : is_u8 n → display n = octet_digits (n / 100) (n / 10 mod 10) (n mod 10).
Proof.
  assert (H : forallb (λ n, bool_decide (display n = octet_digits (n / 100) (n / 10 mod 10) (n mod 10)))
    (seqZ 0 256) = true) by (vm_compute; reflexivity).
  intros Hn. rewrite forallb_forall in H. specialize (H n). rewrite bool_decide_eq_true in H. apply H.
  apply list_elem_of_In, elem_of_seqZ. unfold uN in Hn. lia.
Qed.

(** Three digits give back their number. *)
Lemma display_digits d1 d2 d3 :
  0 ≤ d1 < 10 → 0 ≤ d2 < 10 → 0 ≤ d3 < 10 → 100 * d1 + 10 * d2 + d3 < 256 →
  display (100 * d1 + 10 * d2 + d3) = octet_digits d1 d2 d3.
Proof. intros. rewrite display_octet by (unfold uN; lia). f_equal; zdm. Qed.

(** The next byte is not a digit. *)
Definition no_digit (l : bytes) : Prop := match l with b :: _ => to_digit b = None | [] => True end.

Lemma read_digits_stop l r n : no_digit l → read_digits l r n = Some (r, n, l).
Proof. destruct l as [|b l]; [done|]. cbn. by intros ->. Qed.

Lemma read_octet_display n rest : is_u8 n → no_digit rest → read_octet (display n ++ rest) = Some (n, rest).
Proof.
  intros Hn Hr. rewrite display_octet by done. unfold octet_digits, read_octet.
  assert (D1 : 0 ≤ n / 100 < 10) by zdm. assert (D2 : 0 ≤ n / 10 mod 10 < 10) by zdm.
  assert (D3 : 0 ≤ n mod 10 < 10) by zdm.
  assert (E : n = 100 * (n / 100) + 10 * (n / 10 mod 10) + n mod 10) by zdm.
  set (d1 := n / 100) in *. set (d2 := n / 10 mod 10) in *. set (d3 := n mod 10) in *. clearbody d1 d2 d3.
  assert (Hlt : (n <? 256) = true) by (apply Z.ltb_lt; unfold uN in Hn; lia).
  destruct (Z.eqb_spec d1 0) as [->|H1]; [destruct (Z.eqb_spec d2 0) as [->|H2]|]; cbn [app read_digits];
    rewrite !to_digit_ok by done; cbn; rewrite read_digits_stop by done; cbn [mbind option_bind Nat.eqb Nat.ltb Nat.leb].
  - replace (0 * 10 + d3) with n by lia. by rewrite andb_false_r, Hlt.
  - replace ((0 * 10 + d2) * 10 + d3) with n by lia.
    rewrite bool_decide_eq_false_2 by (cbn; intros [= ?]; lia). by rewrite Hlt.
  - replace (((0 * 10 + d1) * 10 + d2) * 10 + d3) with n by lia.
    rewrite bool_decide_eq_false_2 by (cbn; intros [= ?]; lia). by rewrite Hlt.
Qed.

Lemma read_digits_inv l r0 c0 r c rest :
  (c0 ≤ 3)%nat → read_digits l r0 c0 = Some (r, c, rest) →
  ∃ ds, l = (Z.add 48 <$> ds) ++ rest ∧ Forall (λ d, 0 ≤ d < 10) ds ∧ c = (c0 + length ds)%nat ∧ (c ≤ 3)%nat ∧
    r = fold_left (λ a d, a * 10 + d) ds r0.
Proof.
  revert r0 c0. induction l as [|b l IH]; intros r0 c0 Hc; cbn [read_digits].
  { intros [= <- <- <-]. exists []. split_and!; cbn; auto. }
  destruct (to_digit b) as [d|] eqn:Ed.
  2:{ intros [= <- <- <-]. exists []. split_and!; cbn; auto. }
  apply to_digit_Some in Ed as [-> Hd]. destruct (Nat.ltb_spec 3 (S c0)); [done|].
  intros (ds & -> & Hds & -> & Hle & ->)%IH; [|lia]. exists (d :: ds).
  split_and!; cbn; [done|by constructor|lia|lia|done].
Qed.

Lemma read_octet_inv l n rest : read_octet l = Some (n, rest) → is_u8 n ∧ l = display n ++ rest.
Proof.
  unfold read_octet. destruct (read_digits l 0 0) as [[[r c] rest']|] eqn:E; [|done]. cbn [mbind option_bind].
  apply read_digits_inv in E as (ds & -> & Hds & -> & Hle & ->); [|lia].
  destruct (Nat.eqb_spec (0 + length ds) 0); [done|]. destruct (_ && _) eqn:Hz; [done|].
  destruct (Z.ltb_spec (fold_left (λ a d, a * 10 + d) ds 0) 256) as [Hlt|]; [|done]. intros [= <- <-].
  assert (Hzero : ∀ d d' t, ds = d :: d' :: t → d ≠ 0).
  { intros d d' t -> ->. by rewrite bool_decide_eq_true_2 in Hz. }
  destruct ds as [|d1 [|d2 [|d3 [|d4 ds]]]]; cbn in *; try lia; decompose_Forall_hyps.
  - split; [unfold uN; lia|]. replace (0 * 10 + d1) with (100 * 0 + 10 * 0 + d1) by lia.
    by rewrite display_digits by lia.
  - specialize (Hzero d1 d2 [] eq_refl). split; [unfold uN; lia|].
    replace ((0 * 10 + d1) * 10 + d2) with (100 * 0 + 10 * d1 + d2) by lia. rewrite display_digits by lia.
    unfold octet_digits. by destruct (Z.eqb_spec d1 0).
  - specialize (Hzero d1 d2 [d3] eq_refl). split; [unfold uN; lia|].
    replace (((0 * 10 + d1) * 10 + d2) * 10 + d3) with (100 * d1 + 10 * d2 + d3) by lia. rewrite display_digits by lia.
    unfold octet_digits. by destruct (Z.eqb_spec d1 0).
Qed.

(** *** Addresses *)

Lemma length_display_octet n : is_u8 n → (length (display n) ≤ 3)%nat.
Proof. intros. rewrite display_octet by done. unfold octet_digits. repeat case_match; cbn; lia. Qed.

Lemma read_dot_inv l rest : read_dot l = Some rest → l = 46 :: rest.
Proof. destruct l as [|b l]; [done|]. cbn. destruct (Z.eqb_spec b 46) as [->|]; [by intros [= ->]|done]. Qed.

Lemma parse_octets a b c d : is_u8 a → is_u8 b → is_u8 c → is_u8 d →
  parse_ipv4 (display_octets a b c d) = Some (u32_from_be_bytes a b c d).
Proof.
  intros Ha Hb Hc Hd. unfold parse_ipv4, display_octets.
  destruct (Nat.ltb_spec 15 (length (display a ++ 46 :: display b ++ 46 :: display c ++ 46 :: display d))) as [Hl|].
  { repeat (rewrite length_app in Hl || cbn [length] in Hl).
    pose proof (length_display_octet a Ha). pose proof (length_display_octet b Hb).
    pose proof (length_display_octet c Hc). pose proof (length_display_octet d Hd). lia. }
  rewrite read_octet_display by done. cbn. rewrite read_octet_display by done. cbn.
  rewrite read_octet_display by done. cbn. rewrite <- (app_nil_r (display d)), read_octet_display by done. done.
Qed.

Lemma parse_ipv4_inv s addr : parse_ipv4 s = Some addr →
  ∃ a b c d, is_u8 a ∧ is_u8 b ∧ is_u8 c ∧ is_u8 d ∧ s = display_octets a b c d ∧ addr = u32_from_be_bytes a b c d.
Proof.
  unfold parse_ipv4. destruct (_ <? _)%nat; [done|].
  destruct (read_octet s) as [[a s1]|] eqn:E1; [|done]. cbn [mbind option_bind].
  destruct (read_dot s1) as [s2|] eqn:E2; [|done]. cbn [mbind option_bind].
  destruct (read_octet s2) as [[b s3]|] eqn:E3; [|done]. cbn [mbind option_bind].
  destruct (read_dot s3) as [s4|] eqn:E4; [|done]. cbn [mbind option_bind].
  destruct (read_octet s4) as [[c s5]|] eqn:E5; [|done]. cbn [mbind option_bind].
  destruct (read_dot s5) as [s6|] eqn:E6; [|done]. cbn [mbind option_bind].
  destruct (read_octet s6) as [[d s7]|] eqn:E7; [|done]. cbn [mbind option_bind].
  case_bool_decide as Hn; [|done]. intros [= <-].
  apply read_octet_inv in E1 as [? ->], E3 as [? ->], E5 as [? ->], E7 as [? ->].
  apply read_dot_inv in E2 as ->, E4 as ->, E6 as ->. subst s7.
  exists a, b, c, d. unfold display_octets. rewrite app_nil_r. done.
Qed.

Lemma display_ipv4_octets a b c d : is_u8 a → is_u8 b → is_u8 c → is_u8 d →
  display_ipv4 (u32_from_be_bytes a b c d) = display_octets a b c d.
Proof. intros. unfold display_ipv4, u32_from_be_bytes. f_equal; zdm. Qed.

(** *** Valid text survives [from_utf8_lossy] *)

Lemma lossy_ascii fuel l : Forall (λ b, 0 ≤ b < 128) l → (length l ≤ fuel)%nat → lossy fuel l = l.
Proof.
  revert l. induction fuel as [|fuel IH]; intros [|b l] Ha Hl; cbn in Hl; try done; [lia|].
  apply Forall_cons_iff in Ha as [Hb Ha]. cbn [lossy]. unfold utf8_step. cbn.
  destruct (Z.ltb_spec b 128); [|lia]. cbn. rewrite drop_0, IH by (done || lia). done.
Qed.
