(* ===== verification/Ip.v ===== *)
(** * IPv4 header handling and the Internet checksum ([src/ip.rs])

    [checksum16] with its accumulation and carry-fold loops, the header
    parser and builder, the header check, and the packet send.  The
    theorems: the checksum is the one's-complement sum of RFC 1071, the
    builder's header verifies and parses back, a corrupted byte is always
    noticed. *)

From S2P Require Import Prelude.

(** ** Definitions *)

Record IpHeader := mkIpHeader {
  ip_version : u8;
  ip_ihl : u8;
  ip_tos : u8;
  ip_total_length : u16;
  ip_identification : u16;
  ip_flags : u16;
  ip_fragment_offset : u16;
  ip_ttl : u8;
  ip_protocol : u8;
  ip_header_checksum : u16;
  ip_src_addr : u32;
  ip_dst_addr : u32;
}.

Definition IP_HEADER_LEN : nat := 20.

(** [None] is the source's [None]: too short, or not version 4. *)
Definition parse_ip_header (bytes : bytes) : option IpHeader :=
  if decide (length bytes < IP_HEADER_LEN)%nat then None
  else
    let version := Z.shiftr bytes.[0] 4 in
    if negb (version =? 4) then None
    else
      let flags_frag := u16_from_be_bytes bytes.[6] bytes.[7] in
      Some {|
        ip_version := version;
        ip_ihl := Z.land bytes.[0] 0x0F;
        ip_tos := bytes.[1];
        ip_total_length := u16_from_be_bytes bytes.[2] bytes.[3];
        ip_identification := u16_from_be_bytes bytes.[4] bytes.[5];
        ip_flags := Z.land (Z.shiftr flags_frag 13) 0x7;
        ip_fragment_offset := Z.land flags_frag 0x1FFF;
        ip_ttl := bytes.[8];
        ip_protocol := bytes.[9];
        ip_header_checksum := u16_from_be_bytes bytes.[10] bytes.[11];
        ip_src_addr := u32_from_be_bytes bytes.[12] bytes.[13] bytes.[14] bytes.[15];
        ip_dst_addr := u32_from_be_bytes bytes.[16] bytes.[17] bytes.[18] bytes.[19];
      |}.

(** [a + b] on [u32]: an overflow is a panic. *)
Definition checked_add32 (a b : u32) : option u32 :=
  if decide (a + b < 2 ^ 32) then Some (a + b) else None.

(** The accumulation loop over [chunks_exact(2)] and its remainder. *)
Fixpoint sum_words (data : bytes) (sum : u32) : option u32 :=
  match data with
  | hi :: lo :: rest =>
      s ← checked_add32 sum (u16_from_be_bytes hi lo); sum_words rest s
  | [last] => checked_add32 sum (Z.shiftl last 8)
  | [] => Some sum
  end.

(** The carry-fold loop; [fold_carry_done] shows that it has left the loop
    after at most two rounds. *)
Fixpoint fold_carry (fuel : nat) (sum : u32) : u32 :=
  match fuel with
  | O => sum
  | S fuel' =>
      if Z.shiftr sum 16 =? 0 then sum
      else fold_carry fuel' (Z.land sum 0xFFFF + Z.shiftr sum 16)
  end.

Definition FOLD_FUEL : nat := 2.

Definition checksum16 (data : bytes) : option u16 :=
  sum ← sum_words data 0;
  Some (as_u16 (Z.lnot (as_u16 (fold_carry FOLD_FUEL sum)))).

Definition build_ip_header (hdr : IpHeader) (out : bytes) : option bytes :=
  out ← set_byte 0 (Z.lor (as_u8 (Z.shiftl hdr.(ip_version) 4)) (Z.land hdr.(ip_ihl) 0x0F)) out;
  out ← set_byte 1 hdr.(ip_tos) out;
  out ← copy_slice 2 4 (u16_to_be_bytes hdr.(ip_total_length)) out;
  out ← copy_slice 4 6 (u16_to_be_bytes hdr.(ip_identification)) out;
  let flags_frag := Z.lor (as_u16 (Z.shiftl (Z.land hdr.(ip_flags) 0x7) 13))
                          (Z.land hdr.(ip_fragment_offset) 0x1FFF) in
  out ← copy_slice 6 8 (u16_to_be_bytes flags_frag) out;
  out ← set_byte 8 hdr.(ip_ttl) out;
  out ← set_byte 9 hdr.(ip_protocol) out;
  out ← set_byte 10 0 out;
  out ← set_byte 11 0 out;
  out ← copy_slice 12 16 (u32_to_be_bytes hdr.(ip_src_addr)) out;
  out ← copy_slice 16 20 (u32_to_be_bytes hdr.(ip_dst_addr)) out;
  csum ← checksum16 (take IP_HEADER_LEN out);
  copy_slice 10 12 (u16_to_be_bytes csum) out.

(** The outer [option] is the panic of [checksum16], never taken
    ([verify_ip_checksum_total]). *)
Definition verify_ip_checksum (bytes : bytes) : option bool :=
  if decide (length bytes < IP_HEADER_LEN)%nat then Some false
  else c ← checksum16 (take IP_HEADER_LEN bytes); Some (c =? 0).

(** [tun_write]'s return value, the kernel's verdict, is dropped by every
    caller of [send_ip_packet]. *)
Definition tun_write (buf : bytes) : M unit := λ w, Some (tt, emit buf w).

Definition send_ip_packet (packet : bytes) : M unit := tun_write packet.

(** ** Reference definitions *)

(** The sum of the big-endian 16-bit words, unbounded. *)
Fixpoint word_sum (data : bytes) : Z :=
  match data with
  | hi :: lo :: rest => u16_from_be_bytes hi lo + word_sum rest
  | [last] => last * 256
  | [] => 0
  end.

(** One's-complement normal form of a non-negative sum: [0] for zero,
    otherwise the representative of its class modulo [2^16 - 1] in
    [1 .. 2^16 - 1]. *)
Definition ones_norm (s : Z) : Z := if s =? 0 then 0 else (s - 1) mod 65535 + 1.

Definition rfc1071 (data : bytes) : Z := 65535 - ones_norm (word_sum data).

(** A header whose fields fit their wire widths. *)
Definition ip_header_ok (h : IpHeader) : Prop :=
  h.(ip_version) = 4 ∧ uN 4 h.(ip_ihl) ∧ is_u8 h.(ip_tos) ∧
  is_u16 h.(ip_total_length) ∧ is_u16 h.(ip_identification) ∧
  uN 3 h.(ip_flags) ∧ uN 13 h.(ip_fragment_offset) ∧ is_u8 h.(ip_ttl) ∧
  is_u8 h.(ip_protocol) ∧ is_u32 h.(ip_src_addr) ∧ is_u32 h.(ip_dst_addr).

Global Instance ip_header_ok_dec h : Decision (ip_header_ok h).
Proof. unfold ip_header_ok. apply _. Defined.

(** The twenty bytes [build_ip_header] writes, for a given checksum. *)
Definition ip_header_bytes (h : IpHeader) (csum : u16) : bytes :=
  [64 + h.(ip_ihl); h.(ip_tos)] ++ u16_to_be_bytes h.(ip_total_length) ++
  u16_to_be_bytes h.(ip_identification) ++
  u16_to_be_bytes (h.(ip_flags) * 2 ^ 13 + h.(ip_fragment_offset)) ++
  [h.(ip_ttl); h.(ip_protocol)] ++ u16_to_be_bytes csum ++
  u32_to_be_bytes h.(ip_src_addr) ++ u32_to_be_bytes h.(ip_dst_addr).

(** The checksum [build_ip_header] fills in. *)
Definition ip_csum (h : IpHeader) : u16 := rfc1071 (ip_header_bytes h 0).

Definition with_checksum (c : u16) (h : IpHeader) : IpHeader :=
  mkIpHeader h.(ip_version) h.(ip_ihl) h.(ip_tos) h.(ip_total_length)
    h.(ip_identification) h.(ip_flags) h.(ip_fragment_offset) h.(ip_ttl)
    h.(ip_protocol) c h.(ip_src_addr) h.(ip_dst_addr).

(** ** Lemmas: the checksum *)

Lemma list_ind2 {A} (P : list A → Prop) :
  P [] → (∀ x, P [x]) → (∀ x y l, P l → P (x :: y :: l)) → ∀ l, P l.
Proof.
  intros H0 H1 H2. fix IH 1. intros [|x [|y l]]; [done|apply H1|apply H2, IH].
Qed.

Lemma word_sum_bound data :
  bytes_ok data → 0 ≤ 2 * word_sum data ≤ 65535 * (len data + 1).
Proof.
  intros H. unfold len. induction data as [|x|x y l IH] using list_ind2; cbn [word_sum length].
  - lia.
  - apply bytes_ok_cons in H as [H _]. unfold uN in H. lia.
  - apply bytes_ok_cons in H as [Hx H]. apply bytes_ok_cons in H as [Hy H].
    specialize (IH H). unfold uN, u16_from_be_bytes in *. lia.
Qed.

Lemma sum_words_spec data : bytes_ok data → ∀ s, 0 ≤ s → s + word_sum data < 2 ^ 32 →
  sum_words data s = Some (s + word_sum data).
Proof.
  intros H. induction data as [|x|x y l IH] using list_ind2; intros s Hs Hb; simpl in *.
  - f_equal. lia.
  - unfold checked_add32.
    rewrite Z.shiftl_mul_pow2 by lia. rewrite decide_True by lia. done.
  - apply bytes_ok_cons in H as [Hx H]. apply bytes_ok_cons in H as [Hy H].
    pose proof (word_sum_bound l H). pose proof (u16_from_be_bytes_u16 x y Hx Hy) as Hu.
    unfold uN in Hu. unfold checked_add32. rewrite decide_True by lia. simpl.
    rewrite IH by (done || lia). f_equal. lia.
Qed.

Lemma fold_step_eq s : 0 ≤ s →
  Z.land s 0xFFFF + Z.shiftr s 16 = s mod 2 ^ 16 + s / 2 ^ 16.
Proof.
  intros. change 0xFFFF with (Z.ones 16).
  by rewrite Z.land_ones, Z.shiftr_div_pow2 by lia.
Qed.

Lemma ones_norm_fold s : 0 ≤ s → ones_norm (s mod 2 ^ 16 + s / 2 ^ 16) = ones_norm s.
Proof.
  intros. pose proof (Z.div_mod s (2 ^ 16)) as E.
  pose proof (Z.mod_pos_bound s (2 ^ 16)). pose proof (Z.div_pos s (2 ^ 16)).
  set (r := s mod 2 ^ 16) in *. set (q := s / 2 ^ 16) in *. unfold ones_norm.
  destruct (Z.eqb_spec (r + q) 0), (Z.eqb_spec s 0); [done|lia|lia|].
  f_equal. replace (s - 1) with (r + q - 1 + q * 65535) by lia.
  by rewrite Z_mod_plus_full.
Qed.

Lemma ones_norm_small s : 0 ≤ s < 2 ^ 16 → ones_norm s = s.
Proof. intros. unfold ones_norm. case_match; zdm. Qed.

Lemma ones_norm_u16 s : is_u16 (ones_norm s).
Proof. unfold ones_norm. case_match; zdm. Qed.

Lemma fold_carry_norm n s : 0 ≤ s → ones_norm (fold_carry n s) = ones_norm s ∧ 0 ≤ fold_carry n s.
Proof.
  revert s. induction n as [|n IH]; intros s Hs; simpl; [done|].
  case_match; [done|]. rewrite fold_step_eq by lia.
  destruct (IH (s mod 2 ^ 16 + s / 2 ^ 16)) as [-> ?]; [zdm|].
  by rewrite ones_norm_fold.
Qed.

(** The loop exits within its fuel for every [u32] accumulator. *)
Lemma fold_carry_done s : is_u32 s → is_u16 (fold_carry FOLD_FUEL s).
Proof.
  unfold uN. intros Hs. unfold FOLD_FUEL. cbn [fold_carry].
  rewrite !fold_step_eq, !Z.shiftr_div_pow2 by (rewrite ?fold_step_eq by lia; zdm).
  set (s1 := s mod 2 ^ 16 + s / 2 ^ 16).
  assert (0 ≤ s1 ≤ 0x1FFFE) by (subst s1; zdm). clearbody s1.
  destruct (Z.eqb_spec (s / 2 ^ 16) 0); [zdm|].
  destruct (Z.eqb_spec (s1 / 2 ^ 16) 0); zdm.
Qed.

Lemma checksum16_rfc data :
  bytes_ok data → len data ≤ 131072 → checksum16 data = Some (rfc1071 data).
Proof.
  intros H Hl. pose proof (word_sum_bound data H).
  unfold checksum16. rewrite sum_words_spec by (done || lia).
  cbn [mbind option_bind]. rewrite Z.add_0_l. set (s := word_sum data) in *.
  pose proof (fold_carry_done s) as Hd. pose proof (fold_carry_norm FOLD_FUEL s) as [Hn _]; [lia|].
  rewrite (ones_norm_small (fold_carry _ _)) in Hn by (apply Hd; unfold uN; lia).
  unfold rfc1071. fold s. rewrite Hn. pose proof (ones_norm_u16 s).
  rewrite (as_u16_small (ones_norm s)) by done. unfold as_u16, Z.lnot. f_equal.
  unfold uN in *. zdm.
Qed.

Lemma word_sum_app a b :
  Nat.Even (length a) → word_sum (a ++ b) = word_sum a + word_sum b.
Proof.
  intros H. induction a as [|x|x y l IH] using list_ind2; simpl.
  - lia.
  - destruct H as [k Hk]. simpl in Hk. lia.
  - rewrite IH; [lia|]. destruct H as [k Hk]. simpl in Hk. exists (pred k). lia.
Qed.

Lemma word_sum_u16 v b : is_u16 v → word_sum (u16_to_be_bytes v ++ b) = v + word_sum b.
Proof. intros. simpl. by rewrite u16_be_roundtrip. Qed.

Lemma rfc1071_u16 d : is_u16 (rfc1071 d).
Proof. unfold rfc1071. pose proof (ones_norm_u16 (word_sum d)). unfold uN in *. lia. Qed.

Lemma rfc1071_zero d : bytes_ok d →
  rfc1071 d = 0 ↔ 0 < word_sum d ∧ word_sum d mod 65535 = 0.
Proof.
  intros H. pose proof (word_sum_bound d H). unfold rfc1071, ones_norm.
  destruct (Z.eqb_spec (word_sum d) 0); zdm.
Qed.

Lemma ones_norm_mod s : 0 ≤ s → (s - ones_norm s) mod 65535 = 0.
Proof.
  intros. unfold ones_norm. destruct (Z.eqb_spec s 0) as [->|]; [done|].
  pose proof (Z.div_mod (s - 1) 65535).
  replace (s - _) with ((s - 1) / 65535 * 65535) by lia. apply Z_mod_mult.
Qed.

(** Writing the checksum of a buffer into the zeroed, word-aligned field it
    was computed over makes the buffer sum to all ones. *)
Lemma checksum_fill a b :
  bytes_ok a → bytes_ok b → Nat.Even (length a) →
  rfc1071 (a ++ u16_to_be_bytes (rfc1071 (a ++ [0; 0] ++ b)) ++ b) = 0.
Proof.
  intros Ha Hb He. set (c := rfc1071 (a ++ [0; 0] ++ b)).
  pose proof (rfc1071_u16 (a ++ [0; 0] ++ b)) as Hc. fold c in Hc.
  pose proof (word_sum_bound _ Ha). pose proof (word_sum_bound _ Hb).
  apply rfc1071_zero.
  { rewrite !bytes_ok_app. auto with minitcp. }
  rewrite word_sum_app, word_sum_u16 by done.
  assert (Hcs : c = 65535 - ones_norm (word_sum a + word_sum b)).
  { unfold c, rfc1071. rewrite word_sum_app by done. done. }
  pose proof (ones_norm_mod (word_sum a + word_sum b)).
  pose proof (ones_norm_u16 (word_sum a + word_sum b)).
  assert (word_sum a + word_sum b = 0 → ones_norm (word_sum a + word_sum b) = 0)
    by (intros ->; done).
  unfold uN in *. split; [lia|].
  replace (_ + _) with (word_sum a + word_sum b - ones_norm (word_sum a + word_sum b)
                        + 1 * 65535) by lia.
  rewrite Z_mod_plus_full. auto with lia.
Qed.

(** ** Lemmas: the header *)

Lemma ip_header_bytes_ok h c : ip_header_ok h → bytes_ok (ip_header_bytes h c).
Proof.
  intros (_ & Hi & Ht & _ & _ & _ & _ & Htt & Hp & _). unfold ip_header_bytes.
  rewrite !bytes_ok_app, !bytes_ok_cons. unfold uN in *.
  repeat split; auto with minitcp; try lia; constructor.
Qed.

Lemma length_ip_header_bytes h c : length (ip_header_bytes h c) = 20%nat.
Proof. reflexivity. Qed.

Lemma ip_header_checksum16 h c : ip_header_ok h →
  checksum16 (ip_header_bytes h c) = Some (rfc1071 (ip_header_bytes h c)).
Proof.
  intros H. apply checksum16_rfc; [by apply ip_header_bytes_ok|].
  unfold len. rewrite length_ip_header_bytes. lia.
Qed.

(** The checksum field sits at offset 10. *)
Lemma ip_header_bytes_split h c :
  ip_header_bytes h c =
    take 10 (ip_header_bytes h 0) ++ u16_to_be_bytes c ++ drop 12 (ip_header_bytes h 0).
Proof. reflexivity. Qed.

Lemma rfc1071_built_header h : ip_header_ok h → rfc1071 (ip_header_bytes h (ip_csum h)) = 0.
Proof.
  intros H. pose proof (ip_header_bytes_ok h 0 H) as Hb.
  rewrite ip_header_bytes_split. unfold ip_csum.
  rewrite (ip_header_bytes_split h 0) at 2.
  apply checksum_fill; auto with minitcp. by exists 5%nat.
Qed.

Lemma first_byte_eq v i : v = 4 → uN 4 i →
  Z.lor (as_u8 (Z.shiftl v 4)) (Z.land i 0x0F) = 64 + i.
Proof.
  intros -> H. change 0x0F with (Z.ones 4). rewrite land_ones_small by (done || lia).
  change (as_u8 (Z.shiftl 4 4)) with (Z.shiftl 4 4). by rewrite lor_shiftl_low.
Qed.

Lemma flags_frag_eq f o : uN 3 f → uN 13 o →
  Z.lor (as_u16 (Z.shiftl (Z.land f 0x7) 13)) (Z.land o 0x1FFF) = f * 2 ^ 13 + o.
Proof.
  intros Hf Ho. change 0x7 with (Z.ones 3). change 0x1FFF with (Z.ones 13).
  rewrite !land_ones_small by (done || lia).
  rewrite as_u16_small; [by rewrite lor_shiftl_low|].
  rewrite Z.shiftl_mul_pow2 by lia. unfold uN in *. lia.
Qed.

(** Expose the first [n] elements of a long enough list. *)
Ltac expose_bytes out n :=
  lazymatch n with
  | O => idtac
  | S ?m => let b := fresh "b" in
            destruct out as [|b out]; [simpl in *; exfalso; lia|expose_bytes out m]
  end.

(** Side conditions on the lengths of exposed buffers. *)
Ltac buf_lia :=
  cbn; rewrite ?take_0, ?drop_0; cbn; unfold vec_zero; rewrite ?length_replicate; lia.

(** Run one in-range buffer write on an exposed list. *)
Ltac buf_step :=
  first [ rewrite set_byte_ok by buf_lia | rewrite copy_slice_ok by buf_lia ];
  cbn [mbind option_bind].

Lemma build_ip_header_eq h out : ip_header_ok h → (20 ≤ length out)%nat →
  build_ip_header h out = Some (ip_header_bytes h (ip_csum h) ++ drop 20 out).
Proof.
  intros H Hl. pose proof (ip_header_checksum16 h 0 H) as Hc.
  pose proof H as (Hv & Hi & _ & _ & _ & Hf & Ho & _).
  unfold build_ip_header. rewrite first_byte_eq, flags_frag_eq by done.
  expose_bytes out 20%nat. do 11 buf_step.
  change (take IP_HEADER_LEN _) with (ip_header_bytes h 0). rewrite Hc.
  cbn [mbind option_bind]. buf_step. reflexivity.
Qed.

Lemma parse_ip_header_bytes h c rest : ip_header_ok h → is_u16 c →
  parse_ip_header (ip_header_bytes h c ++ rest) = Some (with_checksum c h).
Proof.
  intros (Hv & Hi & _ & Ht & Hid & Hf & Ho & _ & _ & Hs & Hd) Hc.
  unfold parse_ip_header. rewrite decide_False by (cbn; unfold IP_HEADER_LEN; lia).
  cbn [nth ip_header_bytes app u16_to_be_bytes u32_to_be_bytes].
  assert (is_u16 (ip_flags h * 2 ^ 13 + ip_fragment_offset h))
    by (unfold uN in *; lia).
  rewrite !u16_be_roundtrip, !u32_be_roundtrip by done.
  change 0x0F with (Z.ones 4). change 0x7 with (Z.ones 3). change 0x1FFF with (Z.ones 13).
  rewrite !Z.land_ones, !Z.shiftr_div_pow2 by lia. unfold with_checksum. rewrite Hv.
  replace ((64 + ip_ihl h) / 2 ^ 4) with 4 by zdm. cbn [Z.eqb Pos.eqb negb].
  f_equal. f_equal; zdm.
Qed.

Lemma parse_ip_header_ok pkt h :
  bytes_ok pkt → parse_ip_header pkt = Some h →
  ip_header_ok h ∧ is_u16 h.(ip_header_checksum) ∧ (20 ≤ length pkt)%nat.
Proof.
  intros Hb. unfold parse_ip_header. case_decide; [done|]. unfold IP_HEADER_LEN in *.
  destruct (Z.eqb_spec (Z.shiftr pkt.[0] 4) 4) as [E|]; [|done]. intros [= <-].
  split; [|cbn; split; [auto with minitcp|lia]]. unfold ip_header_ok. cbn.
  change 0x0F with (Z.ones 4). change 0x7 with (Z.ones 3). change 0x1FFF with (Z.ones 13).
  rewrite !Z.land_ones by lia.
  split_and!; auto with minitcp; apply uN_mod; lia.
Qed.

Lemma verify_ip_checksum_total pkt : bytes_ok pkt →
  verify_ip_checksum pkt =
    Some (bool_decide (20 ≤ length pkt)%nat && (rfc1071 (take 20 pkt) =? 0)).
Proof.
  intros Hb. unfold verify_ip_checksum, IP_HEADER_LEN. case_decide.
  - by rewrite bool_decide_eq_false_2 by lia.
  - rewrite bool_decide_eq_true_2 by lia.
    rewrite checksum16_rfc; [done|auto with minitcp|].
    unfold len. rewrite length_take. lia.
Qed.

(** The framing every sender uses: a zeroed buffer, the header, the body. *)
Definition ip_packet (h : IpHeader) (body : bytes) : bytes :=
  ip_header_bytes h (ip_csum h) ++ body.

Lemma ip_frame_build h n : ip_header_ok h →
  build_ip_header h (vec_zero (IP_HEADER_LEN + n)) =
    Some (ip_header_bytes h (ip_csum h) ++ vec_zero n).
Proof.
  intros H. unfold vec_zero, IP_HEADER_LEN. rewrite build_ip_header_eq by (done || (rewrite length_replicate; lia)).
  rewrite drop_replicate. do 3 f_equal. lia.
Qed.

Lemma ip_frame_copy h body :
  copy_slice IP_HEADER_LEN (IP_HEADER_LEN + length body) body
    (ip_header_bytes h (ip_csum h) ++ vec_zero (length body)) = Some (ip_packet h body).
Proof.
  unfold ip_packet. rewrite <- (app_nil_r (vec_zero _)), <- (app_nil_r (_ ++ body)), <- app_assoc.
  apply copy_slice_app; by rewrite ?length_vec_zero.
Qed.

Lemma ip_packet_ok h body : ip_header_ok h → bytes_ok body → bytes_ok (ip_packet h body).
Proof. intros. apply bytes_ok_app. auto using ip_header_bytes_ok. Qed.

Lemma ip_packet_parses h body : ip_header_ok h →
  parse_ip_header (ip_packet h body) = Some (with_checksum (ip_csum h) h).
Proof. intros. apply parse_ip_header_bytes; [done|]. apply rfc1071_u16. Qed.

Lemma ip_packet_verifies h body : ip_header_ok h → bytes_ok body →
  verify_ip_checksum (ip_packet h body) = Some true.
Proof.
  intros. rewrite verify_ip_checksum_total by (by apply ip_packet_ok).
  unfold ip_packet. rewrite take_app_length' by done.
  rewrite rfc1071_built_header by done. rewrite bool_decide_eq_true_2; [done|].
  rewrite length_app, length_ip_header_bytes. lia.
Qed.

Lemma ip_packet_body h body : drop 20 (ip_packet h body) = body.
Proof. unfold ip_packet. by rewrite drop_app_length' by done. Qed.

Lemma word_sum_insert l i v : (i < length l)%nat →
  word_sum (<[i := v]> l) = word_sum l + (v - l.[i]) * (if Nat.even i then 256 else 1).
Proof.
  revert i. induction l as [|x|x y l IH] using list_ind2; intros i Hi.
  - simpl in Hi. lia.
  - assert (i = 0)%nat as -> by (simpl in Hi; lia). simpl. lia.
  - destruct i as [|[|i]]; simpl; unfold u16_from_be_bytes; [lia|lia|].
    simpl in Hi. change (list_insert i v l) with (<[i := v]> l). rewrite IH by lia. lia.
Qed.

Lemma bytes_ok_insert l i v : bytes_ok l → is_u8 v → bytes_ok (<[i := v]> l).
Proof. intros. by apply Forall_insert. Qed.

(** ** Theorems *)

(** C22: on any buffer of at most 131072 bytes [checksum16] does not overflow
    and returns the RFC 1071 checksum: the complement of the
    one's-complement sum of the big-endian words, an odd trailing byte
    counting as a high byte. *)
Theorem checksum16_is_rfc1071 (data : bytes) :
  bytes_ok data → len data ≤ 131072 →
  checksum16 data = Some (rfc1071 data) ∧ is_u16 (rfc1071 data).
Proof. intros. split; [by apply checksum16_rfc|apply rfc1071_u16]. Qed.

Theorem checksum16_is_rfc1071_witness :
  checksum16 [0x00; 0x01; 0xf2; 0x03; 0xf4; 0xf5; 0xf6; 0xf7] = Some 0x220d ∧
  checksum16 [0xAB] = Some 0x54FF.
Proof.
  split.
  - refine (proj1 (checksum16_is_rfc1071 _ _ _)); [by_decide|vm_compute; discriminate].
  - reflexivity.
Defined.

(** C23: building a header whose fields fit their widths into any buffer of
    at least 20 bytes does not panic, leaves the rest of the buffer alone,
    verifies, and parses back to the same header (with the checksum filled
    in). *)
Theorem ip_header_roundtrip (h : IpHeader) (out : bytes) :
  ip_header_ok h → (20 ≤ length out)%nat → bytes_ok out →
  ∃ pkt, build_ip_header h out = Some pkt ∧ length pkt = length out ∧
    drop 20 pkt = drop 20 out ∧ verify_ip_checksum pkt = Some true ∧
    parse_ip_header pkt = Some (with_checksum (ip_csum h) h).
Proof.
  intros H Hl Hb. eexists. split; [by apply build_ip_header_eq|].
  assert (bytes_ok (ip_header_bytes h (ip_csum h) ++ drop 20 out)).
  { apply bytes_ok_app. auto using ip_header_bytes_ok with minitcp. }
  split_and!.
  - rewrite length_app, length_ip_header_bytes, length_drop. lia.
  - by rewrite drop_app_length' by done.
  - rewrite verify_ip_checksum_total by done.
    rewrite take_app_length' by done.
    rewrite rfc1071_built_header by done. rewrite bool_decide_eq_true_2; [done|].
    rewrite length_app, length_ip_header_bytes. lia.
  - apply parse_ip_header_bytes; [done|]. apply rfc1071_u16.
Qed.

Definition sample_header : IpHeader :=
  mkIpHeader 4 5 0 20 0x1234 0 0 64 1 0 0x0A000001 0x0A000002.

Theorem ip_header_roundtrip_witness :
  ∃ pkt, build_ip_header sample_header (vec_zero 20) = Some pkt ∧
    verify_ip_checksum pkt = Some true.
Proof.
  destruct (ip_header_roundtrip sample_header (vec_zero 20)) as (p & H1 & _ & _ & H2 & _).
  - by_decide.
  - vm_compute. lia.
  - by_decide.
  - exists p. split; [exact H1|exact H2].
Defined.

(** C33: changing any single byte of the header of a packet that verifies
    makes it fail verification. *)
Theorem corrupted_header_rejected (pkt : bytes) (i : nat) (v : u8) :
  bytes_ok pkt → verify_ip_checksum pkt = Some true →
  (i < 20)%nat → is_u8 v → v ≠ pkt.[i] →
  verify_ip_checksum (<[i := v]> pkt) = Some false.
Proof.
  intros Hb Hv Hi Hv8 Hne. rewrite verify_ip_checksum_total in Hv by done.
  injection Hv as [Hl Hz%Z.eqb_eq]%andb_prop. apply bool_decide_eq_true_1 in Hl.
  rewrite verify_ip_checksum_total by (by apply bytes_ok_insert). f_equal.
  apply andb_false_intro2, Z.eqb_neq. rewrite take_insert_lt by lia.
  assert (Hb' : bytes_ok (take 20 pkt)) by auto with minitcp.
  apply rfc1071_zero in Hz as [_ Hz]; [|done].
  rewrite rfc1071_zero by (by apply bytes_ok_insert).
  rewrite word_sum_insert by (rewrite length_take; lia).
  rewrite nth_lookup, lookup_take_lt, <- nth_lookup by lia.
  pose proof (nth_bytes_ok pkt i Hb) as Hold. intros [_ Hz2]. unfold uN in *.
  destruct (Nat.even i); zdm.
Qed.

Theorem corrupted_header_rejected_witness :
  verify_ip_checksum
    (<[0%nat := Z.lxor 69 255]> (ip_header_bytes sample_header (ip_csum sample_header)))
  = Some false.
Proof.
  apply (corrupted_header_rejected _ 0 _).
  - by_decide.
  - reflexivity.
  - lia.
  - by_decide.
  - vm_compute. discriminate.
Defined.
