(* ===== verification/Handler.v ===== *)
(** * What a protocol promises to the dispatcher

    [Stack::dispatch_ip_packet] hands the payload of a packet to a protocol
    handler.  The interface says what the dispatcher relies on: on every
    parsed header and every payload an IPv4 packet can carry the handler
    returns, keeps the invariant of its state, and does to the world only
    what operations may do.  ICMP, UDP and TCP implement it; the dispatcher
    is verified against it. *)

From S2P Require Import Prelude Ip.

Class PacketHandler {S : Type} (inv : S → Prop) (handle : S → IpHeader → bytes → M S) : Prop :=
  handler_total s h payload w :
    inv s → ip_header_ok h → bytes_ok payload → len payload ≤ 65515 →
    ∃ s' w', handle s h payload w = Some (s', w') ∧ inv s' ∧ world_ext w w'.
