(* ===== verification/Icmp.v ===== *)
(** * ICMP echo ([src/icmp.rs])

    [handle_icmp]: an Echo Request is answered by exactly one well-formed
    Echo Reply; everything else is ignored. *)

From S2P Require Import Prelude Ip Handler.

(** ** Definitions *)

Definition ICMP_ECHO_REQUEST : u8 := 8.
Definition ICMP_ECHO_REPLY : u8 := 0.
Definition ICMP_HEADER_LEN : nat := 8.

(** The echo message built in [icmp_buf]. *)
Definition build_echo_reply (payload : bytes) : option bytes :=
  let icmp_total_len := length payload in
  let icmp_buf := vec_zero icmp_total_len in
  icmp_buf ← set_byte 0 ICMP_ECHO_REPLY icmp_buf;
  icmp_buf ← set_byte 1 0 icmp_buf;
  icmp_buf ← copy_slice 4 6 (slice 4 6 payload) icmp_buf;
  icmp_buf ← copy_slice 6 8 (slice 6 8 payload) icmp_buf;
  icmp_buf ←
    (if decide (ICMP_HEADER_LEN < icmp_total_len)%nat
     then copy_slice ICMP_HEADER_LEN icmp_total_len (drop ICMP_HEADER_LEN payload) icmp_buf
     else Some icmp_buf);
  csum ← checksum16 icmp_buf;
  copy_slice 2 4 (u16_to_be_bytes csum) icmp_buf.

(** The IP header of the reply: the request's, with the fields the source
    overwrites. *)
Definition reply_ip_header (ip_hdr : IpHeader) (icmp_total_len : nat) : IpHeader := {|
  ip_version := ip_hdr.(ip_version);
  ip_ihl := 5;
  ip_tos := ip_hdr.(ip_tos);
  ip_total_length := as_u16 (Z.of_nat (IP_HEADER_LEN + icmp_total_len));
  ip_identification := ip_hdr.(ip_identification);
  ip_flags := 0;
  ip_fragment_offset := 0;
  ip_ttl := 64;
  ip_protocol := 1;
  ip_header_checksum := ip_hdr.(ip_header_checksum);
  ip_src_addr := ip_hdr.(ip_dst_addr);
  ip_dst_addr := ip_hdr.(ip_src_addr);
|}.

Definition handle_icmp (ip_hdr : IpHeader) (payload : bytes) : M unit :=
  if decide (length payload < ICMP_HEADER_LEN)%nat then mret tt
  else if negb (payload.[0] =? ICMP_ECHO_REQUEST) then mret tt
  else
    icmp_buf ← lift (build_echo_reply payload);
    let reply_hdr := reply_ip_header ip_hdr (length payload) in
    packet ← lift (build_ip_header reply_hdr (vec_zero (IP_HEADER_LEN + length payload)));
    packet ← lift (copy_slice IP_HEADER_LEN (length packet) icmp_buf packet);
    send_ip_packet packet.

(** ** Reference definition *)

(** The echo reply to a request: type and code zero, identifier, sequence
    number and data copied, checksum over the whole message. *)
Definition echo_reply (payload : bytes) : bytes :=
  [0; 0] ++ u16_to_be_bytes (rfc1071 ([0; 0; 0; 0] ++ drop 4 payload)) ++ drop 4 payload.

(** ** Lemmas *)

Lemma build_echo_reply_eq payload :
  bytes_ok payload → (8 ≤ length payload)%nat → len payload ≤ 65536 →
  build_echo_reply payload = Some (echo_reply payload).
Proof.
  intros Hb Hl Hm. unfold build_echo_reply, echo_reply, ICMP_HEADER_LEN, vec_zero.
  assert (Hb0 : bytes_ok ([0; 0; 0; 0] ++ drop 4 payload)).
  { apply bytes_ok_app. auto with minitcp. split; [by_decide|auto with minitcp]. }
  assert (Hm0 : len ([0; 0; 0; 0] ++ drop 4 payload) ≤ 65536).
  { unfold len in *. rewrite length_app, length_drop. cbn. lia. }
  expose_bytes payload 8%nat. cbn [length replicate]. do 4 buf_step.
  set (full := [0; 0; 0; 0] ++ drop 4 (b :: _)) in *.
  transitivity (csum ← checksum16 full; copy_slice 2 4 (u16_to_be_bytes csum) full).
  - case_decide as Hd.
    + rewrite copy_slice_ok by buf_lia. cbn. rewrite ?take_0, ?drop_0. cbn.
      rewrite drop_ge by (rewrite length_replicate; lia). by rewrite app_nil_r.
    + destruct payload; [reflexivity|cbn in Hd; lia].
  - rewrite checksum16_rfc by (done || lia). cbn [mbind option_bind].
    rewrite copy_slice_ok by (cbn; lia). reflexivity.
Qed.

Lemma reply_ip_header_ok h n : ip_header_ok h → ip_header_ok (reply_ip_header h n).
Proof.
  unfold ip_header_ok, reply_ip_header. cbn. intros (? & ? & ? & ? & ? & ? & ? & ? & ? & ? & ?).
  split_and!; auto with minitcp; by_decide.
Qed.

Lemma length_echo_reply payload : (8 ≤ length payload)%nat →
  length (echo_reply payload) = length payload.
Proof. intros. unfold echo_reply. rewrite !length_app, length_drop. cbn. lia. Qed.

Lemma echo_reply_ok payload : bytes_ok payload → bytes_ok (echo_reply payload).
Proof.
  intros. unfold echo_reply. rewrite !bytes_ok_app.
  split_and!; auto with minitcp. by_decide.
Qed.

Lemma rfc1071_echo_reply payload : bytes_ok payload → rfc1071 (echo_reply payload) = 0.
Proof.
  intros. unfold echo_reply. apply (checksum_fill [0; 0]); auto with minitcp.
  - by_decide.
  - by exists 1%nat.
Qed.

(** The whole handler on an echo request, as an equation. *)
Lemma handle_icmp_request h payload w :
  ip_header_ok h → bytes_ok payload → (8 ≤ length payload)%nat → len payload ≤ 65536 →
  payload.[0] = ICMP_ECHO_REQUEST →
  handle_icmp h payload w =
    Some (tt, emit (ip_packet (reply_ip_header h (length payload)) (echo_reply payload)) w).
Proof.
  intros Hh Hb Hl Hm H0. unfold handle_icmp, ICMP_HEADER_LEN.
  rewrite decide_False by lia. rewrite H0. cbn [Z.eqb ICMP_ECHO_REQUEST Pos.eqb negb].
  erewrite bind_lift by (by apply build_echo_reply_eq).
  erewrite bind_lift by (by apply ip_frame_build, reply_ip_header_ok).
  erewrite bind_lift; [reflexivity|].
  rewrite length_app, length_ip_header_bytes. unfold vec_zero at 1. rewrite length_replicate.
  rewrite <- (length_echo_reply payload) by done. apply ip_frame_copy.
Qed.

(** The handler as the dispatcher sees it: it keeps no state. *)
Global Instance icmp_handler :
  PacketHandler (λ _ : unit, True) (λ _ h payload, handle_icmp h payload).
Proof.
  intros [] h payload w _ Hh Hb Hl. destruct (decide (8 ≤ length payload)%nat) as [Hlen|Hlen].
  - destruct (decide (payload.[0] = ICMP_ECHO_REQUEST)) as [E|E].
    + eexists tt, _. split; [apply handle_icmp_request; auto; lia|]. split; [done|apply emit_ext].
    + exists tt, w. split; [|done]. unfold handle_icmp, ICMP_HEADER_LEN. rewrite decide_False by lia.
      by rewrite (proj2 (Z.eqb_neq _ _) E).
  - exists tt, w. split; [|done]. unfold handle_icmp, ICMP_HEADER_LEN. by rewrite decide_True by lia.
Qed.

(** ** Theorems *)

(** C29: an ICMP echo request (any well-formed IP header, any message of 8 to
    65515 bytes) makes the stack write exactly one packet.  That packet's IP
    header verifies and goes back to the sender (addresses swapped, protocol
    1, TTL 64, length of the packet); its ICMP message has type 0, code 0,
    a valid checksum, and the identifier, sequence number and data of the
    request. *)
Theorem icmp_echo_request_answered (h : IpHeader) (payload : bytes) (w : World) :
  ip_header_ok h → bytes_ok payload → (8 ≤ length payload)%nat → len payload ≤ 65515 →
  payload.[0] = ICMP_ECHO_REQUEST →
  ∃ p r, handle_icmp h payload w = Some (tt, emit p w) ∧
    verify_ip_checksum p = Some true ∧ parse_ip_header p = Some r ∧
    ip_src_addr r = ip_dst_addr h ∧ ip_dst_addr r = ip_src_addr h ∧
    ip_protocol r = 1 ∧ ip_ttl r = 64 ∧ ip_ihl r = 5 ∧ ip_total_length r = len p ∧
    checksum16 (drop 20 p) = Some 0 ∧ take 2 (drop 20 p) = [ICMP_ECHO_REPLY; 0] ∧
    drop 24 p = drop 4 payload.
Proof.
  intros Hh Hb Hl Hm H0. set (rh := reply_ip_header h (length payload)).
  assert (Hr : ip_header_ok rh) by (by apply reply_ip_header_ok).
  assert (Hle : len (echo_reply payload) = len payload)
    by (unfold len; by rewrite length_echo_reply).
  exists (ip_packet rh (echo_reply payload)), (with_checksum (ip_csum rh) rh).
  split_and!; try reflexivity.
  - apply handle_icmp_request; auto. lia.
  - apply ip_packet_verifies; auto using echo_reply_ok.
  - by apply ip_packet_parses.
  - unfold ip_packet. rewrite len_app, Hle. change (len (ip_header_bytes _ _)) with 20.
    cbn [ip_total_length with_checksum rh reply_ip_header].
    rewrite as_u16_small; unfold len, uN, IP_HEADER_LEN in *; lia.
  - rewrite ip_packet_body, checksum16_rfc; [by rewrite rfc1071_echo_reply| |lia].
    by apply echo_reply_ok.
Qed.

Theorem icmp_echo_request_answered_witness :
  let w := mkWorld (λ _, 0) 0 (λ _, 0) 0 (λ _, None) 0 (λ _, 0%nat) 0 [] in
  ∃ p r, handle_icmp sample_header [8; 0; 0; 0; 0x12; 0x34; 0; 1; 0x61] w = Some (tt, emit p w) ∧
    parse_ip_header p = Some r ∧ ip_dst_addr r = 0x0A000001.
Proof.
  intros w.
  destruct (icmp_echo_request_answered sample_header [8; 0; 0; 0; 0x12; 0x34; 0; 1; 0x61] w)
    as (p & r & H1 & _ & H2 & _ & H3 & _).
  - by_decide.
  - by_decide.
  - cbn. lia.
  - vm_compute. discriminate.
  - reflexivity.
  - exists p, r. split; [exact H1|split; [exact H2|exact H3]].
Defined.

(** A message shorter than an ICMP header, or of any type other than
    Echo Request (an Echo Reply in particular), produces no packet. *)
Theorem icmp_other_ignored (h : IpHeader) (payload : bytes) (w : World) :
  (length payload < 8)%nat ∨ payload.[0] ≠ ICMP_ECHO_REQUEST →
  handle_icmp h payload w = Some (tt, w).
Proof.
  intros H. unfold handle_icmp, ICMP_HEADER_LEN. case_decide; [done|].
  destruct (Z.eqb_spec payload.[0] ICMP_ECHO_REQUEST) as [E|]; [|done].
  destruct H; [lia|congruence].
Qed.

Theorem icmp_other_ignored_witness :
  let w := mkWorld (λ _, 0) 0 (λ _, 0) 0 (λ _, None) 0 (λ _, 0%nat) 0 [] in
  handle_icmp sample_header [0; 0; 0; 0; 0x12; 0x34; 0; 1] w = Some (tt, w).
Proof. intros w. apply icmp_other_ignored. right. vm_compute. discriminate. Defined.
