(* ===== verification/Udp.v ===== *)
(** * UDP ([src/udp.rs])

    The bind table with its bounded receive queues, the datagram handler
    (deliver or echo) and the datagram builder.  The theorems: the builder's
    packets are well formed and it panics exactly on payloads that do not
    fit an IPv4 packet (without overflow checks, some of these go out with a
    wrong length), the queues are FIFO and grow only within their caps, and a
    datagram sent by one stack is what a bound socket of another one reads. *)

From S2P Require Import Prelude Ip Handler.

(** ** Definitions *)

Definition UDP_HEADER_LEN : nat := 8.

Record UdpDatagram := mkUdpDatagram {
  dg_src_addr : u32;
  dg_src_port : u16;
  dg_data : bytes;
}.

Record UdpBinding := mkUdpBinding {
  recv_queue : list UdpDatagram;
  recv_queue_cap_bytes : usize;
}.

Definition DEFAULT_RECV_QUEUE_CAP_BYTES : usize := 65536.

Definition udp_binding_default : UdpBinding := mkUdpBinding [] DEFAULT_RECV_QUEUE_CAP_BYTES.

Record UdpTable := mkUdpTable { binds : gmap (u32 * u16) UdpBinding }.

Definition udp_new : UdpTable := mkUdpTable ∅.

Definition udp_bind (t : UdpTable) (addr : u32) (port : u16) (reuse_addr : bool)
    (recv_cap_bytes : usize) : bool * UdpTable :=
  let key := (addr, port) in
  if bool_decide (is_Some (t.(binds) !! key)) && negb reuse_addr then (false, t)
  else (true, mkUdpTable (<[key := mkUdpBinding [] recv_cap_bytes]> t.(binds))).

Definition udp_unbind (t : UdpTable) (key : u32 * u16) : UdpTable :=
  mkUdpTable (delete key t.(binds)).

Definition udp_set_recv_cap (t : UdpTable) (key : u32 * u16) (cap_bytes : usize) : UdpTable :=
  match t.(binds) !! key with
  | Some b => mkUdpTable (<[key := mkUdpBinding b.(recv_queue) cap_bytes]> t.(binds))
  | None => t
  end.

Definition udp_binding (t : UdpTable) (key : u32 * u16) : option UdpBinding :=
  t.(binds) !! key.

Definition udp_is_bound (t : UdpTable) (key : u32 * u16) : bool :=
  bool_decide (is_Some (t.(binds) !! key)).

Definition udp_recv (t : UdpTable) (key : u32 * u16) : option UdpDatagram * UdpTable :=
  match t.(binds) !! key with
  | Some b =>
      match b.(recv_queue) with
      | dg :: q => (Some dg, mkUdpTable (<[key := mkUdpBinding q b.(recv_queue_cap_bytes)]> t.(binds)))
      | [] => (None, t)
      end
  | None => (None, t)
  end.

(** The bytes a receive queue holds. *)
Definition queue_bytes (q : list UdpDatagram) : usize :=
  foldr (λ dg n, len dg.(dg_data) + n) 0 q.

Definition udp_deliver (t : UdpTable) (key : u32 * u16) (src_addr : u32) (src_port : u16)
    (data : bytes) : UdpTable :=
  match t.(binds) !! key with
  | None => t
  | Some binding =>
      let used := queue_bytes binding.(recv_queue) in
      if decide (binding.(recv_queue_cap_bytes) < used + len data) then t
      else mkUdpTable (<[key := mkUdpBinding
             (binding.(recv_queue) ++ [mkUdpDatagram src_addr src_port data])
             binding.(recv_queue_cap_bytes)]> t.(binds))
  end.

(** Writes into the 12-byte scratch slice it is given. *)
Definition build_pseudo_header (src_addr dst_addr : u32) (udp_length : u16) (out : bytes) : option bytes :=
  out ← copy_slice 0 4 (u32_to_be_bytes src_addr) out;
  out ← copy_slice 4 8 (u32_to_be_bytes dst_addr) out;
  out ← set_byte 8 0 out;
  out ← set_byte 9 17 out;
  copy_slice 10 12 (u16_to_be_bytes udp_length) out.

(** The writes into [udp_part = &mut scratch[12..]]. *)
Definition fill_udp_part (src_port dst_port : u16) (udp_len : u16) (data : bytes) (udp_part : bytes) : option bytes :=
  udp_part ← copy_slice 0 2 (u16_to_be_bytes src_port) udp_part;
  udp_part ← copy_slice 2 4 (u16_to_be_bytes dst_port) udp_part;
  udp_part ← copy_slice 4 6 (u16_to_be_bytes udp_len) udp_part;
  udp_part ← set_byte 6 0 udp_part;
  udp_part ← set_byte 7 0 udp_part;
  if bool_decide (data = []) then Some udp_part
  else copy_slice UDP_HEADER_LEN (length udp_part) data udp_part.

(** [a + b] on [u16]: with overflow checks (the debug profile) an overflow is
    a panic, without them (the release profile) the sum wraps. *)
Definition checked_add16 (a b : u16) : option u16 :=
  if decide (a + b < 2 ^ 16) then Some (a + b) else None.

Definition unchecked_add16 (a b : u16) : option u16 := Some (wadd16 a b).

(** The IP header of an outgoing datagram. *)
Definition udp_ip_header (src_addr dst_addr : u32) (total_length : u16) : IpHeader := {|
  ip_version := 4; ip_ihl := 5; ip_tos := 0; ip_total_length := total_length;
  ip_identification := 0; ip_flags := 0; ip_fragment_offset := 0; ip_ttl := 64;
  ip_protocol := 17; ip_header_checksum := 0; ip_src_addr := src_addr; ip_dst_addr := dst_addr;
|}.

(** [send_datagram] over the addition of the profile. *)
Definition send_datagram_with (add16 : u16 → u16 → option u16)
    (src_addr : u32) (src_port : u16) (dst_addr : u32) (dst_port : u16) (data : bytes) : M unit :=
  let udp_len := as_u16 (Z.of_nat (UDP_HEADER_LEN + length data)) in
  let scratch := vec_zero (12 + Z.to_nat udp_len) in
  scratch ← lift (on_subslice 0 12 (build_pseudo_header src_addr dst_addr udp_len) scratch);
  scratch ← lift (on_subslice 12 (length scratch) (fill_udp_part src_port dst_port udp_len data) scratch);
  csum ← lift (checksum16 scratch);
  scratch ← lift (copy_slice (12 + 6) (12 + 8) (u16_to_be_bytes csum) scratch);
  total_length ← lift (add16 (Z.of_nat IP_HEADER_LEN) udp_len);
  let hdr := udp_ip_header src_addr dst_addr total_length in
  packet ← lift (build_ip_header hdr (vec_zero (IP_HEADER_LEN + Z.to_nat udp_len)));
  packet ← lift (copy_slice IP_HEADER_LEN (length packet) (drop 12 scratch) packet);
  send_ip_packet packet.

Definition send_datagram := send_datagram_with checked_add16.

Definition send_datagram_release := send_datagram_with unchecked_add16.

Definition handle_datagram (t : UdpTable) (ip_hdr : IpHeader) (payload : bytes) : M UdpTable :=
  if decide (length payload < UDP_HEADER_LEN)%nat then mret t
  else
    let src_port := u16_from_be_bytes payload.[0] payload.[1] in
    let dst_port := u16_from_be_bytes payload.[2] payload.[3] in
    let data := drop UDP_HEADER_LEN payload in
    let key := (ip_hdr.(ip_dst_addr), dst_port) in
    if udp_is_bound t key then
      mret (udp_deliver t key ip_hdr.(ip_src_addr) src_port data)
    else
      _ ← send_datagram ip_hdr.(ip_dst_addr) dst_port ip_hdr.(ip_src_addr) src_port data;
      mret t.

(** ** Reference definitions *)

Definition udp_pseudo (src_addr dst_addr : u32) (udp_len : u16) : bytes :=
  u32_to_be_bytes src_addr ++ u32_to_be_bytes dst_addr ++ [0; 17] ++ u16_to_be_bytes udp_len.

(** Header and data with a given checksum field. *)
Definition udp_message (src_port dst_port : u16) (csum : u16) (data : bytes) : bytes :=
  u16_to_be_bytes src_port ++ u16_to_be_bytes dst_port ++ u16_to_be_bytes (8 + len data) ++
  u16_to_be_bytes csum ++ data.

Definition udp_csum (src_addr : u32) (src_port : u16) (dst_addr : u32) (dst_port : u16) (data : bytes) : u16 :=
  rfc1071 (udp_pseudo src_addr dst_addr (8 + len data) ++ udp_message src_port dst_port 0 data).

(** The packet [send_datagram] writes. *)
Definition udp_packet (src_addr : u32) (src_port : u16) (dst_addr : u32) (dst_port : u16) (data : bytes) : bytes :=
  ip_packet (udp_ip_header src_addr dst_addr (28 + len data))
            (udp_message src_port dst_port (udp_csum src_addr src_port dst_addr dst_port data) data).

(** ** Lemmas: building a datagram *)

Lemma udp_ip_header_ok s d n : is_u32 s → is_u32 d → is_u16 n → ip_header_ok (udp_ip_header s d n).
Proof. intros. unfold ip_header_ok. cbn. split_and!; auto; by_decide. Qed.

Lemma udp_message_ok sp dp c data : bytes_ok data → bytes_ok (udp_message sp dp c data).
Proof. intros. unfold udp_message. rewrite !bytes_ok_app. auto with minitcp. Qed.

Lemma udp_pseudo_ok s d n : bytes_ok (udp_pseudo s d n).
Proof.
  unfold udp_pseudo. rewrite !bytes_ok_app. split_and!; auto with minitcp. by_decide.
Qed.

Lemma len_udp_message sp dp c data : len (udp_message sp dp c data) = 8 + len data.
Proof. unfold udp_message, len. rewrite !length_app. cbn [length u16_to_be_bytes]. lia. Qed.

Lemma udp_csum_valid s sp d dp data : bytes_ok data →
  rfc1071 (udp_pseudo s d (8 + len data) ++
           udp_message sp dp (udp_csum s sp d dp data) data) = 0.
Proof.
  intros Hb.
  set (pre := udp_pseudo s d (8 + len data) ++ u16_to_be_bytes sp ++ u16_to_be_bytes dp ++
              u16_to_be_bytes (8 + len data)).
  assert (E : ∀ c, udp_pseudo s d (8 + len data) ++ udp_message sp dp c data =
                   pre ++ u16_to_be_bytes c ++ data)
    by (intros c; unfold pre, udp_message; by rewrite <- !app_assoc).
  unfold udp_csum. rewrite !E. apply (checksum_fill pre data); [|done|by exists 9%nat].
  unfold pre. rewrite !bytes_ok_app. split_and!; auto using udp_pseudo_ok with minitcp.
Qed.

Lemma build_pseudo_header_eq s d n :
  build_pseudo_header s d n (vec_zero 12) = Some (udp_pseudo s d n).
Proof. unfold build_pseudo_header, vec_zero. cbn [replicate]. do 5 buf_step. reflexivity. Qed.

Lemma fill_udp_part_eq sp dp data : is_u16 (8 + len data) →
  fill_udp_part sp dp (8 + len data) data (vec_zero (8 + length data)) =
    Some (udp_message sp dp 0 data).
Proof.
  intros Hl. unfold fill_udp_part, vec_zero, UDP_HEADER_LEN. cbn [replicate Nat.add]. do 5 buf_step.
  case_bool_decide as E.
  - rewrite E. reflexivity.
  - rewrite copy_slice_ok by buf_lia. cbn. rewrite ?drop_0, ?take_0. f_equal.
    cbn. rewrite drop_ge by (rewrite length_replicate; lia). by rewrite app_nil_r.
Qed.

(** The scratch buffer, step by step. *)
Lemma udp_scratch_pseudo s d n m :
  on_subslice 0 12 (build_pseudo_header s d n) (vec_zero (12 + m)) =
    Some (udp_pseudo s d n ++ vec_zero m).
Proof.
  rewrite vec_zero_app.
  apply (on_subslice_app _ [] (vec_zero 12) (vec_zero m)); [|done|done].
  apply build_pseudo_header_eq.
Qed.

Lemma udp_scratch_fill s d sp dp data : is_u16 (8 + len data) →
  let scratch := udp_pseudo s d (8 + len data) ++ vec_zero (8 + length data) in
  on_subslice 12 (length scratch) (fill_udp_part sp dp (8 + len data) data) scratch =
    Some (udp_pseudo s d (8 + len data) ++ udp_message sp dp 0 data).
Proof.
  intros Hl scratch. subst scratch. rewrite length_app, length_vec_zero.
  rewrite <- (app_nil_r (vec_zero _)), <- (app_nil_r (udp_message _ _ _ _)).
  apply on_subslice_app; [by apply fill_udp_part_eq|done|by rewrite length_vec_zero].
Qed.

Lemma udp_scratch_csum s d sp dp c data :
  copy_slice (12 + 6) (12 + 8) (u16_to_be_bytes c)
    (udp_pseudo s d (8 + len data) ++ udp_message sp dp 0 data) =
  Some (udp_pseudo s d (8 + len data) ++ udp_message sp dp c data).
Proof. apply copy_slice_ok. cbn. lia. Qed.

Lemma length_udp_message sp dp c data : length (udp_message sp dp c data) = (8 + length data)%nat.
Proof. pose proof (len_udp_message sp dp c data). unfold len in *. lia. Qed.

(** A datagram whose length fits its own field, up to the addition. *)
Lemma send_datagram_with_eq add16 s sp d dp data w :
  is_u32 s → is_u32 d → bytes_ok data → len data ≤ 65527 →
  (∀ n, add16 20 (8 + len data) = Some n → is_u16 n) →
  send_datagram_with add16 s sp d dp data w =
    match add16 20 (8 + len data) with
    | Some n => Some (tt, emit (ip_packet (udp_ip_header s d n)
                  (udp_message sp dp (udp_csum s sp d dp data) data)) w)
    | None => None
    end.
Proof.
  intros Hs Hd Hb Hl Hadd. pose proof (len_nonneg data).
  assert (Hu : as_u16 (Z.of_nat (UDP_HEADER_LEN + length data)) = 8 + len data).
  { rewrite as_u16_small; unfold uN, len, UDP_HEADER_LEN in *; lia. }
  assert (Hn : Z.to_nat (8 + len data) = (8 + length data)%nat) by (unfold len; lia).
  unfold send_datagram_with. rewrite Hu, Hn.
  erewrite bind_lift by apply udp_scratch_pseudo.
  erewrite bind_lift by (apply udp_scratch_fill; unfold uN; lia).
  erewrite bind_lift.
  2:{ apply checksum16_rfc.
      - apply bytes_ok_app. auto using udp_pseudo_ok, udp_message_ok.
      - rewrite len_app, len_udp_message. change (len (udp_pseudo _ _ _)) with 12. lia. }
  erewrite bind_lift by apply udp_scratch_csum. change (Z.of_nat IP_HEADER_LEN) with 20.
  destruct (add16 20 (8 + len data)) as [n|] eqn:E; [|done]. erewrite bind_lift by reflexivity.
  erewrite bind_lift by (apply ip_frame_build, udp_ip_header_ok; eauto).
  erewrite bind_lift.
  2:{ rewrite length_app, length_ip_header_bytes, length_vec_zero.
      change (drop 12 (udp_pseudo s d (8 + len data) ++ ?x)) with x.
      rewrite <- (length_udp_message sp dp (udp_csum s sp d dp data) data).
      apply ip_frame_copy. }
  reflexivity.
Qed.

Lemma checked_add16_range a b n : 0 ≤ a → 0 ≤ b → checked_add16 a b = Some n → is_u16 n.
Proof. intros Ha Hb. unfold checked_add16. case_decide; [|done]. intros [= <-]. unfold uN. lia. Qed.

Lemma send_datagram_eq s sp d dp data w :
  is_u32 s → is_u32 d → bytes_ok data → len data ≤ 65507 →
  send_datagram s sp d dp data w = Some (tt, emit (udp_packet s sp d dp data) w).
Proof.
  intros Hs Hd Hb Hl. pose proof (len_nonneg data). unfold send_datagram.
  rewrite send_datagram_with_eq; [|done|done|done|lia|intros n; apply checked_add16_range; lia].
  unfold checked_add16. rewrite decide_True by lia. unfold udp_packet.
  by replace (20 + (8 + len data)) with (28 + len data) by lia.
Qed.

(** A payload that does not fit makes one of the buffer writes, or the
    length addition, panic. *)
Lemma fill_udp_part_panics sp dp n data m :
  (m < 8 ∨ (data ≠ [] ∧ length data ≠ m - 8))%nat →
  fill_udp_part sp dp n data (vec_zero m) = None.
Proof.
  intros H. unfold fill_udp_part, UDP_HEADER_LEN, vec_zero.
  destruct (decide (m < 8)%nat) as [Hm|Hm].
  - do 8 (destruct m as [|m]; [reflexivity|]). lia.
  - destruct H as [?|[Hne Hl]]; [lia|].
    do 8 (destruct m as [|m]; [lia|]). cbn [replicate]. do 5 buf_step.
    rewrite bool_decide_eq_false_2 by done. apply copy_slice_panics. left.
    cbn in *. rewrite ?drop_0, ?take_0, ?length_replicate. lia.
Qed.

Lemma on_subslice_None f a mid i j :
  f mid = None → i = length a → j = (length a + length mid)%nat →
  on_subslice i j f (a ++ mid) = None.
Proof.
  intros Hf -> ->. unfold on_subslice, slice. case_decide; [|done].
  rewrite drop_app_length, (take_ge mid) by lia. by rewrite Hf.
Qed.

(** A length that does not fit its field is cut, and the copy panics. *)
Lemma send_datagram_with_panics add16 s sp d dp data w :
  65527 < len data → send_datagram_with add16 s sp d dp data w = None.
Proof.
  intros Hl. unfold send_datagram_with. set (udp_len := as_u16 _).
  erewrite bind_lift by apply udp_scratch_pseudo.
  rewrite on_subslice_None; [reflexivity| |done|by rewrite length_app].
  apply fill_udp_part_panics. right. split.
  - intros ->. unfold len in *. cbn in *. lia.
  - pose proof (as_u16_u16 (Z.of_nat (UDP_HEADER_LEN + length data))) as Hm.
    fold udp_len in Hm. clearbody udp_len. unfold uN, len in *. lia.
Qed.

Lemma send_datagram_oversize s sp d dp data w :
  is_u32 s → is_u32 d → bytes_ok data → 65507 < len data →
  send_datagram s sp d dp data w = None.
Proof.
  intros Hs Hd Hb Hl. unfold send_datagram.
  destruct (decide (len data ≤ 65527)); [|apply send_datagram_with_panics; lia].
  rewrite send_datagram_with_eq; [|done|done|done|done|intros n; apply checked_add16_range; lia].
  unfold checked_add16. by rewrite decide_False by lia.
Qed.

(** ** Lemmas: the table *)

Lemma queue_bytes_app q1 q2 : queue_bytes (q1 ++ q2) = queue_bytes q1 + queue_bytes q2.
Proof. unfold queue_bytes. induction q1 as [|dg q1 IH]; cbn [foldr app]; lia. Qed.

Lemma queue_bytes_nonneg q : 0 ≤ queue_bytes q.
Proof.
  unfold queue_bytes. induction q as [|dg q IH]; cbn [foldr]; [lia|].
  pose proof (len_nonneg (dg_data dg)). lia.
Qed.

(** The queue of an address, empty when nothing is bound there. *)
Definition queue_of (t : UdpTable) (key : u32 * u16) : list UdpDatagram :=
  default [] (recv_queue <$> t.(binds) !! key).

(** Whether [udp_deliver] would keep a datagram. *)
Definition fits (t : UdpTable) (key : u32 * u16) (data : bytes) : bool :=
  match t.(binds) !! key with
  | Some b => bool_decide (queue_bytes b.(recv_queue) + len data ≤ b.(recv_queue_cap_bytes))
  | None => false
  end.

Lemma queue_of_insert t k b k' :
  queue_of (mkUdpTable (<[k := b]> t.(binds))) k' =
    if decide (k = k') then b.(recv_queue) else queue_of t k'.
Proof. unfold queue_of. cbn. rewrite lookup_insert. by case_decide. Qed.

Lemma queue_of_deliver t key s sp data k :
  queue_of (udp_deliver t key s sp data) k =
    queue_of t k ++ (if decide (key = k) then
                       if fits t key data then [mkUdpDatagram s sp data] else []
                     else []).
Proof.
  unfold udp_deliver, fits. destruct (binds t !! key) as [b|] eqn:E.
  - case_decide as H1; [rewrite bool_decide_eq_false_2 by lia; repeat case_decide; by rewrite app_nil_r|].
    rewrite bool_decide_eq_true_2 by lia. rewrite queue_of_insert.
    case_decide; subst; [|by rewrite app_nil_r]. unfold queue_of. by rewrite E.
  - repeat case_decide; by rewrite app_nil_r.
Qed.

Lemma queue_of_recv t key k :
  queue_of t k = (if decide (key = k) then option_list (udp_recv t key).1 else []) ++
                 queue_of (udp_recv t key).2 k.
Proof.
  unfold udp_recv. destruct (binds t !! key) as [b|] eqn:E; [|by case_decide].
  destruct (recv_queue b) as [|dg q] eqn:Eq; cbn; [by case_decide|].
  rewrite queue_of_insert. case_decide; subst; cbn; [|done]. unfold queue_of. by rewrite E, <- Eq.
Qed.

(** *** Runs of deliveries and reads, in any interleaving over all keys *)

Inductive udp_op :=
  | OpDeliver (key : u32 * u16) (src_addr : u32) (src_port : u16) (data : bytes)
  | OpRecv (key : u32 * u16).

Definition udp_step (t : UdpTable) (o : udp_op) : UdpTable :=
  match o with
  | OpDeliver key s sp data => udp_deliver t key s sp data
  | OpRecv key => (udp_recv t key).2
  end.

(** What the reads of [k] returned during a run, in order. *)
Fixpoint received (k : u32 * u16) (t : UdpTable) (ops : list udp_op) : list UdpDatagram :=
  match ops with
  | [] => []
  | o :: ops' =>
      match o with
      | OpRecv key => if decide (key = k) then option_list (udp_recv t key).1 else []
      | _ => []
      end ++ received k (udp_step t o) ops'
  end.

(** The datagrams for [k] that fitted its queue when they arrived, in order. *)
Fixpoint accepted (k : u32 * u16) (t : UdpTable) (ops : list udp_op) : list UdpDatagram :=
  match ops with
  | [] => []
  | o :: ops' =>
      match o with
      | OpDeliver key s sp data =>
          if decide (key = k) then if fits t key data then [mkUdpDatagram s sp data] else [] else []
      | _ => []
      end ++ accepted k (udp_step t o) ops'
  end.

(** What [n] reads of an address return. *)
Fixpoint recv_n (n : nat) (t : UdpTable) (key : u32 * u16) : list UdpDatagram :=
  match n with
  | O => []
  | S n' => let '(dg, t') := udp_recv t key in option_list dg ++ recv_n n' t' key
  end.

Lemma recv_n_spec n t key : recv_n n t key = take n (queue_of t key).
Proof.
  revert t. induction n as [|n IH]; intros t; cbn [recv_n]; [done|]. unfold udp_recv.
  assert (E : queue_of t key = default [] (recv_queue <$> binds t !! key)) by done.
  destruct (binds t !! key) as [b|]; [destruct (recv_queue b) as [|dg q] eqn:Eq|]; cbn in E |- *.
  - by rewrite IH, E, Eq, !take_nil.
  - rewrite IH, queue_of_insert, decide_True by done. by rewrite E, Eq.
  - by rewrite IH, E, !take_nil.
Qed.

Lemma udp_deliver_frame t key s sp data k :
  k ≠ key → (udp_deliver t key s sp data).(binds) !! k = t.(binds) !! k.
Proof.
  intros Hk. unfold udp_deliver. destruct (binds t !! key) as [b|]; [|done]. case_decide; [done|].
  by apply lookup_insert_ne.
Qed.

(** The handler on any payload an IPv4 packet can carry. *)
Lemma handle_datagram_eq t h payload w :
  ip_header_ok h → bytes_ok payload → len payload ≤ 65515 →
  handle_datagram t h payload w =
    Some (if decide (length payload < 8)%nat then (t, w) else
      let sp := u16_from_be_bytes payload.[0] payload.[1] in
      let dp := u16_from_be_bytes payload.[2] payload.[3] in
      let data := drop 8 payload in
      if udp_is_bound t (ip_dst_addr h, dp)
      then (udp_deliver t (ip_dst_addr h, dp) (ip_src_addr h) sp data, w)
      else (t, emit (udp_packet (ip_dst_addr h) dp (ip_src_addr h) sp data) w)).
Proof.
  intros (_ & _ & _ & _ & _ & _ & _ & _ & _ & Hs & Hd) Hb Hl.
  unfold handle_datagram, UDP_HEADER_LEN. case_decide; [done|]. cbv zeta.
  case_match; [done|]. erewrite bind_Some; [reflexivity|].
  apply send_datagram_eq; auto with minitcp. unfold len in *. rewrite length_drop. lia.
Qed.

(** The handler as the dispatcher sees it. *)
Global Instance udp_handler : PacketHandler (λ _, True) handle_datagram.
Proof.
  intros t h payload w _ Hh Hb Hl. eexists _, _. split.
  - rewrite handle_datagram_eq by done. by rewrite (surjective_pairing (if decide _ then _ else _)).
  - split; [done|]. case_decide; [done|]. cbv zeta. destruct (udp_is_bound _ _); [done|apply emit_ext].
Qed.

(** ** Theorems *)

(** C30: sending a datagram of at most 65507 bytes writes exactly one packet,
    addressed to the destination, whose IP header verifies and has protocol
    17 and the packet's length, whose UDP header carries the ports and the
    length, whose checksum over pseudo-header and message is valid, and which
    ends in the data; a larger payload panics. *)
Theorem send_datagram_wellformed (s : u32) (sp : u16) (d : u32) (dp : u16) (data : bytes) (w : World) :
  is_u32 s → is_u16 sp → is_u32 d → is_u16 dp → bytes_ok data →
  if decide (len data ≤ 65507) then
    ∃ p r, send_datagram s sp d dp data w = Some (tt, emit p w) ∧
      verify_ip_checksum p = Some true ∧ parse_ip_header p = Some r ∧
      ip_src_addr r = s ∧ ip_dst_addr r = d ∧ ip_protocol r = 17 ∧ ip_total_length r = len p ∧
      slice 20 26 p = u16_to_be_bytes sp ++ u16_to_be_bytes dp ++ u16_to_be_bytes (8 + len data) ∧
      checksum16 (udp_pseudo s d (8 + len data) ++ drop 20 p) = Some 0 ∧
      drop 28 p = data
  else send_datagram s sp d dp data w = None.
Proof.
  intros Hs Hsp Hd Hdp Hb. case_decide as Hl; [|apply send_datagram_oversize; auto; lia].
  pose proof (len_nonneg data). set (h := udp_ip_header s d (28 + len data)).
  assert (Hh : ip_header_ok h) by (apply udp_ip_header_ok; unfold uN; auto; lia).
  exists (udp_packet s sp d dp data), (with_checksum (ip_csum h) h).
  unfold udp_packet. fold h. split_and!; try reflexivity.
  - by apply send_datagram_eq.
  - apply ip_packet_verifies; auto using udp_message_ok.
  - by apply ip_packet_parses.
  - unfold ip_packet. rewrite len_app, len_udp_message. change (len (ip_header_bytes _ _)) with 20.
    cbn [ip_total_length with_checksum h udp_ip_header]. lia.
  - rewrite ip_packet_body. rewrite checksum16_rfc; [by rewrite udp_csum_valid| |].
    + apply bytes_ok_app. auto using udp_pseudo_ok, udp_message_ok.
    + rewrite len_app, len_udp_message. change (len (udp_pseudo _ _ _)) with 12. lia.
Qed.

Definition quiet_world : World := mkWorld (λ _, 0) 0 (λ _, 0) 0 (λ _, None) 0 (λ _, 0%nat) 0 [].

Theorem send_datagram_wellformed_witness :
  send_datagram 0x0A0B0001 9001 0x0A0B0002 41001 [0x70; 0x69; 0x6e; 0x67] quiet_world ≠ None.
Proof.
  pose proof (send_datagram_wellformed 0x0A0B0001 9001 0x0A0B0002 41001
                [0x70; 0x69; 0x6e; 0x67] quiet_world) as H.
  rewrite decide_True in H by (vm_compute; discriminate).
  destruct H as (p & r & -> & _); [by_decide..|discriminate].
Defined.

(** C31: a bound socket's queue is FIFO: over any interleaving of arrivals and
    reads on any addresses, what was read for an address followed by what is
    still queued is what was queued at the start followed by the datagrams
    that fitted, in arrival order. *)
Theorem udp_queue_fifo (k : u32 * u16) (t : UdpTable) (ops : list udp_op) :
  received k t ops ++ queue_of (foldl udp_step t ops) k = queue_of t k ++ accepted k t ops.
Proof.
  revert t. induction ops as [|o ops IH]; intros t; cbn [received accepted foldl].
  - by rewrite app_nil_r.
  - rewrite <- app_assoc, IH. destruct o as [key s sp data|key]; cbn [udp_step app].
    + rewrite queue_of_deliver. by rewrite <- app_assoc.
    + rewrite app_assoc. f_equal. symmetry. apply queue_of_recv.
Qed.

(** *** Runs of the table *)

Inductive udp_call :=
  | UBind (addr : u32) (port : u16) (reuse_addr : bool) (cap : usize)
  | UUnbind (key : u32 * u16)
  | URecv (key : u32 * u16)
  | USetCap (key : u32 * u16) (cap : usize)
  | UHandle (h : IpHeader) (payload : bytes).

(** Argument types; a payload an IPv4 packet can carry. *)
Definition udp_call_ok (c : udp_call) : Prop :=
  match c with
  | UBind _ _ _ cap | USetCap _ cap => 0 ≤ cap
  | UHandle h payload => ip_header_ok h ∧ bytes_ok payload ∧ len payload ≤ 65515
  | _ => True
  end.

Definition udp_exec (t : UdpTable) (c : udp_call) : M UdpTable :=
  match c with
  | UBind addr port reuse cap => mret (udp_bind t addr port reuse cap).2
  | UUnbind key => mret (udp_unbind t key)
  | URecv key => mret (udp_recv t key).2
  | USetCap key cap => mret (udp_set_recv_cap t key cap)
  | UHandle h payload => handle_datagram t h payload
  end.

Fixpoint udp_run (t : UdpTable) (cs : list udp_call) : M UdpTable :=
  match cs with
  | [] => mret t
  | c :: cs => t ← udp_exec t c; udp_run t cs
  end.

(** The cap a call asks for, for an address. *)
Definition cap_given (key : u32 * u16) (c : udp_call) : usize :=
  match c with
  | UBind addr port _ cap => if decide ((addr, port) = key) then cap else 0
  | USetCap k cap => if decide (k = key) then cap else 0
  | _ => 0
  end.

(** The largest cap an address was ever given. *)
Definition peak_cap (key : u32 * u16) (cs : list udp_call) : usize :=
  foldl (λ m c, Z.max m (cap_given key c)) 0 cs.

(** What one call does to one binding: it is new and empty; or it is the old
    one with a datagram that fits, with less queued, or with another cap. *)
Inductive binding_step (t : UdpTable) (key : u32 * u16) (c : udp_call) (b' : UdpBinding) : Prop :=
  | BindingFresh :
      b'.(recv_queue) = [] → b'.(recv_queue_cap_bytes) = cap_given key c → binding_step t key c b'
  | BindingGrown b :
      t.(binds) !! key = Some b → b'.(recv_queue_cap_bytes) = b.(recv_queue_cap_bytes) →
      queue_bytes b'.(recv_queue) ≤ b'.(recv_queue_cap_bytes) → binding_step t key c b'
  | BindingShrunk b :
      t.(binds) !! key = Some b → b'.(recv_queue_cap_bytes) = b.(recv_queue_cap_bytes) →
      b'.(recv_queue) `suffix_of` b.(recv_queue) → binding_step t key c b'
  | BindingCapped b :
      t.(binds) !! key = Some b → c = USetCap key b'.(recv_queue_cap_bytes) →
      b'.(recv_queue) = b.(recv_queue) → binding_step t key c b'.

(** A binding the call did not touch. *)
Lemma binding_same t key c b : t.(binds) !! key = Some b → binding_step t key c b.
Proof. intros. by eapply BindingShrunk. Qed.

Lemma udp_deliver_step t key s sp data c k b' :
  (udp_deliver t key s sp data).(binds) !! k = Some b' → binding_step t k c b'.
Proof.
  unfold udp_deliver. destruct (binds t !! key) as [b|] eqn:E; [|apply binding_same].
  case_decide; [apply binding_same|]. cbn. rewrite lookup_insert_Some. intros [[<- <-]|[_ ?]]; [|by apply binding_same].
  eapply BindingGrown; [done|done|]. cbn. rewrite queue_bytes_app. cbn. lia.
Qed.

Lemma udp_exec_step t c w t' w' key b' :
  udp_call_ok c → udp_exec t c w = Some (t', w') → t'.(binds) !! key = Some b' → binding_step t key c b'.
Proof.
  intros Hc E Hb. destruct c as [addr port reuse cap|k|k|k cap|h payload]; cbn in Hc, E.
  - injection E as <- <-. unfold udp_bind in Hb. destruct (_ && _); [by apply binding_same|].
    cbn in Hb. apply lookup_insert_Some in Hb as [[<- <-]|[_ ?]]; [|by apply binding_same].
    apply BindingFresh; [done|]. cbn. by rewrite decide_True.
  - injection E as <- <-. cbn in Hb. apply lookup_delete_Some in Hb as [_ ?]. by apply binding_same.
  - injection E as <- <-. unfold udp_recv in Hb. destruct (binds t !! k) as [b|] eqn:Ek; [|by apply binding_same].
    destruct (recv_queue b) as [|dg q] eqn:Eq; [by apply binding_same|]. cbn in Hb.
    apply lookup_insert_Some in Hb as [[<- <-]|[_ ?]]; [|by apply binding_same].
    eapply BindingShrunk; [done|done|]. rewrite Eq. by exists [dg].
  - injection E as <- <-. unfold udp_set_recv_cap in Hb. destruct (binds t !! k) as [b|] eqn:Ek; [|by apply binding_same].
    cbn in Hb. apply lookup_insert_Some in Hb as [[<- <-]|[_ ?]]; [|by apply binding_same]. by eapply BindingCapped.
  - destruct Hc as (Hh & Hp & Hl). rewrite handle_datagram_eq in E by done. cbv zeta in E.
    repeat case_match; injection E as <- <-; try (by apply binding_same). by eapply udp_deliver_step.
Qed.

Lemma queue_bytes_suffix q q' : q `suffix_of` q' → queue_bytes q ≤ queue_bytes q'.
Proof. intros [k ->]. rewrite queue_bytes_app. pose proof (queue_bytes_nonneg k). lia. Qed.

(** Caps and queues stay below what was asked for. *)
Definition below (peak : u32 * u16 → usize) (t : UdpTable) : Prop :=
  ∀ key b, t.(binds) !! key = Some b →
    b.(recv_queue_cap_bytes) ≤ peak key ∧ queue_bytes b.(recv_queue) ≤ peak key.

Lemma udp_exec_below peak t c w t' w' :
  udp_call_ok c → (∀ key, 0 ≤ peak key) → below peak t → udp_exec t c w = Some (t', w') →
  below (λ key, Z.max (peak key) (cap_given key c)) t'.
Proof.
  intros Hc H0 Ht E key b' Hb'. specialize (H0 key). destruct (udp_exec_step _ _ _ _ _ _ _ Hc E Hb') as
    [Hq ->|b Hb -> Hq|b Hb -> Hq|b Hb -> Hq]; try (destruct (Ht key b Hb)).
  - rewrite Hq. cbn [queue_bytes foldr]. lia.
  - lia.
  - apply queue_bytes_suffix in Hq. lia.
  - rewrite Hq. cbn [cap_given]. rewrite decide_True by done. lia.
Qed.

Lemma udp_exec_total t c w : udp_call_ok c → ∃ t' w', udp_exec t c w = Some (t', w').
Proof.
  destruct c as [| | | |h payload]; cbn; [by eexists _, _..|]. intros (? & ? & ?). rewrite handle_datagram_eq by done.
  by rewrite (surjective_pairing (if decide _ then _ else _)); eexists _, _.
Qed.

Lemma udp_run_below peak t cs w :
  Forall udp_call_ok cs → (∀ key, 0 ≤ peak key) → below peak t →
  ∃ t' w', udp_run t cs w = Some (t', w') ∧
    below (λ key, foldl (λ m c, Z.max m (cap_given key c)) (peak key) cs) t'.
Proof.
  intros Hcs. revert peak t w. induction Hcs as [|c cs Hc _ IH]; intros peak t w H0 Ht; cbn [udp_run foldl]; [by exists t, w|].
  destruct (udp_exec_total t c w Hc) as (t1 & w1 & E).
  destruct (IH (λ key, Z.max (peak key) (cap_given key c)) t1 w1) as (t' & w' & E' & Hb);
    [intros key; specialize (H0 key); lia|by eapply udp_exec_below|].
  exists t', w'. split; [by erewrite bind_Some by exact E|done].
Qed.

(** C32: the receive queues and SO_RCVBUF.  After any calls and datagrams on a
    fresh table a queue holds at most the largest cap its address was given;
    and whatever comes next, the queue is within its current cap afterwards,
    unless nothing was added to it and either it was over this cap already or
    the call was the one that lowered the cap.  (A cap below what is queued
    drops nothing, so the queue can be over it until it is read.) *)
Theorem udp_cap_invariant (cs : list udp_call) (w : World) :
  Forall udp_call_ok cs →
  ∃ t w', udp_run udp_new cs w = Some (t, w') ∧
    (∀ key b, t.(binds) !! key = Some b → queue_bytes b.(recv_queue) ≤ peak_cap key cs) ∧
    (∀ c, udp_call_ok c → ∃ t2 w2, udp_exec t c w' = Some (t2, w2) ∧
       ∀ key b2, t2.(binds) !! key = Some b2 →
         queue_bytes b2.(recv_queue) ≤ b2.(recv_queue_cap_bytes) ∨
         ∃ b, t.(binds) !! key = Some b ∧ b2.(recv_queue) `suffix_of` b.(recv_queue) ∧
           (b2.(recv_queue_cap_bytes) < queue_bytes b.(recv_queue)) ∧
           (b.(recv_queue_cap_bytes) = b2.(recv_queue_cap_bytes) ∨ c = USetCap key b2.(recv_queue_cap_bytes))).
Proof.
  intros Hcs. destruct (udp_run_below (λ _, 0) udp_new cs w Hcs) as (t & w' & E & Ht); [done|by intros key b|].
  exists t, w'. split_and!; [done|intros key b Hb; apply (Ht key b Hb)|].
  intros c Hc. destruct (udp_exec_total t c w' Hc) as (t2 & w2 & E2). exists t2, w2. split; [done|]. intros key b2 Hb2.
  destruct (Z.le_gt_cases (queue_bytes (recv_queue b2)) (recv_queue_cap_bytes b2)) as [?|Hover]; [by left|right].
  destruct (udp_exec_step _ _ _ _ _ _ _ Hc E2 Hb2) as [Hq Hcap|b Hb Hcap Hq|b Hb Hcap Hq|b Hb -> Hq].
  - rewrite Hq, Hcap in Hover. cbn [queue_bytes foldr] in Hover. destruct c; cbn in Hc, Hover; repeat case_decide; lia.
  - lia.
  - exists b. pose proof (queue_bytes_suffix _ _ Hq). split_and!; [done|done|lia|by left].
  - exists b. rewrite Hq in *. split_and!; [done|done|lia|by right].
Qed.

(** Five bytes queued under a cap of 10, which is then lowered to 4. *)
Theorem udp_cap_invariant_witness :
  ∃ t w' b, udp_run udp_new [UBind 1 9000 false 10; UHandle (udp_ip_header 2 1 33) (udp_message 7 9000 0 [1; 2; 3; 4; 5]);
      USetCap (1, 9000) 4; UHandle (udp_ip_header 2 1 29) (udp_message 7 9000 0 [6])] quiet_world = Some (t, w') ∧
    t.(binds) !! (1, 9000) = Some b ∧ b.(recv_queue_cap_bytes) = 4 ∧ queue_bytes b.(recv_queue) = 5 ∧
    queue_bytes b.(recv_queue) ≤ 10.
Proof.
  destruct (udp_cap_invariant [UBind 1 9000 false 10; UHandle (udp_ip_header 2 1 33) (udp_message 7 9000 0 [1; 2; 3; 4; 5]);
      USetCap (1, 9000) 4; UHandle (udp_ip_header 2 1 29) (udp_message 7 9000 0 [6])] quiet_world)
    as (t & w' & E & H & _).
  { repeat constructor; by_decide. }
  exists t, w', (mkUdpBinding [mkUdpDatagram 2 7 [1; 2; 3; 4; 5]] 4). pose proof E as E0.
  vm_compute in E0. injection E0 as <- <-. split; [exact E|]. split; [reflexivity|]. split; [reflexivity|].
  split; [reflexivity|]. exact (H (1, 9000) _ eq_refl).
Defined.

(** The datagram of a packet, at its destination. *)
Lemma datagram_arrives s sp d dp data :
  is_u32 s → is_u16 sp → is_u32 d → is_u16 dp → bytes_ok data → len data ≤ 65507 →
  let p := udp_packet s sp d dp data in
  ∃ h, parse_ip_header p = Some h ∧
    ∀ t w, handle_datagram t h (drop 20 p) w =
      Some (if udp_is_bound t (d, dp) then (udp_deliver t (d, dp) s sp data, w)
            else (t, emit (udp_packet d dp s sp data) w)).
Proof.
  intros Hs Hsp Hd Hdp Hb Hl p. pose proof (len_nonneg data).
  set (h := udp_ip_header s d (28 + len data)).
  assert (Hh : ip_header_ok h) by (apply udp_ip_header_ok; unfold uN; auto; lia).
  exists (with_checksum (ip_csum h) h). split; [by apply ip_packet_parses|].
  intros t w. unfold p, udp_packet. fold h. rewrite ip_packet_body. rewrite handle_datagram_eq.
  - rewrite decide_False by (rewrite length_udp_message; lia). cbn. by rewrite !u16_be_roundtrip, drop_0 by done.
  - exact Hh.
  - by apply udp_message_ok.
  - rewrite len_udp_message. lia.
Qed.

(** A delivered datagram is read after what was queued before it. *)
Lemma deliver_then_recv t key b s sp data :
  t.(binds) !! key = Some b →
  recv_n (S (length b.(recv_queue))) (udp_deliver t key s sp data) key =
    b.(recv_queue) ++ (if decide (queue_bytes b.(recv_queue) + len data ≤ b.(recv_queue_cap_bytes))
                       then [mkUdpDatagram s sp data] else []).
Proof.
  intros Hb. rewrite recv_n_spec, queue_of_deliver, decide_True by done. unfold fits, queue_of. rewrite Hb. cbn.
  case_bool_decide; case_decide; try done; apply take_ge; rewrite length_app; cbn; lia.
Qed.

(** C24: a datagram from end to end.  The packet written by [send_datagram]
    parses, and when a peer handles it: if a socket is bound to the
    destination, reading there returns what was queued before and then
    exactly (sender address, sender port, data), provided the datagram fits
    the queue, and only what was queued before when it does not; other
    bindings are untouched and nothing is sent.  With no such socket one
    packet goes back, and a socket bound to the sender's own address and port
    with an empty queue reads the same data from it, coming from the
    destination. *)
Theorem udp_end_to_end (s : u32) (sp : u16) (d : u32) (dp : u16) (data : bytes) (w : World) :
  is_u32 s → is_u16 sp → is_u32 d → is_u16 dp → bytes_ok data → len data ≤ 65507 →
  ∃ p h, send_datagram s sp d dp data w = Some (tt, emit p w) ∧ parse_ip_header p = Some h ∧
    ∀ t w',
      match t.(binds) !! (d, dp) with
      | Some b =>
          ∃ t', handle_datagram t h (drop 20 p) w' = Some (t', w') ∧
            recv_n (S (length b.(recv_queue))) t' (d, dp) =
              b.(recv_queue) ++ (if decide (queue_bytes b.(recv_queue) + len data ≤ b.(recv_queue_cap_bytes))
                                 then [mkUdpDatagram s sp data] else []) ∧
            ∀ k, k ≠ (d, dp) → t'.(binds) !! k = t.(binds) !! k
      | None =>
          ∃ p' h', handle_datagram t h (drop 20 p) w' = Some (t, emit p' w') ∧ parse_ip_header p' = Some h' ∧
            ∀ t2 w2 b2, t2.(binds) !! (s, sp) = Some b2 → b2.(recv_queue) = [] → len data ≤ b2.(recv_queue_cap_bytes) →
              ∃ t2', handle_datagram t2 h' (drop 20 p') w2 = Some (t2', w2) ∧
                (udp_recv t2' (s, sp)).1 = Some (mkUdpDatagram d dp data)
      end.
Proof.
  intros Hs Hsp Hd Hdp Hb Hl.
  destruct (datagram_arrives s sp d dp data) as (h & Hh & E); auto.
  destruct (datagram_arrives d dp s sp data) as (h' & Hh' & E'); auto.
  exists (udp_packet s sp d dp data), h. split_and!; [by apply send_datagram_eq|done|]. intros t w'.
  specialize (E t w'). unfold udp_is_bound in E. destruct (binds t !! (d, dp)) as [b|] eqn:Et.
  - eexists. split; [exact E|]. split; [by apply deliver_then_recv|]. intros k Hk. by apply udp_deliver_frame.
  - exists (udp_packet d dp s sp data), h'. split_and!; [exact E|done|]. intros t2 w2 b2 Hb2 Hq Hcap.
    specialize (E' t2 w2). unfold udp_is_bound in E'. rewrite Hb2 in E'. eexists. split; [exact E'|].
    pose proof (deliver_then_recv t2 (s, sp) b2 d dp data Hb2) as Hr. rewrite Hq, decide_True in Hr by (cbn; lia). cbn in Hr.
    destruct (udp_recv _ _) as [[dg|] t3]; cbn in Hr |- *; [by injection Hr as ->|done].
Qed.

Theorem udp_end_to_end_witness :
  ∃ p h t', send_datagram 0x0A0B0001 9001 0x0A0B0002 41001 [0x70] quiet_world
           = Some (tt, emit p quiet_world) ∧
    handle_datagram (udp_bind udp_new 0x0A0B0002 41001 false 10).2 h (drop 20 p) quiet_world = Some (t', quiet_world) ∧
    recv_n 1 t' (0x0A0B0002, 41001) = [mkUdpDatagram 0x0A0B0001 9001 [0x70]].
Proof.
  destruct (udp_end_to_end 0x0A0B0001 9001 0x0A0B0002 41001 [0x70] quiet_world)
    as (p & h & H1 & _ & H2).
  1-5: by_decide.
  - vm_compute. discriminate.
  - destruct (H2 (udp_bind udp_new 0x0A0B0002 41001 false 10).2 quiet_world) as (t' & E & Hr & _).
    exists p, h, t'. split; [exact H1|]. split; [exact E|]. exact Hr.
Defined.

(** The release profile.  Up to 65507 bytes [send_datagram] is the same; from
    there to 65527 it does not panic but writes a packet whose total length
    field is 65536 short of its size; beyond, it panics all the same. *)
Theorem release_datagram_length_wraps (s : u32) (sp : u16) (d : u32) (dp : u16) (data : bytes) (w : World) :
  is_u32 s → is_u32 d → bytes_ok data →
  (len data ≤ 65507 → send_datagram_release s sp d dp data w = send_datagram s sp d dp data w) ∧
  (65507 < len data ≤ 65527 → ∃ p r, send_datagram_release s sp d dp data w = Some (tt, emit p w) ∧
     parse_ip_header p = Some r ∧ len p = 28 + len data ∧ ip_total_length r = len p - 65536) ∧
  (65527 < len data → send_datagram_release s sp d dp data w = None).
Proof.
  intros Hs Hd Hb. pose proof (len_nonneg data) as H0.
  assert (Hadd : is_u16 (wadd16 20 (8 + len data))) by (unfold wadd16, uN; apply Z.mod_pos_bound; lia).
  set (h := udp_ip_header s d (wadd16 20 (8 + len data))).
  assert (E : len data ≤ 65527 → send_datagram_release s sp d dp data w =
    Some (tt, emit (ip_packet h (udp_message sp dp (udp_csum s sp d dp data) data)) w)).
  { intros Hl. unfold send_datagram_release. rewrite send_datagram_with_eq; auto. by intros n [= <-]. }
  split_and!; [intros Hl|intros Hl|apply send_datagram_with_panics].
  - rewrite E, send_datagram_eq by (auto || lia). unfold h, udp_packet, wadd16. rewrite Z.mod_small by lia.
    by replace (20 + (8 + len data)) with (28 + len data) by lia.
  - assert (Hh : ip_header_ok h) by (by apply udp_ip_header_ok).
    eexists _, (with_checksum (ip_csum h) h). split; [apply E; lia|]. split; [by apply ip_packet_parses|].
    unfold ip_packet. rewrite len_app, len_udp_message. change (len (ip_header_bytes _ _)) with 20.
    split; [lia|]. cbn [ip_total_length with_checksum h udp_ip_header]. unfold wadd16.
    rewrite <- (Z.mod_unique_pos (20 + (8 + len data)) (2 ^ 16) 1 (20 + (8 + len data) - 65536)); lia.
Qed.
