(* ===== verification/TcpSegment.v ===== *)
(** * TCP segments ([src/tcp.rs], lines 1-128 and 215-240)

    Constants, the header with its parser and builder, the checksum with
    its pseudo-header, the connection states and the connection key.  The
    theorems: header round trip, and a segment framed the way the stack
    frames it passes the receiver's checksum test and parses back. *)

From S2P Require Import Prelude Ip.

(** ** Definitions *)

Definition TCP_FIN : u8 := 0x01.
Definition TCP_SYN : u8 := 0x02.
Definition TCP_RST : u8 := 0x04.
Definition TCP_PSH : u8 := 0x08.
Definition TCP_ACK : u8 := 0x10.
Definition TCP_URG : u8 := 0x20.

Definition TCP_HEADER_LEN : nat := 20.

Definition MSS : usize := 1400.

(** Durations are nanoseconds. *)
Definition from_millis (ms : Z) : Duration := ms * 1000000.
Definition from_secs (s : Z) : Duration := s * 1000000000.

Definition INITIAL_RTO : Duration := from_millis 500.
Definition MAX_RTO : Duration := from_millis 8000.
Definition MAX_RETRIES : u32 := 6.
Definition TIME_WAIT_DURATION : Duration := from_secs 4.

Definition DEFAULT_RECV_BUFFER_CAP : usize := 65536.
Definition DEFAULT_SEND_BUFFER_CAP : usize := Z.shiftl 1 20.

Record TcpHeader := mkTcpHeader {
  th_src_port : u16;
  th_dst_port : u16;
  th_seq_num : u32;
  th_ack_num : u32;
  th_data_offset_reserved : u8;
  th_flags : u8;
  th_window : u16;
  th_checksum : u16;
  th_urgent_ptr : u16;
}.

Definition parse_tcp_header (bytes : bytes) : option TcpHeader :=
  if decide (length bytes < TCP_HEADER_LEN)%nat then None
  else Some {|
    th_src_port := u16_from_be_bytes bytes.[0] bytes.[1];
    th_dst_port := u16_from_be_bytes bytes.[2] bytes.[3];
    th_seq_num := u32_from_be_bytes bytes.[4] bytes.[5] bytes.[6] bytes.[7];
    th_ack_num := u32_from_be_bytes bytes.[8] bytes.[9] bytes.[10] bytes.[11];
    th_data_offset_reserved := bytes.[12];
    th_flags := bytes.[13];
    th_window := u16_from_be_bytes bytes.[14] bytes.[15];
    th_checksum := u16_from_be_bytes bytes.[16] bytes.[17];
    th_urgent_ptr := u16_from_be_bytes bytes.[18] bytes.[19];
  |}.

Definition build_tcp_header (hdr : TcpHeader) (out : bytes) : option bytes :=
  out ← copy_slice 0 2 (u16_to_be_bytes hdr.(th_src_port)) out;
  out ← copy_slice 2 4 (u16_to_be_bytes hdr.(th_dst_port)) out;
  out ← copy_slice 4 8 (u32_to_be_bytes hdr.(th_seq_num)) out;
  out ← copy_slice 8 12 (u32_to_be_bytes hdr.(th_ack_num)) out;
  out ← set_byte 12 hdr.(th_data_offset_reserved) out;
  out ← set_byte 13 hdr.(th_flags) out;
  out ← copy_slice 14 16 (u16_to_be_bytes hdr.(th_window)) out;
  out ← copy_slice 16 18 (u16_to_be_bytes hdr.(th_checksum)) out;
  copy_slice 18 20 (u16_to_be_bytes hdr.(th_urgent_ptr)) out.

Definition tcp_checksum (src_addr dst_addr : u32) (tcp_segment : bytes) : option u16 :=
  let buf := vec_zero (12 + length tcp_segment) in
  buf ← copy_slice 0 4 (u32_to_be_bytes src_addr) buf;
  buf ← copy_slice 4 8 (u32_to_be_bytes dst_addr) buf;
  buf ← set_byte 8 0 buf;
  buf ← set_byte 9 6 buf;
  buf ← copy_slice 10 12 (u16_to_be_bytes (as_u16 (len tcp_segment))) buf;
  buf ← copy_slice 12 (length buf) tcp_segment buf;
  checksum16 buf.

Inductive TcpState :=
  | Closed | Listen | SynSent | SynRcvd | Established
  | FinWait1 | FinWait2 | Closing | TimeWait | CloseWait | LastAck.

Global Instance TcpState_eq_dec : EqDecision TcpState.
Proof. solve_decision. Defined.

Definition state_name (s : TcpState) : string :=
  match s with
  | Closed => "CLOSED"
  | Listen => "LISTEN"
  | SynSent => "SYN_SENT"
  | SynRcvd => "SYN_RCVD"
  | Established => "ESTABLISHED"
  | FinWait1 => "FIN_WAIT_1"
  | FinWait2 => "FIN_WAIT_2"
  | Closing => "CLOSING"
  | TimeWait => "TIME_WAIT"
  | CloseWait => "CLOSE_WAIT"
  | LastAck => "LAST_ACK"
  end.

Record ConnectionKey := mkConnectionKey {
  k_local_addr : u32;
  k_local_port : u16;
  k_remote_addr : u32;
  k_remote_port : u16;
}.

Global Instance ConnectionKey_eq_dec : EqDecision ConnectionKey.
Proof. solve_decision. Defined.

Global Instance ConnectionKey_countable : Countable ConnectionKey.
Proof.
  refine (inj_countable'
    (λ k, (k.(k_local_addr), k.(k_local_port), k.(k_remote_addr), k.(k_remote_port)))
    (λ '(a, b, c, d), mkConnectionKey a b c d) _).
  by intros [].
Defined.

(** [Vec<&str>::join(",")]. *)
Fixpoint join_comma (parts : list string) : string :=
  match parts with
  | [] => ""
  | [s] => s
  | s :: rest => s +:+ "," +:+ join_comma rest
  end.

Definition flags_to_string (flags : u8) : string :=
  let parts :=
    (if has_flag flags TCP_SYN then ["SYN"] else []) ++
    (if has_flag flags TCP_ACK then ["ACK"] else []) ++
    (if has_flag flags TCP_FIN then ["FIN"] else []) ++
    (if has_flag flags TCP_RST then ["RST"] else []) ++
    (if has_flag flags TCP_PSH then ["PSH"] else []) ++
    (if has_flag flags TCP_URG then ["URG"] else []) in
  if bool_decide (parts = []) then "-" else join_comma parts.

(** The IP header of every outgoing segment. *)
Definition tcp_ip_header (src_addr dst_addr : u32) (segment_len : nat) : IpHeader := {|
  ip_version := 4; ip_ihl := 5; ip_tos := 0;
  ip_total_length := as_u16 (Z.of_nat (IP_HEADER_LEN + segment_len));
  ip_identification := 0; ip_flags := 0; ip_fragment_offset := 0; ip_ttl := 64;
  ip_protocol := 6; ip_header_checksum := 0; ip_src_addr := src_addr; ip_dst_addr := dst_addr;
|}.

(** The sequence space a segment occupies: its data, and one position for
    each of SYN and FIN ([let mut consumed = ...] in [queue_and_send] and
    [send_rst_for_unknown]). *)
Definition seq_consumed (flags : u8) (data_len : Z) : u32 :=
  let consumed := as_u32 data_len in
  let consumed := if has_flag flags TCP_SYN then wadd32 consumed 1 else consumed in
  if has_flag flags TCP_FIN then wadd32 consumed 1 else consumed.

(** ** Reference definitions *)

Definition tcp_header_ok (h : TcpHeader) : Prop :=
  is_u16 h.(th_src_port) ∧ is_u16 h.(th_dst_port) ∧ is_u32 h.(th_seq_num) ∧
  is_u32 h.(th_ack_num) ∧ is_u8 h.(th_data_offset_reserved) ∧ is_u8 h.(th_flags) ∧
  is_u16 h.(th_window) ∧ is_u16 h.(th_checksum) ∧ is_u16 h.(th_urgent_ptr).

Global Instance tcp_header_ok_dec h : Decision (tcp_header_ok h).
Proof. unfold tcp_header_ok. apply _. Defined.

Definition with_tcp_checksum (c : u16) (h : TcpHeader) : TcpHeader :=
  mkTcpHeader h.(th_src_port) h.(th_dst_port) h.(th_seq_num) h.(th_ack_num)
    h.(th_data_offset_reserved) h.(th_flags) h.(th_window) c h.(th_urgent_ptr).

Definition tcp_header_bytes (h : TcpHeader) : bytes :=
  u16_to_be_bytes h.(th_src_port) ++ u16_to_be_bytes h.(th_dst_port) ++
  u32_to_be_bytes h.(th_seq_num) ++ u32_to_be_bytes h.(th_ack_num) ++
  [h.(th_data_offset_reserved); h.(th_flags)] ++ u16_to_be_bytes h.(th_window) ++
  u16_to_be_bytes h.(th_checksum) ++ u16_to_be_bytes h.(th_urgent_ptr).

Definition tcp_pseudo (src_addr dst_addr : u32) (tcp_len : Z) : bytes :=
  u32_to_be_bytes src_addr ++ u32_to_be_bytes dst_addr ++ [0; 6] ++
  u16_to_be_bytes (as_u16 tcp_len).

(** The checksum of a segment whose header has a zero checksum field. *)
Definition tcp_csum (src_addr dst_addr : u32) (h : TcpHeader) (data : bytes) : u16 :=
  rfc1071 (tcp_pseudo src_addr dst_addr (20 + len data) ++
           tcp_header_bytes (with_tcp_checksum 0 h) ++ data).

(** The segment as sent, checksum filled in. *)
Definition tcp_segment_bytes (src_addr dst_addr : u32) (h : TcpHeader) (data : bytes) : bytes :=
  tcp_header_bytes (with_tcp_checksum (tcp_csum src_addr dst_addr h data) h) ++ data.

Definition tcp_packet (src_addr dst_addr : u32) (h : TcpHeader) (data : bytes) : bytes :=
  ip_packet (tcp_ip_header src_addr dst_addr (20 + length data))
            (tcp_segment_bytes src_addr dst_addr h data).

(** ** Lemmas *)

Lemma build_tcp_header_eq h n :
  build_tcp_header h (vec_zero (TCP_HEADER_LEN + n)) = Some (tcp_header_bytes h ++ vec_zero n).
Proof.
  unfold build_tcp_header, TCP_HEADER_LEN. rewrite vec_zero_app. unfold vec_zero at 1.
  cbn [replicate app]. do 8 buf_step. rewrite copy_slice_ok by buf_lia. reflexivity.
Qed.

Lemma parse_tcp_header_bytes h rest : tcp_header_ok h →
  parse_tcp_header (tcp_header_bytes h ++ rest) = Some h.
Proof.
  intros (? & ? & ? & ? & ? & ? & ? & ? & ?). unfold parse_tcp_header, TCP_HEADER_LEN.
  rewrite decide_False by (cbn; lia). cbn [nth tcp_header_bytes app u16_to_be_bytes u32_to_be_bytes].
  rewrite !u16_be_roundtrip, !u32_be_roundtrip by done. by destruct h.
Qed.

Lemma parse_tcp_header_ok b h : bytes_ok b → parse_tcp_header b = Some h → tcp_header_ok h.
Proof.
  intros Hb. unfold parse_tcp_header. case_decide; [done|]. intros [= <-].
  unfold tcp_header_ok. cbn. split_and!; auto with minitcp.
Qed.

Lemma tcp_header_bytes_ok h :
  is_u8 h.(th_data_offset_reserved) → is_u8 h.(th_flags) → bytes_ok (tcp_header_bytes h).
Proof.
  intros. unfold tcp_header_bytes. rewrite !bytes_ok_app, !bytes_ok_cons.
  split_and!; auto with minitcp. constructor.
Qed.

Lemma tcp_pseudo_ok s d n : bytes_ok (tcp_pseudo s d n).
Proof.
  unfold tcp_pseudo. rewrite !bytes_ok_app. split_and!; auto with minitcp. by_decide.
Qed.

Lemma tcp_checksum_eq s d seg : bytes_ok seg → len seg ≤ 131060 →
  tcp_checksum s d seg = Some (rfc1071 (tcp_pseudo s d (len seg) ++ seg)).
Proof.
  intros Hb Hl. unfold tcp_checksum. rewrite vec_zero_app. unfold vec_zero at 1.
  cbn [replicate app]. do 5 buf_step. rewrite copy_slice_ok by buf_lia.
  cbn [mbind option_bind]. rewrite drop_all, app_nil_r.
  change (take 12 _) with (tcp_pseudo s d (len seg)). apply checksum16_rfc.
  - apply bytes_ok_app. auto using tcp_pseudo_ok.
  - rewrite len_app. change (len (tcp_pseudo _ _ _)) with 12. lia.
Qed.

Lemma tcp_ip_header_ok s d n : is_u32 s → is_u32 d → ip_header_ok (tcp_ip_header s d n).
Proof. intros. unfold ip_header_ok. cbn. split_and!; auto with minitcp; by_decide. Qed.

Lemma len_tcp_segment_bytes s d h data : len (tcp_segment_bytes s d h data) = 20 + len data.
Proof. unfold tcp_segment_bytes. rewrite len_app. done. Qed.

Lemma tcp_segment_bytes_ok s d h data :
  is_u8 h.(th_data_offset_reserved) → is_u8 h.(th_flags) → bytes_ok data →
  bytes_ok (tcp_segment_bytes s d h data).
Proof.
  intros. unfold tcp_segment_bytes. apply bytes_ok_app. split; [|done].
  by apply tcp_header_bytes_ok.
Qed.

Lemma tcp_csum_valid s d h data :
  is_u8 h.(th_data_offset_reserved) → is_u8 h.(th_flags) → bytes_ok data →
  rfc1071 (tcp_pseudo s d (20 + len data) ++ tcp_segment_bytes s d h data) = 0.
Proof.
  intros Ho Hf Hb.
  set (pre := tcp_pseudo s d (20 + len data) ++ take 16 (tcp_header_bytes h)).
  assert (E : ∀ c, tcp_pseudo s d (20 + len data) ++ tcp_header_bytes (with_tcp_checksum c h) ++ data
                   = pre ++ u16_to_be_bytes c ++ u16_to_be_bytes (th_urgent_ptr h) ++ data)
    by (intros c; unfold pre; by rewrite <- !app_assoc).
  unfold tcp_segment_bytes, tcp_csum. rewrite !E. apply (checksum_fill pre).
  - unfold pre. apply bytes_ok_app. auto using tcp_pseudo_ok, tcp_header_bytes_ok with minitcp.
  - apply bytes_ok_app. auto with minitcp.
  - by exists 14%nat.
Qed.

(** Filling the checksum field of a built segment and framing it. *)
Lemma tcp_fill_checksum h data c :
  copy_slice 16 18 (u16_to_be_bytes c) (tcp_header_bytes (with_tcp_checksum 0 h) ++ data)
  = Some (tcp_header_bytes (with_tcp_checksum c h) ++ data).
Proof. apply copy_slice_ok. cbn. lia. Qed.

(** A framed segment at the peer. *)
Lemma tcp_packet_received (s d : u32) (h : TcpHeader) (data : bytes) :
  is_u32 s → is_u32 d → tcp_header_ok h → bytes_ok data → len data ≤ 65495 →
  ∃ r c, verify_ip_checksum (tcp_packet s d h data) = Some true ∧
    parse_ip_header (tcp_packet s d h data) = Some r ∧
    ip_src_addr r = s ∧ ip_dst_addr r = d ∧ ip_protocol r = 6 ∧
    ip_total_length r = len (tcp_packet s d h data) ∧
    tcp_checksum (ip_src_addr r) (ip_dst_addr r) (drop 20 (tcp_packet s d h data)) = Some 0 ∧
    parse_tcp_header (drop 20 (tcp_packet s d h data)) = Some (with_tcp_checksum c h) ∧
    drop 40 (tcp_packet s d h data) = data.
Proof.
  intros Hs Hd Hh Hb Hl. pose proof Hh as (? & ? & ? & ? & Ho & Hf & ? & ? & ?).
  set (ih := tcp_ip_header s d (20 + length data)).
  assert (Hih : ip_header_ok ih) by (by apply tcp_ip_header_ok).
  assert (Hsb := tcp_segment_bytes_ok s d h data Ho Hf Hb).
  assert (Hsl := len_tcp_segment_bytes s d h data).
  exists (with_checksum (ip_csum ih) ih), (tcp_csum s d h data).
  unfold tcp_packet. fold ih. rewrite ip_packet_body.
  split_and!; try reflexivity.
  - by apply ip_packet_verifies.
  - by apply ip_packet_parses.
  - unfold ip_packet. rewrite len_app, Hsl. change (len (ip_header_bytes _ _)) with 20.
    cbn [ip_total_length with_checksum ih tcp_ip_header].
    rewrite as_u16_small; unfold len, uN, IP_HEADER_LEN in *; lia.
  - rewrite tcp_checksum_eq by (done || lia). rewrite Hsl.
    cbn [ip_src_addr ip_dst_addr with_checksum ih tcp_ip_header]. by rewrite tcp_csum_valid.
  - apply parse_tcp_header_bytes. unfold tcp_header_ok. cbn. split_and!; auto. apply rfc1071_u16.
Qed.

(** ** Theorems *)

(** Building a TCP header whose fields fit their widths into a buffer
    and parsing the buffer gives the header back, whatever follows it. *)
Theorem tcp_header_roundtrip (h : TcpHeader) (n : nat) :
  tcp_header_ok h →
  ∃ b, build_tcp_header h (vec_zero (TCP_HEADER_LEN + n)) = Some b ∧
    length b = (TCP_HEADER_LEN + n)%nat ∧ ∀ rest, parse_tcp_header (b ++ rest) = Some h.
Proof.
  intros H. eexists. split; [apply build_tcp_header_eq|]. split.
  - rewrite length_app, length_vec_zero. reflexivity.
  - intros rest. rewrite <- app_assoc. by apply parse_tcp_header_bytes.
Qed.

Theorem tcp_header_roundtrip_witness :
  ∃ b, build_tcp_header (mkTcpHeader 41000 9292 1000 0 80 2 65535 0 0) (vec_zero 20) = Some b ∧
    parse_tcp_header b = Some (mkTcpHeader 41000 9292 1000 0 80 2 65535 0 0).
Proof.
  destruct (tcp_header_roundtrip (mkTcpHeader 41000 9292 1000 0 80 2 65535 0 0) 0)
    as (b & H1 & _ & H2).
  - by_decide.
  - exists b. split; [exact H1|]. specialize (H2 []). rewrite app_nil_r in H2. exact H2.
Defined.

(** A framed segment survives the trip to the peer: the packet's IP
    header verifies, names source, destination and protocol 6, the segment
    inside passes the peer's [tcp_checksum] test, and parsing it gives the
    sender's header and data. *)
Theorem tcp_packet_accepted (s d : u32) (h : TcpHeader) (data : bytes) :
  is_u32 s → is_u32 d → tcp_header_ok h → bytes_ok data → len data ≤ 65495 →
  ∃ r c, verify_ip_checksum (tcp_packet s d h data) = Some true ∧
    parse_ip_header (tcp_packet s d h data) = Some r ∧
    ip_src_addr r = s ∧ ip_dst_addr r = d ∧ ip_protocol r = 6 ∧
    ip_total_length r = len (tcp_packet s d h data) ∧
    tcp_checksum (ip_src_addr r) (ip_dst_addr r) (drop 20 (tcp_packet s d h data)) = Some 0 ∧
    parse_tcp_header (drop 20 (tcp_packet s d h data)) = Some (with_tcp_checksum c h) ∧
    drop 40 (tcp_packet s d h data) = data.
Proof. apply tcp_packet_received. Qed.

Theorem tcp_packet_accepted_witness :
  let p := tcp_packet 0x0A0A0002 0x0A0A0001
             (mkTcpHeader 41000 9292 1000 0 80 2 65535 0 0) [0x41; 0x42] in
  tcp_checksum 0x0A0A0002 0x0A0A0001 (drop 20 p) = Some 0 ∧ drop 40 p = [0x41; 0x42].
Proof.
  destruct (tcp_packet_accepted 0x0A0A0002 0x0A0A0001
    (mkTcpHeader 41000 9292 1000 0 80 2 65535 0 0) [0x41; 0x42])
    as (r & c & _ & _ & Hs & Hd & _ & _ & H1 & _ & H2).
  1-4: by_decide.
  - vm_compute. discriminate.
  - rewrite Hs, Hd in H1. split; [exact H1|exact H2].
Defined.
