(* ===== verification/TcpConn.v ===== *)
(** * TCP connections ([src/tcp.rs], lines 130-529)

    The protocol control block and everything that works on one connection:
    sending and queueing segments, acknowledgement processing, the
    window-limited send loop with its deferred FIN, the receive side with
    out-of-order reassembly, the reset reply.  The definitions only; what
    they guarantee is proved in [TcpSend], [TcpReceive] and [TcpInv]. *)

From S2P Require Import Prelude Ip TcpSegment.

(** ** Data *)

Record UnackedSegment := mkUnackedSegment {
  us_seq : u32;
  us_flags : u8;
  us_data : bytes;
  us_sent_at : Instant;
  us_rto : Duration;
  us_retry_count : u32;
}.

Record TcpConnection := mkTcpConnection {
  state : TcpState;
  local_addr : u32;
  remote_addr : u32;
  local_port : u16;
  remote_port : u16;
  iss : u32;
  snd_una : u32;
  snd_nxt : u32;
  snd_wnd : u32;
  irs : u32;
  rcv_nxt : u32;
  retransmit_queue : list UnackedSegment;
  ooo_buffer : gmap u32 bytes;
  recv_buffer : bytes;
  send_pending : bytes;
  time_wait_deadline : Instant;
  probe_deadline : option Instant;
  probe_rto : Duration;
  pending_close : bool;
  recv_buffer_cap : usize;
  send_pending_cap : usize;
}.

(** Field assignment, [conn.field = v]. *)

Definition set_state (v : TcpState) (c : TcpConnection) : TcpConnection :=
  mkTcpConnection v c.(local_addr) c.(remote_addr) c.(local_port) c.(remote_port) c.(iss)
    c.(snd_una) c.(snd_nxt) c.(snd_wnd) c.(irs) c.(rcv_nxt) c.(retransmit_queue) c.(ooo_buffer)
    c.(recv_buffer) c.(send_pending) c.(time_wait_deadline) c.(probe_deadline) c.(probe_rto)
    c.(pending_close) c.(recv_buffer_cap) c.(send_pending_cap).

Definition set_snd_una (v : u32) (c : TcpConnection) : TcpConnection :=
  mkTcpConnection c.(state) c.(local_addr) c.(remote_addr) c.(local_port) c.(remote_port) c.(iss)
    v c.(snd_nxt) c.(snd_wnd) c.(irs) c.(rcv_nxt) c.(retransmit_queue) c.(ooo_buffer)
    c.(recv_buffer) c.(send_pending) c.(time_wait_deadline) c.(probe_deadline) c.(probe_rto)
    c.(pending_close) c.(recv_buffer_cap) c.(send_pending_cap).

Definition set_snd_nxt (v : u32) (c : TcpConnection) : TcpConnection :=
  mkTcpConnection c.(state) c.(local_addr) c.(remote_addr) c.(local_port) c.(remote_port) c.(iss)
    c.(snd_una) v c.(snd_wnd) c.(irs) c.(rcv_nxt) c.(retransmit_queue) c.(ooo_buffer)
    c.(recv_buffer) c.(send_pending) c.(time_wait_deadline) c.(probe_deadline) c.(probe_rto)
    c.(pending_close) c.(recv_buffer_cap) c.(send_pending_cap).

Definition set_snd_wnd (v : u32) (c : TcpConnection) : TcpConnection :=
  mkTcpConnection c.(state) c.(local_addr) c.(remote_addr) c.(local_port) c.(remote_port) c.(iss)
    c.(snd_una) c.(snd_nxt) v c.(irs) c.(rcv_nxt) c.(retransmit_queue) c.(ooo_buffer)
    c.(recv_buffer) c.(send_pending) c.(time_wait_deadline) c.(probe_deadline) c.(probe_rto)
    c.(pending_close) c.(recv_buffer_cap) c.(send_pending_cap).

Definition set_irs (v : u32) (c : TcpConnection) : TcpConnection :=
  mkTcpConnection c.(state) c.(local_addr) c.(remote_addr) c.(local_port) c.(remote_port) c.(iss)
    c.(snd_una) c.(snd_nxt) c.(snd_wnd) v c.(rcv_nxt) c.(retransmit_queue) c.(ooo_buffer)
    c.(recv_buffer) c.(send_pending) c.(time_wait_deadline) c.(probe_deadline) c.(probe_rto)
    c.(pending_close) c.(recv_buffer_cap) c.(send_pending_cap).

Definition set_rcv_nxt (v : u32) (c : TcpConnection) : TcpConnection :=
  mkTcpConnection c.(state) c.(local_addr) c.(remote_addr) c.(local_port) c.(remote_port) c.(iss)
    c.(snd_una) c.(snd_nxt) c.(snd_wnd) c.(irs) v c.(retransmit_queue) c.(ooo_buffer)
    c.(recv_buffer) c.(send_pending) c.(time_wait_deadline) c.(probe_deadline) c.(probe_rto)
    c.(pending_close) c.(recv_buffer_cap) c.(send_pending_cap).

Definition set_retransmit_queue (v : list UnackedSegment) (c : TcpConnection) : TcpConnection :=
  mkTcpConnection c.(state) c.(local_addr) c.(remote_addr) c.(local_port) c.(remote_port) c.(iss)
    c.(snd_una) c.(snd_nxt) c.(snd_wnd) c.(irs) c.(rcv_nxt) v c.(ooo_buffer) c.(recv_buffer)
    c.(send_pending) c.(time_wait_deadline) c.(probe_deadline) c.(probe_rto) c.(pending_close)
    c.(recv_buffer_cap) c.(send_pending_cap).

Definition set_ooo_buffer (v : gmap u32 bytes) (c : TcpConnection) : TcpConnection :=
  mkTcpConnection c.(state) c.(local_addr) c.(remote_addr) c.(local_port) c.(remote_port) c.(iss)
    c.(snd_una) c.(snd_nxt) c.(snd_wnd) c.(irs) c.(rcv_nxt) c.(retransmit_queue) v c.(recv_buffer)
    c.(send_pending) c.(time_wait_deadline) c.(probe_deadline) c.(probe_rto) c.(pending_close)
    c.(recv_buffer_cap) c.(send_pending_cap).

Definition set_recv_buffer (v : bytes) (c : TcpConnection) : TcpConnection :=
  mkTcpConnection c.(state) c.(local_addr) c.(remote_addr) c.(local_port) c.(remote_port) c.(iss)
    c.(snd_una) c.(snd_nxt) c.(snd_wnd) c.(irs) c.(rcv_nxt) c.(retransmit_queue) c.(ooo_buffer) v
    c.(send_pending) c.(time_wait_deadline) c.(probe_deadline) c.(probe_rto) c.(pending_close)
    c.(recv_buffer_cap) c.(send_pending_cap).

Definition set_send_pending (v : bytes) (c : TcpConnection) : TcpConnection :=
  mkTcpConnection c.(state) c.(local_addr) c.(remote_addr) c.(local_port) c.(remote_port) c.(iss)
    c.(snd_una) c.(snd_nxt) c.(snd_wnd) c.(irs) c.(rcv_nxt) c.(retransmit_queue) c.(ooo_buffer)
    c.(recv_buffer) v c.(time_wait_deadline) c.(probe_deadline) c.(probe_rto) c.(pending_close)
    c.(recv_buffer_cap) c.(send_pending_cap).

Definition set_time_wait_deadline (v : Instant) (c : TcpConnection) : TcpConnection :=
  mkTcpConnection c.(state) c.(local_addr) c.(remote_addr) c.(local_port) c.(remote_port) c.(iss)
    c.(snd_una) c.(snd_nxt) c.(snd_wnd) c.(irs) c.(rcv_nxt) c.(retransmit_queue) c.(ooo_buffer)
    c.(recv_buffer) c.(send_pending) v c.(probe_deadline) c.(probe_rto) c.(pending_close)
    c.(recv_buffer_cap) c.(send_pending_cap).

Definition set_probe_deadline (v : option Instant) (c : TcpConnection) : TcpConnection :=
  mkTcpConnection c.(state) c.(local_addr) c.(remote_addr) c.(local_port) c.(remote_port) c.(iss)
    c.(snd_una) c.(snd_nxt) c.(snd_wnd) c.(irs) c.(rcv_nxt) c.(retransmit_queue) c.(ooo_buffer)
    c.(recv_buffer) c.(send_pending) c.(time_wait_deadline) v c.(probe_rto) c.(pending_close)
    c.(recv_buffer_cap) c.(send_pending_cap).

Definition set_probe_rto (v : Duration) (c : TcpConnection) : TcpConnection :=
  mkTcpConnection c.(state) c.(local_addr) c.(remote_addr) c.(local_port) c.(remote_port) c.(iss)
    c.(snd_una) c.(snd_nxt) c.(snd_wnd) c.(irs) c.(rcv_nxt) c.(retransmit_queue) c.(ooo_buffer)
    c.(recv_buffer) c.(send_pending) c.(time_wait_deadline) c.(probe_deadline) v c.(pending_close)
    c.(recv_buffer_cap) c.(send_pending_cap).

Definition set_pending_close (v : bool) (c : TcpConnection) : TcpConnection :=
  mkTcpConnection c.(state) c.(local_addr) c.(remote_addr) c.(local_port) c.(remote_port) c.(iss)
    c.(snd_una) c.(snd_nxt) c.(snd_wnd) c.(irs) c.(rcv_nxt) c.(retransmit_queue) c.(ooo_buffer)
    c.(recv_buffer) c.(send_pending) c.(time_wait_deadline) c.(probe_deadline) c.(probe_rto) v
    c.(recv_buffer_cap) c.(send_pending_cap).

Definition set_recv_buffer_cap (v : usize) (c : TcpConnection) : TcpConnection :=
  mkTcpConnection c.(state) c.(local_addr) c.(remote_addr) c.(local_port) c.(remote_port) c.(iss)
    c.(snd_una) c.(snd_nxt) c.(snd_wnd) c.(irs) c.(rcv_nxt) c.(retransmit_queue) c.(ooo_buffer)
    c.(recv_buffer) c.(send_pending) c.(time_wait_deadline) c.(probe_deadline) c.(probe_rto)
    c.(pending_close) v c.(send_pending_cap).

Definition set_send_pending_cap (v : usize) (c : TcpConnection) : TcpConnection :=
  mkTcpConnection c.(state) c.(local_addr) c.(remote_addr) c.(local_port) c.(remote_port) c.(iss)
    c.(snd_una) c.(snd_nxt) c.(snd_wnd) c.(irs) c.(rcv_nxt) c.(retransmit_queue) c.(ooo_buffer)
    c.(recv_buffer) c.(send_pending) c.(time_wait_deadline) c.(probe_deadline) c.(probe_rto)
    c.(pending_close) c.(recv_buffer_cap) v.

(** ** Operations *)

(** [TcpConnection::new()] reads the clock once. *)
Definition conn_new : M TcpConnection :=
  now ← instant_now;
  mret {|
    state := Closed;
    local_addr := 0; remote_addr := 0; local_port := 0; remote_port := 0;
    iss := 0; snd_una := 0; snd_nxt := 0; snd_wnd := 65535;
    irs := 0; rcv_nxt := 0;
    retransmit_queue := []; ooo_buffer := ∅; recv_buffer := []; send_pending := [];
    time_wait_deadline := now;
    probe_deadline := None; probe_rto := INITIAL_RTO; pending_close := false;
    recv_buffer_cap := DEFAULT_RECV_BUFFER_CAP; send_pending_cap := DEFAULT_SEND_BUFFER_CAP;
  |}.

Definition generate_iss : M u32 := rand_u32.

(** The bytes held in the reassembly buffer. *)
Definition ooo_bytes (m : gmap u32 bytes) : usize := map_fold (λ _ v n, len v + n) 0 m.

Definition buffered_bytes (conn : TcpConnection) : usize :=
  len conn.(recv_buffer) + ooo_bytes conn.(ooo_buffer).

Definition advertise_window (conn : TcpConnection) : u16 :=
  let used := buffered_bytes conn in
  let cap := conn.(recv_buffer_cap) in
  if decide (cap ≤ used) then 0 else as_u16 (Z.min (cap - used) 65535).

(** The header [send_segment] starts from (checksum still zero). *)
Definition segment_header (conn : TcpConnection) (flags : u8) (seq : u32) : TcpHeader := {|
  th_src_port := conn.(local_port);
  th_dst_port := conn.(remote_port);
  th_seq_num := seq;
  th_ack_num := if has_flag flags TCP_ACK then conn.(rcv_nxt) else 0;
  th_data_offset_reserved := as_u8 (Z.shiftl 5 4);
  th_flags := flags;
  th_window := advertise_window conn;
  th_checksum := 0;
  th_urgent_ptr := 0;
|}.

Definition send_segment (conn : TcpConnection) (flags : u8) (seq : u32) (data : bytes) : M unit :=
  let hdr := segment_header conn flags seq in
  segment ← lift (build_tcp_header hdr (vec_zero (TCP_HEADER_LEN + length data)));
  segment ← lift (if bool_decide (data = []) then Some segment
                  else copy_slice TCP_HEADER_LEN (length segment) data segment);
  csum ← lift (tcp_checksum conn.(local_addr) conn.(remote_addr) segment);
  segment ← lift (copy_slice 16 18 (u16_to_be_bytes csum) segment);
  let iphdr := tcp_ip_header conn.(local_addr) conn.(remote_addr) (length segment) in
  packet ← lift (build_ip_header iphdr (vec_zero (IP_HEADER_LEN + length segment)));
  packet ← lift (copy_slice IP_HEADER_LEN (length packet) segment packet);
  send_ip_packet packet.

Definition queue_and_send (conn : TcpConnection) (flags : u8) (data : bytes) : M TcpConnection :=
  let seq := conn.(snd_nxt) in
  _ ← send_segment conn flags seq data;
  now ← instant_now;
  let conn := set_retransmit_queue
    (conn.(retransmit_queue) ++ [mkUnackedSegment seq flags data now INITIAL_RTO 0]) conn in
  let consumed := seq_consumed flags (len data) in
  mret (set_snd_nxt (wadd32 conn.(snd_nxt) consumed) conn).

Definition send_ack_only (conn : TcpConnection) : M unit :=
  send_segment conn TCP_ACK conn.(snd_nxt) [].

(** The sequence number after a queued segment. *)
Definition unacked_end (front : UnackedSegment) : u32 :=
  let e := wadd32 front.(us_seq) (as_u32 (len front.(us_data))) in
  let e := if has_flag front.(us_flags) TCP_SYN then wadd32 e 1 else e in
  if has_flag front.(us_flags) TCP_FIN then wadd32 e 1 else e.

(** The loop of [remove_acked] over the queue. *)
Fixpoint drop_acked (queue : list UnackedSegment) (new_una : u32) : list UnackedSegment :=
  match queue with
  | front :: rest => if unacked_end front <=? new_una then drop_acked rest new_una else queue
  | [] => []
  end.

Definition remove_acked (conn : TcpConnection) (new_una : u32) : TcpConnection :=
  set_retransmit_queue (drop_acked conn.(retransmit_queue) new_una) conn.

Definition process_ack (conn : TcpConnection) (seg : TcpHeader) : TcpConnection :=
  if negb (has_flag seg.(th_flags) TCP_ACK) then conn
  else
    let conn :=
      if conn.(snd_una) <? seg.(th_ack_num)
      then let conn := set_snd_una seg.(th_ack_num) conn in remove_acked conn conn.(snd_una)
      else conn in
    let conn := set_snd_wnd seg.(th_window) conn in
    if negb (conn.(snd_wnd) =? 0)
    then set_probe_rto INITIAL_RTO (set_probe_deadline None conn)
    else conn.

(** The send loop.  Every round drains at least one byte, so the length of
    [send_pending] is enough fuel ([TcpSend.chunks_concat]). *)
Fixpoint flush_loop (fuel : nat) (conn : TcpConnection) : M TcpConnection :=
  match fuel with
  | O => mret conn
  | S fuel' =>
      if bool_decide (conn.(send_pending) = []) then mret conn
      else
        let bytes_in_flight := wsub32 conn.(snd_nxt) conn.(snd_una) in
        if conn.(snd_wnd) <=? bytes_in_flight then mret conn
        else
          let available := conn.(snd_wnd) - bytes_in_flight in
          let chunk_len := Z.min (Z.min MSS available) (len conn.(send_pending)) in
          if chunk_len =? 0 then mret conn
          else
            let chunk := take (Z.to_nat chunk_len) conn.(send_pending) in
            conn ← queue_and_send conn (Z.lor TCP_ACK TCP_PSH) chunk;
            flush_loop fuel' (set_send_pending (drop (Z.to_nat chunk_len) conn.(send_pending)) conn)
  end.

(** The deferred FIN at the end of [flush_send]. *)
Definition flush_fin (conn : TcpConnection) : M TcpConnection :=
  if conn.(pending_close) && bool_decide (conn.(send_pending) = []) then
    conn ← match conn.(state) with
           | Established =>
               conn ← queue_and_send conn (Z.lor TCP_FIN TCP_ACK) [];
               mret (set_state FinWait1 conn)
           | CloseWait =>
               conn ← queue_and_send conn (Z.lor TCP_FIN TCP_ACK) [];
               mret (set_state LastAck conn)
           | _ => mret conn
           end;
    mret (set_pending_close false conn)
  else mret conn.

Definition flush_send (conn : TcpConnection) : M TcpConnection :=
  if negb (bool_decide (conn.(state) = Established)) && negb (bool_decide (conn.(state) = CloseWait))
  then mret conn
  else
    conn ← (if (conn.(snd_wnd) =? 0) && negb (bool_decide (conn.(send_pending) = [])) then
              now ← instant_now;
              mret (set_probe_deadline
                      (Some (default (now + INITIAL_RTO) conn.(probe_deadline))) conn)
            else mret conn);
    conn ← flush_loop (length conn.(send_pending)) conn;
    flush_fin conn.

(** [while let Some(data) = ooo_buffer.remove(&rcv_nxt)]: every round takes
    an entry out of the buffer, so its size is enough fuel
    ([splice_ooo_exit]). *)
Fixpoint splice_ooo (fuel : nat) (conn : TcpConnection) (should_ack : bool) : TcpConnection * bool :=
  match fuel with
  | O => (conn, should_ack)
  | S fuel' =>
      match conn.(ooo_buffer) !! conn.(rcv_nxt) with
      | Some data =>
          let conn := set_ooo_buffer (delete conn.(rcv_nxt) conn.(ooo_buffer)) conn in
          let conn := set_rcv_nxt (wadd32 conn.(rcv_nxt) (as_u32 (len data))) conn in
          let conn := set_recv_buffer (conn.(recv_buffer) ++ data) conn in
          splice_ooo fuel' conn true
      | None => (conn, should_ack)
      end
  end.

(** What [receive_data_and_maybe_fin] does to the connection before the
    acknowledgement goes out: the new connection, whether to acknowledge,
    whether the FIN was consumed. *)
Definition receive_step (conn : TcpConnection) (seg : TcpHeader) (payload : bytes)
    : TcpConnection * bool * bool :=
  let has_fin := has_flag seg.(th_flags) TCP_FIN in
  if seg.(th_seq_num) =? conn.(rcv_nxt) then
    let '(conn, should_ack) :=
      if negb (bool_decide (payload = [])) then
        let conn := set_recv_buffer (conn.(recv_buffer) ++ payload) conn in
        (set_rcv_nxt (wadd32 conn.(rcv_nxt) (as_u32 (len payload))) conn, true)
      else (conn, false) in
    let '(conn, should_ack) := splice_ooo (size conn.(ooo_buffer)) conn should_ack in
    if has_fin then (set_rcv_nxt (wadd32 conn.(rcv_nxt) 1) conn, true, true)
    else (conn, should_ack, false)
  else if conn.(rcv_nxt) <? seg.(th_seq_num) then
    let conn :=
      if negb (bool_decide (payload = [])) &&
         bool_decide (buffered_bytes conn + len payload ≤ conn.(recv_buffer_cap))
      then set_ooo_buffer (<[seg.(th_seq_num) := payload]> conn.(ooo_buffer)) conn
      else conn in
    (conn, true, false)
  else (conn, negb (bool_decide (payload = [])) || has_fin, false).

Definition receive_data_and_maybe_fin (conn : TcpConnection) (seg : TcpHeader) (payload : bytes)
    : M (TcpConnection * bool) :=
  let '(conn, should_ack, fin_consumed) := receive_step conn seg payload in
  _ ← (if should_ack : bool then send_ack_only conn else mret tt);
  mret (conn, fin_consumed).

(** The body of [TcpTable::recv] on one connection: [n] bytes of room are
    filled from the front of the receive buffer. *)
Definition conn_recv (conn : TcpConnection) (room : nat) : TcpConnection * bytes :=
  let n := Nat.min room (length conn.(recv_buffer)) in
  if (0 <? n)%nat
  then (set_recv_buffer (drop n conn.(recv_buffer)) conn, take n conn.(recv_buffer))
  else (conn, []).

(** Sequence number, flags and acknowledgement of a reset reply. *)
Definition rst_fields (seg : TcpHeader) (data_len : nat) : u32 * u8 * u32 :=
  if has_flag seg.(th_flags) TCP_ACK then (seg.(th_ack_num), TCP_RST, 0)
  else (0, Z.lor TCP_RST TCP_ACK,
        wadd32 seg.(th_seq_num) (seq_consumed seg.(th_flags) (Z.of_nat data_len))).

Definition rst_header (seg : TcpHeader) (data_len : nat) : TcpHeader :=
  let '(seq_num, flags, ack_num) := rst_fields seg data_len in {|
    th_src_port := seg.(th_dst_port);
    th_dst_port := seg.(th_src_port);
    th_seq_num := seq_num;
    th_ack_num := ack_num;
    th_data_offset_reserved := as_u8 (Z.shiftl 5 4);
    th_flags := flags;
    th_window := 0;
    th_checksum := 0;
    th_urgent_ptr := 0;
  |}.

Definition send_rst_for_unknown (ip_hdr : IpHeader) (seg : TcpHeader) (data_len : nat) : M unit :=
  let rst := rst_header seg data_len in
  segment ← lift (build_tcp_header rst (vec_zero TCP_HEADER_LEN));
  csum ← lift (tcp_checksum ip_hdr.(ip_dst_addr) ip_hdr.(ip_src_addr) segment);
  segment ← lift (copy_slice 16 18 (u16_to_be_bytes csum) segment);
  let iphdr := tcp_ip_header ip_hdr.(ip_dst_addr) ip_hdr.(ip_src_addr) (length segment) in
  packet ← lift (build_ip_header iphdr (vec_zero (IP_HEADER_LEN + length segment)));
  packet ← lift (copy_slice IP_HEADER_LEN (length packet) segment packet);
  send_ip_packet packet.

(** ** What the senders do to the world *)

(** The packet [send_segment] writes. *)
Definition seg_packet (conn : TcpConnection) (flags : u8) (seq : u32) (data : bytes) : bytes :=
  tcp_packet conn.(local_addr) conn.(remote_addr) (segment_header conn flags seq) data.

(** The connection after [queue_and_send] at time [now]. *)
Definition queued (conn : TcpConnection) (flags : u8) (data : bytes) (now : Instant) : TcpConnection :=
  set_snd_nxt (wadd32 conn.(snd_nxt) (seq_consumed flags (len data)))
    (set_retransmit_queue
       (conn.(retransmit_queue) ++ [mkUnackedSegment conn.(snd_nxt) flags data now INITIAL_RTO 0]) conn).

Definition addrs_ok (conn : TcpConnection) : Prop :=
  is_u32 conn.(local_addr) ∧ is_u32 conn.(remote_addr).

(** The data of one segment: an IPv4 packet can carry it. *)
Definition seg_data_ok (data : bytes) : Prop := bytes_ok data ∧ len data ≤ 65495.

Lemma seg_data_nil : seg_data_ok [].
Proof. split; [constructor|unfold len; cbn; lia]. Qed.

(** Framing a segment whose data has been copied behind a built header. *)
Lemma tcp_frame_eq s d h data w :
  is_u32 s → is_u32 d → is_u8 h.(th_data_offset_reserved) → is_u8 h.(th_flags) →
  h.(th_checksum) = 0 → seg_data_ok data →
  (csum ← lift (tcp_checksum s d (tcp_header_bytes h ++ data));
   segment ← lift (copy_slice 16 18 (u16_to_be_bytes csum) (tcp_header_bytes h ++ data));
   packet ← lift (build_ip_header (tcp_ip_header s d (length segment))
                    (vec_zero (IP_HEADER_LEN + length segment)));
   packet ← lift (copy_slice IP_HEADER_LEN (length packet) segment packet);
   send_ip_packet packet) w = Some (tt, emit (tcp_packet s d h data) w).
Proof.
  intros Hs Hd Ho Hf Hc [Hb Hl].
  assert (Hh : h = with_tcp_checksum 0 h) by (destruct h; cbn in *; by subst).
  erewrite bind_lift.
  2:{ apply tcp_checksum_eq.
      - apply bytes_ok_app. auto using tcp_header_bytes_ok.
      - rewrite len_app. change (len (tcp_header_bytes h)) with 20. lia. }
  rewrite Hh at 2. erewrite bind_lift by apply tcp_fill_checksum.
  rewrite len_app. change (len (tcp_header_bytes h)) with 20.
  rewrite Hh at 1. fold (tcp_csum s d h data). fold (tcp_segment_bytes s d h data).
  erewrite bind_lift by (by apply ip_frame_build, tcp_ip_header_ok).
  erewrite bind_lift; [|rewrite length_app, length_ip_header_bytes, length_vec_zero; apply ip_frame_copy].
  reflexivity.
Qed.

Lemma send_segment_eq conn flags seq data w :
  addrs_ok conn → is_u8 flags → seg_data_ok data →
  send_segment conn flags seq data w = Some (tt, emit (seg_packet conn flags seq data) w).
Proof.
  intros [Hl Hr] Hf Hd. unfold send_segment.
  erewrite bind_lift by apply build_tcp_header_eq.
  erewrite bind_lift.
  { apply tcp_frame_eq; auto. by_decide. }
  case_bool_decide as E; [subst; reflexivity|].
  rewrite length_app, length_vec_zero.
  rewrite <- (app_nil_r (vec_zero _)), <- (app_nil_r (_ ++ data)), <- app_assoc.
  apply copy_slice_app; by rewrite ?length_vec_zero.
Qed.

Lemma queue_and_send_eq conn flags data w :
  addrs_ok conn → is_u8 flags → seg_data_ok data →
  queue_and_send conn flags data w =
    Some (queued conn flags data (clock_now w),
          clock_next (emit (seg_packet conn flags conn.(snd_nxt) data) w)).
Proof.
  intros Ha Hf Hd. unfold queue_and_send.
  erewrite bind_Some by (by apply send_segment_eq). reflexivity.
Qed.

Lemma send_ack_only_eq conn w : addrs_ok conn →
  send_ack_only conn w = Some (tt, emit (seg_packet conn TCP_ACK conn.(snd_nxt) []) w).
Proof.
  intros Ha. unfold send_ack_only. rewrite send_segment_eq; [done|done|by_decide|apply seg_data_nil].
Qed.

Lemma send_rst_for_unknown_eq h seg n w :
  is_u32 h.(ip_src_addr) → is_u32 h.(ip_dst_addr) →
  send_rst_for_unknown h seg n w =
    Some (tt, emit (tcp_packet h.(ip_dst_addr) h.(ip_src_addr) (rst_header seg n) []) w).
Proof.
  intros Hs Hd. unfold send_rst_for_unknown.
  erewrite bind_lift by apply (build_tcp_header_eq _ 0).
  apply tcp_frame_eq; auto using seg_data_nil.
  all: unfold rst_header, rst_fields; destruct (has_flag _ _); (by_decide || done).
Qed.
