(* ===== verification/TcpSend.v ===== *)
(** * The sending side of a TCP connection

    The send loop of [flush_send] against a reference that cuts the pending
    bytes into chunks, the retransmission queue as a chain of contiguous
    segments, acknowledgement processing, and the retransmission backoff. *)

From S2P Require Import Prelude Ip TcpSegment TcpConn.

Definition data_flags : u8 := Z.lor TCP_ACK TCP_PSH.
Definition fin_flags : u8 := Z.lor TCP_FIN TCP_ACK.

(** ** Reference definitions *)

(** The chunks the window lets out: each the largest that MSS, window and
    pending data allow. *)
Fixpoint chunks (fuel : nat) (wnd in_flight : Z) (pending : bytes) : list bytes :=
  match fuel with
  | O => []
  | S fuel' =>
      if bool_decide (pending = []) || (wnd <=? in_flight) then []
      else
        let n := Z.min (Z.min MSS (wnd - in_flight)) (len pending) in
        take (Z.to_nat n) pending
          :: chunks fuel' wnd (in_flight + n) (drop (Z.to_nat n) pending)
  end.

(** Queueing and sending a list of chunks. *)
Fixpoint queue_chunks (conn : TcpConnection) (chs : list bytes) (w : World) : TcpConnection * World :=
  match chs with
  | [] => (conn, w)
  | ch :: rest =>
      queue_chunks
        (set_send_pending (drop (length ch) conn.(send_pending))
           (queued conn data_flags ch (clock_now w))) rest
        (clock_next (emit (seg_packet conn data_flags conn.(snd_nxt) ch) w))
  end.

(** A queue is a chain when every segment starts where the previous one
    ends, modulo [2^32]. *)
Fixpoint chain (start : u32) (q : list UnackedSegment) (stop : u32) : Prop :=
  match q with
  | [] => start = stop
  | s :: q' => s.(us_seq) = start ∧ chain (unacked_end s) q' stop
  end.

(** A segment as first queued. *)
Definition fresh_segment (flags : u8) (s : UnackedSegment) : Prop :=
  s.(us_flags) = flags ∧ s.(us_rto) = INITIAL_RTO ∧ s.(us_retry_count) = 0.

(** The packet that carries a queued segment of [conn]. *)
Definition queued_packet (conn : TcpConnection) (s : UnackedSegment) : bytes :=
  seg_packet conn s.(us_flags) s.(us_seq) s.(us_data).

(** ** Lemmas: the send loop *)

Lemma len_take_Z {A} n (l : list A) : 0 ≤ n ≤ len l → len (take (Z.to_nat n) l) = n.
Proof. unfold len. rewrite length_take. lia. Qed.

Lemma len_drop_Z {A} n (l : list A) : 0 ≤ n ≤ len l → len (drop (Z.to_nat n) l) = len l - n.
Proof. unfold len. rewrite length_drop. lia. Qed.

Lemma len_pos {A} (l : list A) : l ≠ [] → 0 < len l.
Proof. unfold len. destruct l; cbn; [done|lia]. Qed.

Lemma seq_consumed_data flags n : has_flag flags TCP_SYN = false → has_flag flags TCP_FIN = false →
  seq_consumed flags n = as_u32 n.
Proof. intros H1 H2. unfold seq_consumed. by rewrite H1, H2. Qed.

(** Sending [n] more bytes within the window adds [n] to what is in flight. *)
Lemma in_flight_add nxt una n :
  0 ≤ wsub32 nxt una + n < 2 ^ 32 → wsub32 (wadd32 nxt (as_u32 n)) una = wsub32 nxt una + n.
Proof.
  intros H. unfold wsub32, wadd32, as_u32 in *. rewrite Zplus_mod_idemp_r, Zminus_mod_idemp_l.
  replace (nxt + n - una) with (nxt - una + n) by lia.
  rewrite <- Zplus_mod_idemp_l. by apply Z.mod_small.
Qed.

(** The two ways the source computes the end of a segment agree. *)
Lemma unacked_end_eq s :
  unacked_end s = wadd32 s.(us_seq) (seq_consumed s.(us_flags) (len s.(us_data))).
Proof.
  unfold unacked_end, seq_consumed.
  destruct (has_flag _ TCP_SYN), (has_flag _ TCP_FIN);
    rewrite ?wadd32_assoc, ?wadd32_r; f_equal; lia.
Qed.

(** What a segment consumes of the sequence space. *)
Lemma wadd32_consumed a flags n :
  wadd32 a (seq_consumed flags n) =
    wadd32 a (n + Z.b2z (has_flag flags TCP_SYN) + Z.b2z (has_flag flags TCP_FIN)).
Proof.
  assert (H : ∀ k, wadd32 a (as_u32 n + k) = wadd32 a (n + k)).
  { intros k. unfold as_u32, wadd32. rewrite <- Zplus_mod_idemp_r, Zplus_mod_idemp_l.
    by rewrite Zplus_mod_idemp_r. }
  unfold seq_consumed. destruct (has_flag _ TCP_SYN), (has_flag _ TCP_FIN); cbn [Z.b2z];
    rewrite <- ?Z.add_assoc, <- H; rewrite ?wadd32_assoc, ?wadd32_r; f_equal; lia.
Qed.

(** The loop runs out the chunks. *)
Lemma flush_loop_eq fuel conn w :
  addrs_ok conn → bytes_ok conn.(send_pending) → is_u16 conn.(snd_wnd) →
  flush_loop fuel conn w =
    Some (queue_chunks conn
            (chunks fuel conn.(snd_wnd) (wsub32 conn.(snd_nxt) conn.(snd_una)) conn.(send_pending)) w).
Proof.
  revert conn w. induction fuel as [|fuel IH]; intros conn w Ha Hb Hw; [done|].
  cbn [flush_loop chunks]. case_bool_decide as E; [done|]. apply len_pos in E. cbn [orb].
  destruct (Z.leb_spec (snd_wnd conn) (wsub32 (snd_nxt conn) (snd_una conn))) as [|Hlt]; [done|].
  pose proof (wsub32_u32 (snd_nxt conn) (snd_una conn)) as Hif.
  set (inflight := wsub32 (snd_nxt conn) (snd_una conn)) in *.
  set (n := Z.min (Z.min MSS (snd_wnd conn - inflight)) (len (send_pending conn))).
  assert (0 < n ≤ len (send_pending conn) ∧ n ≤ 1400 ∧ n ≤ snd_wnd conn - inflight)
    as (Hn & Hm & Hr) by (unfold n, MSS; lia).
  assert (Hlen : length (take (Z.to_nat n) (send_pending conn)) = Z.to_nat n)
    by (rewrite length_take; unfold len in *; lia).
  destruct (Z.eqb_spec n 0) as [|_]; [lia|].
  erewrite bind_Some.
  2:{ apply queue_and_send_eq; [done|by_decide|]. split; [auto with minitcp|].
      rewrite len_take_Z; lia. }
  cbn [queue_chunks]. rewrite IH; [|done|cbn; auto with minitcp|done].
  rewrite Hlen. cbn [snd_wnd snd_nxt snd_una send_pending set_send_pending queued set_snd_nxt
    set_retransmit_queue]. rewrite seq_consumed_data by reflexivity.
  rewrite len_take_Z by lia. rewrite in_flight_add by (fold inflight; unfold uN in *; lia).
  reflexivity.
Qed.

(** Consecutive chunks make up the longest prefix the window allows. *)
Lemma chunks_concat fuel wnd inflight pending :
  (length pending ≤ fuel)%nat →
  concat (chunks fuel wnd inflight pending) =
    take (Z.to_nat (Z.min (Z.max 0 (wnd - inflight)) (len pending))) pending.
Proof.
  revert inflight pending. induction fuel as [|fuel IH]; intros inflight pending Hl; cbn [chunks].
  { destruct pending; [|cbn in Hl; lia]. by rewrite take_nil. }
  case_bool_decide as E; cbn [orb]; [subst; by rewrite take_nil|].
  destruct (Z.leb_spec wnd inflight); [by rewrite Z.max_l, Z.min_l by (pose proof (len_nonneg pending); lia)|].
  apply len_pos in E. set (n := Z.min (Z.min MSS (wnd - inflight)) (len pending)).
  assert (0 < n ≤ len pending ∧ n ≤ wnd - inflight) as [Hn Hr] by (unfold n, MSS; lia).
  cbn [concat]. rewrite IH by (rewrite length_drop; unfold len in *; lia).
  rewrite len_drop_Z by lia. set (k := Z.min (Z.max 0 _) (len pending)).
  set (k' := Z.min _ _). assert (Hk : Z.to_nat k = (Z.to_nat n + Z.to_nat k')%nat) by lia.
  rewrite Hk. apply take_take_drop.
Qed.

Lemma chunks_sizes fuel wnd inflight pending :
  0 ≤ inflight → Forall (λ ch, 0 < len ch ≤ MSS) (chunks fuel wnd inflight pending).
Proof.
  revert inflight pending. induction fuel as [|fuel IH]; intros inflight pending Hi; cbn [chunks]; [done|].
  case_bool_decide as E; cbn [orb]; [done|]. destruct (Z.leb_spec wnd inflight); [done|].
  apply len_pos in E. apply Forall_cons_iff. split.
  - rewrite len_take_Z by (unfold MSS; lia). unfold MSS. lia.
  - apply IH. unfold MSS. lia.
Qed.

(** The shape of a connection after queueing data: only the queue, the next
    sequence number and the pending data moved. *)
Lemma queue_chunks_spec chs conn w :
  Forall seg_data_ok chs → is_u32 conn.(snd_nxt) →
  ∃ segs, let '(conn', w') := queue_chunks conn chs w in
    conn' = set_send_pending (drop (length (concat chs)) conn.(send_pending))
              (set_snd_nxt (wadd32 conn.(snd_nxt) (len (concat chs)))
                 (set_retransmit_queue (conn.(retransmit_queue) ++ segs) conn)) ∧
    us_data <$> segs = chs ∧ Forall (fresh_segment data_flags) segs ∧
    chain conn.(snd_nxt) segs conn'.(snd_nxt) ∧
    w'.(w_sent) = w.(w_sent) ++ (queued_packet conn <$> segs) ∧ world_ext w w'.
Proof.
  revert conn w. induction chs as [|ch chs IH]; intros conn w Hok Hn; cbn [queue_chunks].
  { exists []. cbn. rewrite !app_nil_r, drop_0, wadd32_0_r by done.
    split_and!; try done. by destruct conn. }
  apply Forall_cons_iff in Hok as [Hch Hok].
  set (conn1 := set_send_pending _ _). set (w1 := clock_next _).
  assert (Hn1 : snd_nxt conn1 = wadd32 (snd_nxt conn) (len ch)).
  { cbn. rewrite seq_consumed_data by reflexivity. apply wadd32_idemp_r. }
  destruct (IH conn1 w1 Hok) as (segs & Hs); [rewrite Hn1; auto with minitcp|].
  destruct (queue_chunks conn1 chs w1) as [conn' w']. destruct Hs as (Hc & Hd & Hf & Hch' & Hw & He).
  exists (mkUnackedSegment (snd_nxt conn) data_flags ch (clock_now w) INITIAL_RTO 0 :: segs).
  split_and!.
  - rewrite Hc, Hn1, wadd32_assoc, <- len_app. unfold conn1. cbn.
    rewrite drop_drop, length_app, <- app_assoc. reflexivity.
  - cbn. by rewrite Hd.
  - by apply Forall_cons_iff.
  - cbn [chain us_seq]. split; [done|]. unfold unacked_end. cbn [us_seq us_data us_flags].
    unfold as_u32. rewrite wadd32_idemp_r. by rewrite <- Hn1.
  - rewrite Hw. cbn [w1 clock_next w_sent emit]. by rewrite <- app_assoc.
  - etrans; [apply clock_next_emit_ext|exact He].
Qed.

(** ** Lemmas: [flush_send] *)

Definition can_send (s : TcpState) : bool :=
  bool_decide (s = Established) || bool_decide (s = CloseWait).

Definition fin_state (s : TcpState) : TcpState :=
  match s with Established => FinWait1 | CloseWait => LastAck | s => s end.

Lemma flush_send_idle conn w :
  can_send conn.(state) = false → flush_send conn w = Some (conn, w).
Proof.
  unfold can_send, flush_send. intros [-> ->]%orb_false_iff. reflexivity.
Qed.

(** Nothing to send, nothing to do. *)
Lemma flush_send_nothing c w :
  c.(send_pending) = [] → c.(pending_close) = false → flush_send c w = Some (c, w).
Proof.
  intros Hp Hc. unfold flush_send. destruct (_ && _); [done|].
  rewrite (bool_decide_eq_true_2 (send_pending c = [])) by done. cbn [negb]. rewrite andb_false_r, bind_ret.
  rewrite Hp. cbn [length flush_loop]. rewrite bind_ret. unfold flush_fin. by rewrite Hc.
Qed.

(** How many pending bytes the window lets out. *)
Definition sendable (conn : TcpConnection) : Z :=
  Z.min (Z.max 0 (conn.(snd_wnd) - wsub32 conn.(snd_nxt) conn.(snd_una))) (len conn.(send_pending)).

(** Whether [flush_send] gets to send the deferred FIN. *)
Definition fin_due (conn : TcpConnection) : bool :=
  conn.(pending_close) &&
  bool_decide (drop (Z.to_nat (sendable conn)) conn.(send_pending) = []).

(** The persist timer as [flush_send] leaves it. *)
Definition armed_probe (conn : TcpConnection) (now : Instant) : option Instant :=
  if (conn.(snd_wnd) =? 0) && negb (bool_decide (conn.(send_pending) = []))
  then Some (default (now + INITIAL_RTO) conn.(probe_deadline)) else conn.(probe_deadline).

(** What [flush_send] may rely on. *)
Record send_ready (conn : TcpConnection) : Prop := {
  sr_addrs : addrs_ok conn;
  sr_pending : bytes_ok conn.(send_pending);
  sr_wnd : is_u16 conn.(snd_wnd);
  sr_nxt : is_u32 conn.(snd_nxt);
}.

Lemma chunks_seg_data fuel wnd inflight pending :
  0 ≤ inflight → bytes_ok pending → (length pending ≤ fuel)%nat →
  Forall seg_data_ok (chunks fuel wnd inflight pending).
Proof.
  intros Hi Hb Hl. pose proof (chunks_sizes fuel wnd inflight pending Hi) as Hs.
  assert (Hc : bytes_ok (concat (chunks fuel wnd inflight pending)))
    by (rewrite chunks_concat by done; auto with minitcp).
  induction (chunks fuel wnd inflight pending) as [|ch chs IH]; [done|].
  apply Forall_cons_iff in Hs as [Hch Hs]. cbn in Hc. apply bytes_ok_app in Hc as [Hc1 Hc2].
  constructor; [|auto]. split; [done|]. unfold MSS in Hch. lia.
Qed.

(** The deferred FIN. *)
Lemma flush_fin_spec conn w :
  addrs_ok conn → can_send conn.(state) = true →
  let due := conn.(pending_close) && bool_decide (conn.(send_pending) = []) in
  flush_fin conn w =
    Some (if due
          then (set_pending_close false (set_state (fin_state conn.(state))
                  (queued conn fin_flags [] (clock_now w))),
                clock_next (emit (seg_packet conn fin_flags conn.(snd_nxt) []) w))
          else (conn, w)).
Proof.
  intros Ha Hs. unfold flush_fin. cbv zeta.
  destruct (pending_close conn && _); [|done].
  unfold can_send in Hs. apply orb_true_iff in Hs as [E%bool_decide_eq_true|E%bool_decide_eq_true];
    rewrite E; (erewrite bind_Some;
      [|erewrite bind_Some by (apply queue_and_send_eq; [done|by_decide|apply seg_data_nil]);
        reflexivity]); reflexivity.
Qed.

(** The result of [flush_send] in a sending state, in closed form: [segs]
    are the new data segments, [fins] the FIN if it was due. *)
Definition flushed (conn : TcpConnection) (now : Instant) (segs fins : list UnackedSegment)
    (nxt : u32) : TcpConnection :=
  set_pending_close (if fin_due conn then false else conn.(pending_close))
    (set_state (if fin_due conn then fin_state conn.(state) else conn.(state))
      (set_probe_deadline (armed_probe conn now)
        (set_send_pending (drop (Z.to_nat (sendable conn)) conn.(send_pending))
          (set_snd_nxt nxt
            (set_retransmit_queue (conn.(retransmit_queue) ++ segs ++ fins) conn))))).

Lemma chain_app a q1 b q2 c : chain a q1 b → chain b q2 c → chain a (q1 ++ q2) c.
Proof.
  revert a. induction q1 as [|s q1 IH]; intros a; cbn; [by intros ->|].
  intros [? ?] ?. split; [done|]. by apply IH.
Qed.

(** Arming the timer first does not interfere with the loop. *)
Lemma flush_send_split conn w :
  can_send conn.(state) = true → ∃ w1,
    flush_send conn w =
      (conn ← flush_loop (length conn.(send_pending))
                (set_probe_deadline (armed_probe conn (clock_now w)) conn);
       flush_fin conn) w1 ∧ w1.(w_sent) = w.(w_sent) ∧ world_ext w w1.
Proof.
  intros Hs. unfold flush_send, armed_probe.
  assert (negb (bool_decide (state conn = Established)) &&
          negb (bool_decide (state conn = CloseWait)) = false) as ->
    by (unfold can_send in Hs; by rewrite <- negb_orb, Hs).
  destruct (_ && _).
  - exists (clock_next w). split_and!; auto with minitcp.
  - exists w. split_and!; [|done|done]. rewrite bind_ret. by destruct conn.
Qed.

Lemma flush_send_spec conn w :
  send_ready conn → can_send conn.(state) = true →
  ∃ w' segs fins nxt,
    flush_send conn w = Some (flushed conn (clock_now w) segs fins nxt, w') ∧
    concat (us_data <$> segs) = take (Z.to_nat (sendable conn)) conn.(send_pending) ∧
    Forall (λ s, fresh_segment data_flags s ∧ 0 < len s.(us_data) ≤ MSS) segs ∧
    (if fin_due conn then ∃ f, fins = [f] ∧ fresh_segment fin_flags f ∧ f.(us_data) = []
     else fins = []) ∧
    chain conn.(snd_nxt) (segs ++ fins) nxt ∧ is_u32 nxt ∧
    w'.(w_sent) = w.(w_sent) ++ (queued_packet conn <$> segs ++ fins) ∧ world_ext w w'.
Proof.
  intros [Ha Hb Hw Hn] Hs. destruct (flush_send_split conn w Hs) as (w1 & -> & Hw1 & He1).
  set (conn0 := set_probe_deadline _ conn).
  set (inflight := wsub32 (snd_nxt conn) (snd_una conn)).
  pose proof (wsub32_u32 (snd_nxt conn) (snd_una conn)) as Hif. fold inflight in Hif.
  set (chs := chunks (length (send_pending conn)) (snd_wnd conn) inflight (send_pending conn)).
  assert (Hcc : concat chs = take (Z.to_nat (sendable conn)) (send_pending conn))
    by (unfold chs; by rewrite chunks_concat).
  assert (Hsz : Forall (λ ch, 0 < len ch ≤ MSS) chs) by (apply chunks_sizes; unfold uN in *; lia).
  assert (Hok : Forall seg_data_ok chs) by (apply chunks_seg_data; unfold uN in *; auto; lia).
  erewrite bind_Some by (by rewrite flush_loop_eq, (surjective_pairing (queue_chunks _ _ _))).
  change (chunks _ _ _ _) with chs.
  destruct (queue_chunks_spec chs conn0 w1 Hok Hn) as (segs & Hq).
  destruct (queue_chunks conn0 chs w1) as [conn1 w2].
  destruct Hq as (Hc1 & Hd & Hf & Hch & Hw2 & He2). cbn [fst snd].
  assert (Hpend : send_pending conn1 = drop (Z.to_nat (sendable conn)) (send_pending conn)).
  { rewrite Hc1, Hcc. cbn. rewrite length_take. unfold sendable, len. f_equal. lia. }
  assert (Hseg : Forall (λ s, fresh_segment data_flags s ∧ 0 < len s.(us_data) ≤ MSS) segs).
  { apply Forall_and; [done|]. rewrite <- Hd in Hsz. by rewrite Forall_fmap in Hsz. }
  rewrite flush_fin_spec; [|by rewrite Hc1|by rewrite Hc1].
  assert (Hdue : pending_close conn1 && bool_decide (send_pending conn1 = []) = fin_due conn)
    by (unfold fin_due; rewrite Hpend; by rewrite Hc1).
  rewrite Hdue. destruct (fin_due conn) eqn:Efd.
  - set (f := mkUnackedSegment (snd_nxt conn1) fin_flags [] (clock_now w2) INITIAL_RTO 0).
    exists (clock_next (emit (seg_packet conn1 fin_flags (snd_nxt conn1) []) w2)),
           segs, [f], (wadd32 (snd_nxt conn1) (seq_consumed fin_flags 0)).
    split_and!.
    + do 2 f_equal. unfold flushed. rewrite Efd, <- Hpend, app_assoc. unfold f. by rewrite Hc1.
    + by rewrite Hd.
    + done.
    + by exists f.
    + eapply chain_app; [exact Hch|]. split; [done|]. by rewrite unacked_end_eq.
    + auto with minitcp.
    + cbn. rewrite Hw2, Hw1, fmap_app, <- app_assoc. f_equal. f_equal. cbn. by rewrite Hc1.
    + etrans; [exact He1|]. etrans; [exact He2|]. auto with minitcp.
  - exists w2, segs, [], (snd_nxt conn1). split_and!; try done.
    + do 2 f_equal. unfold flushed. rewrite Efd, <- Hpend, app_nil_r, Hc1.
      cbn. by destruct conn.
    + by rewrite Hd.
    + by rewrite app_nil_r.
    + rewrite Hc1. cbn. auto with minitcp.
    + by rewrite app_nil_r, Hw2, Hw1.
    + by etrans.
Qed.

(** With the window closed it only arms the persist timer. *)
Lemma flush_send_closed conn w :
  send_ready conn → can_send conn.(state) = true → conn.(pending_close) = false → conn.(snd_wnd) = 0 →
  ∃ w', flush_send conn w = Some (set_probe_deadline (armed_probe conn (clock_now w)) conn, w') ∧
    w'.(w_sent) = w.(w_sent) ∧ world_ext w w'.
Proof.
  intros Hr Hs Hc H0. destruct (flush_send_spec conn w Hr Hs) as (w' & segs & fins & nxt & E & Hd & Hf & Hfin & Hch & _ & Hw & Hx).
  assert (Hfd : fin_due conn = false) by (unfold fin_due; by rewrite Hc). rewrite Hfd in Hfin. subst fins.
  assert (Hs0 : sendable conn = 0).
  { unfold sendable. rewrite H0. pose proof (wsub32_u32 (snd_nxt conn) (snd_una conn)) as Hu. unfold uN in Hu.
    rewrite Z.max_l by lia. pose proof (len_nonneg (send_pending conn)). lia. }
  rewrite Hs0 in Hd. cbn in Hd. rewrite take_0 in Hd. assert (segs = []) as ->.
  { destruct segs as [|f segs]; [done|]. apply Forall_cons_iff in Hf as [[_ Hl] _]. cbn in Hd.
    apply app_eq_nil in Hd as [E0 _]. rewrite E0 in Hl. unfold len in Hl. cbn in Hl. lia. }
  cbn in Hw, Hch. rewrite app_nil_r in Hw. subst nxt. exists w'. split; [|done]. rewrite E. do 2 f_equal.
  unfold flushed. rewrite Hfd, Hs0, Hc. cbn [Z.to_nat app]. rewrite drop_0, app_nil_r. destruct conn; cbn in *. by subst.
Qed.

(** ** Lemmas: acknowledgements *)

Lemma drop_acked_suffix q una : ∃ acked, q = acked ++ drop_acked q una ∧
  Forall (λ s, unacked_end s ≤ una) acked.
Proof.
  induction q as [|s q (acked & E & H)]; [by exists []|]. cbn.
  destruct (Z.leb_spec (unacked_end s) una).
  - exists (s :: acked). cbn. rewrite <- E. split; [done|]. by constructor.
  - by exists [].
Qed.

Lemma chain_suffix a acked q stop :
  chain a (acked ++ q) stop → ∃ a', chain a acked a' ∧ chain a' q stop.
Proof.
  revert a. induction acked as [|s acked IH]; intros a; cbn; [by exists a|].
  intros [? (a' & ? & ?)%IH]. exists a'. done.
Qed.

(** The sequence space a queue covers, when it does not wrap. *)
Definition seg_space (s : UnackedSegment) : Z :=
  len s.(us_data) + Z.b2z (has_flag s.(us_flags) TCP_SYN) + Z.b2z (has_flag s.(us_flags) TCP_FIN).

Definition queue_space (q : list UnackedSegment) : Z := foldr (λ s n, seg_space s + n) 0 q.

Lemma seg_space_nonneg s : 0 ≤ seg_space s.
Proof.
  unfold seg_space. pose proof (len_nonneg (us_data s)).
  destruct (has_flag _ TCP_SYN), (has_flag _ TCP_FIN); cbn; lia.
Qed.

Lemma queue_space_nonneg q : 0 ≤ queue_space q.
Proof.
  unfold queue_space. induction q as [|s q IH]; cbn [foldr]; [lia|].
  pose proof (seg_space_nonneg s). lia.
Qed.

Lemma unacked_end_space s : unacked_end s = wadd32 s.(us_seq) (seg_space s).
Proof.
  unfold unacked_end, seg_space, as_u32. rewrite wadd32_idemp_r.
  destruct (has_flag _ TCP_SYN), (has_flag _ TCP_FIN); rewrite ?wadd32_assoc; f_equal; cbn; lia.
Qed.

Lemma chain_cons_space a s q stop :
  chain a (s :: q) stop → 0 ≤ a → a + queue_space (s :: q) < 2 ^ 32 →
  unacked_end s = a + seg_space s ∧ chain (a + seg_space s) q stop ∧
  0 ≤ a + seg_space s ∧ a + seg_space s + queue_space q < 2 ^ 32.
Proof.
  intros [Hs Hc] Ha Hq. unfold queue_space in *. cbn [foldr] in Hq.
  pose proof (seg_space_nonneg s). pose proof (queue_space_nonneg q) as Hn. unfold queue_space in Hn.
  assert (He : unacked_end s = a + seg_space s)
    by (rewrite unacked_end_space, Hs; apply wadd32_small; lia).
  rewrite He in Hc. split_and!; auto; lia.
Qed.

Lemma chain_ends_above a q stop una :
  chain a q stop → 0 ≤ a → a + queue_space q < 2 ^ 32 → una < a →
  Forall (λ s, una < unacked_end s) q.
Proof.
  revert a. induction q as [|s q IH]; intros a Hc Ha Hq Hu; [done|].
  apply chain_cons_space in Hc as (He & Hc & ? & ?); [|done|done].
  pose proof (seg_space_nonneg s). constructor; [lia|]. eapply IH; [exact Hc|lia..].
Qed.

(** Without wrap-around, a segment is dropped exactly when its end is
    acknowledged. *)
Lemma drop_acked_filter a q stop una :
  chain a q stop → 0 ≤ a → a + queue_space q < 2 ^ 32 →
  drop_acked q una = filter (λ s, una < unacked_end s) q.
Proof.
  revert a. induction q as [|s q IH]; intros a Hc Ha Hq; [done|].
  apply chain_cons_space in Hc as (He & Hc & ? & ?); [|done|done].
  cbn [drop_acked]. destruct (Z.leb_spec (unacked_end s) una) as [Hle|Hgt].
  - rewrite filter_cons_False by lia. eapply IH; [exact Hc|lia..].
  - rewrite filter_cons_True by lia. f_equal. symmetry. apply filter_all.
    eapply chain_ends_above; [exact Hc|lia..].
Qed.

Lemma chain_stop_space a q stop :
  chain a q stop → 0 ≤ a → a + queue_space q < 2 ^ 32 → stop = a + queue_space q.
Proof.
  revert a. induction q as [|s q IH]; intros a Hc Ha Hq.
  - cbn in *. unfold queue_space. cbn. lia.
  - apply chain_cons_space in Hc as (He & Hc & ? & ?); [|done|done].
    apply IH in Hc; [|lia..]. unfold queue_space in *. cbn [foldr]. lia.
Qed.

(** [process_ack] as one assignment per field. *)
Lemma process_ack_eq conn seg :
  process_ack conn seg =
    if negb (has_flag seg.(th_flags) TCP_ACK) then conn
    else
      let conn := if conn.(snd_una) <? seg.(th_ack_num)
                  then set_retransmit_queue (drop_acked conn.(retransmit_queue) seg.(th_ack_num))
                         (set_snd_una seg.(th_ack_num) conn)
                  else conn in
      let conn := set_snd_wnd seg.(th_window) conn in
      if negb (seg.(th_window) =? 0)
      then set_probe_rto INITIAL_RTO (set_probe_deadline None conn) else conn.
Proof. reflexivity. Qed.

(** Whether the FIN is due is a matter of sizes. *)
Lemma fin_due_iff conn : conn.(pending_close) = true →
  fin_due conn = true ↔
  len conn.(send_pending) ≤ Z.max 0 (conn.(snd_wnd) - wsub32 conn.(snd_nxt) conn.(snd_una)).
Proof.
  intros Hpc. unfold fin_due. rewrite Hpc. cbn [andb]. rewrite bool_decide_eq_true.
  pose proof (len_nonneg (send_pending conn)).
  unfold sendable. set (n := Z.max 0 _) in *. split.
  - intros Hn%(f_equal len). rewrite len_drop_Z in Hn by lia. cbn in Hn. unfold len at 3 in Hn.
    cbn in Hn. lia.
  - intros Hle. rewrite Z.min_r by lia. unfold len. rewrite Nat2Z.id. apply drop_all.
Qed.

Lemma chain_last_fin a q f stop :
  chain a (q ++ [f]) stop → f.(us_flags) = fin_flags → f.(us_data) = [] → stop = wadd32 f.(us_seq) 1.
Proof.
  intros (b & _ & Hf & <-)%chain_suffix Hff Hfd. rewrite unacked_end_eq, Hff, Hfd. reflexivity.
Qed.

(** Acknowledging everything up to the end of a chain empties it. *)
Lemma chain_acked_all a q stop una :
  chain a q stop → 0 ≤ a → a + queue_space q < 2 ^ 32 → stop ≤ una →
  filter (λ s, una < unacked_end s) q = [].
Proof.
  intros Hc Ha Hq Hle. induction q as [|s q IH] in a, Hc, Ha, Hq |- *; [done|].
  apply chain_cons_space in Hc as (He & Hc & Ha' & Hq'); [|done|done].
  rewrite filter_cons_False; [by eapply IH|].
  rewrite He. apply chain_stop_space in Hc; [|lia..].
  pose proof (queue_space_nonneg q). lia.
Qed.

(** ** Theorems *)

(** C16: in a sending state [flush_send] terminates without panicking and
    moves exactly the longest prefix of the pending data that the peer's
    window has room for, in order, as non-empty segments of at most MSS
    bytes queued for retransmission and written to the wire; what is left
    stays pending. *)
Theorem flush_send_fills_window (conn : TcpConnection) (w : World) :
  send_ready conn → can_send conn.(state) = true → conn.(pending_close) = false →
  ∃ conn' w' segs,
    flush_send conn w = Some (conn', w') ∧
    concat (us_data <$> segs) ++ conn'.(send_pending) = conn.(send_pending) ∧
    len (concat (us_data <$> segs)) =
      Z.min (Z.max 0 (conn.(snd_wnd) - wsub32 conn.(snd_nxt) conn.(snd_una))) (len conn.(send_pending)) ∧
    Forall (λ s, fresh_segment data_flags s ∧ 0 < len s.(us_data) ≤ MSS) segs ∧
    conn'.(retransmit_queue) = conn.(retransmit_queue) ++ segs ∧
    chain conn.(snd_nxt) segs conn'.(snd_nxt) ∧
    w'.(w_sent) = w.(w_sent) ++ (queued_packet conn <$> segs) ∧
    conn'.(state) = conn.(state).
Proof.
  intros Hr Hs Hpc. destruct (flush_send_spec conn w Hr Hs)
    as (w' & segs & fins & nxt & E & Hd & Hf & Hfin & Hch & _ & Hw & _).
  assert (Hdue : fin_due conn = false) by (unfold fin_due; by rewrite Hpc).
  rewrite Hdue in Hfin. subst fins. rewrite app_nil_r in *.
  eexists _, w', segs. split; [exact E|]. unfold flushed. rewrite Hdue. cbn [send_pending
    retransmit_queue snd_nxt state set_pending_close set_state set_probe_deadline set_send_pending
    set_snd_nxt set_retransmit_queue].
  split_and!; auto.
  - rewrite Hd. apply take_drop.
  - rewrite Hd. apply len_take_Z. unfold sendable. pose proof (len_nonneg (send_pending conn)). lia.
  - by rewrite app_nil_r.
Qed.

(** A connection in the middle of a transfer, for the witnesses. *)
Definition demo_conn : TcpConnection := {|
  state := Established;
  local_addr := 0x0A0A0001; remote_addr := 0x0A0A0002; local_port := 9292; remote_port := 41000;
  iss := 4999; snd_una := 5000; snd_nxt := 5000; snd_wnd := 5; irs := 1000; rcv_nxt := 1001;
  retransmit_queue := []; ooo_buffer := ∅; recv_buffer := [];
  send_pending := [72; 69; 76; 76; 79; 87; 79; 82; 76; 68];
  time_wait_deadline := 0; probe_deadline := None; probe_rto := INITIAL_RTO; pending_close := false;
  recv_buffer_cap := DEFAULT_RECV_BUFFER_CAP; send_pending_cap := DEFAULT_SEND_BUFFER_CAP;
|}.

Definition demo_world : World := mkWorld (λ n, Z.of_nat n) 0 (λ _, 0) 0 (λ _, None) 0 (λ _, 0%nat) 0 [].

Lemma demo_conn_ready : send_ready demo_conn.
Proof. split; [split|..]; by_decide. Qed.

Theorem flush_send_fills_window_witness :
  ∃ conn' w', flush_send demo_conn demo_world = Some (conn', w') ∧
    conn'.(send_pending) = [87; 79; 82; 76; 68].
Proof.
  destruct (flush_send_fills_window demo_conn demo_world demo_conn_ready eq_refl eq_refl)
    as (conn' & w' & segs & E & _).
  exists conn', w'. split; [exact E|]. vm_compute in E. injection E as <- <-. reflexivity.
Defined.

(** C17: the FIN of [close()] waits for the pending data.  When the window
    takes all of it, the FIN is the last segment queued and sent, right
    after the data, and the connection moves to FIN_WAIT_1 or LAST_ACK; as
    long as data is left, no FIN goes out, the state stays and the close
    stays pending. *)
Theorem fin_after_pending_data (conn : TcpConnection) (w : World) :
  send_ready conn → can_send conn.(state) = true → conn.(pending_close) = true →
  ∃ conn' w' segs,
    flush_send conn w = Some (conn', w') ∧
    concat (us_data <$> segs) ++ conn'.(send_pending) = conn.(send_pending) ∧
    Forall (fresh_segment data_flags) segs ∧
    if decide (len conn.(send_pending) ≤ Z.max 0 (conn.(snd_wnd) - wsub32 conn.(snd_nxt) conn.(snd_una)))
    then ∃ fin, fresh_segment fin_flags fin ∧ fin.(us_data) = [] ∧
           conn'.(send_pending) = [] ∧ conn'.(pending_close) = false ∧
           conn'.(state) = fin_state conn.(state) ∧
           conn'.(retransmit_queue) = conn.(retransmit_queue) ++ segs ++ [fin] ∧
           conn'.(snd_nxt) = wadd32 fin.(us_seq) 1 ∧
           w'.(w_sent) = w.(w_sent) ++ (queued_packet conn <$> segs ++ [fin])
    else conn'.(send_pending) ≠ [] ∧ conn'.(pending_close) = true ∧
         conn'.(state) = conn.(state) ∧
         conn'.(retransmit_queue) = conn.(retransmit_queue) ++ segs ∧
         w'.(w_sent) = w.(w_sent) ++ (queued_packet conn <$> segs).
Proof.
  intros Hr Hs Hpc. destruct (flush_send_spec conn w Hr Hs)
    as (w' & segs & fins & nxt & E & Hd & Hf & Hfin & Hch & _ & Hw & _).
  eexists _, w', segs. split; [exact E|].
  split; [cbn; rewrite Hd; apply take_drop|].
  split; [eapply Forall_impl; [|exact Hf]; by intros ? [? _]|].
  pose proof (fin_due_iff conn Hpc) as Hdue.
  unfold flushed. destruct (fin_due conn) eqn:Efd.
  - rewrite decide_True by (by apply Hdue). destruct Hfin as (f & -> & Hff & Hfd).
    exists f. apply andb_true_iff in Efd as [_ Hnil%bool_decide_eq_true].
    split_and!; try done. cbn. eapply chain_last_fin; eauto; apply Hff.
  - rewrite decide_False by (rewrite <- Hdue; done). subst fins. rewrite app_nil_r in *.
    unfold fin_due in Efd. rewrite Hpc in Efd. apply bool_decide_eq_false in Efd.
    split_and!; done.
Qed.

Definition closing_conn : TcpConnection := set_snd_wnd 100 (set_pending_close true demo_conn).

Theorem fin_after_pending_data_witness :
  ∃ conn' w', flush_send closing_conn demo_world = Some (conn', w') ∧ conn'.(state) = FinWait1.
Proof.
  destruct (fin_after_pending_data closing_conn demo_world) as (conn' & w' & segs & E & _).
  - split; [split|..]; by_decide.
  - reflexivity.
  - reflexivity.
  - exists conn', w'. split; [exact E|]. vm_compute in E. injection E as <- <-. reflexivity.
Defined.

(** C18: an acceptable acknowledgement, on a queue whose sequence numbers do
    not wrap around, takes exactly the completely acknowledged segments off
    the retransmission queue, keeps the rest a contiguous run up to
    [snd_nxt], adopts the peer's window, and stops the persist timer when
    that window is open. *)
Theorem process_ack_exact (conn : TcpConnection) (seg : TcpHeader) (start : u32) :
  has_flag seg.(th_flags) TCP_ACK = true →
  conn.(snd_una) < seg.(th_ack_num) ≤ conn.(snd_nxt) →
  chain start conn.(retransmit_queue) conn.(snd_nxt) → 0 ≤ start →
  start + queue_space conn.(retransmit_queue) < 2 ^ 32 →
  let conn' := process_ack conn seg in
  conn'.(retransmit_queue) =
    filter (λ s, seg.(th_ack_num) < unacked_end s) conn.(retransmit_queue) ∧
  (∃ start', chain start' conn'.(retransmit_queue) conn'.(snd_nxt)) ∧
  (seg.(th_ack_num) = conn.(snd_nxt) → conn'.(retransmit_queue) = []) ∧
  conn'.(snd_una) = seg.(th_ack_num) ∧ conn'.(snd_nxt) = conn.(snd_nxt) ∧
  conn'.(snd_wnd) = seg.(th_window) ∧
  (seg.(th_window) ≠ 0 → conn'.(probe_deadline) = None ∧ conn'.(probe_rto) = INITIAL_RTO).
Proof.
  intros Hack Hrange Hch Ha Hsp. cbv zeta.
  rewrite process_ack_eq, Hack, (proj2 (Z.ltb_lt _ _)) by lia. cbn [negb].
  assert (Hq : drop_acked (retransmit_queue conn) (th_ack_num seg) =
    filter (λ s, seg.(th_ack_num) < unacked_end s) conn.(retransmit_queue))
    by (eapply drop_acked_filter; eauto).
  destruct (drop_acked_suffix (retransmit_queue conn) (th_ack_num seg)) as (acked & Eq & _).
  destruct (Z.eqb_spec (th_window seg) 0); cbn [negb]; cbn -[drop_acked];
    (split_and!; try done; [|intros E; rewrite Hq; eapply chain_acked_all; eauto; lia]);
    rewrite Eq in Hch; apply chain_suffix in Hch as (a' & _ & ?); by exists a'.
Qed.

(** Two segments in flight, the first acknowledged. *)
Definition inflight_conn : TcpConnection :=
  set_snd_nxt 5008 (set_retransmit_queue
    [mkUnackedSegment 5000 data_flags [1; 2; 3; 4; 5] 0 INITIAL_RTO 0;
     mkUnackedSegment 5005 data_flags [6; 7; 8] 0 INITIAL_RTO 0] demo_conn).

Definition ack_segment (ack window : Z) : TcpHeader :=
  mkTcpHeader 41000 9292 1001 ack 80 TCP_ACK window 0 0.

Theorem process_ack_exact_witness :
  (process_ack inflight_conn (ack_segment 5006 100)).(retransmit_queue) =
    [mkUnackedSegment 5005 data_flags [6; 7; 8] 0 INITIAL_RTO 0].
Proof.
  destruct (process_ack_exact inflight_conn (ack_segment 5006 100) 5000) as (E & _);
    [reflexivity|by_decide|by vm_compute|by_decide|by_decide|].
  rewrite E. reflexivity.
Defined.

(** C36: an acknowledgement of data that was never sent is accepted, and
    from then on the sender is stuck: the bytes in flight, a wrapping
    difference, exceed every window the peer can offer, so [flush_send]
    sends nothing, and every later acknowledgement of data really sent is
    ignored. *)
Theorem ack_of_unsent_data_stalls (conn : TcpConnection) (seg : TcpHeader) (w : World) :
  send_ready conn → can_send conn.(state) = true → conn.(pending_close) = false →
  has_flag seg.(th_flags) TCP_ACK = true → is_u16 seg.(th_window) →
  is_u32 seg.(th_ack_num) → conn.(snd_una) ≤ conn.(snd_nxt) →
  conn.(snd_nxt) < seg.(th_ack_num) < conn.(snd_nxt) + 2 ^ 31 →
  let conn' := process_ack conn seg in
  conn'.(snd_una) = seg.(th_ack_num) ∧
  (∃ conn'' w', flush_send conn' w = Some (conn'', w') ∧
    conn''.(send_pending) = conn.(send_pending) ∧ w'.(w_sent) = w.(w_sent)) ∧
  (∀ ack, ack.(th_ack_num) ≤ conn.(snd_nxt) →
    (process_ack conn' ack).(snd_una) = seg.(th_ack_num) ∧
    (process_ack conn' ack).(snd_nxt) = conn.(snd_nxt)).
Proof.
  intros [Hr1 Hr2 Hr3 Hr4] Hs Hpc Hack Hwin Hu Hle Hgt. cbv zeta.
  set (conn' := process_ack conn seg).
  assert (Hf : snd_una conn' = th_ack_num seg ∧ snd_nxt conn' = snd_nxt conn ∧
    snd_wnd conn' = th_window seg ∧ send_pending conn' = send_pending conn ∧
    state conn' = state conn ∧ pending_close conn' = false ∧ addrs_ok conn').
  { unfold conn'. rewrite process_ack_eq, Hack, (proj2 (Z.ltb_lt _ _)) by lia.
    destruct (th_window seg =? 0); by split_and!. }
  destruct Hf as (Hfu & Hfn & Hfw & Hfp & Hfs & Hfc & Hfa).
  clearbody conn'. split; [done|]. split.
  - destruct (flush_send_spec conn' w) as (w' & segs & fins & nxt & E & Hd & Hseg & Hfin & _ & _ & Hw & _).
    { split; congruence. }
    { by rewrite Hfs. }
    assert (Hz : sendable conn' = 0).
    { unfold sendable. rewrite Hfw, Hfn, Hfu, Hfp. pose proof (len_nonneg (send_pending conn)).
      assert (wsub32 (snd_nxt conn) (th_ack_num seg) = snd_nxt conn - th_ack_num seg + 2 ^ 32).
      { unfold wsub32. symmetry. apply (Z.mod_unique _ _ (-1)); unfold uN in *; lia. }
      unfold uN in *. lia. }
    rewrite Hz in Hd. unfold fin_due in Hfin. rewrite Hfc in Hfin. cbn in Hfin. subst fins.
    destruct segs as [|s segs].
    2:{ exfalso. apply Forall_cons_iff in Hseg as [[_ Hl] _]. cbn in Hd.
        destruct (us_data s); [unfold len in Hl; cbn in Hl; lia|done]. }
    eexists _, w'. split; [exact E|]. split; [cbn; by rewrite Hz, Hfp|]. by rewrite Hw, app_nil_r.
  - intros ack Ha. rewrite process_ack_eq. rewrite Hfu, (proj2 (Z.ltb_ge _ _)) by lia.
    destruct (has_flag (th_flags ack) TCP_ACK), (th_window ack =? 0); cbn; auto.
Qed.

Theorem ack_of_unsent_data_stalls_witness :
  (process_ack demo_conn (ack_segment 5001 100)).(snd_una) = 5001.
Proof.
  refine (proj1 (ack_of_unsent_data_stalls demo_conn (ack_segment 5001 100) demo_world
    demo_conn_ready eq_refl eq_refl eq_refl _ _ _ _)); by_decide.
Defined.

(** Sequence numbers are compared as plain integers.  Once [snd_nxt]
    has wrapped around, an acknowledgement of everything in flight is
    ignored: nothing leaves the retransmission queue. *)
Theorem wrapped_ack_ignored (conn : TcpConnection) (seg : TcpHeader) :
  has_flag seg.(th_flags) TCP_ACK = true → seg.(th_ack_num) = conn.(snd_nxt) →
  conn.(snd_nxt) < conn.(snd_una) →
  let conn' := process_ack conn seg in
  conn'.(retransmit_queue) = conn.(retransmit_queue) ∧ conn'.(snd_una) = conn.(snd_una) ∧
  wsub32 conn'.(snd_nxt) conn'.(snd_una) = wsub32 conn.(snd_nxt) conn.(snd_una).
Proof.
  intros Hack Hnum Hlt. cbv zeta.
  rewrite process_ack_eq, Hack, Hnum, (proj2 (Z.ltb_ge _ _)) by lia. cbn [negb].
  destruct (th_window seg =? 0); done.
Qed.

(** Ten bytes sent from an initial sequence number close to the end. *)
Definition wrapped_conn : TcpConnection :=
  set_snd_una (2 ^ 32 - 4) (set_snd_nxt 6 (set_retransmit_queue
    [mkUnackedSegment (2 ^ 32 - 4) data_flags [72; 69; 76; 76; 79; 87; 79; 82; 76; 68] 0 INITIAL_RTO 0]
    (set_send_pending [] demo_conn))).

Theorem wrapped_ack_ignored_witness :
  length (process_ack wrapped_conn (ack_segment 6 100)).(retransmit_queue) = 1%nat.
Proof.
  rewrite (proj1 (wrapped_ack_ignored wrapped_conn (ack_segment 6 100) eq_refl eq_refl ltac:(by_decide))).
  reflexivity.
Defined.
