(* ===== verification/TcpReceive.v ===== *)
(** * The receiving side of a TCP connection

    The reassembly loop, and the stream a receiver delivers: whatever order,
    duplication and loss the segments of a byte stream suffer, the bytes
    handed to the application are a prefix of that stream, and all of it
    once every segment has arrived.  Then flow control: what the receive
    buffer can grow to. *)

From S2P Require Import Prelude Ip TcpSegment TcpConn TcpSend.

(** ** Reference definitions *)

(** Acknowledging, in closed form. *)
Definition acked_world (ack : bool) (conn : TcpConnection) (w : World) : World :=
  if ack then emit (seg_packet conn TCP_ACK conn.(snd_nxt) []) w else w.

(** What happens at a receiver: a segment arrives, or the application reads
    into a buffer. *)
Inductive rx_event :=
  | Arrive (seg : TcpHeader) (payload : bytes)
  | Read (room : nat).

(** Running events, with the bytes the application got. *)
Fixpoint rx_run (conn : TcpConnection) (evs : list rx_event) : M (TcpConnection * bytes) :=
  match evs with
  | [] => mret (conn, [])
  | Arrive seg payload :: evs =>
      r ← receive_data_and_maybe_fin conn seg payload;
      rx_run r.1 evs
  | Read room :: evs =>
      let '(conn, got) := conn_recv conn room in
      r ← rx_run conn evs;
      mret (r.1, got ++ r.2)
  end.

(** [payload] is the stream [S] from offset [i] on. *)
Definition stream_slice (S : bytes) (i : Z) (payload : bytes) : Prop :=
  0 ≤ i ∧ i + len payload ≤ len S ∧ payload = take (length payload) (drop (Z.to_nat i) S).

(** A segment of a peer that sends [S] from sequence number [base] on: any
    slice of the stream, with a FIN only at its end. *)
Definition segment_of (S : bytes) (base : u32) (seg : TcpHeader) (payload : bytes) : Prop :=
  stream_slice S (seg.(th_seq_num) - base) payload ∧
  (has_flag seg.(th_flags) TCP_FIN = true → seg.(th_seq_num) + len payload = base + len S).

Definition event_of (S : bytes) (base : u32) (ev : rx_event) : Prop :=
  match ev with Arrive seg payload => segment_of S base seg payload | Read _ => True end.

(** The receiver holds a part of [S] that starts at offset [off] (the bytes
    before were read) and the reassembly buffer holds slices of [S].  Once
    the FIN is consumed, [rcv_nxt] is one past the stream. *)
Record stream_inv (S : bytes) (base : u32) (off : nat) (conn : TcpConnection) : Prop := {
  si_addrs : addrs_ok conn;
  si_base : 0 ≤ base;
  si_fits : base + len S + 1 < 2 ^ 32;
  si_off : (off + length conn.(recv_buffer) ≤ length S)%nat;
  si_buf : conn.(recv_buffer) = take (length conn.(recv_buffer)) (drop off S);
  si_nxt : conn.(rcv_nxt) = base + Z.of_nat off + len conn.(recv_buffer) ∨
           conn.(rcv_nxt) = base + len S + 1 ∧ (off + length conn.(recv_buffer) = length S)%nat;
  si_ooo : map_Forall (λ k v, stream_slice S (k - base) v ∧ v ≠ []) conn.(ooo_buffer);
}.

(** ** Lemmas *)

Lemma receive_data_eq conn seg payload w : addrs_ok conn →
  let r := receive_step conn seg payload in
  addrs_ok r.1.1 →
  receive_data_and_maybe_fin conn seg payload w =
    Some ((r.1.1, r.2), acked_world r.1.2 r.1.1 w).
Proof.
  intros Ha r Hr. subst r. unfold receive_data_and_maybe_fin.
  destruct (receive_step conn seg payload) as [[c a] f]. cbn in *. destruct a; [|done].
  erewrite bind_Some by (by apply send_ack_only_eq). done.
Qed.

(** The fields the receive side leaves alone. *)
Definition rx_frame (c c' : TcpConnection) : Prop :=
  c' = set_rcv_nxt c'.(rcv_nxt) (set_recv_buffer c'.(recv_buffer) (set_ooo_buffer c'.(ooo_buffer) c)).

Lemma rx_frame_refl c : rx_frame c c.
Proof. by destruct c. Qed.

Lemma rx_frame_trans c1 c2 c3 : rx_frame c1 c2 → rx_frame c2 c3 → rx_frame c1 c3.
Proof. unfold rx_frame. intros H1 H2. rewrite H2, H1. done. Qed.

Lemma rx_frame_addrs c c' : rx_frame c c' → addrs_ok c → addrs_ok c'.
Proof. intros -> H. exact H. Qed.

Lemma splice_ooo_frame fuel c a : rx_frame c (splice_ooo fuel c a).1.
Proof.
  revert c a. induction fuel as [|fuel IH]; intros c a; cbn [splice_ooo]; [apply rx_frame_refl|].
  destruct (ooo_buffer c !! rcv_nxt c); [|apply rx_frame_refl].
  eapply rx_frame_trans; [|apply IH]. by destruct c.
Qed.

Lemma receive_step_frame c seg payload : rx_frame c (receive_step c seg payload).1.1.
Proof.
  unfold receive_step. destruct (_ =? _).
  - set (p := if negb _ then _ else _). assert (Hp : rx_frame c p.1).
    { unfold p. destruct (negb _); by destruct c. }
    destruct p as [c1 a1]. pose proof (splice_ooo_frame (size (ooo_buffer c1)) c1 a1) as Hs.
    destruct (splice_ooo _ _ _) as [c2 a2]. cbn in *.
    assert (rx_frame c c2) by (by eapply rx_frame_trans).
    destruct (has_flag _ _); cbn; [|done]. eapply rx_frame_trans; [done|]. by destruct c2.
  - destruct (_ <? _); cbn; [|apply rx_frame_refl]. destruct (_ && _); by destruct c.
Qed.

(** The loop condition is false when the reassembly loop stops. *)
Lemma splice_ooo_exit fuel c a : (size c.(ooo_buffer) ≤ fuel)%nat →
  let c' := (splice_ooo fuel c a).1 in c'.(ooo_buffer) !! c'.(rcv_nxt) = None.
Proof.
  revert c a. induction fuel as [|fuel IH]; intros c a Hsz; cbn [splice_ooo fst]; cbv zeta.
  - assert (ooo_buffer c = ∅) as -> by (apply map_size_empty_iff; lia). apply lookup_empty.
  - destruct (ooo_buffer c !! rcv_nxt c) eqn:E; [|done]. apply IH. cbn.
    rewrite map_size_delete_Some by eauto. lia.
Qed.

(** Two slices that meet make one. *)
Lemma slice_glue {A} (S : list A) off n p :
  p = take (length p) (drop (off + n) S) →
  take n (drop off S) ++ p = take (n + length p) (drop off S).
Proof.
  intros Hp. rewrite Hp at 1. rewrite <- (drop_drop S n off). by rewrite take_take_drop.
Qed.

Lemma stream_append S base off c p :
  stream_inv S base off c → c.(rcv_nxt) = base + Z.of_nat off + len c.(recv_buffer) →
  stream_slice S (c.(rcv_nxt) - base) p →
  stream_inv S base off
    (set_rcv_nxt (wadd32 c.(rcv_nxt) (as_u32 (len p))) (set_recv_buffer (c.(recv_buffer) ++ p) c)).
Proof.
  intros [Ha Hb Hf Ho Hbuf _ Hooo] Hn (H0 & Hl & Hp).
  assert (Hnat : Z.to_nat (rcv_nxt c - base) = (off + length (recv_buffer c))%nat)
    by (unfold len in *; lia).
  rewrite Hnat in Hp.
  assert (Hlen : (off + length (recv_buffer c) + length p ≤ length S)%nat) by (unfold len in *; lia).
  split; cbn; auto.
  - rewrite length_app. lia.
  - rewrite length_app. rewrite Hbuf at 1. rewrite slice_glue by done.
    done.
  - left. unfold as_u32. rewrite wadd32_idemp_r, wadd32_small, len_app; unfold len in *; lia.
Qed.

Lemma splice_ooo_inv S base off fuel c a :
  stream_inv S base off c → c.(rcv_nxt) = base + Z.of_nat off + len c.(recv_buffer) →
  let c' := (splice_ooo fuel c a).1 in
  stream_inv S base off c' ∧ c'.(rcv_nxt) = base + Z.of_nat off + len c'.(recv_buffer) ∧
  (length c.(recv_buffer) ≤ length c'.(recv_buffer))%nat.
Proof.
  revert c a. induction fuel as [|fuel IH]; intros c a Hi Hn; cbn [splice_ooo]; [done|].
  destruct (ooo_buffer c !! rcv_nxt c) as [p|] eqn:E; [|done].
  set (c1 := set_ooo_buffer (delete (rcv_nxt c) (ooo_buffer c)) c).
  assert (Hsl : stream_slice S (rcv_nxt c - base) p) by (by apply (si_ooo _ _ _ _ Hi) in E as [? _]).
  assert (Hi1 : stream_inv S base off c1).
  { destruct Hi as [????? ? Hooo]. split; cbn; auto. by apply map_Forall_delete. }
  pose proof (stream_append S base off c1 p Hi1 Hn Hsl) as Hi2.
  assert (Hn2 : wadd32 (rcv_nxt c) (as_u32 (len p)) =
                base + Z.of_nat off + len (recv_buffer c ++ p)).
  { pose proof (si_fits _ _ _ _ Hi). pose proof (si_base _ _ _ _ Hi). destruct Hsl as (? & ? & _).
    unfold as_u32. rewrite wadd32_idemp_r, wadd32_small, len_app; unfold len in *; lia. }
  destruct (IH (set_recv_buffer (recv_buffer c ++ p)
              (set_rcv_nxt (wadd32 (rcv_nxt c) (as_u32 (len p))) c1)) true) as (H1 & H2 & H3).
  { exact Hi2. }
  { exact Hn2. }
  split_and!; [exact H1|exact H2|]. cbn in H3. rewrite length_app in H3. cbn in *. lia.
Qed.

Lemma stream_fin S base off c :
  stream_inv S base off c → c.(rcv_nxt) = base + Z.of_nat off + len c.(recv_buffer) →
  (off + length c.(recv_buffer) = length S)%nat →
  stream_inv S base off (set_rcv_nxt (wadd32 c.(rcv_nxt) 1) c).
Proof.
  intros [Ha Hb Hf Ho Hbuf _ Hooo] Hn Hend. split; cbn; auto.
  right. split; [|done]. rewrite wadd32_small; unfold len in *; lia.
Qed.

(** One segment that starts at [rcv_nxt]: its data and what was buffered
    behind it is appended; the FIN is consumed at the end of the stream. *)
Lemma receive_step_in_order S base off c seg payload :
  stream_inv S base off c → segment_of S base seg payload → seg.(th_seq_num) = c.(rcv_nxt) →
  let c' := (receive_step c seg payload).1.1 in
  stream_inv S base off c' ∧ (length c.(recv_buffer) ≤ length c'.(recv_buffer))%nat ∧
  c.(rcv_nxt) = base + Z.of_nat off + len c.(recv_buffer) ∧
  if has_flag seg.(th_flags) TCP_FIN then c'.(rcv_nxt) = base + len S + 1
  else c'.(rcv_nxt) = base + Z.of_nat off + len c'.(recv_buffer).
Proof.
  intros Hi [(H0 & Hl & Hp) Hfin] Heq. unfold receive_step. rewrite Heq in *. rewrite Z.eqb_refl.
  pose proof (si_fits _ _ _ _ Hi) as Hfit. pose proof (si_base _ _ _ _ Hi) as Hbase.
  assert (Hn : rcv_nxt c = base + Z.of_nat off + len (recv_buffer c)).
  { destruct (si_nxt _ _ _ _ Hi) as [?|[? _]]; [done|]. pose proof (len_nonneg payload). lia. }
  set (c1 := if negb _ then _ else _).
  assert (H1 : stream_inv S base off c1.1 ∧
    rcv_nxt c1.1 = base + Z.of_nat off + len (recv_buffer c1.1) ∧
    (length (recv_buffer c) + length payload = length (recv_buffer c1.1))%nat).
  { unfold c1. case_bool_decide as Enil; cbn [negb].
    - subst payload. cbn. auto.
    - split; [exact (stream_append S base off c payload Hi Hn (conj H0 (conj Hl Hp)))|]. cbn.
      rewrite length_app. split; [|done].
      unfold as_u32. rewrite wadd32_idemp_r, wadd32_small, len_app; unfold len in *; lia. }
  destruct c1 as [c1 a1]. cbn [fst] in H1. destruct H1 as (Hi1 & Hn1 & Hb1).
  destruct (splice_ooo_inv S base off (size (ooo_buffer c1)) c1 a1 Hi1 Hn1) as (Hi2 & Hn2 & Hb2).
  destruct (splice_ooo _ c1 a1) as [c2 a2]. cbn [fst] in *.
  destruct (has_flag _ TCP_FIN); cbn [fst]; [|split_and!; [done|lia|done|done]].
  specialize (Hfin eq_refl). pose proof (si_off _ _ _ _ Hi2) as Ho.
  split_and!; [apply stream_fin; [done..|]|cbn; lia|done|cbn; rewrite wadd32_small]; unfold len in *; lia.
Qed.

(** One segment. *)
Lemma receive_step_inv S base off c seg payload :
  stream_inv S base off c → segment_of S base seg payload →
  stream_inv S base off (receive_step c seg payload).1.1.
Proof.
  intros Hi Hs. destruct (Z.eqb_spec (th_seq_num seg) (rcv_nxt c)) as [Heq|Hne].
  - by apply receive_step_in_order.
  - destruct Hs as [Hsl _]. unfold receive_step. rewrite (proj2 (Z.eqb_neq _ _) Hne).
    destruct (Z.ltb_spec (rcv_nxt c) (th_seq_num seg)); cbn [fst]; [|done].
    case_bool_decide as Enil; cbn [negb andb]; [done|]. case_bool_decide; [|done].
    destruct Hi. split; cbn; auto. by apply map_Forall_insert_2.
Qed.

(** One read. *)
Lemma conn_recv_inv S base off c room :
  stream_inv S base off c →
  let '(c', got) := conn_recv c room in
  stream_inv S base (off + length got) c' ∧ stream_slice S (Z.of_nat off) got ∧
  got = take room c.(recv_buffer).
Proof.
  intros Hi. pose proof (si_off _ _ _ _ Hi) as Ho. pose proof (si_buf _ _ _ _ Hi) as Hbuf.
  unfold conn_recv. set (n := Nat.min _ _).
  assert (Hgot : take n (recv_buffer c) = take room (recv_buffer c)).
  { unfold n. rewrite <- take_take. by rewrite firstn_all. }
  destruct (Nat.ltb_spec 0 n).
  - rewrite length_take. replace (n `min` _)%nat with n by lia. split_and!; [|split_and!|done].
    + destruct Hi as [? ? ? ? ? Hn ?]. split; cbn; auto; rewrite ?length_drop; [lia| |].
      * rewrite Hbuf at 1. rewrite skipn_firstn_comm, drop_drop. reflexivity.
      * unfold len in *. rewrite length_drop. destruct Hn as [->|[-> ?]]; [left|right]; lia.
    + lia.
    + unfold len in *. rewrite length_take. lia.
    + rewrite length_take, Nat2Z.id, Hbuf. rewrite take_take. f_equal. rewrite length_take, length_drop. lia.
  - rewrite Nat.add_0_r. split_and!; [done|split_and!; unfold len; cbn; lia || done|].
    rewrite <- Hgot. by replace n with 0%nat by lia.
Qed.

(** Any run of events. *)
Lemma rx_run_inv S base off c evs w :
  stream_inv S base off c → Forall (event_of S base) evs →
  ∃ c' got w', rx_run c evs w = Some ((c', got), w') ∧
    stream_inv S base (off + length got) c' ∧ got = take (length got) (drop off S) ∧
    world_ext w w'.
Proof.
  revert off c w. induction evs as [|ev evs IH]; intros off c w Hi Hev; cbn [rx_run].
  { exists c, [], w. rewrite Nat.add_0_r. done. }
  apply Forall_cons_iff in Hev as [He Hev]. destruct ev as [seg payload|room].
  - pose proof (receive_step_inv S base off c seg payload Hi He) as Hi1.
    erewrite bind_Some by (apply receive_data_eq; [apply Hi|apply Hi1]). cbn [fst].
    set (w1 := acked_world _ _ w).
    destruct (IH off _ w1 Hi1 Hev) as (c' & got & w' & E & ? & ? & ?).
    exists c', got, w'. split_and!; [exact E|done|done|]. etrans; [|done].
    unfold w1, acked_world. destruct (receive_step c seg payload).1.2; [apply emit_ext|done].
  - pose proof (conn_recv_inv S base off c room Hi) as Hr.
    destruct (conn_recv c room) as [c1 got1]. destruct Hr as (Hi1 & (_ & _ & Hg1) & _).
    destruct (IH _ c1 w Hi1 Hev) as (c' & got & w' & E & Hi' & Hg & Hw).
    erewrite bind_Some by exact E. exists c', (got1 ++ got), w'.
    rewrite length_app, Nat.add_assoc. split_and!; try done. rewrite Nat2Z.id in Hg1.
    rewrite Hg1 at 1. rewrite Hg at 1. rewrite <- (drop_drop S (length got1) off). apply take_take_drop.
Qed.

(** *** Bytes held *)

Lemma ooo_bytes_delete m k v : m !! k = Some v → ooo_bytes m = len v + ooo_bytes (delete k m).
Proof.
  intros H. unfold ooo_bytes.
  rewrite (map_fold_delete_L _ _ k v m); [done| |done]. intros. lia.
Qed.

Lemma ooo_bytes_nonneg m : 0 ≤ ooo_bytes m.
Proof.
  unfold ooo_bytes. apply (map_fold_weak_ind (λ n _, 0 ≤ n)); [lia|].
  intros k v m' r _ Hr. pose proof (len_nonneg v). lia.
Qed.

Lemma ooo_bytes_insert m k v : ooo_bytes (<[k := v]> m) ≤ ooo_bytes m + len v.
Proof.
  rewrite (ooo_bytes_delete (<[k := v]> m) k v) by apply lookup_insert_eq.
  rewrite delete_insert_eq. destruct (m !! k) as [v'|] eqn:E.
  - rewrite (ooo_bytes_delete m k v' E). pose proof (len_nonneg v'). lia.
  - rewrite delete_id by done. lia.
Qed.

(** Reassembly moves bytes, it does not make or lose any. *)
Lemma splice_ooo_bytes fuel c a : buffered_bytes (splice_ooo fuel c a).1 = buffered_bytes c.
Proof.
  revert c a. induction fuel as [|fuel IH]; intros c a; cbn [splice_ooo]; [done|].
  destruct (ooo_buffer c !! rcv_nxt c) as [p|] eqn:E; [|done].
  rewrite IH. unfold buffered_bytes. cbn. rewrite len_app.
  rewrite (ooo_bytes_delete (ooo_buffer c) (rcv_nxt c) p E). lia.
Qed.

(** Reassembly only appends to the receive buffer. *)
Lemma splice_ooo_grows fuel c a : c.(recv_buffer) `prefix_of` (splice_ooo fuel c a).1.(recv_buffer).
Proof.
  revert c a. induction fuel as [|fuel IH]; intros c a; cbn [splice_ooo]; [done|].
  destruct (ooo_buffer c !! rcv_nxt c) as [p|]; [|done].
  etrans; [|apply IH]. cbn. by apply prefix_app_r.
Qed.

Lemma receive_step_grows c seg payload :
  c.(recv_buffer) `prefix_of` (receive_step c seg payload).1.1.(recv_buffer).
Proof.
  unfold receive_step. destruct (_ =? _).
  - set (c1 := if negb _ then _ else _).
    assert (H1 : recv_buffer c `prefix_of` recv_buffer c1.1)
      by (unfold c1; destruct (negb _); cbn; [by apply prefix_app_r|done]).
    destruct c1 as [c1 a1]. pose proof (splice_ooo_grows (size (ooo_buffer c1)) c1 a1) as H2.
    destruct (splice_ooo _ c1 a1) as [c2 a2]. cbn [fst] in *.
    assert (recv_buffer c `prefix_of` recv_buffer c2) by (by etrans). by destruct (has_flag _ _).
  - destruct (_ <? _); cbn [fst]; [|done]. by destruct (_ && _).
Qed.

(** What one segment can add: in order, all of it; out of order, at most
    what keeps within the cap; old data, nothing. *)
Lemma receive_step_bytes c seg payload :
  buffered_bytes (receive_step c seg payload).1.1 =
    buffered_bytes c + len payload ∧ seg.(th_seq_num) = c.(rcv_nxt) ∨
  seg.(th_seq_num) ≠ c.(rcv_nxt) ∧
  (buffered_bytes (receive_step c seg payload).1.1 = buffered_bytes c ∨
   buffered_bytes (receive_step c seg payload).1.1 ≤ buffered_bytes c + len payload ≤ c.(recv_buffer_cap)).
Proof.
  unfold receive_step. destruct (Z.eqb_spec (th_seq_num seg) (rcv_nxt c)) as [Heq|Hne].
  - left. split; [|done]. set (c1 := if negb _ then _ else _).
    assert (H1 : buffered_bytes c1.1 = buffered_bytes c + len payload).
    { unfold c1. case_bool_decide as E; cbn [negb fst]; [subst; unfold len; cbn; lia|].
      unfold buffered_bytes. cbn. rewrite len_app. lia. }
    destruct c1 as [c1 a1]. pose proof (splice_ooo_bytes (size (ooo_buffer c1)) c1 a1) as H2.
    destruct (splice_ooo _ c1 a1) as [c2 a2]. cbn [fst] in *. rewrite <- H1, <- H2.
    destruct (has_flag _ _); done.
  - right. split; [done|]. destruct (_ <? _); cbn [fst]; [|by left].
    destruct (negb _); cbn [andb]; [|by left]. case_bool_decide as Ecap; [right|by left].
    unfold buffered_bytes in *. cbn.
    pose proof (ooo_bytes_insert (ooo_buffer c) (th_seq_num seg) payload). lia.
Qed.

(** *** Completeness: pieces of a fixed segmentation *)

(** The segment carries one of the pieces, at its place. *)
Definition piece_of (cs : list bytes) (base : u32) (sp : TcpHeader * bytes) : Prop :=
  has_flag sp.1.(th_flags) TCP_FIN = false ∧
  ∃ pre post, cs = pre ++ sp.2 :: post ∧ sp.1.(th_seq_num) = base + len (concat pre).

Definition arrivals_bytes (arr : list (TcpHeader * bytes)) : Z := foldr (λ sp n, len sp.2 + n) 0 arr.

(** Everything that arrived is either delivered or waits in the reassembly
    buffer, and what was delivered are the first pieces. *)
Record pieces_inv (cs : list bytes) (base : u32) (arr : list (TcpHeader * bytes)) (c : TcpConnection)
    : Prop := {
  pi_pos : ∃ pre post, cs = pre ++ post ∧ c.(recv_buffer) = concat pre ∧
             c.(rcv_nxt) = base + len (concat pre);
  pi_ooo : ∀ k v, c.(ooo_buffer) !! k = Some v →
             ∃ pre post, cs = pre ++ v :: post ∧ k = base + len (concat pre);
  pi_arr : ∀ sp, sp ∈ arr → sp.1.(th_seq_num) < c.(rcv_nxt) ∨
             c.(ooo_buffer) !! sp.1.(th_seq_num) = Some sp.2;
}.

Lemma len_concat_app (a b : list bytes) : len (concat (a ++ b)) = len (concat a) + len (concat b).
Proof. by rewrite concat_app, len_app. Qed.

(** Non-empty pieces are at different offsets. *)
Lemma pieces_unique (pre post pre' post' : list bytes) :
  Forall (λ p, p ≠ []) (pre ++ post) → pre ++ post = pre' ++ post' →
  len (concat pre) = len (concat pre') → pre = pre' ∧ post = post'.
Proof.
  revert pre'. induction pre as [|p pre IH]; intros [|p' pre'] Hne He Hl; cbn in *; auto.
  - exfalso. subst post. apply Forall_cons_iff in Hne as [Hp%len_pos _].
    rewrite len_app in Hl. pose proof (len_nonneg (concat pre')). unfold len at 1 in Hl. cbn in Hl. lia.
  - exfalso. apply Forall_cons_iff in Hne as [Hp%len_pos _].
    rewrite len_app in Hl. pose proof (len_nonneg (concat pre)). unfold len at 3 in Hl. cbn in Hl. lia.
  - injection He as -> He. apply Forall_cons_iff in Hne as [_ Hne]. rewrite !len_app in Hl.
    destruct (IH pre' Hne He) as [-> ->]; [lia|done].
Qed.

Section Pieces.
Context (cs : list bytes) (base : u32).
Hypothesis Hne : Forall (λ p, p ≠ []) cs.
Hypothesis Hbase : 0 ≤ base.
Hypothesis Hfits : base + len (concat cs) < 2 ^ 32.

(** A piece that starts at [rcv_nxt] is the next one. *)
Lemma next_piece pre post pre' p post' :
  cs = pre ++ post → cs = pre' ++ p :: post' → len (concat pre) = len (concat pre') →
  post = p :: post'.
Proof.
  intros E1 E2 Hl. rewrite E1 in Hne.
  destruct (pieces_unique pre post pre' (p :: post') Hne) as [_ ?]; [by rewrite <- E1|done|done].
Qed.

(** Taking the next piece, wherever it comes from. *)
Lemma pieces_advance arr c pre' p post' :
  pieces_inv cs base arr c → cs = pre' ++ p :: post' → c.(rcv_nxt) = base + len (concat pre') →
  pieces_inv cs base arr
    (set_rcv_nxt (wadd32 c.(rcv_nxt) (as_u32 (len p)))
      (set_recv_buffer (c.(recv_buffer) ++ p)
        (set_ooo_buffer (delete c.(rcv_nxt) c.(ooo_buffer)) c))).
Proof.
  intros [(pre & post & Ecs & Hbuf & Hn) Hooo Harr] E' Hn'.
  assert (Epost : post = p :: post') by (eapply next_piece; [exact Ecs|exact E'|lia]). subst post.
  assert (Hp : 0 < len p).
  { apply len_pos. rewrite Ecs in Hne. apply Forall_app in Hne as [_ [? _]%Forall_cons_iff]. done. }
  assert (Hnext : wadd32 (rcv_nxt c) (as_u32 (len p)) = base + len (concat (pre ++ [p]))).
  { rewrite len_concat_app. cbn [concat]. rewrite app_nil_r.
    assert (len (concat cs) = len (concat pre) + len p + len (concat post'))
      by (rewrite Ecs, len_concat_app; cbn; rewrite len_app; lia).
    pose proof (len_nonneg (concat post')). pose proof (len_nonneg (concat pre)).
    unfold as_u32. rewrite wadd32_idemp_r, wadd32_small; lia. }
  split; cbn.
  - exists (pre ++ [p]), post'. split_and!; [by rewrite <- app_assoc| |done].
    rewrite Hbuf, concat_app. cbn. by rewrite app_nil_r.
  - intros k v [_ Hk]%lookup_delete_Some. by apply Hooo.
  - intros sp Hsp. rewrite Hnext, len_concat_app. cbn [concat]. rewrite app_nil_r.
    destruct (Harr sp Hsp) as [?|Hl]; [left; lia|].
    destruct (decide (th_seq_num sp.1 = rcv_nxt c)); [left; lia|right].
    by rewrite lookup_delete_ne.
Qed.

Lemma splice_ooo_pieces arr fuel c a :
  pieces_inv cs base arr c → pieces_inv cs base arr (splice_ooo fuel c a).1.
Proof.
  revert c a. induction fuel as [|fuel IH]; intros c a Hi; cbn [splice_ooo]; [done|].
  destruct (ooo_buffer c !! rcv_nxt c) as [p|] eqn:E; [|done].
  destruct (pi_ooo _ _ _ _ Hi _ _ E) as (pre & post & E' & Hk).
  apply IH. exact (pieces_advance arr c pre p post Hi E' Hk).
Qed.

(** One arrival, when the buffer has room for it. *)
Lemma receive_step_pieces arr c sp :
  pieces_inv cs base arr c → c.(ooo_buffer) !! c.(rcv_nxt) = None → piece_of cs base sp →
  sp.1.(th_seq_num) ≤ c.(rcv_nxt) ∨ buffered_bytes c + len sp.2 ≤ c.(recv_buffer_cap) →
  let c' := (receive_step c sp.1 sp.2).1.1 in
  pieces_inv cs base (sp :: arr) c' ∧ c'.(ooo_buffer) !! c'.(rcv_nxt) = None.
Proof.
  intros Hi Hx [Hfin (pre & post & E & Hseq)] Hroom. unfold receive_step. rewrite Hfin.
  assert (Hnil : sp.2 ≠ []).
  { rewrite E in Hne. by apply Forall_app in Hne as [_ [? _]%Forall_cons_iff]. }
  rewrite (bool_decide_eq_false_2 (sp.2 = [])) by done. cbn [negb andb].
  destruct (Z.eqb_spec (th_seq_num sp.1) (rcv_nxt c)) as [Heq|Hneq].
  - set (c1 := set_rcv_nxt _ _).
    assert (Hi1 : pieces_inv cs base (sp :: arr) c1).
    { pose proof (pieces_advance arr c pre sp.2 post Hi E ltac:(lia)) as [H1 H2 H3].
      rewrite delete_id in H1, H2, H3 by done. split; [exact H1|exact H2|].
      intros sp' [->|Hin]%elem_of_cons; [left|exact (H3 sp' Hin)].
      destruct H1 as (pre1 & post1 & E1 & Hb1 & Hn1). unfold c1. cbn in Hn1 |- *.
      rewrite Hn1. cbn in Hb1. rewrite <- Hb1, len_app. rewrite Heq.
      destruct (pi_pos _ _ _ _ Hi) as (pre0 & post0 & _ & Hb0 & ->). rewrite Hb0.
      apply len_pos in Hnil. lia. }
    pose proof (splice_ooo_pieces (sp :: arr) (size (ooo_buffer c1)) c1 true Hi1) as H2.
    pose proof (splice_ooo_exit (size (ooo_buffer c1)) c1 true ltac:(done)) as H3.
    destruct (splice_ooo _ c1 true) as [c2 a2]. done.
  - destruct (Z.ltb_spec (rcv_nxt c) (th_seq_num sp.1)); cbn [fst].
    + rewrite bool_decide_eq_true_2 by (destruct Hroom; [lia|done]).
      destruct Hi as [H1 H2 H3]. split; [split; cbn; [done| |]|].
      * intros k v [[<- <-]|[? ?]]%lookup_insert_Some; [by exists pre, post|by apply H2].
      * intros sp' [->|Hin]%elem_of_cons; [right; by rewrite lookup_insert_eq|].
        destruct (H3 sp' Hin) as [?|Hl]; [by left|right].
        destruct (decide (th_seq_num sp.1 = th_seq_num sp'.1)) as [Eq|]; [|by rewrite lookup_insert_ne].
        rewrite Eq, lookup_insert_eq. f_equal. rewrite <- Eq in Hl.
        destruct (H2 _ _ Hl) as (pre' & post' & E' & Hk').
        assert (sp.2 :: post = sp'.2 :: post') as [= ?]; [|done].
        eapply next_piece; [exact E|exact E'|lia].
      * cbn. rewrite lookup_insert_ne by lia. done.
    + split; [|done]. destruct Hi as [H1 H2 H3]. split; [done..|].
      intros sp' [->|Hin]%elem_of_cons; [left; lia|auto].
Qed.

End Pieces.

(** Data is always acknowledged. *)
Lemma receive_step_acks c seg payload : payload ≠ [] → (receive_step c seg payload).1.2 = true.
Proof.
  intros Hp. unfold receive_step. rewrite (bool_decide_eq_false_2 (payload = [])) by done. cbn [negb andb orb].
  destruct (_ =? _); [|by destruct (_ <? _)]. set (c1 := set_rcv_nxt _ _).
  assert (Hs : ∀ fuel c, (splice_ooo fuel c true).2 = true).
  { clear. induction fuel as [|fuel IH]; intros c; cbn [splice_ooo]; [done|]. by destruct (_ !! _). }
  specialize (Hs (size (ooo_buffer c1)) c1). destruct (splice_ooo _ _ _). cbn in *. by destruct (has_flag _ _).
Qed.

(** When every piece has arrived, all of them are delivered. *)
Lemma pieces_all_delivered cs base arr c :
  pieces_inv cs base arr c → c.(ooo_buffer) !! c.(rcv_nxt) = None →
  (∀ pre p post, cs = pre ++ p :: post →
     ∃ sp, sp ∈ arr ∧ sp.1.(th_seq_num) = base + len (concat pre)) →
  c.(recv_buffer) = concat cs ∧ c.(rcv_nxt) = base + len (concat cs).
Proof.
  intros Hi Hx Hall. destruct (pi_pos _ _ _ _ Hi) as (pre & [|p post] & Ecs & Hbuf & Hnxt).
  { rewrite app_nil_r in Ecs. by subst pre. }
  exfalso. destruct (Hall pre p post Ecs) as (sp & Hin & Hseq).
  destruct (pi_arr _ _ _ _ Hi sp Hin) as [?|Hl]; [lia|]. by rewrite Hseq, <- Hnxt, Hx in Hl.
Qed.

(** Arrivals one after the other. *)
Lemma rx_run_pieces cs base seen todo c w :
  Forall (λ p, p ≠ []) cs → 0 ≤ base → base + len (concat cs) < 2 ^ 32 →
  addrs_ok c → pieces_inv cs base seen c → c.(ooo_buffer) !! c.(rcv_nxt) = None →
  Forall (piece_of cs base) todo → buffered_bytes c + arrivals_bytes todo ≤ c.(recv_buffer_cap) →
  ∃ c' w', rx_run c ((λ sp, Arrive sp.1 sp.2) <$> todo) w = Some ((c', []), w') ∧
    pieces_inv cs base (reverse todo ++ seen) c' ∧ c'.(ooo_buffer) !! c'.(rcv_nxt) = None.
Proof.
  intros Hne Hb Hf. revert seen c w. induction todo as [|sp todo IH]; intros seen c w Ha Hi Hx Hp Hroom.
  { by exists c, w. }
  apply Forall_cons_iff in Hp as [Hsp Hp]. cbn [fmap list_fmap rx_run].
  cbn [arrivals_bytes foldr] in Hroom. fold (arrivals_bytes todo) in Hroom.
  assert (0 ≤ arrivals_bytes todo).
  { clear. induction todo as [|sp todo IH]; cbn; [lia|]. pose proof (len_nonneg sp.2).
    fold (arrivals_bytes todo). lia. }
  destruct (receive_step_pieces cs base Hne Hb Hf seen c sp Hi Hx Hsp ltac:(lia)) as [Hi' Hx'].
  pose proof (receive_step_bytes c sp.1 sp.2) as Hbytes. pose proof (len_nonneg sp.2).
  pose proof (receive_step_frame c sp.1 sp.2) as Hfr.
  assert (Hcap : recv_buffer_cap (receive_step c sp.1 sp.2).1.1 = recv_buffer_cap c) by (by rewrite Hfr).
  assert (Ha' : addrs_ok (receive_step c sp.1 sp.2).1.1) by (by eapply rx_frame_addrs).
  erewrite bind_Some by (by apply receive_data_eq). cbn [fst].
  set (w1 := acked_world _ _ w).
  destruct (IH (sp :: seen) _ w1 Ha' Hi' Hx' Hp ltac:(lia)) as (c' & w' & E & Hend).
  exists c', w'. split; [exact E|]. by rewrite reverse_cons, <- app_assoc.
Qed.

(** ** Theorems *)

(** C11: whatever slices of the byte stream [S] arrive, in any order, with
    any duplication, overlap and loss, interleaved with reads of any size,
    the receiver never panics and the bytes read so far followed by those
    still buffered are a prefix of [S]; [rcv_nxt], the acknowledgement it
    sends, counts exactly these bytes, plus one once the FIN was consumed,
    which happens only after the whole stream was delivered.  ([S] does not
    run across the end of the sequence space.) *)
Theorem reassembly_sound (S : bytes) (conn : TcpConnection) (evs : list rx_event) (w : World) :
  addrs_ok conn → conn.(recv_buffer) = [] → conn.(ooo_buffer) = ∅ →
  0 ≤ conn.(rcv_nxt) → conn.(rcv_nxt) + len S + 1 < 2 ^ 32 →
  Forall (event_of S conn.(rcv_nxt)) evs →
  ∃ conn' got w', rx_run conn evs w = Some ((conn', got), w') ∧
    (got ++ conn'.(recv_buffer)) `prefix_of` S ∧
    (conn'.(rcv_nxt) = conn.(rcv_nxt) + len (got ++ conn'.(recv_buffer)) ∨
     conn'.(rcv_nxt) = conn.(rcv_nxt) + len S + 1 ∧ got ++ conn'.(recv_buffer) = S).
Proof.
  intros Ha Hb Ho Hn Hf Hev. destruct (rx_run_inv S (rcv_nxt conn) 0 conn evs w)
    as (c' & got & w' & E & Hi & Hg & _); [|done|].
  { split; rewrite ?Hb, ?Ho; auto; [cbn; lia|left; unfold len; cbn; lia|apply map_Forall_empty]. }
  exists c', got, w'. split; [done|].
  assert (Hall : got ++ recv_buffer c' = take (length got + length (recv_buffer c')) S).
  { rewrite drop_0 in Hg. rewrite Hg at 1. rewrite (si_buf _ _ _ _ Hi) at 1. apply take_take_drop. }
  pose proof (si_off _ _ _ _ Hi) as Hoff. rewrite Hall. split; [apply prefix_take|].
  destruct (si_nxt _ _ _ _ Hi) as [Hx|[Hx Hend]]; [left|right]; rewrite Hx.
  - unfold len. rewrite length_take. lia.
  - split; [done|]. apply take_ge. lia.
Qed.

(** A stream in three pieces that arrive out of order, one of them twice. *)
Definition rx_conn : TcpConnection := set_send_pending [] demo_conn.

Definition data_segment (seq : u32) : TcpHeader :=
  mkTcpHeader 41000 9292 seq 5000 80 data_flags 65535 0 0.

Definition rx_arrivals : list (TcpHeader * bytes) :=
  [(data_segment 1006, [6; 7]); (data_segment 1003, [3; 4; 5]);
   (data_segment 1006, [6; 7]); (data_segment 1001, [1; 2])].

Lemma rx_conn_addrs : addrs_ok rx_conn.
Proof. split; by_decide. Qed.

Theorem reassembly_sound_witness :
  ∃ conn' got w', rx_run rx_conn [Arrive (data_segment 1003) [3; 4; 5]; Read 10;
                                  Arrive (data_segment 1001) [1; 2]; Read 3] demo_world
                    = Some ((conn', got), w') ∧ got = [1; 2; 3].
Proof.
  destruct (reassembly_sound [1; 2; 3; 4; 5; 6; 7] rx_conn
    [Arrive (data_segment 1003) [3; 4; 5]; Read 10; Arrive (data_segment 1001) [1; 2]; Read 3]
    demo_world) as (conn' & got & w' & E & _).
  - exact rx_conn_addrs.
  - reflexivity.
  - reflexivity.
  - by_decide.
  - by_decide.
  - repeat constructor; vm_compute; congruence || done.
  - exists conn', got, w'. split; [exact E|]. vm_compute in E. by injection E as _ <- _.
Defined.

(** C12: when a stream is cut into non-empty pieces and every piece arrives
    at least once, in whatever order, and the receive buffer has room for
    what arrives, then all of the stream is delivered, in order. *)
Theorem reassembly_complete (cs : list bytes) (arr : list (TcpHeader * bytes))
    (conn : TcpConnection) (w : World) :
  addrs_ok conn → conn.(recv_buffer) = [] → conn.(ooo_buffer) = ∅ →
  0 ≤ conn.(rcv_nxt) → conn.(rcv_nxt) + len (concat cs) < 2 ^ 32 →
  Forall (λ p, p ≠ []) cs →
  Forall (piece_of cs conn.(rcv_nxt)) arr →
  (∀ pre p post, cs = pre ++ p :: post →
     ∃ sp, sp ∈ arr ∧ sp.1.(th_seq_num) = conn.(rcv_nxt) + len (concat pre)) →
  arrivals_bytes arr ≤ conn.(recv_buffer_cap) →
  ∃ conn' w', rx_run conn ((λ sp, Arrive sp.1 sp.2) <$> arr) w = Some ((conn', []), w') ∧
    conn'.(recv_buffer) = concat cs ∧ conn'.(rcv_nxt) = conn.(rcv_nxt) + len (concat cs).
Proof.
  intros Ha Hb Ho Hn Hf Hne Hp Hall Hroom.
  destruct (rx_run_pieces cs (rcv_nxt conn) [] arr conn w) as (c' & w' & E & Hi & Hx); auto.
  { split; rewrite ?Hb, ?Ho.
    - exists [], cs. split_and!; auto. unfold len. cbn. lia.
    - intros k v. by rewrite lookup_empty.
    - by intros sp ?%elem_of_nil. }
  { by rewrite Ho. }
  { unfold buffered_bytes. rewrite Hb, Ho. exact Hroom. }
  exists c', w'. split; [exact E|]. rewrite app_nil_r in Hi. eapply pieces_all_delivered; eauto.
  intros pre p post Ecs. destruct (Hall pre p post Ecs) as (sp & Hin & Hseq). exists sp.
  split; [by apply elem_of_reverse|done].
Qed.

Theorem reassembly_complete_witness :
  ∃ conn' w', rx_run rx_conn ((λ sp, Arrive sp.1 sp.2) <$> rx_arrivals) demo_world
                = Some ((conn', []), w') ∧ conn'.(recv_buffer) = [1; 2; 3; 4; 5; 6; 7].
Proof.
  destruct (reassembly_complete [[1; 2]; [3; 4; 5]; [6; 7]] rx_arrivals rx_conn demo_world)
    as (conn' & w' & E & Hb & _).
  - exact rx_conn_addrs.
  - reflexivity.
  - reflexivity.
  - by_decide.
  - by_decide.
  - by_decide.
  - apply Forall_cons_iff; split; [|apply Forall_cons_iff; split; [|apply Forall_cons_iff; split;
      [|apply Forall_cons_iff; split; [|done]]]]; (split; [reflexivity|]).
    1, 3: by exists [[1; 2]; [3; 4; 5]], [].
    + by exists [[1; 2]], [[6; 7]].
    + by exists [], [[3; 4; 5]; [6; 7]].
  - intros [|a [|b [|c pre]]] p post Ecs; injection Ecs as; subst.
    + eexists. split; [do 3 right; left|reflexivity].
    + eexists. split; [do 1 right; left|reflexivity].
    + eexists. split; [left|reflexivity].
    + by destruct pre.
  - by_decide.
  - exists conn', w'. split; [exact E|exact Hb].
Defined.

(** The advertised window is the free room, as far as sixteen bits can say. *)
Lemma advertise_window_eq conn :
  advertise_window conn =
    Z.max 0 (Z.min (conn.(recv_buffer_cap) - buffered_bytes conn) 65535).
Proof.
  unfold advertise_window. case_decide; [lia|].
  rewrite as_u16_small by (unfold uN; lia). lia.
Qed.

(** C28: flow control is sound: while the buffers are within the cap, a peer
    that stays within the window the receiver advertises keeps them within
    it, and a peer that does not can exceed it only with in-order data;
    every segment is then counted exactly once, spliced or not. *)
Theorem flow_control_sound (conn : TcpConnection) (seg : TcpHeader) (payload : bytes) :
  buffered_bytes conn ≤ conn.(recv_buffer_cap) →
  seg.(th_seq_num) ≠ conn.(rcv_nxt) ∨ len payload ≤ advertise_window conn →
  let conn' := (receive_step conn seg payload).1.1 in
  buffered_bytes conn' ≤ conn'.(recv_buffer_cap) ∧
  conn'.(recv_buffer_cap) = conn.(recv_buffer_cap) ∧
  (seg.(th_seq_num) = conn.(rcv_nxt) → buffered_bytes conn' = buffered_bytes conn + len payload).
Proof.
  intros Hcap Hwin. cbv zeta. pose proof (receive_step_frame conn seg payload) as Hf.
  assert (Hc : recv_buffer_cap (receive_step conn seg payload).1.1 = recv_buffer_cap conn)
    by (by rewrite Hf).
  rewrite advertise_window_eq in Hwin. pose proof (receive_step_bytes conn seg payload).
  pose proof (len_nonneg payload). lia.
Qed.

Theorem flow_control_sound_witness :
  buffered_bytes (receive_step rx_conn (data_segment 1001) [1; 2]).1.1 = 2.
Proof.
  destruct (flow_control_sound rx_conn (data_segment 1001) [1; 2]) as (_ & _ & H).
  - by_decide.
  - right. by_decide.
  - exact (H eq_refl).
Defined.

(** The cap is not enforced for in-order data: such a segment is taken
    in full, whatever the cap and even when the advertised window is zero. *)
Theorem inorder_data_ignores_cap (conn : TcpConnection) (seg : TcpHeader) (payload : bytes) :
  seg.(th_seq_num) = conn.(rcv_nxt) → 0 < len payload →
  conn.(recv_buffer_cap) ≤ buffered_bytes conn →
  let conn' := (receive_step conn seg payload).1.1 in
  advertise_window conn = 0 ∧ conn'.(recv_buffer_cap) < buffered_bytes conn' ∧
  (conn.(recv_buffer) ++ payload) `prefix_of` conn'.(recv_buffer).
Proof.
  intros Hseq Hlen Hcap. cbv zeta. pose proof (receive_step_frame conn seg payload) as Hf.
  assert (Hc : recv_buffer_cap (receive_step conn seg payload).1.1 = recv_buffer_cap conn)
    by (by rewrite Hf).
  rewrite advertise_window_eq, Hc. pose proof (receive_step_bytes conn seg payload).
  split_and!; [lia..|]. unfold receive_step. rewrite (proj2 (Z.eqb_eq _ _) Hseq).
  rewrite bool_decide_eq_false_2 by (intros ->; unfold len in Hlen; cbn in Hlen; lia). cbn [negb].
  set (c1 := set_rcv_nxt _ _). pose proof (splice_ooo_grows (size (ooo_buffer c1)) c1 true) as Hg.
  destruct (splice_ooo _ c1 true) as [c2 a2]. destruct (has_flag _ _); exact Hg.
Qed.

Theorem inorder_data_ignores_cap_witness :
  (receive_step (set_recv_buffer_cap 0 rx_conn) (data_segment 1001) [1; 2]).1.1.(recv_buffer) = [1; 2].
Proof.
  destruct (inorder_data_ignores_cap (set_recv_buffer_cap 0 rx_conn) (data_segment 1001) [1; 2])
    as (_ & _ & _); [reflexivity|by_decide|by_decide|reflexivity].
Defined.
