(* ===== verification/TcpTable.v ===== *)
(** * The TCP connection table ([src/tcp.rs], lines 531-1011)

    Demultiplexing of segments, the per-connection state machine, the timers
    and the operations the socket layer calls.  The definitions only; the
    invariant and the theorems are in [TcpInv], [TcpState], [TcpSystem] and [TcpClose]. *)

From S2P Require Import Prelude Ip TcpSegment TcpConn.

Abbreviation AcceptQueues := (gmap (u32 * u16) (list ConnectionKey)).

Record TcpTable := mkTcpTable {
  connections : gmap ConnectionKey TcpConnection;
  listeners : gset (u32 * u16);
  accept_queues : AcceptQueues;
  next_ephemeral_port : u16;
}.

Definition set_connections (v : gmap ConnectionKey TcpConnection) (t : TcpTable) : TcpTable :=
  mkTcpTable v t.(listeners) t.(accept_queues) t.(next_ephemeral_port).

Definition set_listeners (v : gset (u32 * u16)) (t : TcpTable) : TcpTable :=
  mkTcpTable t.(connections) v t.(accept_queues) t.(next_ephemeral_port).

Definition set_accept_queues (v : AcceptQueues) (t : TcpTable) : TcpTable :=
  mkTcpTable t.(connections) t.(listeners) v t.(next_ephemeral_port).

Definition set_next_ephemeral_port (v : u16) (t : TcpTable) : TcpTable :=
  mkTcpTable t.(connections) t.(listeners) t.(accept_queues) v.

(** [*self.connections.get_mut(&key) = conn] and [connections.insert(key, conn)]. *)
Definition put_conn (key : ConnectionKey) (conn : TcpConnection) (t : TcpTable) : TcpTable :=
  set_connections (<[key := conn]> t.(connections)) t.

Definition new : TcpTable := mkTcpTable ∅ ∅ ∅ 49152.

Definition cleanup_closed_connections (t : TcpTable) : TcpTable :=
  set_connections (filter (λ kc, kc.2.(state) ≠ Closed) t.(connections)) t.

(** ** The state machine: [process_segment] *)

(** [seg.flags & TCP_ACK != 0 && seg.ack_num == conn.snd_nxt]. *)
Definition acks_everything (conn : TcpConnection) (seg : TcpHeader) : bool :=
  has_flag seg.(th_flags) TCP_ACK && (seg.(th_ack_num) =? conn.(snd_nxt)).

(** Entering TIME_WAIT reads the clock. *)
Definition enter_time_wait (conn : TcpConnection) : M TcpConnection :=
  now ← instant_now;
  mret (set_time_wait_deadline (now + TIME_WAIT_DURATION) (set_state TimeWait conn)).

(** [accept_queues.entry(..).or_default().push_back(key)]. *)
Definition enqueue_accept (lk : u32 * u16) (key : ConnectionKey) (q : AcceptQueues) : AcceptQueues :=
  <[lk := default [] (q !! lk) ++ [key]]> q.

Definition process_syn_sent (conn : TcpConnection) (seg : TcpHeader) : M TcpConnection :=
  if has_flag seg.(th_flags) TCP_SYN && acks_everything conn seg then
    let conn := set_irs seg.(th_seq_num) conn in
    let conn := set_rcv_nxt (wadd32 seg.(th_seq_num) 1) conn in
    let conn := set_snd_una seg.(th_ack_num) conn in
    let conn := set_snd_wnd seg.(th_window) conn in
    let conn := remove_acked conn conn.(snd_una) in
    let conn := set_state Established conn in
    _ ← send_ack_only conn;
    mret conn
  else mret conn.

Definition process_syn_rcvd (q : AcceptQueues) (key : ConnectionKey) (conn : TcpConnection)
    (seg : TcpHeader) (payload : bytes) : M (TcpConnection * AcceptQueues) :=
  if acks_everything conn seg then
    let conn := set_snd_una seg.(th_ack_num) conn in
    let conn := remove_acked conn conn.(snd_una) in
    let conn := set_snd_wnd seg.(th_window) conn in
    let conn := set_state Established conn in
    let q := enqueue_accept (conn.(local_addr), conn.(local_port)) key q in
    if negb (bool_decide (payload = [])) || has_flag seg.(th_flags) TCP_FIN then
      '(conn, fin) ← receive_data_and_maybe_fin conn seg payload;
      mret (if fin : bool then set_state CloseWait conn else conn, q)
    else mret (conn, q)
  else mret (conn, q).

Definition process_established (conn : TcpConnection) (seg : TcpHeader) (payload : bytes) : M TcpConnection :=
  let conn := process_ack conn seg in
  '(conn, fin) ← receive_data_and_maybe_fin conn seg payload;
  flush_send (if fin : bool then set_state CloseWait conn else conn).

Definition process_fin_wait1 (conn : TcpConnection) (seg : TcpHeader) (payload : bytes) : M TcpConnection :=
  let conn := process_ack conn seg in
  let our_fin_acked := acks_everything conn seg in
  '(conn, fin) ← receive_data_and_maybe_fin conn seg payload;
  if our_fin_acked && fin then enter_time_wait conn
  else if our_fin_acked then mret (set_state FinWait2 conn)
  else if fin : bool then mret (set_state Closing conn)
  else mret conn.

Definition process_fin_wait2 (conn : TcpConnection) (seg : TcpHeader) (payload : bytes) : M TcpConnection :=
  let conn := process_ack conn seg in
  '(conn, fin) ← receive_data_and_maybe_fin conn seg payload;
  if fin : bool then enter_time_wait conn else mret conn.

Definition process_closing (conn : TcpConnection) (seg : TcpHeader) : M TcpConnection :=
  let conn := process_ack conn seg in
  if acks_everything conn seg then enter_time_wait conn else mret conn.

Definition process_close_wait (conn : TcpConnection) (seg : TcpHeader) : M TcpConnection :=
  flush_send (process_ack conn seg).

Definition process_last_ack (conn : TcpConnection) (seg : TcpHeader) : M TcpConnection :=
  let conn := process_ack conn seg in
  mret (if acks_everything conn seg then set_state Closed conn else conn).

Definition process_time_wait (conn : TcpConnection) (seg : TcpHeader) : M TcpConnection :=
  if has_flag seg.(th_flags) TCP_FIN then
    _ ← send_ack_only conn;
    now ← instant_now;
    mret (set_time_wait_deadline (now + TIME_WAIT_DURATION) conn)
  else mret conn.

(** The reset test and the match on the state. *)
Definition process_conn (q : AcceptQueues) (key : ConnectionKey) (conn : TcpConnection)
    (seg : TcpHeader) (payload : bytes) : M (TcpConnection * AcceptQueues) :=
  if has_flag seg.(th_flags) TCP_RST &&
     negb (bool_decide (conn.(state) = Closed) || bool_decide (conn.(state) = Listen))
  then mret (set_state Closed conn, q)
  else
    match conn.(state) with
    | SynSent => c ← process_syn_sent conn seg; mret (c, q)
    | SynRcvd => process_syn_rcvd q key conn seg payload
    | Established => c ← process_established conn seg payload; mret (c, q)
    | FinWait1 => c ← process_fin_wait1 conn seg payload; mret (c, q)
    | FinWait2 => c ← process_fin_wait2 conn seg payload; mret (c, q)
    | Closing => c ← process_closing conn seg; mret (c, q)
    | CloseWait => c ← process_close_wait conn seg; mret (c, q)
    | LastAck => c ← process_last_ack conn seg; mret (c, q)
    | TimeWait => c ← process_time_wait conn seg; mret (c, q)
    | Closed | Listen => mret (conn, q)
    end.

Definition process_segment (t : TcpTable) (key : ConnectionKey) (seg : TcpHeader) (payload : bytes)
    : M TcpTable :=
  conn ← lift (t.(connections) !! key);
  '(conn, q) ← process_conn t.(accept_queues) key conn seg payload;
  mret (set_accept_queues q (put_conn key conn t)).

(** ** Incoming segments *)

(** The connection a SYN to a listener creates. *)
Definition passive_open (ip_hdr : IpHeader) (seg : TcpHeader) : M TcpConnection :=
  conn ← conn_new;
  iss_val ← generate_iss;
  mret {|
    state := SynRcvd;
    local_addr := ip_hdr.(ip_dst_addr); remote_addr := ip_hdr.(ip_src_addr);
    local_port := seg.(th_dst_port); remote_port := seg.(th_src_port);
    iss := iss_val; snd_una := iss_val; snd_nxt := iss_val; snd_wnd := seg.(th_window);
    irs := seg.(th_seq_num); rcv_nxt := wadd32 seg.(th_seq_num) 1;
    retransmit_queue := conn.(retransmit_queue); ooo_buffer := conn.(ooo_buffer);
    recv_buffer := conn.(recv_buffer); send_pending := conn.(send_pending);
    time_wait_deadline := conn.(time_wait_deadline); probe_deadline := conn.(probe_deadline);
    probe_rto := conn.(probe_rto); pending_close := conn.(pending_close);
    recv_buffer_cap := conn.(recv_buffer_cap); send_pending_cap := conn.(send_pending_cap);
  |}.

Definition segment_key (ip_hdr : IpHeader) (seg : TcpHeader) : ConnectionKey :=
  mkConnectionKey ip_hdr.(ip_dst_addr) seg.(th_dst_port) ip_hdr.(ip_src_addr) seg.(th_src_port).

Definition handle_segment (t : TcpTable) (ip_hdr : IpHeader) (payload : bytes) : M TcpTable :=
  if decide (length payload < TCP_HEADER_LEN)%nat then mret t
  else
    match parse_tcp_header payload with
    | None => mret t
    | Some seg =>
        csum ← lift (tcp_checksum ip_hdr.(ip_src_addr) ip_hdr.(ip_dst_addr) payload);
        if negb (csum =? 0) then mret t
        else
          let data := drop TCP_HEADER_LEN payload in
          let key := segment_key ip_hdr seg in
          if bool_decide (is_Some (t.(connections) !! key)) then
            t ← process_segment t key seg data;
            mret (cleanup_closed_connections t)
          else
            let listen_key := (ip_hdr.(ip_dst_addr), seg.(th_dst_port)) in
            if has_flag seg.(th_flags) TCP_SYN && negb (has_flag seg.(th_flags) TCP_ACK) &&
               bool_decide (listen_key ∈ t.(listeners))
            then
              conn ← passive_open ip_hdr seg;
              let t := put_conn key conn t in
              conn ← lift (t.(connections) !! key);
              conn ← queue_and_send conn (Z.lor TCP_SYN TCP_ACK) [];
              mret (put_conn key conn t)
            else if negb (has_flag seg.(th_flags) TCP_RST) then
              _ ← send_rst_for_unknown ip_hdr seg (length data);
              mret t
            else mret t
    end.

(** ** Timers: [tick] *)

(** The persist timer of one connection: [now] is the reading taken at the
    start of the tick. *)
Definition tick_probe (now : Instant) (conn : TcpConnection) : M TcpConnection :=
  if bool_decide (conn.(state) = Established) || bool_decide (conn.(state) = CloseWait) then
    match conn.(probe_deadline) with
    | Some deadline =>
        if deadline <=? now then
          let probe_seq := wsub32 conn.(snd_una) 1 in
          _ ← send_segment conn TCP_ACK probe_seq [0];
          let conn := set_probe_rto (Z.min (conn.(probe_rto) * 2) MAX_RTO) conn in
          mret (set_probe_deadline (Some (now + conn.(probe_rto))) conn)
        else mret conn
    | None => mret conn
    end
  else mret (set_probe_deadline None conn).

(** The front segment after a retransmission. *)
Definition retransmitted (now : Instant) (f : UnackedSegment) : UnackedSegment :=
  mkUnackedSegment f.(us_seq) f.(us_flags) f.(us_data) now (Z.min (f.(us_rto) * 2) MAX_RTO)
    (f.(us_retry_count) + 1).

(** The retransmission timer.  The flag says that the source leaves the loop
    body here ([continue]).  [Instant::duration_since] is zero when the
    other instant is later. *)
Definition tick_retransmit (now : Instant) (conn : TcpConnection) : M (TcpConnection * bool) :=
  match conn.(retransmit_queue) with
  | [] => mret (conn, false)
  | front :: rest =>
      if front.(us_rto) <=? Z.max 0 (now - front.(us_sent_at)) then
        if MAX_RETRIES <=? front.(us_retry_count) then mret (set_state Closed conn, true)
        else
          _ ← send_segment conn front.(us_flags) front.(us_seq) front.(us_data);
          mret (set_retransmit_queue (retransmitted now front :: rest) conn, false)
      else mret (conn, false)
  end.

Definition tick_conn (now : Instant) (conn : TcpConnection) : M TcpConnection :=
  if bool_decide (conn.(state) = TimeWait) then
    mret (if conn.(time_wait_deadline) <=? now then set_state Closed conn else conn)
  else
    conn ← tick_probe now conn;
    '(conn, gave_up) ← tick_retransmit now conn;
    if gave_up : bool then mret conn else flush_send conn.

(** [for conn in self.connections.values_mut()], in the order [keys]. *)
Fixpoint tick_loop (now : Instant) (keys : list ConnectionKey) (t : TcpTable) : M TcpTable :=
  match keys with
  | [] => mret t
  | key :: keys =>
      conn ← lift (t.(connections) !! key);
      conn ← tick_conn now conn;
      tick_loop now keys (put_conn key conn t)
  end.

Definition tick (t : TcpTable) : M TcpTable :=
  now ← instant_now;
  keys ← visit_order (map_to_list t.(connections)).*1;
  t ← tick_loop now keys t;
  mret (cleanup_closed_connections t).

(** ** Operations of the socket layer *)

(** The loop of [address_in_use] asks whether some connection blocks the
    address; the order it visits them in does not matter. *)
Definition blocks_address (addr : u32) (port : u16) (reuse_addr : bool) (c : TcpConnection) : bool :=
  negb (negb (c.(local_addr) =? addr) || negb (c.(local_port) =? port)) &&
  negb (bool_decide (c.(state) = Closed)) &&
  negb (bool_decide (c.(state) = TimeWait) && reuse_addr).

Definition address_in_use (t : TcpTable) (addr : u32) (port : u16) (reuse_addr : bool) : bool :=
  if bool_decide ((addr, port) ∈ t.(listeners)) then false
  else existsb (λ kc, blocks_address addr port reuse_addr kc.2) (map_to_list t.(connections)).

Definition listen (t : TcpTable) (local_addr : u32) (local_port : u16) (reuse_addr : bool) : bool * TcpTable :=
  if address_in_use t local_addr local_port reuse_addr then (false, t)
  else (true, set_listeners ({[(local_addr, local_port)]} ∪ t.(listeners)) t).

Definition accept (t : TcpTable) (local_addr : u32) (local_port : u16) : option ConnectionKey * TcpTable :=
  match t.(accept_queues) !! (local_addr, local_port) with
  | None => (None, t)
  | Some [] => (None, t)
  | Some (key :: rest) =>
      (Some key, set_accept_queues (<[(local_addr, local_port) := rest]> t.(accept_queues)) t)
  end.

Definition allocate_ephemeral_port (t : TcpTable) : u16 * TcpTable :=
  (t.(next_ephemeral_port), set_next_ephemeral_port (wadd16 t.(next_ephemeral_port) 1) t).

(** The connection an active open creates. *)
Definition active_open (laddr : u32) (lport : u16) (raddr : u32) (rport : u16) : M TcpConnection :=
  conn ← conn_new;
  iss_val ← generate_iss;
  mret {|
    state := SynSent;
    local_addr := laddr; remote_addr := raddr; local_port := lport; remote_port := rport;
    iss := iss_val; snd_una := iss_val; snd_nxt := iss_val; snd_wnd := conn.(snd_wnd);
    irs := conn.(irs); rcv_nxt := conn.(rcv_nxt);
    retransmit_queue := conn.(retransmit_queue); ooo_buffer := conn.(ooo_buffer);
    recv_buffer := conn.(recv_buffer); send_pending := conn.(send_pending);
    time_wait_deadline := conn.(time_wait_deadline); probe_deadline := conn.(probe_deadline);
    probe_rto := conn.(probe_rto); pending_close := conn.(pending_close);
    recv_buffer_cap := conn.(recv_buffer_cap); send_pending_cap := conn.(send_pending_cap);
  |}.

Definition connect (t : TcpTable) (laddr raddr : u32) (rport : u16) : M (ConnectionKey * TcpTable) :=
  let '(lport, t) := allocate_ephemeral_port t in
  conn ← active_open laddr lport raddr rport;
  let key := mkConnectionKey laddr lport raddr rport in
  let t := put_conn key conn t in
  conn ← lift (t.(connections) !! key);
  conn ← queue_and_send conn TCP_SYN [];
  mret (key, put_conn key conn t).

Definition send (t : TcpTable) (key : ConnectionKey) (data : bytes) : M (usize * TcpTable) :=
  match t.(connections) !! key with
  | None => mret (0, t)
  | Some conn =>
      let room := Z.max 0 (conn.(send_pending_cap) - len conn.(send_pending)) in
      let accepted := Z.min (len data) room in
      let conn := set_send_pending (conn.(send_pending) ++ take (Z.to_nat accepted) data) conn in
      conn ← flush_send conn;
      mret (accepted, put_conn key conn t)
  end.

(** The bytes copied into the caller's buffer of [room] bytes; their number
    is the result of the call. *)
Definition recv (t : TcpTable) (key : ConnectionKey) (room : nat) : bytes * TcpTable :=
  match t.(connections) !! key with
  | None => ([], t)
  | Some conn => let '(conn, got) := conn_recv conn room in (got, put_conn key conn t)
  end.

Definition close (t : TcpTable) (key : ConnectionKey) : M TcpTable :=
  match t.(connections) !! key with
  | None => mret t
  | Some conn =>
      conn ← match conn.(state) with
             | Established | CloseWait => flush_send (set_pending_close true conn)
             | SynSent | Listen => mret (set_state Closed conn)
             | _ => mret conn
             end;
      mret (put_conn key conn t)
  end.

Definition set_recv_cap (t : TcpTable) (key : ConnectionKey) (cap : usize) : TcpTable :=
  match t.(connections) !! key with
  | Some c => put_conn key (set_recv_buffer_cap cap c) t
  | None => t
  end.

Definition set_send_cap (t : TcpTable) (key : ConnectionKey) (cap : usize) : TcpTable :=
  match t.(connections) !! key with
  | Some c => put_conn key (set_send_pending_cap cap c) t
  | None => t
  end.

Definition is_established (t : TcpTable) (key : ConnectionKey) : bool :=
  match t.(connections) !! key with
  | Some c => bool_decide (c.(state) = Established)
  | None => false
  end.

Definition is_closed (t : TcpTable) (key : ConnectionKey) : bool :=
  match t.(connections) !! key with
  | Some c => bool_decide (c.(state) = Closed)
  | None => true
  end.

Definition lookup_conn (t : TcpTable) (key : ConnectionKey) : option TcpConnection :=
  t.(connections) !! key.
