(* ===== verification/TcpInv.v ===== *)
(** * Well-formedness of connections and of the connection table

    The invariant of a connection and of the table, and that every
    operation keeps it and returns: no sequence of segments, ticks and
    socket calls makes the TCP engine panic. *)

From S2P Require Import Prelude Ip Handler TcpSegment TcpConn TcpSend TcpReceive TcpTable.

(** ** The invariant *)

(** The timeout after [k] retransmissions: doubled every time, up to the cap. *)
Fixpoint backoff (k : nat) : Duration :=
  match k with O => INITIAL_RTO | S k => Z.min (backoff k * 2) MAX_RTO end.

Record unacked_ok (s : UnackedSegment) : Prop := {
  uo_seq : is_u32 s.(us_seq);
  uo_flags : is_u8 s.(us_flags);
  uo_data : bytes_ok s.(us_data);
  uo_len : len s.(us_data) ≤ MSS;
  uo_retry : 0 ≤ s.(us_retry_count) ≤ MAX_RETRIES;
  uo_rto : s.(us_rto) = backoff (Z.to_nat s.(us_retry_count));
}.

Record conn_ok (c : TcpConnection) : Prop := {
  co_addrs : addrs_ok c;
  co_ports : is_u16 c.(local_port) ∧ is_u16 c.(remote_port);
  co_una : is_u32 c.(snd_una);
  co_nxt : is_u32 c.(snd_nxt);
  co_wnd : is_u16 c.(snd_wnd);
  co_rcv : is_u32 c.(rcv_nxt);
  co_pending : bytes_ok c.(send_pending);
  co_buffer : bytes_ok c.(recv_buffer);
  co_ooo : map_Forall (λ _ v, bytes_ok v) c.(ooo_buffer);
  co_queue : Forall unacked_ok c.(retransmit_queue);
  co_chain : ∃ start, chain start c.(retransmit_queue) c.(snd_nxt);
  co_probe : INITIAL_RTO ≤ c.(probe_rto) ≤ MAX_RTO;
  co_listen : c.(state) ≠ Listen;
  co_closing : c.(pending_close) = true → can_send c.(state) = true ∨ c.(state) = Closed;
}.

Definition conn_key (c : TcpConnection) : ConnectionKey :=
  mkConnectionKey c.(local_addr) c.(local_port) c.(remote_addr) c.(remote_port).

(** ** Lemmas: parts of the connection *)

Lemma conn_ok_ready c : conn_ok c → send_ready c.
Proof. intros []. by split. Qed.

Lemma unacked_ok_data s : unacked_ok s → seg_data_ok s.(us_data).
Proof. intros []. split; [done|]. unfold MSS in *. lia. Qed.

(** A segment as first queued is well-formed. *)
Lemma fresh_unacked_ok flags s :
  is_u8 flags → fresh_segment flags s → is_u32 s.(us_seq) → bytes_ok s.(us_data) → len s.(us_data) ≤ MSS →
  unacked_ok s.
Proof.
  intros Hf (E1 & E2 & E3) Hs Hb Hl. split; rewrite ?E1, ?E2, ?E3; auto. by_decide.
Qed.

Lemma chain_seqs a q stop : is_u32 a → chain a q stop → Forall (λ s, is_u32 s.(us_seq)) q.
Proof.
  revert a. induction q as [|s q IH]; intros a Ha; [done|]. intros [<- Hc].
  constructor; [done|]. eapply IH; [|exact Hc]. rewrite unacked_end_eq. auto with minitcp.
Qed.

(** Assignments that keep the invariant. *)
Lemma conn_ok_state s c :
  conn_ok c → s ≠ Listen → (c.(pending_close) = true → can_send s = true ∨ s = Closed) →
  conn_ok (set_state s c).
Proof. intros [] ? ?. by split. Qed.

Lemma conn_ok_time_wait d c : conn_ok c → conn_ok (set_time_wait_deadline d c).
Proof. intros []. by split. Qed.

Lemma conn_ok_probe d c : conn_ok c → conn_ok (set_probe_deadline d c).
Proof. intros []. by split. Qed.

Lemma conn_ok_recv_cap v c : conn_ok c → conn_ok (set_recv_buffer_cap v c).
Proof. intros []. by split. Qed.

Lemma conn_ok_send_cap v c : conn_ok c → conn_ok (set_send_pending_cap v c).
Proof. intros []. by split. Qed.

Lemma conn_ok_acked una wnd c :
  conn_ok c → is_u32 una → is_u16 wnd → conn_ok (set_snd_wnd wnd (remove_acked (set_snd_una una c) una)).
Proof.
  intros [] Hu Hw. destruct (drop_acked_suffix (retransmit_queue c) una) as (acked & E & _).
  split; cbn; auto.
  - rewrite E in co_queue0. by apply Forall_app in co_queue0 as [_ ?].
  - destruct co_chain0 as [a Hc]. rewrite E in Hc. apply chain_suffix in Hc as (a' & _ & ?). by exists a'.
Qed.

Lemma process_ack_ok c seg : conn_ok c → tcp_header_ok seg → conn_ok (process_ack c seg).
Proof.
  intros Hc (_ & _ & Hseq & Hack & _ & _ & Hwin & _). rewrite process_ack_eq. destruct (negb _); [done|]. cbv zeta.
  set (c1 := set_snd_wnd _ _). assert (H1 : conn_ok c1).
  { unfold c1. destruct (_ <? _).
    - apply conn_ok_acked; done.
    - destruct Hc. by split. }
  destruct (negb _); [|done]. destruct H1. split; auto. by_decide.
Qed.

(** [process_ack] moves nothing but the acknowledgement state. *)
Lemma process_ack_frame c seg :
  let c' := process_ack c seg in
  c'.(state) = c.(state) ∧ c'.(snd_nxt) = c.(snd_nxt) ∧ c'.(rcv_nxt) = c.(rcv_nxt) ∧
  c'.(pending_close) = c.(pending_close) ∧ c'.(recv_buffer) = c.(recv_buffer) ∧ conn_key c' = conn_key c.
Proof.
  cbv zeta. rewrite process_ack_eq. destruct (negb (has_flag _ _)); [done|].
  by destruct (_ <? _), (th_window seg =? 0).
Qed.

Lemma splice_ooo_ok fuel c a : conn_ok c → conn_ok (splice_ooo fuel c a).1.
Proof.
  revert c a. induction fuel as [|fuel IH]; intros c a Hc; cbn [splice_ooo]; [done|].
  destruct (ooo_buffer c !! rcv_nxt c) as [p|] eqn:E; [|done]. apply IH.
  destruct Hc. split; cbn; auto with minitcp.
  - apply bytes_ok_app. split; [done|]. by eapply (map_Forall_lookup_1 _ _ _ _ co_ooo0).
  - by apply map_Forall_delete.
Qed.

Lemma receive_step_ok c seg payload :
  conn_ok c → bytes_ok payload → conn_ok (receive_step c seg payload).1.1.
Proof.
  intros Hc Hp. unfold receive_step. destruct (_ =? _).
  - set (c1 := if negb _ then _ else _). assert (H1 : conn_ok c1.1).
    { unfold c1. destruct (negb _); [|done]. destruct Hc. split; cbn; auto with minitcp.
      by apply bytes_ok_app. }
    destruct c1 as [c1 a1]. pose proof (splice_ooo_ok (size (ooo_buffer c1)) c1 a1 H1) as H2.
    destruct (splice_ooo _ c1 a1) as [c2 a2]. cbn [fst] in H2.
    destruct (has_flag _ _); [|done]. destruct H2. split; cbn; auto with minitcp.
  - destruct (_ <? _); cbn [fst]; [|done]. destruct (_ && _); [|done].
    destruct Hc. split; cbn; auto. by apply map_Forall_insert_2.
Qed.

(** Whether the FIN of a segment is consumed. *)
Definition fin_in_order (c : TcpConnection) (seg : TcpHeader) : bool :=
  has_flag seg.(th_flags) TCP_FIN && (seg.(th_seq_num) =? c.(rcv_nxt)).

Lemma receive_step_fin c seg payload :
  (receive_step c seg payload).2 = fin_in_order c seg.
Proof.
  unfold receive_step, fin_in_order. destruct (_ =? _); [|by destruct (_ <? _), (has_flag _ _)].
  destruct (negb _); destruct (splice_ooo _ _ _); by destruct (has_flag _ _).
Qed.

(** [receive_data_and_maybe_fin] on a well-formed connection. *)
Lemma receive_data_ok c seg payload w :
  conn_ok c → bytes_ok payload →
  ∃ c' w', receive_data_and_maybe_fin c seg payload w = Some ((c', fin_in_order c seg), w') ∧
    conn_ok c' ∧ rx_frame c c' ∧ world_ext w w'.
Proof.
  intros Hc Hp. pose proof (receive_step_ok c seg payload Hc Hp) as Hc'.
  eexists _, _. split; [|split_and!].
  - rewrite receive_data_eq by (apply Hc || apply Hc'). by rewrite receive_step_fin.
  - done.
  - apply receive_step_frame.
  - unfold acked_world. destruct (receive_step c seg payload).1.2; [apply emit_ext|done].
Qed.

(** [flush_send] on a well-formed connection. *)
Lemma flush_send_ok c w :
  conn_ok c → ∃ c' w', flush_send c w = Some (c', w') ∧ conn_ok c' ∧
    c'.(state) = (if can_send c.(state) && fin_due c then fin_state c.(state) else c.(state)) ∧
    conn_key c' = conn_key c ∧ c'.(rcv_nxt) = c.(rcv_nxt) ∧ c'.(recv_buffer) = c.(recv_buffer) ∧
    world_ext w w'.
Proof.
  intros Hc. destruct (can_send (state c)) eqn:Es.
  2:{ exists c, w. by rewrite flush_send_idle. }
  destruct (flush_send_spec c w (conn_ok_ready c Hc) Es)
    as (w' & segs & fins & nxt & E & Hd & Hf & Hfin & Hch & Hn & Hw & He).
  eexists _, w'. split; [exact E|]. split; [|unfold flushed; destruct (fin_due c); by split_and!].
  assert (Hnew : Forall unacked_ok (segs ++ fins)).
  { pose proof (chain_seqs _ _ _ (co_nxt c Hc) Hch) as Hseq.
    assert (Hb : bytes_ok (concat (us_data <$> segs))) by (rewrite Hd; destruct Hc; auto with minitcp).
    apply Forall_app in Hseq as [Hs1 Hs2]. apply Forall_app. split.
    - clear -Hf Hs1 Hb. induction segs as [|s segs IH]; [done|].
      apply Forall_cons_iff in Hf as [[? ?] Hf], Hs1 as [? Hs1]. cbn in Hb. apply bytes_ok_app in Hb as [? ?].
      constructor; [|auto]. eapply (fresh_unacked_ok data_flags); auto; [by_decide|lia].
    - destruct (fin_due c); [|by subst]. destruct Hfin as (f & -> & ? & Hdat).
      apply Forall_cons_iff in Hs2 as [? _]. apply Forall_singleton.
      eapply (fresh_unacked_ok fin_flags); auto; rewrite ?Hdat; [by_decide|constructor|by_decide]. }
  destruct Hc. unfold flushed. split; cbn; auto with minitcp.
  - by apply Forall_app.
  - destruct co_chain0 as [a Ha]. exists a. by eapply chain_app.
  - destruct (fin_due c); [|done]. by destruct (state c).
  - by destruct (fin_due c).
Qed.

(** ** The abstract state machine

    What a segment means to the state machine, and the state it leads to:
    the transition table of [docs/state_machine.md] as a function. *)

Record SegEvent := mkSegEvent {
  ev_rst : bool;      (* RST *)
  ev_syn : bool;      (* SYN *)
  ev_ack : bool;      (* acknowledges everything we sent *)
  ev_fin : bool;      (* FIN, in sequence *)
  ev_drained : bool;  (* a pending close() whose data now all fits the window *)
}.

Definition live (s : TcpState) : bool := negb (bool_decide (s = Closed) || bool_decide (s = Listen)).

Definition next_state (s : TcpState) (ev : SegEvent) : TcpState :=
  if ev.(ev_rst) && live s then Closed
  else
    match s with
    | SynSent => if ev.(ev_syn) && ev.(ev_ack) then Established else SynSent
    | SynRcvd => if ev.(ev_ack) then (if ev.(ev_fin) then CloseWait else Established) else SynRcvd
    | Established =>
        match ev.(ev_fin), ev.(ev_drained) with
        | true, true => LastAck
        | true, false => CloseWait
        | false, true => FinWait1
        | false, false => Established
        end
    | FinWait1 =>
        match ev.(ev_ack), ev.(ev_fin) with
        | true, true => TimeWait
        | true, false => FinWait2
        | false, true => Closing
        | false, false => FinWait1
        end
    | FinWait2 => if ev.(ev_fin) then TimeWait else FinWait2
    | Closing => if ev.(ev_ack) then TimeWait else Closing
    | CloseWait => if ev.(ev_drained) then LastAck else CloseWait
    | LastAck => if ev.(ev_ack) then Closed else LastAck
    | TimeWait => TimeWait
    | Closed => Closed
    | Listen => Listen
    end.

(** What the code sees of the event. *)
Definition seg_event (c : TcpConnection) (seg : TcpHeader) : SegEvent := {|
  ev_rst := has_flag seg.(th_flags) TCP_RST;
  ev_syn := has_flag seg.(th_flags) TCP_SYN;
  ev_ack := acks_everything c seg;
  ev_fin := fin_in_order c seg;
  ev_drained := fin_due (process_ack c seg);
|}.

(** The accept queues afterwards. *)
Definition next_queues (q : AcceptQueues) (key : ConnectionKey) (c : TcpConnection) (seg : TcpHeader)
    : AcceptQueues :=
  if bool_decide (c.(state) = SynRcvd) && negb (has_flag seg.(th_flags) TCP_RST) && acks_everything c seg
  then enqueue_accept (c.(local_addr), c.(local_port)) key q else q.

(** ** Lemmas: segments *)

Lemma enter_time_wait_ok c w : conn_ok c → c.(pending_close) = false →
  ∃ c' w', enter_time_wait c w = Some (c', w') ∧ conn_ok c' ∧ c'.(state) = TimeWait ∧
    conn_key c' = conn_key c ∧ c'.(time_wait_deadline) = clock_now w + TIME_WAIT_DURATION ∧ world_ext w w'.
Proof.
  intros Hc Hp. eexists _, (clock_next w). split; [reflexivity|]. split_and!; auto with minitcp.
  apply conn_ok_time_wait, conn_ok_state; [done..|]. cbn. rewrite Hp. done.
Qed.

(** A pending close is over once a FIN was sent. *)
Lemma not_pending c : conn_ok c → can_send c.(state) = false → c.(state) ≠ Closed → c.(pending_close) = false.
Proof.
  intros Hc Hs Hn. destruct (pending_close c) eqn:E; [|done].
  destruct (co_closing c Hc E); congruence.
Qed.

Section Receive.
Context (c : TcpConnection) (seg : TcpHeader) (payload : bytes) (w : World).
Hypothesis Hc : conn_ok c.
Hypothesis Hs : tcp_header_ok seg.
Hypothesis Hp : bytes_ok payload.

(** Acknowledge, then receive: the first half of four of the arms. *)
Lemma ack_then_receive :
  ∃ c' w', receive_data_and_maybe_fin (process_ack c seg) seg payload w =
      Some ((c', fin_in_order c seg), w') ∧
    conn_ok c' ∧ rx_frame (process_ack c seg) c' ∧ world_ext w w'.
Proof.
  destruct (receive_data_ok (process_ack c seg) seg payload w) as (c' & w' & E & ? & ? & ?).
  { by apply process_ack_ok. }
  { done. }
  exists c', w'. split_and!; try done. rewrite E. unfold fin_in_order.
  destruct (process_ack_frame c seg) as (_ & _ & -> & _). done.
Qed.

Lemma process_syn_sent_ok : c.(state) = SynSent → has_flag seg.(th_flags) TCP_RST = false →
  ∃ c' w', process_syn_sent c seg w = Some (c', w') ∧ conn_ok c' ∧ conn_key c' = conn_key c ∧
    c'.(state) = next_state SynSent (seg_event c seg) ∧ world_ext w w'.
Proof.
  intros Hst Hrst. unfold process_syn_sent, next_state, seg_event. cbn. rewrite Hrst. cbn [andb].
  destruct (has_flag _ TCP_SYN && acks_everything c seg); [|by exists c, w].
  set (c1 := set_state _ _). assert (H1 : conn_ok c1).
  { destruct Hs as (_ & _ & ? & ? & _ & _ & ? & _).
    pose proof (conn_ok_acked (th_ack_num seg) (th_window seg) c Hc ltac:(done) ltac:(done)) as [].
    split; cbn in *; auto with minitcp. }
  eexists c1, _. split; [erewrite bind_Some by (apply send_ack_only_eq, H1); reflexivity|].
  split_and!; auto with minitcp.
Qed.

Lemma process_syn_rcvd_ok q key : c.(state) = SynRcvd → has_flag seg.(th_flags) TCP_RST = false →
  ∃ c' w', process_syn_rcvd q key c seg payload w = Some ((c', next_queues q key c seg), w') ∧
    conn_ok c' ∧ conn_key c' = conn_key c ∧
    c'.(state) = next_state SynRcvd (seg_event c seg) ∧ world_ext w w'.
Proof.
  intros Hst Hrst. unfold process_syn_rcvd, next_queues, next_state, seg_event. cbn.
  rewrite Hrst, Hst, (bool_decide_eq_true_2 (SynRcvd = SynRcvd)) by done. cbn [andb negb].
  destruct (acks_everything c seg); [|by exists c, w].
  set (c1 := set_state _ _). set (q1 := enqueue_accept _ _ _). assert (H1 : conn_ok c1).
  { destruct Hs as (_ & _ & ? & ? & _ & _ & ? & _).
    pose proof (conn_ok_acked (th_ack_num seg) (th_window seg) c Hc ltac:(done) ltac:(done)) as [].
    split; cbn in *; auto with minitcp. }
  assert (Hfin : fin_in_order c1 seg = fin_in_order c seg) by done.
  destruct (negb (bool_decide (payload = [])) || has_flag (th_flags seg) TCP_FIN) eqn:Ed.
  - destruct (receive_data_ok c1 seg payload w H1 Hp) as (c' & w' & E & Hc' & Hf & Hw).
    rewrite Hfin in E. eexists _, w'. split; [erewrite bind_Some by exact E; reflexivity|].
    assert (Hst' : state c' = Established) by (by rewrite Hf).
    assert (Hpc : pending_close c' = pending_close c) by (by rewrite Hf).
    destruct (fin_in_order c seg); split_and!; try done; try (by rewrite Hf).
    apply conn_ok_state; [done..|]. by left.
  - exists c1, w. assert (fin_in_order c seg = false) as ->; [|by split_and!].
    apply orb_false_iff in Ed as [_ Ed]. unfold fin_in_order. by rewrite Ed.
Qed.

Lemma process_established_ok : c.(state) = Established → has_flag seg.(th_flags) TCP_RST = false →
  ∃ c' w', process_established c seg payload w = Some (c', w') ∧ conn_ok c' ∧ conn_key c' = conn_key c ∧
    c'.(state) = next_state Established (seg_event c seg) ∧ world_ext w w'.
Proof.
  intros Hst Hrst. destruct ack_then_receive as (c1 & w1 & E & H1 & Hf & Hw1).
  unfold process_established. erewrite bind_Some by exact E.
  destruct (process_ack_frame c seg) as (Hst1 & _ & _ & Hpc & _ & Hk).
  assert (Hst2 : state c1 = Established) by (rewrite Hf; cbn; congruence).
  set (c2 := if fin_in_order c seg then _ else _).
  assert (H2 : conn_ok c2).
  { unfold c2. destruct (fin_in_order c seg); [|done]. apply conn_ok_state; [done..|]. by left. }
  assert (Hdue : fin_due c2 = fin_due (process_ack c seg)).
  { unfold c2. destruct (fin_in_order c seg); by rewrite Hf. }
  destruct (flush_send_ok c2 w1 H2) as (c' & w' & E' & Hc' & Hst' & Hk' & _ & _ & Hw').
  exists c', w'. split; [exact E'|]. split_and!; [done| | |by etrans].
  - rewrite Hk', <- Hk. unfold c2. destruct (fin_in_order c seg); by rewrite Hf.
  - rewrite Hst', Hdue. unfold next_state, seg_event, c2. cbn. rewrite Hrst.
    destruct (fin_in_order c seg), (fin_due (process_ack c seg)); cbn; by rewrite ?Hst2.
Qed.

Lemma process_fin_wait1_ok : c.(state) = FinWait1 → has_flag seg.(th_flags) TCP_RST = false →
  ∃ c' w', process_fin_wait1 c seg payload w = Some (c', w') ∧ conn_ok c' ∧ conn_key c' = conn_key c ∧
    c'.(state) = next_state FinWait1 (seg_event c seg) ∧ world_ext w w'.
Proof.
  intros Hst Hrst. destruct ack_then_receive as (c1 & w1 & E & H1 & Hf & Hw1).
  unfold process_fin_wait1. erewrite bind_Some by exact E.
  destruct (process_ack_frame c seg) as (Hst1 & Hn & _ & Hpc & _ & Hk).
  assert (Hst2 : state c1 = FinWait1) by (rewrite Hf; cbn; congruence).
  assert (Hk1 : conn_key c1 = conn_key c) by (rewrite Hf; exact Hk).
  assert (Hpc1 : pending_close c1 = false) by (apply not_pending; rewrite ?Hst2; done).
  assert (Hack : acks_everything (process_ack c seg) seg = acks_everything c seg)
    by (unfold acks_everything; by rewrite Hn).
  rewrite Hack. unfold next_state, seg_event. cbn. rewrite Hrst. cbn [andb].
  destruct (acks_everything c seg), (fin_in_order c seg); cbn [andb].
  - destruct (enter_time_wait_ok c1 w1 H1 Hpc1) as (c' & w' & E' & ? & ? & ? & _ & ?).
    exists c', w'. split; [exact E'|]. split_and!; [done|congruence|done|by etrans].
  - eexists _, w1. split; [reflexivity|]. split_and!; try done.
    apply conn_ok_state; [done..|]. congruence.
  - eexists _, w1. split; [reflexivity|]. split_and!; try done.
    apply conn_ok_state; [done..|]. congruence.
  - by exists c1, w1.
Qed.

Lemma process_fin_wait2_ok : c.(state) = FinWait2 → has_flag seg.(th_flags) TCP_RST = false →
  ∃ c' w', process_fin_wait2 c seg payload w = Some (c', w') ∧ conn_ok c' ∧ conn_key c' = conn_key c ∧
    c'.(state) = next_state FinWait2 (seg_event c seg) ∧ world_ext w w'.
Proof.
  intros Hst Hrst. destruct ack_then_receive as (c1 & w1 & E & H1 & Hf & Hw1).
  unfold process_fin_wait2. erewrite bind_Some by exact E.
  destruct (process_ack_frame c seg) as (Hst1 & Hn & _ & Hpc & _ & Hk).
  assert (Hst2 : state c1 = FinWait2) by (rewrite Hf; cbn; congruence).
  assert (Hk1 : conn_key c1 = conn_key c) by (rewrite Hf; exact Hk).
  assert (Hpc1 : pending_close c1 = false) by (apply not_pending; rewrite ?Hst2; done).
  unfold next_state, seg_event. cbn. rewrite Hrst. cbn [andb].
  destruct (fin_in_order c seg); [|by exists c1, w1].
  destruct (enter_time_wait_ok c1 w1 H1 Hpc1) as (c' & w' & E' & ? & ? & ? & _ & ?).
  exists c', w'. split; [exact E'|]. split_and!; [done|congruence|done|by etrans].
Qed.

Lemma process_closing_ok : c.(state) = Closing → has_flag seg.(th_flags) TCP_RST = false →
  ∃ c' w', process_closing c seg w = Some (c', w') ∧ conn_ok c' ∧ conn_key c' = conn_key c ∧
    c'.(state) = next_state Closing (seg_event c seg) ∧ world_ext w w'.
Proof.
  intros Hst Hrst. unfold process_closing.
  pose proof (process_ack_ok c seg Hc Hs) as H1.
  destruct (process_ack_frame c seg) as (Hst1 & Hn & _ & Hpc & _ & Hk).
  assert (acks_everything (process_ack c seg) seg = acks_everything c seg) as ->
    by (unfold acks_everything; by rewrite Hn).
  assert (Hpc1 : pending_close (process_ack c seg) = false)
    by (apply not_pending; rewrite ?Hst1, ?Hst; done).
  unfold next_state, seg_event. cbn. rewrite Hrst. cbn [andb].
  destruct (acks_everything c seg).
  - destruct (enter_time_wait_ok _ w H1 Hpc1) as (c' & w' & E' & ? & ? & ? & _ & ?).
    exists c', w'. split; [exact E'|]. split_and!; [done|congruence|done|done].
  - eexists _, w. split; [reflexivity|]. split_and!; [done|congruence|congruence|done].
Qed.

Lemma process_close_wait_ok : c.(state) = CloseWait → has_flag seg.(th_flags) TCP_RST = false →
  ∃ c' w', process_close_wait c seg w = Some (c', w') ∧ conn_ok c' ∧ conn_key c' = conn_key c ∧
    c'.(state) = next_state CloseWait (seg_event c seg) ∧ world_ext w w'.
Proof.
  intros Hst Hrst. destruct (process_ack_frame c seg) as (Hst1 & _ & _ & _ & _ & Hk).
  destruct (flush_send_ok (process_ack c seg) w (process_ack_ok c seg Hc Hs))
    as (c' & w' & E & Hc' & Hst' & Hk' & _ & _ & Hw).
  exists c', w'. split_and!; [done|done|congruence| |done].
  rewrite Hst', Hst1, Hst. unfold next_state, seg_event. cbn. by rewrite Hrst.
Qed.

Lemma process_last_ack_ok : c.(state) = LastAck → has_flag seg.(th_flags) TCP_RST = false →
  ∃ c' w', process_last_ack c seg w = Some (c', w') ∧ conn_ok c' ∧ conn_key c' = conn_key c ∧
    c'.(state) = next_state LastAck (seg_event c seg) ∧ world_ext w w'.
Proof.
  intros Hst Hrst. unfold process_last_ack.
  pose proof (process_ack_ok c seg Hc Hs) as H1.
  destruct (process_ack_frame c seg) as (Hst1 & Hn & _ & Hpc & _ & Hk).
  assert (acks_everything (process_ack c seg) seg = acks_everything c seg) as ->
    by (unfold acks_everything; by rewrite Hn).
  eexists _, w. split; [reflexivity|]. unfold next_state, seg_event. cbn. rewrite Hrst. cbn [andb].
  destruct (acks_everything c seg); split_and!; try done; [|congruence].
  apply conn_ok_state; [done..|]. by right.
Qed.

Lemma process_time_wait_ok : c.(state) = TimeWait → has_flag seg.(th_flags) TCP_RST = false →
  ∃ c' w', process_time_wait c seg w = Some (c', w') ∧ conn_ok c' ∧ conn_key c' = conn_key c ∧
    c'.(state) = next_state TimeWait (seg_event c seg) ∧ world_ext w w'.
Proof.
  intros Hst Hrst. unfold process_time_wait, next_state, seg_event. cbn. rewrite Hrst. cbn [andb].
  destruct (has_flag _ TCP_FIN); [|by exists c, w].
  eexists _, _. split; [erewrite bind_Some by (apply send_ack_only_eq, Hc); reflexivity|].
  split_and!; [by apply conn_ok_time_wait|done|done|apply clock_next_emit_ext].
Qed.

(** The arms that leave the accept queues alone. *)
Ltac arm H :=
  let E := fresh "E" in
  destruct H as (c' & w' & E & ?); exists c', w'; split; [|done];
  erewrite bind_Some by exact E; unfold next_queues;
  by match goal with Es : state c = _ |- _ => rewrite Es end.

(** One segment on one connection: it returns, keeps the invariant, and
    the state moves as the abstract machine says. *)
Lemma process_conn_ok q key :
  ∃ c' w', process_conn q key c seg payload w = Some ((c', next_queues q key c seg), w') ∧
    conn_ok c' ∧ conn_key c' = conn_key c ∧
    c'.(state) = next_state c.(state) (seg_event c seg) ∧ world_ext w w'.
Proof.
  unfold process_conn. destruct (has_flag (th_flags seg) TCP_RST) eqn:Hrst.
  - assert (next_queues q key c seg = q) as ->
      by (unfold next_queues; rewrite Hrst; by rewrite andb_false_r).
    unfold next_state, seg_event. cbn. rewrite Hrst. fold (live (state c)). cbn [andb].
    destruct (live (state c)) eqn:El.
    + eexists _, w. split; [reflexivity|]. split_and!; try done. apply conn_ok_state; auto; done.
    + exists c, w. unfold live in El. destruct (state c) eqn:Es; try discriminate El; by split_and!.
  - cbn [andb]. destruct (state c) eqn:Es.
    + exists c, w. unfold next_queues, next_state. rewrite Es. cbn. by rewrite Hrst.
    + by destruct (co_listen c Hc).
    + arm (process_syn_sent_ok Es Hrst).
    + by apply process_syn_rcvd_ok.
    + arm (process_established_ok Es Hrst).
    + arm (process_fin_wait1_ok Es Hrst).
    + arm (process_fin_wait2_ok Es Hrst).
    + arm (process_closing_ok Es Hrst).
    + arm (process_time_wait_ok Es Hrst).
    + arm (process_close_wait_ok Es Hrst).
    + arm (process_last_ack_ok Es Hrst).
Qed.
End Receive.

(** ** Lemmas: timers *)

Lemma backoff_bounds k : INITIAL_RTO ≤ backoff k ≤ MAX_RTO.
Proof.
  induction k as [|k IH]; cbn [backoff]; [by_decide|]. unfold INITIAL_RTO, MAX_RTO, from_millis in *. lia.
Qed.

Lemma retransmitted_ok now f :
  unacked_ok f → f.(us_retry_count) < MAX_RETRIES → unacked_ok (retransmitted now f).
Proof.
  intros [] Hlt. split; cbn; auto; [lia|]. rewrite uo_rto0.
  replace (Z.to_nat (us_retry_count f + 1)) with (S (Z.to_nat (us_retry_count f))) by lia. done.
Qed.

Lemma conn_ok_retransmitted now c f rest :
  conn_ok c → c.(retransmit_queue) = f :: rest → f.(us_retry_count) < MAX_RETRIES →
  conn_ok (set_retransmit_queue (retransmitted now f :: rest) c).
Proof.
  intros [] Eq Hlt. rewrite Eq in *. split; cbn; auto.
  apply Forall_cons_iff in co_queue0 as [Hf Hrest]. constructor; [|done]. by apply retransmitted_ok.
Qed.

Lemma tick_probe_ok now c w : conn_ok c →
  ∃ c' w', tick_probe now c w = Some (c', w') ∧ conn_ok c' ∧ c'.(state) = c.(state) ∧
    conn_key c' = conn_key c ∧ c'.(retransmit_queue) = c.(retransmit_queue) ∧ fin_due c' = fin_due c ∧
    world_ext w w'.
Proof.
  intros Hc. unfold tick_probe.
  destruct (bool_decide (state c = Established) || bool_decide (state c = CloseWait)).
  2:{ eexists _, w. split; [reflexivity|]. split_and!; try done. by apply conn_ok_probe. }
  destruct (probe_deadline c) as [d|]; [|by exists c, w]. destruct (_ <=? _); [|by exists c, w].
  eexists _, _. split.
  { erewrite bind_Some by (apply send_segment_eq; [apply Hc|by_decide|split; by_decide]). reflexivity. }
  split_and!; auto with minitcp. pose proof (co_probe c Hc). destruct Hc. split; cbn; auto.
  unfold INITIAL_RTO, MAX_RTO, from_millis in *. lia.
Qed.

Lemma tick_retransmit_ok now c w : conn_ok c →
  ∃ c' g w', tick_retransmit now c w = Some ((c', g), w') ∧ conn_ok c' ∧
    c'.(state) = (if g : bool then Closed else c.(state)) ∧ conn_key c' = conn_key c ∧
    fin_due c' = fin_due c ∧ world_ext w w'.
Proof.
  intros Hc. unfold tick_retransmit. destruct (retransmit_queue c) as [|f q] eqn:Eq.
  { by exists c, false, w. }
  destruct (_ <=? _); [|by exists c, false, w].
  assert (Hf : unacked_ok f) by (pose proof (co_queue c Hc) as Hq; rewrite Eq in Hq; by apply Forall_cons_iff in Hq as [? _]).
  destruct (Z.leb_spec MAX_RETRIES (us_retry_count f)).
  { eexists _, true, w. split; [reflexivity|]. split_and!; try done. apply conn_ok_state; auto; done. }
  eexists _, false, _. split.
  { erewrite bind_Some by (apply send_segment_eq; [apply Hc|apply Hf|by apply unacked_ok_data]). reflexivity. }
  split_and!; auto with minitcp. by apply conn_ok_retransmitted.
Qed.

(** What a tick can do to the state. *)
Definition tick_outcome (now : Instant) (c : TcpConnection) (s : TcpState) : Prop :=
  s = c.(state) ∨
  s = Closed ∧ c.(state) = TimeWait ∧ c.(time_wait_deadline) ≤ now ∨
  s = Closed ∧ c.(state) ≠ TimeWait ∨
  can_send c.(state) = true ∧ fin_due c = true ∧ s = fin_state c.(state).

Lemma tick_conn_ok now c w : conn_ok c →
  ∃ c' w', tick_conn now c w = Some (c', w') ∧ conn_ok c' ∧ conn_key c' = conn_key c ∧
    tick_outcome now c c'.(state) ∧ world_ext w w'.
Proof.
  intros Hc. unfold tick_conn, tick_outcome. case_bool_decide as Etw.
  { eexists _, w. split; [reflexivity|]. destruct (Z.leb_spec (time_wait_deadline c) now); split_and!; try done.
    - apply conn_ok_state; auto; done.
    - right. by left.
    - by left. }
  destruct (tick_probe_ok now c w Hc) as (c1 & w1 & E1 & H1 & Hs1 & Hk1 & Hq1 & Hd1 & Hw1).
  erewrite bind_Some by exact E1.
  destruct (tick_retransmit_ok now c1 w1 H1) as (c2 & g & w2 & E2 & H2 & Hs2 & Hk2 & Hd2 & Hw2).
  erewrite bind_Some by exact E2. destruct g.
  { exists c2, w2. split; [reflexivity|]. split_and!; [done|congruence|auto|by etrans]. }
  destruct (flush_send_ok c2 w2 H2) as (c3 & w3 & E3 & H3 & Hs3 & Hk3 & _ & _ & Hw3).
  exists c3, w3. split; [exact E3|]. split_and!; [done|congruence| |by etrans; [|etrans]].
  rewrite Hs3, Hs2, Hs1, Hd2, Hd1. destruct (can_send (state c)) eqn:Ec; [|by left].
  destruct (fin_due c) eqn:Ed; [|by left]. do 3 right. done.
Qed.

(** ** The table *)

Record table_ok (t : TcpTable) : Prop := {
  to_conns : map_Forall (λ k c, conn_ok c ∧ conn_key c = k) t.(connections);
  to_queues : map_Forall (λ lk q, Forall (λ k, (k.(k_local_addr), k.(k_local_port)) = lk) q) t.(accept_queues);
  to_port : is_u16 t.(next_ephemeral_port);
}.

Lemma table_ok_new : table_ok new.
Proof. split; cbn; [apply map_Forall_empty|apply map_Forall_empty|by_decide]. Qed.

Lemma table_ok_put t key c : table_ok t → conn_ok c → conn_key c = key → table_ok (put_conn key c t).
Proof. intros [] ? ?. split; cbn; auto. by apply map_Forall_insert_2. Qed.

Lemma table_ok_cleanup t : table_ok t → table_ok (cleanup_closed_connections t).
Proof.
  intros []. split; cbn; auto. intros k c [? _]%map_lookup_filter_Some. by apply to_conns0.
Qed.

Lemma table_ok_conn t key c : table_ok t → t.(connections) !! key = Some c → conn_ok c ∧ conn_key c = key.
Proof. intros [] H. by apply to_conns0 in H. Qed.

Lemma table_ok_next_queues t key c seg :
  table_ok t → conn_key c = key → 
  map_Forall (λ lk q, Forall (λ k, (k.(k_local_addr), k.(k_local_port)) = lk) q)
    (next_queues t.(accept_queues) key c seg).
Proof.
  intros [] Hk. unfold next_queues. destruct (_ && _); [|done]. unfold enqueue_accept.
  apply map_Forall_insert_2; [|done]. apply Forall_app. split; [|by subst; repeat constructor].
  destruct (accept_queues t !! _) as [q|] eqn:E; [|done]. by apply to_queues0 in E.
Qed.

Lemma process_segment_ok t key seg payload w :
  table_ok t → is_Some (t.(connections) !! key) → tcp_header_ok seg → bytes_ok payload →
  ∃ t' w', process_segment t key seg payload w = Some (t', w') ∧ table_ok t' ∧ world_ext w w'.
Proof.
  intros Ht [c Hc] Hs Hp. destruct (table_ok_conn t key c Ht Hc) as [Hok Hk].
  destruct (process_conn_ok c seg payload w Hok Hs Hp (accept_queues t) key)
    as (c' & w' & E & Hok' & Hk' & _ & Hw).
  eexists _, w'. split.
  { unfold process_segment. erewrite bind_lift by exact Hc. erewrite bind_Some by exact E. reflexivity. }
  split; [|done]. destruct Ht as [Hc0 Hq0 Hp0]. split; cbn; auto.
  - apply map_Forall_insert_2; [|done]. split; congruence.
  - by apply table_ok_next_queues.
Qed.

(** The first segment of a connection: SYN or SYN,ACK. *)
Lemma queued_ok c flags now : conn_ok c → is_u8 flags → conn_ok (queued c flags [] now).
Proof.
  intros Hc Hf. unfold queued. destruct Hc as [????? ????? [a Ha] ???]. split; cbn; auto with minitcp.
  - apply Forall_app. split; [done|]. apply Forall_singleton. split; cbn; auto; try by_decide.
  - exists a. eapply chain_app; [exact Ha|]. split; [done|]. by rewrite unacked_end_eq.
Qed.

Lemma queue_and_send_ok c flags w :
  conn_ok c → is_u8 flags →
  ∃ c' w', queue_and_send c flags [] w = Some (c', w') ∧ conn_ok c' ∧ conn_key c' = conn_key c ∧
    c'.(state) = c.(state) ∧ world_ext w w'.
Proof.
  intros Hc Hf. eexists _, _. split; [apply queue_and_send_eq; [apply Hc|done|apply seg_data_nil]|].
  split_and!; auto using queued_ok with minitcp.
Qed.

Lemma fresh_conn_ok s la lp ra rp iss0 wnd irs0 rcv0 tw :
  is_u32 la → is_u16 lp → is_u32 ra → is_u16 rp → is_u32 iss0 → is_u16 wnd → is_u32 rcv0 → s ≠ Listen →
  conn_ok (mkTcpConnection s la ra lp rp iss0 iss0 iss0 wnd irs0 rcv0 [] ∅ [] [] tw None INITIAL_RTO
             false DEFAULT_RECV_BUFFER_CAP DEFAULT_SEND_BUFFER_CAP).
Proof.
  intros. split; cbn; auto; try done.
  - apply Forall_nil_2.
  - apply Forall_nil_2.
  - by exists iss0.
Qed.

(** A connection registered and its first segment sent. *)
Lemma open_ok t key c flags w :
  table_ok t → conn_ok c → conn_key c = key → is_u8 flags →
  ∃ c' w', (conn ← lift ((put_conn key c t).(connections) !! key); queue_and_send conn flags []) w =
      Some (c', w') ∧ table_ok (put_conn key c' (put_conn key c t)) ∧ c'.(state) = c.(state) ∧ world_ext w w'.
Proof.
  intros Ht Hc Hk Hf. destruct (queue_and_send_ok c flags w Hc Hf) as (c' & w' & E & Hc' & Hk' & Hs & Hw).
  exists c', w'. split; [erewrite bind_lift by apply lookup_insert_eq; exact E|]. split; [|done].
  apply table_ok_put; [by apply table_ok_put|done|congruence].
Qed.

Lemma bind_assoc {A B C} (m : M A) (f : A → M B) (g : B → M C) w :
  (x ← m; y ← f x; g y) w = (y ← (x ← m; f x); g y) w.
Proof. unfold mbind, M_bind. by destruct (m w) as [[? ?]|]. Qed.

(** An incoming TCP payload, whatever its bytes. *)
Lemma handle_segment_ok t h payload w :
  table_ok t → is_u32 h.(ip_src_addr) → is_u32 h.(ip_dst_addr) → bytes_ok payload →
  len payload ≤ 65535 →
  ∃ t' w', handle_segment t h payload w = Some (t', w') ∧ table_ok t' ∧ world_ext w w'.
Proof.
  intros Ht Hsrc Hdst Hb Hl. unfold handle_segment. case_decide; [by exists t, w|].
  destruct (parse_tcp_header payload) as [seg|] eqn:Ep; [|by exists t, w].
  pose proof (parse_tcp_header_ok payload seg Hb Ep) as Hs.
  erewrite bind_lift by (apply tcp_checksum_eq; [done|lia]). set (csum := rfc1071 _).
  destruct (negb (csum =? 0)); [by exists t, w|]. case_bool_decide as Ek.
  { destruct (process_segment_ok t (segment_key h seg) seg (drop TCP_HEADER_LEN payload) w)
      as (t' & w' & E & Ht' & Hw); auto with minitcp.
    eexists _, w'. split; [by erewrite bind_Some by exact E|]. split; [by apply table_ok_cleanup|done]. }
  destruct (_ && _ && _).
  - destruct Hs as (? & ? & ? & ? & _ & _ & ? & _).
    erewrite bind_Some by reflexivity. rewrite bind_assoc.
    edestruct (open_ok t (segment_key h seg)) as (c' & w' & E & Ht' & _ & Hw);
      [exact Ht|apply fresh_conn_ok with (s := SynRcvd) (la := ip_dst_addr h) (ra := ip_src_addr h)|
       |  |eexists _, w'; split; [erewrite bind_Some by exact E; reflexivity|]]; auto with minitcp.
    + by_decide.
    + split; [done|]. etrans; [|exact Hw]. split; cbn; auto.
  - destruct (negb _); [|by exists t, w].
    eexists _, _. split; [erewrite bind_Some by (by apply send_rst_for_unknown_eq); reflexivity|].
    auto with minitcp.
Qed.

(** The handler as the dispatcher sees it. *)
Global Instance tcp_handler : PacketHandler table_ok handle_segment.
Proof.
  intros t h payload w Ht (_ & _ & _ & _ & _ & _ & _ & _ & _ & Hs & Hd) Hb Hl.
  apply handle_segment_ok; auto. lia.
Qed.

Lemma tick_loop_ok now keys t w :
  table_ok t → Forall (λ k, is_Some (t.(connections) !! k)) keys →
  ∃ t' w', tick_loop now keys t w = Some (t', w') ∧ table_ok t' ∧ world_ext w w'.
Proof.
  revert t w. induction keys as [|k keys IH]; intros t w Ht Hk; cbn [tick_loop]; [by exists t, w|].
  apply Forall_cons_iff in Hk as [[c Hc] Hk]. destruct (table_ok_conn t k c Ht Hc) as [Hok Hkey].
  erewrite bind_lift by exact Hc.
  destruct (tick_conn_ok now c w Hok) as (c' & w1 & E & Hok' & Hk' & _ & Hw1).
  erewrite bind_Some by exact E.
  destruct (IH (put_conn k c' t) w1) as (t' & w' & E' & Ht' & Hw').
  - apply table_ok_put; [done..|congruence].
  - eapply Forall_impl; [|exact Hk]. intros k' ?. cbn. by apply lookup_insert_is_Some'; auto.
  - exists t', w'. split_and!; [done|done|by etrans].
Qed.

Lemma keys_present t (keys : list ConnectionKey) :
  keys ≡ₚ (map_to_list t.(connections)).*1 → Forall (λ k, is_Some (t.(connections) !! k)) keys.
Proof.
  intros ->. apply Forall_fmap, Forall_forall. intros [k c] H%list_elem_of_In%elem_of_map_to_list. by exists c.
Qed.

Lemma tick_ok t w : table_ok t →
  ∃ t' w', tick t w = Some (t', w') ∧ table_ok t' ∧ world_ext w w'.
Proof.
  intros Ht. unfold tick. erewrite bind_Some by reflexivity.
  destruct (visit_order_spec (map_to_list t.(connections)).*1 (clock_next w))
    as (keys & w1 & E & Hperm & _ & Hw1).
  erewrite bind_Some by exact E.
  destruct (tick_loop_ok (clock_now w) keys t w1 Ht (keys_present t keys Hperm)) as (t' & w' & E' & Ht' & Hw').
  eexists _, w'. split; [erewrite bind_Some by exact E'; reflexivity|].
  split; [by apply table_ok_cleanup|]. etrans; [apply clock_next_ext|]. by etrans.
Qed.

Lemma connect_ok t la ra rp w :
  table_ok t → is_u32 la → is_u32 ra → is_u16 rp →
  ∃ r w', connect t la ra rp w = Some (r, w') ∧ table_ok r.2 ∧ world_ext w w'.
Proof.
  intros Ht Hla Hra Hrp. unfold connect, allocate_ephemeral_port. cbv beta iota zeta.
  set (t1 := set_next_ephemeral_port _ t).
  assert (Ht1 : table_ok t1) by (destruct Ht; split; cbn; auto with minitcp).
  pose proof (to_port t Ht) as Hport. erewrite bind_Some by reflexivity. rewrite bind_assoc.
  edestruct (open_ok t1 (mkConnectionKey la (next_ephemeral_port t) ra rp)) as (c' & w' & E & Ht' & _ & Hw);
    [exact Ht1|apply fresh_conn_ok with (s := SynSent) (la := la) (ra := ra)|
     |  |eexists _, w'; split; [erewrite bind_Some by exact E; reflexivity|]]; auto with minitcp.
  - by_decide.
  - by_decide.
  - by_decide.
  - split; [done|]. etrans; [|exact Hw]. split; cbn; auto.
Qed.

Lemma send_ok t key data w : table_ok t → bytes_ok data →
  ∃ r w', send t key data w = Some (r, w') ∧ table_ok r.2 ∧ world_ext w w'.
Proof.
  intros Ht Hd. unfold send. destruct (connections t !! key) as [c|] eqn:E; [|by exists (0, t), w].
  destruct (table_ok_conn t key c Ht E) as [Hok Hk]. set (c1 := set_send_pending _ c).
  assert (H1 : conn_ok c1) by (destruct Hok; split; cbn; auto; apply bytes_ok_app; auto with minitcp).
  destruct (flush_send_ok c1 w H1) as (c' & w' & E' & Hok' & _ & Hk' & _ & _ & Hw).
  eexists _, w'. split; [erewrite bind_Some by exact E'; reflexivity|]. split; [|done].
  apply table_ok_put; [done..|]. rewrite Hk'. exact Hk.
Qed.

Lemma recv_ok t key room : table_ok t → table_ok (recv t key room).2.
Proof.
  intros Ht. unfold recv. destruct (connections t !! key) as [c|] eqn:E; [|done].
  destruct (table_ok_conn t key c Ht E) as [Hok Hk]. unfold conn_recv.
  destruct (_ <? _)%nat; cbn; apply table_ok_put; try done. destruct Hok. split; cbn; auto with minitcp.
Qed.

Lemma recv_bytes t key room : table_ok t → bytes_ok (recv t key room).1.
Proof.
  intros Ht. unfold recv. destruct (connections t !! key) as [c|] eqn:E; [|by constructor].
  destruct (table_ok_conn t key c Ht E) as [Hok _]. unfold conn_recv.
  destruct (_ <? _)%nat; cbn; [|by constructor]. apply bytes_ok_take, Hok.
Qed.

Lemma close_ok t key w : table_ok t →
  ∃ t' w', close t key w = Some (t', w') ∧ table_ok t' ∧ world_ext w w'.
Proof.
  intros Ht. unfold close. destruct (connections t !! key) as [c|] eqn:E; [|by exists t, w].
  destruct (table_ok_conn t key c Ht E) as [Hok Hk].
  assert (∃ c' w', (match state c with
             | Established | CloseWait => flush_send (set_pending_close true c)
             | SynSent | Listen => mret (set_state Closed c)
             | _ => mret c end : M TcpConnection) w = Some (c', w') ∧
    conn_ok c' ∧ conn_key c' = conn_key c ∧ world_ext w w') as (c' & w' & E' & ? & ? & ?).
  { destruct (can_send (state c)) eqn:Es.
    - assert (H1 : conn_ok (set_pending_close true c)) by (destruct Hok; split; cbn; auto).
      destruct (flush_send_ok _ w H1) as (c' & w' & E' & ? & _ & ? & _ & _ & ?).
      exists c', w'. split; [|done]. by destruct (state c).
    - assert (H1 : conn_ok (set_state Closed c)) by (apply conn_ok_state; auto; done).
      destruct (state c); try discriminate Es; eexists _, w; split; try reflexivity; done. }
  eexists _, w'. split; [erewrite bind_Some by exact E'; reflexivity|].
  split; [|done]. apply table_ok_put; [done..|congruence].
Qed.

Lemma listen_ok t a p r : table_ok t → table_ok (listen t a p r).2.
Proof. intros Ht. unfold listen. destruct (address_in_use _ _ _ _); [done|]. by destruct Ht. Qed.

Lemma accept_ok t a p : table_ok t → table_ok (accept t a p).2.
Proof.
  intros Ht. unfold accept. destruct (accept_queues t !! (a, p)) as [[|k q]|] eqn:E; try done.
  destruct Ht as [? Hq ?]. split; cbn; auto. apply map_Forall_insert_2; [|done].
  apply Hq in E. by apply Forall_cons_iff in E as [_ ?].
Qed.

Lemma set_recv_cap_ok t key v : table_ok t → table_ok (set_recv_cap t key v).
Proof.
  intros Ht. unfold set_recv_cap. destruct (connections t !! key) as [c|] eqn:E; [|done].
  destruct (table_ok_conn t key c Ht E). apply table_ok_put; auto. by apply conn_ok_recv_cap.
Qed.

Lemma set_send_cap_ok t key v : table_ok t → table_ok (set_send_cap t key v).
Proof.
  intros Ht. unfold set_send_cap. destruct (connections t !! key) as [c|] eqn:E; [|done].
  destruct (table_ok_conn t key c Ht E). apply table_ok_put; auto. by apply conn_ok_send_cap.
Qed.

(** A tick reads the clock. *)
Lemma tick_reads_clock t w t' w' :
  table_ok t → tick t w = Some (t', w') → (w.(w_reads) < w'.(w_reads))%nat.
Proof.
  intros Ht E. unfold tick in E. erewrite bind_Some in E by reflexivity.
  destruct (visit_order_spec (map_to_list t.(connections)).*1 (clock_next w))
    as (keys & w1 & E1 & Hperm & _ & Hw1).
  erewrite bind_Some in E by exact E1.
  destruct (tick_loop_ok (clock_now w) keys t w1 Ht (keys_present t keys Hperm)) as (t2 & w2 & E2 & _ & Hw2).
  erewrite bind_Some in E by exact E2. injection E as <- <-.
  pose proof (ext_reads _ _ Hw1). pose proof (ext_reads _ _ Hw2). cbn in *. lia.
Qed.
