(* ===== verification/TcpState.v ===== *)
(** * Behaviour of the connection table

    The theorems about the TCP engine as a whole: it never panics and keeps
    its invariant over every sequence of operations; the state machine
    refines the transition table of [docs/state_machine.md]; what resets,
    segments for unknown connections, damaged segments, TIME_WAIT and the
    retransmission timer do. *)

From S2P Require Import Prelude Ip TcpSegment TcpConn TcpSend TcpReceive TcpTable TcpInv.

(** ** Runs *)

(** What can happen to a table: a packet for it arrives, the timers are
    checked, or the socket layer calls one of its operations. *)
Inductive table_op :=
  | OpSegment (ip_hdr : IpHeader) (payload : bytes)
  | OpTick
  | OpListen (addr : u32) (port : u16) (reuse_addr : bool)
  | OpAccept (addr : u32) (port : u16)
  | OpConnect (laddr raddr : u32) (rport : u16)
  | OpSend (key : ConnectionKey) (data : bytes)
  | OpRecv (key : ConnectionKey) (room : nat)
  | OpClose (key : ConnectionKey)
  | OpRecvCap (key : ConnectionKey) (cap : usize)
  | OpSendCap (key : ConnectionKey) (cap : usize).

(** The types of the arguments; a payload is at most what an IPv4 packet
    holds. *)
Definition op_ok (op : table_op) : Prop :=
  match op with
  | OpSegment h payload =>
      is_u32 h.(ip_src_addr) ∧ is_u32 h.(ip_dst_addr) ∧ bytes_ok payload ∧ len payload ≤ 65535
  | OpConnect la ra rp => is_u32 la ∧ is_u32 ra ∧ is_u16 rp
  | OpSend _ data => bytes_ok data
  | _ => True
  end.

Definition run_op (op : table_op) (t : TcpTable) : M TcpTable :=
  match op with
  | OpSegment h payload => handle_segment t h payload
  | OpTick => tick t
  | OpListen a p r => mret (listen t a p r).2
  | OpAccept a p => mret (accept t a p).2
  | OpConnect la ra rp => r ← connect t la ra rp; mret r.2
  | OpSend key data => r ← send t key data; mret r.2
  | OpRecv key room => mret (recv t key room).2
  | OpClose key => close t key
  | OpRecvCap key cap => mret (set_recv_cap t key cap)
  | OpSendCap key cap => mret (set_send_cap t key cap)
  end.

(** The tables a program can get to. *)
Inductive reachable : TcpTable → World → Prop :=
  | reach_new w : reachable new w
  | reach_step t w op t' w' :
      reachable t w → op_ok op → run_op op t w = Some (t', w') → reachable t' w'.

Lemma run_op_ok op t w : table_ok t → op_ok op →
  ∃ t' w', run_op op t w = Some (t', w') ∧ table_ok t' ∧ world_ext w w'.
Proof.
  intros Ht Hop. destruct op; cbn [run_op op_ok] in *.
  - destruct Hop as (? & ? & ? & ?). by apply handle_segment_ok.
  - by apply tick_ok.
  - eexists _, w. split; [reflexivity|]. split; [by apply listen_ok|done].
  - eexists _, w. split; [reflexivity|]. split; [by apply accept_ok|done].
  - destruct Hop as (? & ? & ?). destruct (connect_ok t laddr raddr rport w) as (r & w' & E & ? & ?); auto.
    eexists _, w'. split; [by erewrite bind_Some by exact E|done].
  - destruct (send_ok t key data w) as (r & w' & E & ? & ?); auto.
    eexists _, w'. split; [by erewrite bind_Some by exact E|done].
  - eexists _, w. split; [reflexivity|]. split; [by apply recv_ok|done].
  - by apply close_ok.
  - eexists _, w. split; [reflexivity|]. split; [by apply set_recv_cap_ok|done].
  - eexists _, w. split; [reflexivity|]. split; [by apply set_send_cap_ok|done].
Qed.

Lemma reachable_ok t w : reachable t w → table_ok t.
Proof.
  induction 1 as [w|t w op t' w' _ IH Hop E]; [apply table_ok_new|].
  destruct (run_op_ok op t w IH Hop) as (t'' & w'' & E' & ? & _). congruence.
Qed.

(** ** The documented transitions *)

Inductive documented : TcpState → TcpState → Prop :=
  | syn_sent_established : documented SynSent Established
  | syn_rcvd_established : documented SynRcvd Established
  | established_fin_wait1 : documented Established FinWait1
  | established_close_wait : documented Established CloseWait
  | fin_wait1_fin_wait2 : documented FinWait1 FinWait2
  | fin_wait1_closing : documented FinWait1 Closing
  | fin_wait1_time_wait : documented FinWait1 TimeWait
  | fin_wait2_time_wait : documented FinWait2 TimeWait
  | closing_time_wait : documented Closing TimeWait
  | close_wait_last_ack : documented CloseWait LastAck
  | last_ack_closed : documented LastAck Closed
  | live_reset s : live s = true → documented s Closed.

(** One segment takes no documented transition, one, or two that the same
    segment completes: the final handshake ACK that also carries the FIN,
    and a FIN met by a close() that was only waiting for the window. *)
Definition documented_move (s s' : TcpState) : Prop :=
  s' = s ∨ documented s s' ∨
  (s = SynRcvd ∧ s' = CloseWait) ∨ (s = Established ∧ s' = LastAck).

Lemma next_state_documented s ev : documented_move s (next_state s ev).
Proof.
  destruct ev as [rst syn ack fin drained]. unfold next_state, documented_move. cbn.
  destruct rst, (live s) eqn:El; cbn [andb]; try (right; left; by constructor);
    destruct s, syn, ack, fin, drained; cbn; auto using documented; discriminate El.
Qed.

(** ** Segments that arrive intact *)

(** [payload] is an undamaged segment with header [seg] and data [data]. *)
Record arrives (h : IpHeader) (payload : bytes) (seg : TcpHeader) (data : bytes) : Prop := {
  ar_parse : parse_tcp_header payload = Some seg;
  ar_csum : tcp_checksum h.(ip_src_addr) h.(ip_dst_addr) payload = Some 0;
  ar_data : data = drop TCP_HEADER_LEN payload;
}.

Lemma parse_tcp_header_length p seg : parse_tcp_header p = Some seg → (TCP_HEADER_LEN ≤ length p)%nat.
Proof. unfold parse_tcp_header. case_decide; [done|]. lia. Qed.

(** Such a segment gets to the demultiplexer. *)
Lemma handle_segment_known t h payload seg data w :
  arrives h payload seg data → is_Some (t.(connections) !! segment_key h seg) →
  handle_segment t h payload w =
    (t' ← process_segment t (segment_key h seg) seg data; mret (cleanup_closed_connections t')) w.
Proof.
  intros [Hp Hc ->] Hk. pose proof (parse_tcp_header_length _ _ Hp).
  unfold handle_segment. rewrite decide_False by lia. rewrite Hp.
  erewrite bind_lift by exact Hc. cbn [Z.eqb negb]. by rewrite bool_decide_eq_true_2.
Qed.

Lemma handle_segment_conn t h payload seg data c c' q w w' :
  arrives h payload seg data → t.(connections) !! segment_key h seg = Some c →
  process_conn t.(accept_queues) (segment_key h seg) c seg data w = Some ((c', q), w') →
  handle_segment t h payload w =
    Some (cleanup_closed_connections (set_accept_queues q (put_conn (segment_key h seg) c' t)), w').
Proof.
  intros Ha Hk Hp. erewrite handle_segment_known by eauto.
  erewrite bind_Some; [reflexivity|]. unfold process_segment.
  erewrite bind_lift by exact Hk. by erewrite bind_Some by exact Hp.
Qed.

Lemma handle_segment_unknown t h payload seg data w :
  arrives h payload seg data → t.(connections) !! segment_key h seg = None →
  has_flag seg.(th_flags) TCP_SYN && negb (has_flag seg.(th_flags) TCP_ACK) &&
    bool_decide ((h.(ip_dst_addr), seg.(th_dst_port)) ∈ t.(listeners)) = false →
  handle_segment t h payload w =
    (if negb (has_flag seg.(th_flags) TCP_RST)
     then _ ← send_rst_for_unknown h seg (length data); mret t else mret t) w.
Proof.
  intros [Hp Hc ->] Hk Hl. pose proof (parse_tcp_header_length _ _ Hp).
  unfold handle_segment. rewrite decide_False by lia. rewrite Hp.
  erewrite bind_lift by exact Hc. cbn [Z.eqb negb].
  rewrite bool_decide_eq_false_2 by (rewrite Hk; by intros []). by rewrite Hl.
Qed.

Lemma cleanup_removes t key c :
  t.(connections) !! key = Some c → c.(state) = Closed →
  (cleanup_closed_connections t).(connections) !! key = None.
Proof.
  intros Hk Hc. cbn. apply map_lookup_filter_None. right. intros c' Hc'. cbn. congruence.
Qed.

Lemma cleanup_keeps t key c :
  t.(connections) !! key = Some c → c.(state) ≠ Closed →
  (cleanup_closed_connections t).(connections) !! key = Some c.
Proof. intros Hk Hc. cbn. by apply map_lookup_filter_Some. Qed.

(** ** Ticks, connection by connection *)

(** The loop ticks each connection once, from where it stood. *)
Lemma tick_loop_lookup now keys t w t' w' :
  tick_loop now keys t w = Some (t', w') → NoDup keys → table_ok t →
  Forall (λ k, is_Some (t.(connections) !! k)) keys →
  (∀ k, k ∉ keys → t'.(connections) !! k = t.(connections) !! k) ∧
  (∀ k c, k ∈ keys → t.(connections) !! k = Some c →
     ∃ c' w1 w2, tick_conn now c w1 = Some (c', w2) ∧ t'.(connections) !! k = Some c' ∧
       world_ext w w1 ∧ world_ext w2 w').
Proof.
  revert t w. induction keys as [|k0 keys IH]; intros t w E Hnd Ht Hall; cbn [tick_loop] in E.
  { injection E as <- <-. split; [done|]. by intros k c ?%elem_of_nil. }
  inversion Hnd as [|? ? Hnin Hnd']; subst; clear Hnd; rename Hnd' into Hnd. apply Forall_cons_iff in Hall as [[c0 Hc0] Hall].
  destruct (table_ok_conn t k0 c0 Ht Hc0) as [Hok0 Hkey0].
  erewrite bind_lift in E by exact Hc0.
  destruct (tick_conn_ok now c0 w Hok0) as (c0' & w1 & E0 & Hok0' & Hk0' & _ & Hw1).
  erewrite bind_Some in E by exact E0.
  assert (Ht1 : table_ok (put_conn k0 c0' t)) by (apply table_ok_put; [done..|congruence]).
  assert (Hall1 : Forall (λ k, is_Some ((put_conn k0 c0' t).(connections) !! k)) keys).
  { eapply Forall_impl; [|exact Hall]. intros k' ?. cbn. apply lookup_insert_is_Some'; auto. }
  destruct (tick_loop_ok now keys _ w1 Ht1 Hall1) as (t2 & w2 & E2 & _ & Hw2).
  assert (t2 = t' ∧ w2 = w') as [-> ->] by (split; congruence).
  destruct (IH _ _ E Hnd Ht1 Hall1) as [Hother Hin]. split.
  - intros k [Hne Hk]%not_elem_of_cons. rewrite Hother by done. cbn. by rewrite lookup_insert_ne.
  - intros k c [->|Hk]%elem_of_cons Hc.
    + rewrite Hc0 in Hc. injection Hc as <-. exists c0', w, w1. split_and!; try done.
      rewrite Hother by done. cbn. apply lookup_insert_eq.
    + destruct (Hin k c Hk) as (c' & wa & wb & ? & ? & ? & ?).
      { cbn. rewrite lookup_insert_ne; [done|]. by intros ->. }
      exists c', wa, wb. split_and!; try done. by etrans.
Qed.

Lemma tick_lookup t w : table_ok t →
  ∃ t' w', tick t w = Some (t', w') ∧ ∀ k c, t.(connections) !! k = Some c →
    ∃ c' w1 w2, tick_conn (clock_now w) c w1 = Some (c', w2) ∧
      world_ext w w1 ∧ world_ext w2 w' ∧
      t'.(connections) !! k = if bool_decide (c'.(state) = Closed) then None else Some c'.
Proof.
  intros Ht. unfold tick. erewrite bind_Some by reflexivity.
  destruct (visit_order_spec (map_to_list t.(connections)).*1 (clock_next w))
    as (keys & w1 & E & Hperm & _ & Hw1).
  erewrite bind_Some by exact E. pose proof (keys_present t keys Hperm) as Hall.
  destruct (tick_loop_ok (clock_now w) keys t w1 Ht Hall) as (t' & w' & E' & Ht' & Hw').
  change (w_clock w (w_reads w)) with (clock_now w). erewrite bind_Some by exact E'.
  eexists _, w'. split; [reflexivity|]. intros k c Hc.
  assert (Hnd : NoDup keys) by (rewrite Hperm; apply NoDup_fst_map_to_list).
  destruct (tick_loop_lookup _ _ _ _ _ _ E' Hnd Ht Hall) as [_ Hin].
  destruct (Hin k c) as (c' & wa & wb & Et & Hk & Hwa & Hwb); [|done|].
  { rewrite Hperm. apply list_elem_of_fmap. exists (k, c). split; [done|]. by apply elem_of_map_to_list. }
  exists c', wa, wb. split_and!; [done| |done|].
  - etrans; [apply clock_next_ext|]. by etrans.
  - case_bool_decide; [by eapply cleanup_removes|by apply cleanup_keeps].
Qed.

(** The persist timer does not show in the segments sent. *)
Lemma tick_probe_packet now c w c' w' flags seq data :
  tick_probe now c w = Some (c', w') → seg_packet c' flags seq data = seg_packet c flags seq data.
Proof.
  unfold tick_probe. destruct (_ || _); [|by intros [= <- _]].
  destruct (probe_deadline c); [|by intros [= <- _]]. destruct (_ <=? _); [|by intros [= <- _]].
  intros (? & ? & _ & [= <- _])%bind_inv. done.
Qed.

(** [flush_send] only appends to the queue and never closes. *)
Lemma flush_send_queue c w c' w' :
  conn_ok c → flush_send c w = Some (c', w') →
  ∃ more, c'.(retransmit_queue) = c.(retransmit_queue) ++ more ∧
    (c.(state) ≠ Closed → c'.(state) ≠ Closed) ∧ w.(w_sent) `prefix_of` w'.(w_sent).
Proof.
  intros Hok E. destruct (can_send (state c)) eqn:Es.
  2:{ rewrite flush_send_idle in E by done. injection E as <- <-. exists []. by rewrite app_nil_r. }
  destruct (flush_send_spec c w (conn_ok_ready c Hok) Es)
    as (w1 & segs & fins & nxt & E1 & _ & _ & _ & _ & _ & Hw & _).
  rewrite E in E1. injection E1 as -> ->. exists (segs ++ fins). split_and!; [done| |by eexists].
  intros _. cbn. destruct (fin_due c); by destruct (state c).
Qed.

(** A tick of a connection whose oldest segment has timed out. *)
Lemma tick_retransmits now c f rest w c' w' :
  conn_ok c → c.(state) ≠ TimeWait → c.(retransmit_queue) = f :: rest →
  f.(us_rto) ≤ now - f.(us_sent_at) → tick_conn now c w = Some (c', w') →
  if decide (f.(us_retry_count) < MAX_RETRIES)
  then ∃ more, c'.(retransmit_queue) = retransmitted now f :: rest ++ more ∧
         (c.(state) ≠ Closed → c'.(state) ≠ Closed) ∧
         seg_packet c f.(us_flags) f.(us_seq) f.(us_data) ∈ w'.(w_sent)
  else c'.(state) = Closed.
Proof.
  intros Hok Htw Hq Hto E. unfold tick_conn in E. rewrite bool_decide_eq_false_2 in E by done.
  destruct (tick_probe_ok now c w Hok) as (c1 & w1 & E1 & Hok1 & Hs1 & Hk1 & Hq1 & _).
  erewrite bind_Some in E by exact E1. rewrite Hq in Hq1.
  assert (Hf : unacked_ok f) by (pose proof (co_queue c Hok) as H; rewrite Hq in H; by apply Forall_cons_iff in H as [? _]).
  unfold tick_retransmit in E. rewrite Hq1, (proj2 (Z.leb_le _ _)) in E by lia. case_decide as Hr.
  2:{ rewrite (proj2 (Z.leb_le _ _)) in E by lia. by injection E as <- <-. }
  rewrite (proj2 (Z.leb_gt _ _)) in E by lia. rewrite <- bind_assoc in E.
  erewrite bind_Some in E by (apply send_segment_eq; [apply Hok1|apply Hf|by apply unacked_ok_data]).
  rewrite bind_ret in E. set (c2 := set_retransmit_queue _ c1) in E. set (w2 := emit _ w1) in E.
  assert (Hpk : seg_packet c1 (us_flags f) (us_seq f) (us_data f) =
                seg_packet c (us_flags f) (us_seq f) (us_data f)) by (by eapply tick_probe_packet).
  destruct (flush_send_queue c2 w2 c' w') as (more & Hm & Hst & Hsent); [|exact E|].
  { by apply conn_ok_retransmitted. }
  exists more. split_and!; [done|intros ?; apply Hst; cbn; congruence|]. destruct Hsent as [k ->]. apply elem_of_app. left.
  unfold w2. cbn [emit w_sent]. rewrite Hpk. apply elem_of_app. right. by left.
Qed.

(** The cap and doubling in closed form. *)
Lemma backoff_closed k : backoff k = Z.min (INITIAL_RTO * 2 ^ Z.of_nat k) MAX_RTO.
Proof.
  induction k as [|k IH]; [reflexivity|]. cbn [backoff]. rewrite IH.
  rewrite Nat2Z.inj_succ, Z.pow_succ_r by lia.
  pose proof (Z.pow_pos_nonneg 2 (Z.of_nat k) ltac:(lia) ltac:(lia)).
  unfold INITIAL_RTO, MAX_RTO, from_millis. lia.
Qed.

(** ** Theorems *)

(** C7: from an empty table, whatever packets arrive with whatever bytes,
    in whatever order they, the timer ticks and the socket calls come, the
    TCP engine never panics (no slice out of range, no arithmetic overflow,
    no missing connection), and the table stays well-formed. *)
Theorem tcp_never_panics (t : TcpTable) (w : World) (op : table_op) :
  reachable t w → op_ok op →
  ∃ t' w', run_op op t w = Some (t', w') ∧ table_ok t' ∧ world_ext w w'.
Proof. intros Hr Hop. apply run_op_ok; [by eapply reachable_ok|done]. Qed.

Theorem tcp_never_panics_witness :
  ∃ t' w', run_op (OpConnect 0x0A0A0001 0x0A0A0002 80) new demo_world = Some (t', w') ∧ table_ok t'.
Proof.
  destruct (tcp_never_panics new demo_world (OpConnect 0x0A0A0001 0x0A0A0002 80)) as (t' & w' & E & Ht & _).
  - apply reach_new.
  - split_and!; by_decide.
  - exists t', w'. exact (conj E Ht).
Defined.

(** C8: the state machine refines the documented one.  A segment takes a
    connection of a reachable table to the state the transition function
    gives for what the segment means (reset, SYN, acknowledgement of all we
    sent, FIN in sequence, pending close that now fits the window), each
    such move is in the transition table, and the connection is put on the
    accept queue exactly when the handshake completes passively. *)
Theorem process_segment_refines_fsm (t : TcpTable) (key : ConnectionKey) (c : TcpConnection)
    (seg : TcpHeader) (payload : bytes) (w : World) :
  reachable t w → t.(connections) !! key = Some c → tcp_header_ok seg → bytes_ok payload →
  ∃ t' c' w', process_segment t key seg payload w = Some (t', w') ∧
    t'.(connections) = <[key := c']> t.(connections) ∧
    c'.(state) = next_state c.(state) (seg_event c seg) ∧
    documented_move c.(state) c'.(state) ∧
    t'.(accept_queues) = next_queues t.(accept_queues) key c seg ∧
    t'.(listeners) = t.(listeners).
Proof.
  intros Hr Hk Hs Hp. destruct (table_ok_conn t key c (reachable_ok t w Hr) Hk) as [Hok Hkey].
  destruct (process_conn_ok c seg payload w Hok Hs Hp (accept_queues t) key)
    as (c' & w' & E & _ & _ & Hst & _).
  eexists _, c', w'. split.
  { unfold process_segment. erewrite bind_lift by exact Hk. erewrite bind_Some by exact E. reflexivity. }
  split_and!; try done. rewrite Hst. apply next_state_documented.
Qed.

(** C26: a reset aborts a connection in whatever live state it is: after an
    intact segment with RST set, the connection is gone, nothing was sent,
    and the other connections are untouched, except that those already
    CLOSED are reaped. *)
Theorem reset_aborts (t : TcpTable) (h : IpHeader) (payload : bytes) (seg : TcpHeader) (data : bytes)
    (c : TcpConnection) (w : World) :
  arrives h payload seg data → has_flag seg.(th_flags) TCP_RST = true →
  t.(connections) !! segment_key h seg = Some c → live c.(state) = true →
  handle_segment t h payload w =
    Some (cleanup_closed_connections (set_connections (delete (segment_key h seg) t.(connections)) t), w).
Proof.
  intros Ha Hrst Hk Hl.
  assert (Hp : process_conn (accept_queues t) (segment_key h seg) c seg data w =
               Some ((set_state Closed c, accept_queues t), w))
    by (unfold process_conn; rewrite Hrst; unfold live in Hl; by rewrite Hl).
  erewrite handle_segment_conn by eauto. unfold cleanup_closed_connections. cbn. unfold set_connections.
  cbn. do 3 f_equal. apply map_filter_insert_False. cbn. by intros H.
Qed.

(** C27: an intact segment that belongs to no connection and opens none is
    answered with exactly one reset, the table unchanged.  If the segment has
    an acknowledgement number, the answer is a bare RST with that number; if
    not, a RST,ACK that acknowledges the segment's whole sequence space.  (The
    documentation and the trace call both a RST,ACK.)  A reset is never
    answered at all. *)
Theorem unknown_segment_reset (t : TcpTable) (h : IpHeader) (payload : bytes) (seg : TcpHeader)
    (data : bytes) (w : World) :
  arrives h payload seg data → is_u32 h.(ip_src_addr) → is_u32 h.(ip_dst_addr) →
  t.(connections) !! segment_key h seg = None →
  has_flag seg.(th_flags) TCP_SYN && negb (has_flag seg.(th_flags) TCP_ACK) &&
    bool_decide ((h.(ip_dst_addr), seg.(th_dst_port)) ∈ t.(listeners)) = false →
  let rst := rst_header seg (length data) in
  handle_segment t h payload w =
    Some (t, if has_flag seg.(th_flags) TCP_RST then w
             else emit (tcp_packet h.(ip_dst_addr) h.(ip_src_addr) rst []) w) ∧
  has_flag rst.(th_flags) TCP_RST = true ∧
  rst.(th_src_port) = seg.(th_dst_port) ∧ rst.(th_dst_port) = seg.(th_src_port) ∧
  (if has_flag seg.(th_flags) TCP_ACK
   then rst.(th_seq_num) = seg.(th_ack_num) ∧ rst.(th_flags) = TCP_RST
   else rst.(th_seq_num) = 0 ∧ has_flag rst.(th_flags) TCP_ACK = true ∧
        rst.(th_ack_num) =
          wadd32 seg.(th_seq_num)
            (len data + Z.b2z (has_flag seg.(th_flags) TCP_SYN) + Z.b2z (has_flag seg.(th_flags) TCP_FIN))).
Proof.
  intros Ha Hs Hd Hk Hl. cbv zeta. split; [|split_and!].
  - erewrite handle_segment_unknown by eauto. destruct (has_flag _ TCP_RST); cbn [negb]; [done|].
    by erewrite bind_Some by (by apply send_rst_for_unknown_eq).
  - unfold rst_header, rst_fields. by destruct (has_flag _ TCP_ACK).
  - unfold rst_header, rst_fields. by destruct (has_flag _ TCP_ACK).
  - unfold rst_header, rst_fields. by destruct (has_flag _ TCP_ACK).
  - unfold rst_header, rst_fields. destruct (has_flag _ TCP_ACK); [done|]. split_and!; try done.
    apply wadd32_consumed.
Qed.

(** A damaged segment, or one shorter than a TCP header, is dropped:
    the table does not change and nothing is sent. *)
Theorem damaged_segment_dropped (t : TcpTable) (h : IpHeader) (payload : bytes) (w : World) :
  bytes_ok payload → len payload ≤ 65535 →
  ((length payload < TCP_HEADER_LEN)%nat ∨
   tcp_checksum h.(ip_src_addr) h.(ip_dst_addr) payload ≠ Some 0) →
  handle_segment t h payload w = Some (t, w).
Proof.
  intros Hb Hl Hbad. unfold handle_segment. case_decide; [done|].
  destruct Hbad as [?|Hbad]; [done|]. destruct (parse_tcp_header payload) as [seg|]; [|done].
  erewrite tcp_checksum_eq in Hbad by (done || lia).
  erewrite bind_lift by (apply tcp_checksum_eq; [done|lia]).
  by rewrite (proj2 (Z.eqb_neq _ _)) by congruence.
Qed.

(** C20: TIME_WAIT ends by the clock alone.  At a tick, a connection in
    TIME_WAIT is reaped when its deadline has passed and otherwise stays as
    it is; a retransmitted FIN is acknowledged again and moves the deadline
    to four seconds from now. *)
Theorem time_wait_lifecycle (t : TcpTable) (k : ConnectionKey) (c : TcpConnection) (w : World) :
  table_ok t → t.(connections) !! k = Some c → c.(state) = TimeWait →
  (∃ t' w', tick t w = Some (t', w') ∧
    t'.(connections) !! k = if decide (c.(time_wait_deadline) ≤ clock_now w) then None else Some c) ∧
  (∀ h payload seg data, arrives h payload seg data → segment_key h seg = k →
     has_flag seg.(th_flags) TCP_RST = false → has_flag seg.(th_flags) TCP_FIN = true →
     ∃ t' w', handle_segment t h payload w = Some (t', w') ∧
       t'.(connections) !! k = Some (set_time_wait_deadline (clock_now w + TIME_WAIT_DURATION) c) ∧
       w'.(w_sent) = w.(w_sent) ++ [seg_packet c TCP_ACK c.(snd_nxt) []]).
Proof.
  intros Ht Hk Hs. split.
  - destruct (tick_lookup t w Ht) as (t' & w' & E & Hl). exists t', w'. split; [done|].
    destruct (Hl k c Hk) as (c' & w1 & w2 & Et & _ & _ & ->). unfold tick_conn in Et. rewrite Hs in Et.
    cbn in Et. injection Et as <- _. destruct (Z.leb_spec (time_wait_deadline c) (clock_now w)).
    + by rewrite decide_True.
    + by rewrite decide_False, Hs by lia.
  - intros h payload seg data Ha <- Hrst Hfin.
    destruct (table_ok_conn t _ c Ht Hk) as [Hok _].
    assert (Hp : process_conn (accept_queues t) (segment_key h seg) c seg data w =
      Some ((set_time_wait_deadline (clock_now w + TIME_WAIT_DURATION) c, accept_queues t),
            clock_next (emit (seg_packet c TCP_ACK c.(snd_nxt) []) w))).
    { unfold process_conn, process_time_wait. rewrite Hrst, Hs, Hfin. cbn [andb].
      erewrite bind_Some; [reflexivity|]. by erewrite bind_Some by (apply send_ack_only_eq, Hok). }
    eexists _, _. split; [by eapply handle_segment_conn|]. split; [|done].
    apply cleanup_keeps; [apply lookup_insert_eq|]. cbn. by rewrite Hs.
Qed.

(** C19: retransmission.  When the oldest unacknowledged segment has waited
    out its timeout, a tick sends it again, same sequence number, flags and
    data, and doubles its timeout up to the cap; after six retransmissions
    the connection is dropped instead.  The timeout after [n]
    retransmissions is 500 ms times [2^n], at most 8 s. *)
Theorem retransmission_timer (t : TcpTable) (k : ConnectionKey) (c : TcpConnection)
    (f : UnackedSegment) (rest : list UnackedSegment) (w : World) :
  table_ok t → t.(connections) !! k = Some c → c.(state) ≠ TimeWait → c.(state) ≠ Closed →
  c.(retransmit_queue) = f :: rest →
  f.(us_rto) ≤ clock_now w - f.(us_sent_at) →
  f.(us_rto) = Z.min (from_millis 500 * 2 ^ f.(us_retry_count)) (from_millis 8000) ∧
  ∃ t' w', tick t w = Some (t', w') ∧
    if decide (f.(us_retry_count) < 6)
    then ∃ c' f' more, t'.(connections) !! k = Some c' ∧
           c'.(retransmit_queue) = f' :: rest ++ more ∧
           f'.(us_retry_count) = f.(us_retry_count) + 1 ∧ f'.(us_sent_at) = clock_now w ∧
           f'.(us_rto) = Z.min (from_millis 500 * 2 ^ (f.(us_retry_count) + 1)) (from_millis 8000) ∧
           seg_packet c f.(us_flags) f.(us_seq) f.(us_data) ∈ w'.(w_sent)
    else t'.(connections) !! k = None.
Proof.
  intros Ht Hk Htw Hcl Hq Hto. destruct (table_ok_conn t k c Ht Hk) as [Hok Hkey].
  assert (Hf : unacked_ok f) by (pose proof (co_queue c Hok) as H; rewrite Hq in H; by apply Forall_cons_iff in H as [? _]).
  assert (Hrto : us_rto f = Z.min (from_millis 500 * 2 ^ us_retry_count f) (from_millis 8000)).
  { rewrite (uo_rto f Hf), backoff_closed. pose proof (uo_retry f Hf). by rewrite Z2Nat.id by lia. }
  split; [done|]. destruct (tick_lookup t w Ht) as (t' & w' & E & Hl). exists t', w'. split; [done|].
  destruct (Hl k c Hk) as (c' & w1 & w2 & Et & _ & Hw2 & Hk').
  pose proof (tick_retransmits (clock_now w) c f rest w1 c' w2 Hok Htw Hq Hto Et) as Htick.
  unfold MAX_RETRIES in Htick. case_decide.
  - destruct Htick as (more & Hq' & Hst & Hsent). rewrite bool_decide_eq_false_2 in Hk' by auto.
    exists c', (retransmitted (clock_now w) f), more. split_and!; try done.
    + pose proof (uo_retry f Hf).
      pose proof (uo_rto _ (retransmitted_ok (clock_now w) f Hf ltac:(done))) as Hr. rewrite Hr, backoff_closed.
      cbn [retransmitted us_retry_count]. by rewrite Z2Nat.id by lia.
    + destruct Hw2. destruct ext_sent as [more' ->]. apply elem_of_app. by left.
  - by rewrite bool_decide_eq_true_2 in Hk'.
Qed.

(** ** Witnesses

    Two segments in flight on a connection to 10.10.0.2:41000, and segments
    that arrive from there. *)

Definition one_conn (c : TcpConnection) : TcpTable := put_conn (conn_key c) c new.

Lemma inflight_conn_ok : conn_ok inflight_conn.
Proof.
  split; try (by_decide || done).
  - apply Forall_cons_iff; split; [|apply Forall_singleton]; split; by_decide.
  - by exists 5000.
Qed.

Lemma one_conn_ok s : s ≠ Listen → table_ok (one_conn (set_state s inflight_conn)).
Proof.
  intros Hs. apply table_ok_put; [apply table_ok_new| |done].
  apply conn_ok_state; [apply inflight_conn_ok|done|done].
Qed.

Definition wire_ip : IpHeader := tcp_ip_header 0x0A0A0002 0x0A0A0001 20.

Definition wire_header (flags : u8) (seq ack : u32) : TcpHeader :=
  mkTcpHeader 41000 9292 seq ack 80 flags 65535 0 0.

Definition wire (flags : u8) (seq ack : u32) : bytes :=
  tcp_segment_bytes 0x0A0A0002 0x0A0A0001 (wire_header flags seq ack) [].

Definition wire_seg (flags : u8) (seq ack : u32) : TcpHeader :=
  with_tcp_checksum (tcp_csum 0x0A0A0002 0x0A0A0001 (wire_header flags seq ack) []) (wire_header flags seq ack).

Theorem process_segment_refines_fsm_witness :
  ∃ t w t' w', reachable t w ∧
    process_segment t (mkConnectionKey 1 49152 2 80)
      (mkTcpHeader 80 49152 7 1 80 (Z.lor TCP_SYN TCP_ACK) 100 0 0) [] w = Some (t', w') ∧
    is_established t' (mkConnectionKey 1 49152 2 80) = true.
Proof.
  destruct (run_op (OpConnect 1 2 80) new demo_world) as [[t w]|] eqn:E; [|by vm_compute in E].
  assert (Hr : reachable t w).
  { eapply reach_step; [apply reach_new with (w := demo_world)| |exact E]. split_and!; by_decide. }
  assert (Hl : connections t !! mkConnectionKey 1 49152 2 80 =
               (run_op (OpConnect 1 2 80) new demo_world ≫= λ r, connections r.1 !! mkConnectionKey 1 49152 2 80))
    by (by rewrite E).
  remember (run_op (OpConnect 1 2 80) new demo_world ≫= λ r, connections r.1 !! mkConnectionKey 1 49152 2 80)
    as o eqn:Eo. vm_compute in Eo. subst o.
  destruct (process_segment_refines_fsm t (mkConnectionKey 1 49152 2 80) _
    (mkTcpHeader 80 49152 7 1 80 (Z.lor TCP_SYN TCP_ACK) 100 0 0) [] w Hr Hl)
    as (t' & c' & w' & E' & Hc' & Hs & _).
  - by_decide.
  - constructor.
  - exists t, w, t', w'. split; [exact Hr|]. split; [exact E'|].
    unfold is_established. rewrite Hc', lookup_insert_eq, Hs. reflexivity.
Defined.

Theorem reset_aborts_witness :
  ∃ t', handle_segment (one_conn inflight_conn) wire_ip (wire TCP_RST 1001 0) demo_world =
          Some (t', demo_world) ∧ t'.(connections) = ∅.
Proof.
  eexists. split.
  - eapply (reset_aborts (one_conn inflight_conn) wire_ip (wire TCP_RST 1001 0) (wire_seg TCP_RST 1001 0) []).
    + split; reflexivity.
    + reflexivity.
    + reflexivity.
    + reflexivity.
  - reflexivity.
Defined.

Theorem unknown_segment_reset_witness :
  handle_segment new wire_ip (wire TCP_SYN 1000 0) demo_world =
    Some (new, emit (tcp_packet 0x0A0A0001 0x0A0A0002 (rst_header (wire_seg TCP_SYN 1000 0) 0) []) demo_world).
Proof.
  refine (proj1 (unknown_segment_reset new wire_ip (wire TCP_SYN 1000 0) (wire_seg TCP_SYN 1000 0) []
    demo_world _ _ _ _ _)).
  - split; reflexivity.
  - by_decide.
  - by_decide.
  - reflexivity.
  - reflexivity.
Defined.

Theorem damaged_segment_dropped_witness :
  handle_segment (one_conn inflight_conn) wire_ip (wire_ip.(ip_ttl) :: tail (wire TCP_RST 1001 0)) demo_world =
    Some (one_conn inflight_conn, demo_world).
Proof.
  apply damaged_segment_dropped; [by_decide|by_decide|]. right. vm_compute. discriminate.
Defined.

Theorem time_wait_lifecycle_witness :
  ∃ t' w', tick (one_conn (set_state TimeWait inflight_conn)) demo_world = Some (t', w') ∧
    t'.(connections) !! conn_key inflight_conn = None.
Proof.
  destruct (time_wait_lifecycle (one_conn (set_state TimeWait inflight_conn)) (conn_key inflight_conn)
    (set_state TimeWait inflight_conn) demo_world) as [(t' & w' & E & H) _].
  - by apply one_conn_ok.
  - reflexivity.
  - reflexivity.
  - exists t', w'. split; [exact E|]. rewrite H. reflexivity.
Defined.

Definition late_world : World := mkWorld (λ _, from_millis 500) 0 (λ _, 0) 0 (λ _, None) 0 (λ _, 0%nat) 0 [].

Theorem retransmission_timer_witness :
  ∃ t' w' c', tick (one_conn (set_state Established inflight_conn)) late_world = Some (t', w') ∧
    t'.(connections) !! conn_key inflight_conn = Some c' ∧
    us_retry_count <$> c'.(retransmit_queue) !! 0%nat = Some 1.
Proof.
  destruct (retransmission_timer (one_conn (set_state Established inflight_conn)) (conn_key inflight_conn)
    (set_state Established inflight_conn)
    (mkUnackedSegment 5000 data_flags [1; 2; 3; 4; 5] 0 INITIAL_RTO 0)
    [mkUnackedSegment 5005 data_flags [6; 7; 8] 0 INITIAL_RTO 0] late_world) as (_ & t' & w' & E & H).
  - by apply one_conn_ok.
  - reflexivity.
  - discriminate.
  - discriminate.
  - reflexivity.
  - by_decide.
  - rewrite decide_True in H by by_decide. destruct H as (c' & f' & more & Hl & Hq & Hr & _).
    exists t', w', c'. split; [exact E|]. split; [exact Hl|]. rewrite Hq. cbn. f_equal. exact Hr.
Defined.
