(* ===== verification/TcpSystem.v ===== *)
(** * Two endpoints

    Tables that exchange packets: the three-way handshake, and the transfer
    of a byte stream whose packets arrive in any order. *)

From S2P Require Import Prelude Ip TcpSegment TcpConn TcpSend TcpReceive TcpTable TcpInv TcpState.

(** A packet from the wire reaches a table ([Stack::dispatch_ip_packet]
    without the socket layer around it). *)
Definition deliver (t : TcpTable) (packet : bytes) : M TcpTable :=
  match parse_ip_header packet with
  | Some h => handle_segment t h (drop IP_HEADER_LEN packet)
  | None => mret t
  end.

(** A header but for its checksum. *)
Definition same_fields (h h' : TcpHeader) : Prop :=
  h.(th_src_port) = h'.(th_src_port) ∧ h.(th_dst_port) = h'.(th_dst_port) ∧
  h.(th_seq_num) = h'.(th_seq_num) ∧ h.(th_ack_num) = h'.(th_ack_num) ∧
  h.(th_flags) = h'.(th_flags) ∧ h.(th_window) = h'.(th_window).

Lemma segment_header_ok c flags seq : conn_ok c → is_u8 flags → is_u32 seq → tcp_header_ok (segment_header c flags seq).
Proof.
  intros Hc Hf Hs. destruct (co_ports c Hc). pose proof (co_rcv c Hc).
  unfold tcp_header_ok, segment_header. cbn. split_and!; auto.
  - destruct (has_flag _ _); [done|by_decide].
  - by_decide.
  - rewrite advertise_window_eq. unfold uN. lia.
  - by_decide.
  - by_decide.
Qed.

(** What [send_segment] wrote arrives at the other end. *)
Lemma seg_packet_arrives c flags seq data :
  conn_ok c → is_u8 flags → is_u32 seq → seg_data_ok data →
  ∃ h seg, parse_ip_header (seg_packet c flags seq data) = Some h ∧
    h.(ip_src_addr) = c.(local_addr) ∧ h.(ip_dst_addr) = c.(remote_addr) ∧
    arrives h (drop IP_HEADER_LEN (seg_packet c flags seq data)) seg data ∧
    same_fields seg (segment_header c flags seq) ∧ tcp_header_ok seg.
Proof.
  intros Hc Hf Hs [Hb Hl]. pose proof (segment_header_ok c flags seq Hc Hf Hs) as Hh.
  destruct (tcp_packet_received (local_addr c) (remote_addr c) (segment_header c flags seq) data)
    as (r & k & _ & Hp & Hsrc & Hdst & _ & _ & Hcs & Hps & Hd); auto; try apply (co_addrs c Hc).
  exists r, (with_tcp_checksum k (segment_header c flags seq)). fold (seg_packet c flags seq data) in *.
  split; [done|]. split; [done|]. split; [done|]. split; [|split; [done|]].
  - split; [exact Hps|exact Hcs|]. rewrite <- Hd. unfold TCP_HEADER_LEN, IP_HEADER_LEN. by rewrite drop_drop.
  - eapply parse_tcp_header_ok; [|exact Hps]. apply bytes_ok_drop.
    unfold seg_packet, tcp_packet. apply ip_packet_ok; [apply tcp_ip_header_ok; apply (co_addrs c Hc)|].
    apply tcp_segment_bytes_ok; auto. by_decide.
Qed.

(** ** Opening *)

(** A connection as [TcpConnection::new] and the assignments after it leave it. *)
Definition fresh_conn (s : TcpState) (key : ConnectionKey) (iss0 : u32) (wnd : u16) (irs0 rcv0 : u32)
    (tw : Instant) : TcpConnection :=
  mkTcpConnection s key.(k_local_addr) key.(k_remote_addr) key.(k_local_port) key.(k_remote_port)
    iss0 iss0 iss0 wnd irs0 rcv0 [] ∅ [] [] tw None INITIAL_RTO false
    DEFAULT_RECV_BUFFER_CAP DEFAULT_SEND_BUFFER_CAP.

Definition key_ok (key : ConnectionKey) : Prop :=
  is_u32 key.(k_local_addr) ∧ is_u16 key.(k_local_port) ∧
  is_u32 key.(k_remote_addr) ∧ is_u16 key.(k_remote_port).

(** The same connection seen from the other end. *)
Definition flip (key : ConnectionKey) : ConnectionKey :=
  mkConnectionKey key.(k_remote_addr) key.(k_remote_port) key.(k_local_addr) key.(k_local_port).

Lemma fresh_ok s key iss0 wnd irs0 rcv0 tw :
  key_ok key → is_u32 iss0 → is_u16 wnd → is_u32 rcv0 → s ≠ Listen →
  conn_ok (fresh_conn s key iss0 wnd irs0 rcv0 tw).
Proof. intros (? & ? & ? & ?) ? ? ? ?. by apply fresh_conn_ok. Qed.

Lemma connect_eq t la ra rp w :
  table_ok t → is_u32 la → is_u32 ra → is_u16 rp →
  let key := mkConnectionKey la t.(next_ephemeral_port) ra rp in
  ∃ iss0 tw now t1 w1,
    let c0 := fresh_conn SynSent key iss0 65535 0 0 tw in
    connect t la ra rp w = Some ((key, t1), w1) ∧ is_u32 iss0 ∧
    t1.(connections) !! key = Some (queued c0 TCP_SYN [] now) ∧
    w1.(w_sent) = w.(w_sent) ++ [seg_packet c0 TCP_SYN iss0 []].
Proof.
  intros Ht Hla Hra Hrp key. pose proof (to_port t Ht) as Hport.
  set (iss0 := as_u32 (w_rng w (w_draws w))).
  set (c0 := fresh_conn SynSent key iss0 65535 0 0 (clock_now w)).
  assert (Ha : active_open la (next_ephemeral_port t) ra rp w =
    Some (c0, (mkWorld (w_clock w) (S (w_reads w)) (w_rng w) (S (w_draws w)) (w_inbox w) (w_polls w)
                       (w_picks w) (w_picked w) (w_sent w)))) by reflexivity.
  pose proof (λ w, queue_and_send_eq c0 TCP_SYN [] w (conj Hla Hra) ltac:(by_decide) seg_data_nil) as Hq.
  assert (Hn : snd_nxt c0 = iss0) by reflexivity.
  assert (Hc0 : fresh_conn SynSent key iss0 65535 0 0 (clock_now w) = c0) by reflexivity.
  clearbody c0. eexists iss0, (clock_now w), _, _, _. cbv zeta. rewrite Hc0. split.
  { unfold connect, allocate_ephemeral_port. cbv beta iota zeta.
    erewrite bind_Some by exact Ha. erewrite bind_lift by apply lookup_insert_eq.
    erewrite bind_Some by apply Hq. reflexivity. }
  rewrite Hn. split_and!; [apply as_u32_u32|apply lookup_insert_eq|reflexivity].
Qed.

Lemma passive_open_eq t h payload seg data w :
  arrives h payload seg data → is_u32 h.(ip_src_addr) → is_u32 h.(ip_dst_addr) →
  t.(connections) !! segment_key h seg = None →
  seg.(th_flags) = TCP_SYN → (h.(ip_dst_addr), seg.(th_dst_port)) ∈ t.(listeners) →
  let key := segment_key h seg in
  ∃ iss0 tw now t1 w1,
    let c0 := fresh_conn SynRcvd key iss0 seg.(th_window) seg.(th_seq_num) (wadd32 seg.(th_seq_num) 1) tw in
    handle_segment t h payload w = Some (t1, w1) ∧ is_u32 iss0 ∧
    t1.(connections) !! key = Some (queued c0 (Z.lor TCP_SYN TCP_ACK) [] now) ∧
    t1.(accept_queues) = t.(accept_queues) ∧
    w1.(w_sent) = w.(w_sent) ++ [seg_packet c0 (Z.lor TCP_SYN TCP_ACK) iss0 []].
Proof.
  intros [Hp Hc ->] Hsrc Hdst Hk Hf Hl key. pose proof (parse_tcp_header_length _ _ Hp).
  set (iss0 := as_u32 (w_rng w (w_draws w))).
  set (c0 := fresh_conn SynRcvd key iss0 (th_window seg) (th_seq_num seg)
               (wadd32 (th_seq_num seg) 1) (clock_now w)).
  assert (Ha : passive_open h seg w =
    Some (c0, (mkWorld (w_clock w) (S (w_reads w)) (w_rng w) (S (w_draws w)) (w_inbox w) (w_polls w)
                       (w_picks w) (w_picked w) (w_sent w)))) by reflexivity.
  pose proof (λ w, queue_and_send_eq c0 (Z.lor TCP_SYN TCP_ACK) [] w (conj Hdst Hsrc)
                     ltac:(by_decide) seg_data_nil) as Hq.
  assert (Hn : snd_nxt c0 = iss0) by reflexivity.
  assert (Hc0 : fresh_conn SynRcvd key iss0 (th_window seg) (th_seq_num seg)
               (wadd32 (th_seq_num seg) 1) (clock_now w) = c0) by reflexivity.
  clearbody c0. eexists iss0, (clock_now w), _, _, _. cbv zeta. rewrite Hc0. split.
  { unfold handle_segment. rewrite decide_False by lia. rewrite Hp.
    erewrite bind_lift by exact Hc. cbn [Z.eqb negb].
    rewrite bool_decide_eq_false_2 by (rewrite Hk; by intros []). rewrite Hf.
    rewrite bool_decide_eq_true_2 by done.
    change (has_flag TCP_SYN TCP_SYN && negb (has_flag TCP_SYN TCP_ACK) && true) with true. cbv iota.
    erewrite bind_Some by exact Ha. erewrite bind_lift by apply lookup_insert_eq.
    erewrite bind_Some by apply Hq. reflexivity. }
  rewrite Hn. split_and!; [apply as_u32_u32|apply lookup_insert_eq|reflexivity|reflexivity].
Qed.

(** An established connection with nothing in flight and nothing buffered. *)
Record idle (key : ConnectionKey) (snd rcv : u32) (wnd : u16) (c : TcpConnection) : Prop := {
  id_ok : conn_ok c;
  id_key : conn_key c = key;
  id_state : c.(state) = Established;
  id_una : c.(snd_una) = snd;
  id_nxt : c.(snd_nxt) = snd;
  id_wnd : c.(snd_wnd) = wnd;
  id_rcv : c.(rcv_nxt) = rcv;
  id_queue : c.(retransmit_queue) = [];
  id_ooo : c.(ooo_buffer) = ∅;
  id_recv : c.(recv_buffer) = [];
  id_pending : c.(send_pending) = [];
  id_close : c.(pending_close) = false;
  id_cap : c.(recv_buffer_cap) = DEFAULT_RECV_BUFFER_CAP;
  id_scap : c.(send_pending_cap) = DEFAULT_SEND_BUFFER_CAP;
}.

(** The handshake segment is acknowledged. *)
Lemma first_segment_acked c flags now :
  has_flag flags TCP_SYN = true → has_flag flags TCP_FIN = false → c.(retransmit_queue) = [] →
  drop_acked (queued c flags [] now).(retransmit_queue) (wadd32 c.(snd_nxt) 1) = [] ∧
  (queued c flags [] now).(snd_nxt) = wadd32 c.(snd_nxt) 1.
Proof.
  intros H1 H2 H3. cbn. rewrite H3, wadd32_consumed, H1, H2. cbn [app drop_acked].
  unfold unacked_end. cbn [us_seq us_data us_flags]. rewrite H1, H2.
  change (as_u32 (len [])) with 0. rewrite wadd32_assoc. by rewrite Z.leb_refl.
Qed.

Lemma syn_ack_establishes q key iss0 tw now seg w :
  key_ok key → is_u32 iss0 → tcp_header_ok seg →
  seg.(th_flags) = Z.lor TCP_SYN TCP_ACK → seg.(th_ack_num) = wadd32 iss0 1 →
  let c1 := queued (fresh_conn SynSent key iss0 65535 0 0 tw) TCP_SYN [] now in
  ∃ c2, process_conn q key c1 seg [] w =
      Some ((c2, q), emit (seg_packet c2 TCP_ACK (wadd32 iss0 1) []) w) ∧
    idle key (wadd32 iss0 1) (wadd32 seg.(th_seq_num) 1) seg.(th_window) c2.
Proof.
  intros Hk Hi Hs Hf Ha c1.
  pose proof (fresh_ok SynSent key iss0 65535 0 0 tw Hk Hi ltac:(by_decide) ltac:(by_decide) ltac:(done)) as H0.
  destruct (first_segment_acked (fresh_conn SynSent key iss0 65535 0 0 tw) TCP_SYN now)
    as [Hq Hn]; [done..|]. fold c1 in Hq, Hn. cbn [snd_nxt fresh_conn] in Hq, Hn.
  assert (Hack : acks_everything c1 seg = true).
  { unfold acks_everything. rewrite Hf, Ha, Hn, Z.eqb_refl. done. }
  assert (Hrst : has_flag (th_flags seg) TCP_RST = false) by (by rewrite Hf).
  assert (Hsyn : has_flag (th_flags seg) TCP_SYN = true) by (by rewrite Hf).
  assert (Hok1 : conn_ok c1) by (by apply queued_ok).
  set (c2 := set_state Established (remove_acked (set_snd_wnd (th_window seg) (set_snd_una (th_ack_num seg)
    (set_rcv_nxt (wadd32 (th_seq_num seg) 1) (set_irs (th_seq_num seg) c1)))) (th_ack_num seg))).
  assert (Hok2 : conn_ok c2).
  { destruct Hs as (_ & _ & ? & ? & _ & _ & ? & _).
    pose proof (conn_ok_acked (th_ack_num seg) (th_window seg) c1 Hok1 ltac:(done) ltac:(done)) as [].
    split; cbn in *; auto with minitcp. }
  assert (Hn2 : snd_nxt c2 = wadd32 iss0 1) by exact Hn.
  pose proof (send_ack_only_eq c2 w (co_addrs c2 Hok2)) as Hsend. rewrite Hn2 in Hsend.
  exists c2. split.
  - unfold process_conn, process_syn_sent. rewrite Hrst, Hsyn, Hack. cbn [andb state c1 queued set_snd_nxt
      set_retransmit_queue fresh_conn]. erewrite bind_Some; [reflexivity|].
    by erewrite bind_Some by exact Hsend.
  - split; try done; [by destruct key|]. cbn. rewrite Ha. exact Hq.
Qed.

Lemma ack_establishes q key iss0 wnd irs0 rcv0 tw now seg w :
  key_ok key → is_u32 iss0 → is_u16 wnd → is_u32 rcv0 → tcp_header_ok seg →
  seg.(th_flags) = TCP_ACK → seg.(th_ack_num) = wadd32 iss0 1 →
  let c1 := queued (fresh_conn SynRcvd key iss0 wnd irs0 rcv0 tw) (Z.lor TCP_SYN TCP_ACK) [] now in
  ∃ c2, process_conn q key c1 seg [] w =
      Some ((c2, enqueue_accept (key.(k_local_addr), key.(k_local_port)) key q), w) ∧
    idle key (wadd32 iss0 1) rcv0 seg.(th_window) c2.
Proof.
  intros Hk Hi Hw Hr Hs Hf Ha c1.
  pose proof (fresh_ok SynRcvd key iss0 wnd irs0 rcv0 tw Hk Hi Hw Hr ltac:(done)) as H0.
  destruct (first_segment_acked (fresh_conn SynRcvd key iss0 wnd irs0 rcv0 tw) (Z.lor TCP_SYN TCP_ACK) now)
    as [Hq Hn]; [done..|]. fold c1 in Hq, Hn. cbn [snd_nxt fresh_conn] in Hq, Hn.
  assert (Hack : acks_everything c1 seg = true).
  { unfold acks_everything. rewrite Hf, Ha, Hn, Z.eqb_refl. done. }
  assert (Hok1 : conn_ok c1) by (apply queued_ok; [done|by_decide]).
  set (c2 := set_state Established (set_snd_wnd (th_window seg)
    (remove_acked (set_snd_una (th_ack_num seg) c1) (th_ack_num seg)))).
  assert (Hok2 : conn_ok c2).
  { destruct Hs as (_ & _ & ? & ? & _ & _ & ? & _). apply conn_ok_state; [|done|by left].
    by apply conn_ok_acked. }
  exists c2. split.
  - unfold process_conn, process_syn_rcvd. rewrite Hack.
    change (state c1) with SynRcvd. rewrite Hf. done.
  - split; try done; [by destruct key|]. cbn. rewrite Ha. exact Hq.
Qed.

Lemma segment_key_flip h seg key :
  h.(ip_src_addr) = key.(k_local_addr) → h.(ip_dst_addr) = key.(k_remote_addr) →
  seg.(th_src_port) = key.(k_local_port) → seg.(th_dst_port) = key.(k_remote_port) →
  segment_key h seg = flip key.
Proof. unfold segment_key, flip. by intros -> -> -> ->. Qed.

(** A packet of a connection, at a table that has the other end. *)
Lemma deliver_conn t c flags seq data w c2 :
  conn_ok c → is_u8 flags → is_u32 seq → seg_data_ok data →
  t.(connections) !! flip (conn_key c) = Some c2 →
  ∃ seg, same_fields seg (segment_header c flags seq) ∧ tcp_header_ok seg ∧
    ∀ c2' q w', process_conn t.(accept_queues) (flip (conn_key c)) c2 seg data w = Some ((c2', q), w') →
      deliver t (seg_packet c flags seq data) w =
        Some (cleanup_closed_connections (set_accept_queues q (put_conn (flip (conn_key c)) c2' t)), w').
Proof.
  intros Hc Hf Hs Hd Hk. destruct (seg_packet_arrives c flags seq data Hc Hf Hs Hd)
    as (h & seg & Hparse & Hsrc & Hdst & Har & Hsame & Hok).
  assert (Hkey : segment_key h seg = flip (conn_key c))
    by (destruct Hsame as (? & ? & _); by apply segment_key_flip).
  exists seg. split; [done|]. split; [done|]. intros c2' q w' E. rewrite <- Hkey in *.
  unfold deliver. rewrite Hparse. by eapply handle_segment_conn.
Qed.

Lemma deliver_process t c flags seq data w c2 (P : TcpConnection → World → Prop) :
  conn_ok c → is_u8 flags → is_u32 seq → seg_data_ok data →
  t.(connections) !! flip (conn_key c) = Some c2 →
  (∀ seg, same_fields seg (segment_header c flags seq) → tcp_header_ok seg →
     ∃ c2' w', process_conn t.(accept_queues) (flip (conn_key c)) c2 seg data w =
         Some ((c2', t.(accept_queues)), w') ∧ P c2' w') →
  ∃ t' c2' w', deliver t (seg_packet c flags seq data) w = Some (t', w') ∧
    t'.(connections) !! flip (conn_key c) = (if bool_decide (c2'.(state) = Closed) then None else Some c2') ∧
    P c2' w'.
Proof.
  intros Hc Hf Hs Hd Hk Hp. destruct (deliver_conn t c flags seq data w c2 Hc Hf Hs Hd Hk) as (seg & Hsame & Hok & E).
  destruct (Hp seg Hsame Hok) as (c2' & w' & E' & HP). eexists _, c2', w'. split; [by apply E|].
  split; [|done]. case_bool_decide; [eapply cleanup_removes|apply cleanup_keeps]; try done; apply lookup_insert_eq.
Qed.

(** ** The handshake *)

Lemma flip_flip key : flip (flip key) = key.
Proof. by destruct key. Qed.

Lemma key_ok_flip key : key_ok key → key_ok (flip key).
Proof. intros (? & ? & ? & ?). by split_and!. Qed.

(** The server's side of the SYN. *)
Lemma deliver_syn t key iss0 tw w :
  key_ok key → is_u32 iss0 → t.(connections) !! flip key = None →
  (key.(k_remote_addr), key.(k_remote_port)) ∈ t.(listeners) →
  ∃ iss1 tw1 now1 wnd t1 w1,
    let s0 := fresh_conn SynRcvd (flip key) iss1 wnd iss0 (wadd32 iss0 1) tw1 in
    deliver t (seg_packet (fresh_conn SynSent key iss0 65535 0 0 tw) TCP_SYN iss0 []) w = Some (t1, w1) ∧
    is_u32 iss1 ∧ is_u16 wnd ∧
    t1.(connections) !! flip key = Some (queued s0 (Z.lor TCP_SYN TCP_ACK) [] now1) ∧
    t1.(accept_queues) = t.(accept_queues) ∧
    w1.(w_sent) = w.(w_sent) ++ [seg_packet s0 (Z.lor TCP_SYN TCP_ACK) iss1 []].
Proof.
  intros Hk Hi Hfree Hl. set (c0 := fresh_conn SynSent key iss0 65535 0 0 tw).
  assert (H0 : conn_ok c0) by (apply fresh_ok; auto; by_decide).
  destruct (seg_packet_arrives c0 TCP_SYN iss0 [] H0 ltac:(by_decide) Hi seg_data_nil)
    as (h & seg & Hparse & Hsrc & Hdst & Har & (Hf1 & Hf2 & Hf3 & Hf4 & Hf5 & Hf6) & Hok).
  assert (Hkey : segment_key h seg = flip key) by (by apply segment_key_flip).
  destruct (passive_open_eq t h _ seg [] w Har) as (iss1 & tw1 & now1 & t1 & w1 & E & H1 & H2 & H3 & H4).
  - rewrite Hsrc. apply Hk.
  - rewrite Hdst. apply Hk.
  - by rewrite Hkey.
  - done.
  - rewrite Hdst, Hf2. done.
  - rewrite Hkey, Hf3 in *. exists iss1, tw1, now1, (th_window seg), t1, w1.
    unfold deliver. rewrite Hparse. split_and!; try done. apply Hok.
Qed.

(** The client's side of the SYN,ACK. *)
Lemma deliver_syn_ack t key ic ise wnd tw tw1 now w :
  key_ok key → is_u32 ic → is_u32 ise → is_u16 wnd →
  t.(connections) !! key = Some (queued (fresh_conn SynSent key ic 65535 0 0 tw) TCP_SYN [] now) →
  let s0 := fresh_conn SynRcvd (flip key) ise wnd ic (wadd32 ic 1) tw1 in
  ∃ t' c wnd', deliver t (seg_packet s0 (Z.lor TCP_SYN TCP_ACK) ise []) w =
      Some (t', emit (seg_packet c TCP_ACK (wadd32 ic 1) []) w) ∧
    t'.(connections) !! key = Some c ∧ idle key (wadd32 ic 1) (wadd32 ise 1) wnd' c.
Proof.
  intros Hk Hic His Hwnd Hc1 s0.
  assert (Hs0 : conn_ok s0) by (apply fresh_ok; auto using key_ok_flip with minitcp).
  destruct (seg_packet_arrives s0 (Z.lor TCP_SYN TCP_ACK) ise [] Hs0 ltac:(by_decide) His seg_data_nil)
    as (h & seg & Hparse & Hsrc & Hdst & Har & (Hf1 & Hf2 & Hf3 & Hf4 & Hf5 & Hf6) & Hok).
  assert (Hkey : segment_key h seg = key)
    by (rewrite <- (flip_flip key); by apply segment_key_flip).
  destruct (syn_ack_establishes (accept_queues t) key ic tw now seg w Hk Hic Hok Hf5 Hf4) as (c & Ec & Hc).
  rewrite Hf3 in Hc. eexists _, c, _. split_and!; [| |exact Hc].
  - unfold deliver. rewrite Hparse. rewrite <- Hkey in Ec, Hc1. eapply handle_segment_conn; eauto.
  - rewrite Hkey. apply cleanup_keeps; [apply lookup_insert_eq|]. by rewrite (id_state _ _ _ _ _ Hc).
Qed.

(** The server's side of the final ACK. *)
Lemma deliver_ack t key ic ise wnd wnd' tw1 now1 c w :
  key_ok key → is_u32 ic → is_u32 ise → is_u16 wnd → idle key (wadd32 ic 1) (wadd32 ise 1) wnd' c →
  t.(connections) !! flip key =
    Some (queued (fresh_conn SynRcvd (flip key) ise wnd ic (wadd32 ic 1) tw1) (Z.lor TCP_SYN TCP_ACK) [] now1) →
  ∃ t' s wnd'', deliver t (seg_packet c TCP_ACK (wadd32 ic 1) []) w = Some (t', w) ∧
    t'.(connections) !! flip key = Some s ∧ idle (flip key) (wadd32 ise 1) (wadd32 ic 1) wnd'' s ∧
    t'.(accept_queues) =
      enqueue_accept (key.(k_remote_addr), key.(k_remote_port)) (flip key) t.(accept_queues).
Proof.
  intros Hk Hic His Hwnd Hc Hs1. pose proof (id_key _ _ _ _ _ Hc) as Hck.
  destruct (seg_packet_arrives c TCP_ACK (wadd32 ic 1) [] (id_ok _ _ _ _ _ Hc) ltac:(by_decide)
    (wadd32_u32 _ _) seg_data_nil) as (h & seg & Hparse & Hsrc & Hdst & Har & (Hg1 & Hg2 & Hg3 & Hg4 & Hg5 & _) & Hok).
  assert (Hkey : segment_key h seg = flip key) by (rewrite <- Hck; by apply segment_key_flip).
  cbn in Hg4. rewrite (id_rcv _ _ _ _ _ Hc) in Hg4. change (has_flag TCP_ACK TCP_ACK) with true in Hg4.
  destruct (ack_establishes (accept_queues t) (flip key) ise wnd ic (wadd32 ic 1) tw1 now1 seg w
    (key_ok_flip key Hk) His Hwnd (wadd32_u32 _ _) Hok Hg5 Hg4) as (s & Es & Hs).
  eexists _, s, _. split_and!; [| |exact Hs|].
  - unfold deliver. rewrite Hparse. rewrite <- Hkey in Es, Hs1. eapply handle_segment_conn; eauto.
  - rewrite Hkey. apply cleanup_keeps; [apply lookup_insert_eq|]. by rewrite (id_state _ _ _ _ _ Hs).
  - rewrite Hkey. reflexivity.
Qed.

(** C5: the three-way handshake.  A client connects to an address a server
    listens on, and the packets each side sends are delivered to the other.
    Then both ends are established with mirrored sequence numbers, nothing
    in flight and nothing buffered, and the server's accept queue got the
    connection.  This holds for every pair of initial sequence numbers,
    close to the end of the sequence space too. *)
Theorem handshake_completes (tc ts : TcpTable) (wc ws : World) (ca sa : u32) (port : u16) :
  let key := mkConnectionKey ca tc.(next_ephemeral_port) sa port in
  table_ok tc → is_u32 ca → is_u32 sa → is_u16 port →
  (sa, port) ∈ ts.(listeners) → ts.(connections) !! flip key = None →
  ∃ tc1 wc1 syn ts1 ws1 synack tc2 wc2 ack ts2 ws2 c s iss_c iss_s,
    connect tc ca sa port wc = Some ((key, tc1), wc1) ∧ wc1.(w_sent) = wc.(w_sent) ++ [syn] ∧
    deliver ts syn ws = Some (ts1, ws1) ∧ ws1.(w_sent) = ws.(w_sent) ++ [synack] ∧
    deliver tc1 synack wc1 = Some (tc2, wc2) ∧ wc2.(w_sent) = wc1.(w_sent) ++ [ack] ∧
    deliver ts1 ack ws1 = Some (ts2, ws2) ∧ ws2.(w_sent) = ws1.(w_sent) ∧
    tc2.(connections) !! key = Some c ∧ ts2.(connections) !! flip key = Some s ∧
    (∃ wnd, idle key iss_c iss_s wnd c) ∧ (∃ wnd, idle (flip key) iss_s iss_c wnd s) ∧
    ts2.(accept_queues) !! (sa, port) = Some (default [] (ts.(accept_queues) !! (sa, port)) ++ [flip key]).
Proof.
  intros key Ht Hca Hsa Hport Hl Hfree.
  assert (Hk : key_ok key) by (pose proof (to_port tc Ht); by split_and!).
  destruct (connect_eq tc ca sa port wc Ht Hca Hsa Hport) as (ic & tw & now & tc1 & wc1 & E1 & Hic & Hc1 & Hw1).
  destruct (deliver_syn ts key ic tw ws Hk Hic Hfree Hl)
    as (ise & tw1 & now1 & wnd & ts1 & ws1 & E2 & His & Hwnd & Hs1 & Hq1 & Hw2).
  destruct (deliver_syn_ack tc1 key ic ise wnd tw tw1 now wc1 Hk Hic His Hwnd Hc1)
    as (tc2 & c & wnd1 & E3 & Hc2 & Hc).
  destruct (deliver_ack ts1 key ic ise wnd wnd1 tw1 now1 c ws1 Hk Hic His Hwnd Hc Hs1)
    as (ts2 & s & wnd2 & E4 & Hs2 & Hs & Hq2).
  eexists tc1, wc1, _, ts1, ws1, _, tc2, _, _, ts2, ws1, c, s, (wadd32 ic 1), (wadd32 ise 1).
  split_and!; [exact E1|exact Hw1|exact E2|exact Hw2|exact E3|reflexivity|exact E4|reflexivity|exact Hc2|
    exact Hs2|by exists wnd1|by exists wnd2|].
  rewrite Hq2, Hq1. apply lookup_insert_eq.
Qed.

(** ** Transfer *)

(** A receiver with nothing of its own to send. *)
Record rx_ready (key : ConnectionKey) (r : TcpConnection) : Prop := {
  rr_ok : conn_ok r;
  rr_key : conn_key r = key;
  rr_state : r.(state) = Established;
  rr_pending : r.(send_pending) = [];
  rr_close : r.(pending_close) = false;
}.

Lemma process_ack_rx c seg :
  let c' := process_ack c seg in
  c'.(rcv_nxt) = c.(rcv_nxt) ∧ c'.(recv_buffer) = c.(recv_buffer) ∧ c'.(ooo_buffer) = c.(ooo_buffer) ∧
  c'.(recv_buffer_cap) = c.(recv_buffer_cap) ∧ c'.(send_pending) = c.(send_pending).
Proof.
  cbv zeta. rewrite process_ack_eq. destruct (negb (has_flag _ _)); [done|].
  by destruct (_ <? _), (th_window seg =? 0).
Qed.

(** A data segment at an established receiver. *)
Lemma established_data q key r seg payload w :
  rx_ready key r → tcp_header_ok seg → bytes_ok payload →
  has_flag seg.(th_flags) TCP_RST = false → has_flag seg.(th_flags) TCP_FIN = false →
  let r' := (receive_step (process_ack r seg) seg payload).1.1 in
  process_conn q key r seg payload w =
    Some ((r', q), acked_world (receive_step (process_ack r seg) seg payload).1.2 r' w) ∧
  rx_ready key r' ∧ r'.(snd_nxt) = r.(snd_nxt).
Proof.
  intros [Hok Hk Hst Hp Hc] Hs Hb Hrst Hfin r'.
  pose proof (process_ack_ok r seg Hok Hs) as Hok1.
  pose proof (receive_step_ok _ seg payload Hok1 Hb) as Hok2. fold r' in Hok2.
  pose proof (receive_step_frame (process_ack r seg) seg payload) as Hfr. fold r' in Hfr.
  destruct (process_ack_frame r seg) as (Hst1 & Hn1 & _ & Hc1 & _ & Hk1).
  destruct (process_ack_rx r seg) as (_ & _ & _ & _ & Hp1).
  assert (Hr : rx_ready key r').
  { assert (Hk2 : conn_key r' = conn_key (process_ack r seg)) by (by rewrite Hfr).
    split; [done|congruence|rewrite Hfr; cbn; congruence..]. }
  split; [|split; [exact Hr|rewrite Hfr; exact Hn1]]. unfold process_conn. rewrite Hrst, Hst. cbn [andb].
  erewrite bind_Some; [reflexivity|]. unfold process_established.
  erewrite bind_Some by (apply receive_data_eq; [apply Hok1|apply Hok2]).
  rewrite receive_step_fin. unfold fin_in_order. rewrite Hfin. cbn [andb]. fold r'. apply flush_send_nothing; apply Hr.
Qed.

Fixpoint deliver_all (t : TcpTable) (packets : list bytes) : M TcpTable :=
  match packets with
  | [] => mret t
  | p :: packets => t ← deliver t p; deliver_all t packets
  end.

(** The queued segment is one of the pieces, at its place. *)
Definition seg_piece (cs : list bytes) (base : u32) (s : UnackedSegment) : Prop :=
  s.(us_flags) = data_flags ∧ is_u32 s.(us_seq) ∧ seg_data_ok s.(us_data) ∧
  ∃ pre post, cs = pre ++ s.(us_data) :: post ∧ s.(us_seq) = base + len (concat pre).

Lemma pieces_inv_rx cs base arr c c' :
  pieces_inv cs base arr c → c'.(rcv_nxt) = c.(rcv_nxt) → c'.(recv_buffer) = c.(recv_buffer) →
  c'.(ooo_buffer) = c.(ooo_buffer) → pieces_inv cs base arr c'.
Proof. intros [H1 H2 H3] E1 E2 E3. split; by rewrite ?E1, ?E2, ?E3. Qed.

Lemma cleanup_one t key (c : TcpConnection) :
  t.(connections) = {[key := c]} → c.(state) ≠ Closed →
  (cleanup_closed_connections t).(connections) = {[key := c]}.
Proof. intros E Hs. cbn. rewrite E. by rewrite map_filter_singleton_True. Qed.

Lemma put_one t key (c c' : TcpConnection) :
  t.(connections) = {[key := c]} → (put_conn key c' t).(connections) = {[key := c']}.
Proof. intros E. cbn. rewrite E. apply insert_singleton_eq. Qed.

Section Transfer.
Context (cs : list bytes) (base : u32) (c : TcpConnection).
Hypothesis Hne : Forall (λ p, p ≠ []) cs.
Hypothesis Hbase : 0 ≤ base.
Hypothesis Hfits : base + len (concat cs) < 2 ^ 32.
Hypothesis Hc : conn_ok c.

(** One packet of the sender at the receiver. *)
Lemma deliver_piece t r seen s w :
  t.(connections) !! flip (conn_key c) = Some r → rx_ready (flip (conn_key c)) r →
  pieces_inv cs base seen r → r.(ooo_buffer) !! r.(rcv_nxt) = None → seg_piece cs base s →
  s.(us_seq) ≤ r.(rcv_nxt) ∨ buffered_bytes r + len s.(us_data) ≤ r.(recv_buffer_cap) →
  ∃ t' r' sp w', deliver t (queued_packet c s) w = Some (t', w') ∧
    t' = cleanup_closed_connections (put_conn (flip (conn_key c)) r' t) ∧
    w' = emit (seg_packet r' TCP_ACK r'.(snd_nxt) []) w ∧ r'.(snd_nxt) = r.(snd_nxt) ∧
    r.(recv_buffer) `prefix_of` r'.(recv_buffer) ∧
    t'.(connections) !! flip (conn_key c) = Some r' ∧ rx_ready (flip (conn_key c)) r' ∧
    pieces_inv cs base (sp :: seen) r' ∧ r'.(ooo_buffer) !! r'.(rcv_nxt) = None ∧
    sp.1.(th_seq_num) = s.(us_seq) ∧ r'.(recv_buffer_cap) = r.(recv_buffer_cap) ∧
    buffered_bytes r' ≤ buffered_bytes r + len s.(us_data).
Proof.
  intros Hl Hr Hi Hx (Hf & Hseq & Hd & pre & post & Ecs & Hpos) Hroom.
  destruct (seg_packet_arrives c (us_flags s) (us_seq s) (us_data s) Hc ltac:(by rewrite Hf) Hseq Hd)
    as (h & seg & Hparse & Hsrc & Hdst & Har & (G1 & G2 & G3 & _ & G5 & _) & Hok).
  cbn in G3, G5. rewrite Hf in G5.
  assert (Hkey : segment_key h seg = flip (conn_key c)) by (by apply segment_key_flip).
  destruct (established_data (accept_queues t) _ r seg (us_data s) w Hr Hok (proj1 Hd) ltac:(by rewrite G5) ltac:(by rewrite G5))
    as (E & Hr' & Hn').
  destruct (process_ack_rx r seg) as (R1 & R2 & R3 & R4 & _).
  destruct (receive_step_pieces cs base Hne Hbase Hfits seen (process_ack r seg) (seg, us_data s)) as [Hi' Hx'].
  { by eapply pieces_inv_rx. }
  { by rewrite R1, R3. }
  { split; [cbn; by rewrite G5|]. exists pre, post. cbn. split; [done|lia]. }
  { unfold buffered_bytes in *. rewrite R1, R2, R3, R4. cbn [fst snd]. by rewrite G3. }
  cbn [fst snd] in Hi', Hx'.
  assert (Hnil : us_data s ≠ []).
  { rewrite Ecs in Hne. by apply Forall_app in Hne as [_ [? _]%Forall_cons_iff]. }
  rewrite receive_step_acks in E by done. cbn [acked_world] in E.
  assert (Hcap : recv_buffer_cap (receive_step (process_ack r seg) seg (us_data s)).1.1 = recv_buffer_cap r)
    by (rewrite receive_step_frame; done).
  pose proof (receive_step_bytes (process_ack r seg) seg (us_data s)) as Hby.
  assert (Hbr : buffered_bytes (process_ack r seg) = buffered_bytes r)
    by (unfold buffered_bytes; by rewrite R2, R3).
  pose proof (len_nonneg (us_data s)).
  eexists _, _, (seg, us_data s), _.
  split_and!; [|reflexivity|reflexivity|exact Hn'|rewrite <- R2; apply receive_step_grows| |
    exact Hr'|exact Hi'|exact Hx'|exact G3|exact Hcap|lia].
  - unfold deliver, queued_packet. rewrite Hparse. rewrite <- Hkey in E, Hl |- *. by eapply handle_segment_conn.
  - apply cleanup_keeps; [apply lookup_insert_eq|]. by rewrite (rr_state _ _ Hr').
Qed.

Lemma deliver_pieces todo t r seen w :
  t.(connections) !! flip (conn_key c) = Some r → rx_ready (flip (conn_key c)) r →
  pieces_inv cs base seen r → r.(ooo_buffer) !! r.(rcv_nxt) = None → Forall (seg_piece cs base) todo →
  buffered_bytes r + foldr (λ s n, len s.(us_data) + n) 0 todo ≤ r.(recv_buffer_cap) →
  ∃ t' r' seen' w', deliver_all t (queued_packet c <$> todo) w = Some (t', w') ∧
    t'.(connections) !! flip (conn_key c) = Some r' ∧ rx_ready (flip (conn_key c)) r' ∧
    pieces_inv cs base seen' r' ∧ r'.(ooo_buffer) !! r'.(rcv_nxt) = None ∧
    (∀ sp, sp ∈ seen → sp ∈ seen') ∧
    (∀ s, s ∈ todo → ∃ sp, sp ∈ seen' ∧ sp.1.(th_seq_num) = s.(us_seq)) ∧
    r'.(snd_nxt) = r.(snd_nxt) ∧
    (t.(connections) = {[flip (conn_key c) := r]} → t'.(connections) = {[flip (conn_key c) := r']}).
Proof.
  revert t r seen w. induction todo as [|s todo IH]; intros t r seen w Hl Hr Hi Hx Hp Hroom.
  { exists t, r, seen, w. split_and!; auto. by intros s ?%elem_of_nil. }
  apply Forall_cons_iff in Hp as [Hs Hp]. cbn [foldr] in Hroom.
  assert (0 ≤ foldr (λ s n, len s.(us_data) + n) 0 todo).
  { clear. induction todo as [|s todo IH]; cbn [foldr]; [lia|]. pose proof (len_nonneg (us_data s)). lia. }
  destruct (deliver_piece t r seen s w Hl Hr Hi Hx Hs ltac:(lia))
    as (t1 & r1 & sp & w1 & E & Et1 & _ & Hn1 & _ & Hl1 & Hr1 & Hi1 & Hx1 & Hsp & Hcap & Hb1).
  destruct (IH t1 r1 (sp :: seen) w1 Hl1 Hr1 Hi1 Hx1 Hp ltac:(lia))
    as (t' & r' & seen' & w' & E' & ? & ? & ? & ? & Hsub & Hall & Hn' & Hone).
  exists t', r', seen', w'. cbn [fmap list_fmap deliver_all]. erewrite bind_Some by exact E.
  split_and!; auto.
  - intros sp' Hin. apply Hsub. by right.
  - intros s' [->|Hin]%elem_of_cons; [|by apply Hall]. exists sp. split; [|done]. apply Hsub. by left.
  - congruence.
  - intros Ht. apply Hone. rewrite Et1. apply cleanup_one; [by eapply put_one|]. by rewrite (rr_state _ _ Hr1).
Qed.
End Transfer.

(** Where the segments of a run of data are. *)
Lemma chain_position base pre s post stop :
  chain base (pre ++ s :: post) stop → Forall (λ s, s.(us_flags) = data_flags) (pre ++ s :: post) →
  0 ≤ base → base + len (concat (us_data <$> pre ++ s :: post)) < 2 ^ 32 →
  s.(us_seq) = base + len (concat (us_data <$> pre)).
Proof.
  revert base. induction pre as [|p pre IH]; intros base Hch Hf Hb Hfit; cbn [app] in *.
  { destruct Hch as [-> _]. unfold len. cbn. lia. }
  destruct Hch as [Hp Hch]. apply Forall_cons_iff in Hf as [Hfp Hf]. cbn in Hfit |- *.
  rewrite len_app in Hfit |- *. pose proof (len_nonneg (us_data p)).
  pose proof (len_nonneg (concat (us_data <$> pre ++ s :: post))) as Hn.
  assert (He : unacked_end p = base + len (us_data p)).
  { rewrite unacked_end_space, Hp. unfold seg_space. rewrite Hfp.
    change (has_flag data_flags TCP_SYN) with false. change (has_flag data_flags TCP_FIN) with false.
    cbn [Z.b2z]. rewrite !Z.add_0_r. apply wadd32_small. lia. }
  rewrite He in Hch. rewrite (IH _ Hch Hf) by lia. lia.
Qed.

Lemma chain_seg_pieces base segs stop :
  is_u32 base → chain base segs stop → base + len (concat (us_data <$> segs)) < 2 ^ 32 →
  Forall (λ s, s.(us_flags) = data_flags ∧ seg_data_ok s.(us_data)) segs →
  Forall (seg_piece (us_data <$> segs) base) segs.
Proof.
  intros Hb Hch Hfit Hs. pose proof (chain_seqs _ _ _ Hb Hch) as Hseq.
  apply Forall_forall. intros s Hin. apply list_elem_of_In, list_elem_of_split in Hin as (pre & post & ->).
  apply Forall_app in Hs as Hs'. destruct Hs' as [_ [[Hf Hd] _]%Forall_cons_iff].
  apply Forall_app in Hseq as [_ [? _]%Forall_cons_iff].
  split_and!; [done..|]. exists (us_data <$> pre), (us_data <$> post).
  split; [by rewrite fmap_app|]. eapply chain_position; [exact Hch| |apply Hb|exact Hfit].
  eapply Forall_impl; [|exact Hs]. by intros ? [? _].
Qed.

Lemma elem_fmap_cover {A B} (f : A → B) (l : list A) (arr : list B) :
  (∀ p, p ∈ arr → p ∈ f <$> l) → ∃ l', arr = f <$> l' ∧ Forall (λ s, s ∈ l) l'.
Proof.
  induction arr as [|p arr IH]; intros H; [by exists []|].
  destruct IH as (l' & -> & Hl'); [intros q Hq; apply H; by right|].
  destruct (proj1 (list_elem_of_fmap f l p)) as (s & -> & Hs); [apply H; by left|].
  exists (s :: l'). split; [done|]. by constructor.
Qed.

(** TCP payload bytes of a list of packets. *)
Definition payload_bytes (arr : list bytes) : Z := foldr (λ p n, len p - 40 + n) 0 arr.

Lemma len_seg_packet c flags seq data : len (seg_packet c flags seq data) = 40 + len data.
Proof.
  unfold seg_packet, tcp_packet, ip_packet. rewrite len_app, len_tcp_segment_bytes.
  change (len (ip_header_bytes _ _)) with 20. lia.
Qed.

Lemma payload_bytes_segs c l :
  payload_bytes (queued_packet c <$> l) = foldr (λ s n, len s.(us_data) + n) 0 l.
Proof.
  induction l as [|s l IH]; [done|]. rewrite fmap_cons. cbn [payload_bytes foldr].
  fold (payload_bytes (queued_packet c <$> l)). rewrite IH. unfold queued_packet at 1.
  rewrite len_seg_packet. lia.
Qed.

(** Packets that are equal carry the same sequence number. *)
Lemma queued_packet_seq cs base c s s' :
  conn_ok c → seg_piece cs base s → seg_piece cs base s' →
  queued_packet c s = queued_packet c s' → s.(us_seq) = s'.(us_seq).
Proof.
  intros Hc (Hf & Hs & Hd & _) (Hf' & Hs' & Hd' & _) E. unfold queued_packet in E. rewrite Hf, Hf' in E.
  destruct (seg_packet_arrives c data_flags (us_seq s) (us_data s)) as (h & g & P & _ & _ & A & (_ & _ & G & _) & _);
    [done|by_decide|done|done|].
  destruct (seg_packet_arrives c data_flags (us_seq s') (us_data s')) as (h' & g' & P' & _ & _ & A' & (_ & _ & G' & _) & _);
    [done|by_decide|done|done|].
  pose proof (ar_parse _ _ _ _ A) as B. pose proof (ar_parse _ _ _ _ A') as B'.
  rewrite E in B. cbn in G, G'. congruence.
Qed.

Lemma queued_pieces_seq cs base c l l' s s' :
  conn_ok c → Forall (seg_piece cs base) l → Forall (seg_piece cs base) l' → s ∈ l → s' ∈ l' →
  queued_packet c s = queued_packet c s' → s.(us_seq) = s'.(us_seq).
Proof.
  intros Hc Hl Hl' Hs%list_elem_of_In Hs'%list_elem_of_In. apply (queued_packet_seq cs base); [done|..].
  - by eapply Forall_forall in Hl.
  - by eapply Forall_forall in Hl'.
Qed.

(** Each segment is where its sequence number says. *)
Definition at_places (segs : list UnackedSegment) (base : u32) : Prop :=
  ∀ pre s post, segs = pre ++ s :: post → s.(us_seq) = base + len (concat (us_data <$> pre)).

Lemma seg_at segs base pre p post :
  at_places segs base → us_data <$> segs = pre ++ p :: post →
  ∃ s, s ∈ segs ∧ s.(us_seq) = base + len (concat pre).
Proof.
  intros Hp E. apply fmap_app_inv in E as (s1 & s2 & -> & E2 & ->).
  symmetry in E2. apply fmap_cons_inv in E2 as (s & s3 & -> & -> & ->).
  exists s. split; [apply elem_of_app; right; by left|]. by eapply Hp.
Qed.

(** The segments [flush_send] makes can be sent. *)
Lemma sent_segs_data segs :
  Forall (λ s, fresh_segment data_flags s ∧ 0 < len s.(us_data) ≤ MSS) segs → bytes_ok (concat (us_data <$> segs)) →
  Forall (λ s, s.(us_flags) = data_flags ∧ seg_data_ok s.(us_data)) segs.
Proof.
  induction segs as [|s segs IH]; intros Hf Hb; [done|].
  apply Forall_cons_iff in Hf as [[[? _] ?] Hf]. cbn in Hb. apply bytes_ok_app in Hb as [? ?].
  constructor; [|auto]. split; [done|]. split; [done|]. unfold MSS in *. lia.
Qed.

(** Sending on an idle connection. *)
Lemma send_idle t key c snd rcv wnd data w :
  t.(connections) !! key = Some c → idle key snd rcv wnd c → bytes_ok data → snd + len data < 2 ^ 32 →
  let accepted := Z.min (len data) DEFAULT_SEND_BUFFER_CAP in
  let sent := take (Z.to_nat (Z.min accepted wnd)) data in
  ∃ t' w' c1 segs, send t key data w = Some ((accepted, t'), w') ∧
    w'.(w_sent) = w.(w_sent) ++ (queued_packet c1 <$> segs) ∧ w'.(w_clock) = w.(w_clock) ∧
    conn_ok c1 ∧ conn_key c1 = key ∧ concat (us_data <$> segs) = sent ∧ Forall (λ p, p ≠ []) (us_data <$> segs) ∧
    Forall (seg_piece (us_data <$> segs) snd) segs ∧ at_places segs snd ∧
    Forall (fresh_segment data_flags) segs ∧ c1 = set_send_pending (take (Z.to_nat accepted) data) c ∧
    ∃ nxt, t' = put_conn key (flushed c1 (clock_now w) segs [] nxt) t ∧ conn_ok (flushed c1 (clock_now w) segs [] nxt).
Proof.
  intros Hk Hi Hb Hfit accepted sent. pose proof (len_nonneg data) as Hdl.
  assert (Hv : DEFAULT_SEND_BUFFER_CAP = 1048576) by reflexivity.
  set (c1 := set_send_pending (take (Z.to_nat accepted) data) c).
  assert (Hok1 : conn_ok c1).
  { destruct (id_ok _ _ _ _ _ Hi). split; cbn; auto with minitcp. }
  destruct (flush_send_spec c1 w (conn_ok_ready c1 Hok1)) as
    (w' & segs & fins & nxt & E & Hd & Hf & Hfin & Hch & _ & Hw & Hx).
  { change (state c1) with (state c). by rewrite (id_state _ _ _ _ _ Hi). }
  assert (Hdue : fin_due c1 = false) by (unfold fin_due; change (pending_close c1) with (pending_close c);
    by rewrite (id_close _ _ _ _ _ Hi)).
  rewrite Hdue in Hfin. subst fins. rewrite app_nil_r in *.
  assert (Hacc : len (send_pending c1) = accepted)
    by (apply len_take_Z; unfold accepted; lia).
  assert (Hsent : concat (us_data <$> segs) = sent).
  { rewrite Hd. unfold sendable. rewrite Hacc. change (send_pending c1) with (take (Z.to_nat accepted) data).
    change (snd_nxt c1) with (snd_nxt c). change (snd_una c1) with (snd_una c). change (snd_wnd c1) with (snd_wnd c).
    rewrite (id_nxt _ _ _ _ _ Hi), (id_una _ _ _ _ _ Hi), (id_wnd _ _ _ _ _ Hi).
    pose proof (co_wnd c (id_ok _ _ _ _ _ Hi)) as Hwn. rewrite (id_wnd _ _ _ _ _ Hi) in Hwn.
    rewrite wsub32_small by lia. rewrite take_take. unfold sent. f_equal. unfold uN, accepted in *. lia. }
  assert (Hfit' : snd + len (concat (us_data <$> segs)) < 2 ^ 32)
    by (rewrite Hsent; unfold sent, len in *; rewrite length_take; lia).
  assert (Hsd : Forall (λ s, s.(us_flags) = data_flags ∧ seg_data_ok s.(us_data)) segs)
    by (apply sent_segs_data; [done|]; rewrite Hsent; unfold sent; auto with minitcp).
  assert (Hn1 : snd_nxt c1 = snd) by apply (id_nxt _ _ _ _ _ Hi). rewrite Hn1 in Hch.
  exists (put_conn key (flushed c1 (clock_now w) segs [] nxt) t), w', c1, segs. split_and!.
  - unfold send. rewrite Hk. rewrite (id_pending _ _ _ _ _ Hi), (id_scap _ _ _ _ _ Hi).
    change (len []) with 0. rewrite Z.sub_0_r, Z.max_r by lia.
    cbn [app]. fold accepted. fold c1. by erewrite bind_Some by exact E.
  - exact Hw.
  - apply (ext_clock _ _ Hx).
  - done.
  - exact (id_key _ _ _ _ _ Hi).
  - done.
  - apply Forall_fmap. eapply Forall_impl; [|exact Hf]. intros s [_ Hl]. cbn.
    intros E0. rewrite E0 in Hl. unfold len in Hl. cbn in Hl. lia.
  - apply (chain_seg_pieces _ _ nxt); auto. rewrite <- Hn1. apply Hok1.
  - intros pre s post ->. eapply chain_position; [exact Hch| |rewrite <- Hn1; apply Hok1|exact Hfit'].
    eapply Forall_impl; [|exact Hsd]. by intros ? [? _].
  - eapply Forall_impl; [|exact Hf]. by intros ? [? _].
  - done.
  - exists nxt. split; [done|]. destruct (flush_send_ok c1 w Hok1) as (c2 & w2 & E2 & Hok2 & _).
    rewrite E in E2. by injection E2 as <- _.
Qed.

(** The packets of a [send] at the receiver. *)
Lemma transfer_packets (ts tr : TcpTable) (key : ConnectionKey) (c r : TcpConnection)
    (snd rcv : u32) (wnd wnd' : u16) (data : bytes) (ws : World) :
  ts.(connections) !! key = Some c → idle key snd rcv wnd c →
  tr.(connections) !! flip key = Some r → idle (flip key) rcv snd wnd' r →
  bytes_ok data → snd + len data < 2 ^ 32 →
  let accepted := Z.min (len data) DEFAULT_SEND_BUFFER_CAP in
  let sent := take (Z.to_nat (Z.min accepted wnd)) data in
  ∃ ts' ws' packets,
    send ts key data ws = Some ((accepted, ts'), ws') ∧ ws'.(w_sent) = ws.(w_sent) ++ packets ∧
    ∀ arr wr, (∀ p, p ∈ arr → p ∈ packets) → (∀ p, p ∈ packets → p ∈ arr) →
      payload_bytes arr ≤ DEFAULT_RECV_BUFFER_CAP →
      ∃ tr' wr', deliver_all tr arr wr = Some (tr', wr') ∧
        (recv tr' (flip key) (length sent)).1 = sent.
Proof.
  intros Hc Hi Hr Hj Hb Hfit accepted sent.
  destruct (send_idle ts key c snd rcv wnd data ws Hc Hi Hb Hfit)
    as (ts' & ws' & c1 & segs & E & Hw & _ & Hok1 & Hk1 & Hcat & Hne & Hpieces & Hplaces & _).
  exists ts', ws', (queued_packet c1 <$> segs). split; [exact E|]. split; [exact Hw|].
  intros arr wr Hsub Hsup Hroom. destruct (elem_fmap_cover _ _ _ Hsub) as (l & -> & Hl).
  rewrite payload_bytes_segs in Hroom. fold accepted in Hcat. fold sent in Hcat.
  assert (Hlp : Forall (seg_piece (us_data <$> segs) snd) l).
  { eapply Forall_impl; [|exact Hl]. intros s Hs. cbn in Hs. by eapply Forall_forall in Hpieces; [|apply list_elem_of_In]. }
  assert (Hsnd : is_u32 snd) by (rewrite <- (id_nxt _ _ _ _ _ Hi); apply (id_ok _ _ _ _ _ Hi)).
  assert (Hsl : len sent ≤ len data) by (unfold sent, len; rewrite length_take; lia).
  destruct (deliver_pieces (us_data <$> segs) snd c1 Hne (proj1 Hsnd) ltac:(rewrite Hcat; lia) Hok1 l tr r [] wr)
    as (tr' & r' & seen & wr' & Ed & Hr' & _ & Hinv & Hx & _ & Hall & _); try (by rewrite Hk1); auto.
  { rewrite Hk1. split; apply Hj. }
  { split; [exists [], (us_data <$> segs)| |by intros ? ?%elem_of_nil].
    - split; [done|]. split; [apply Hj|]. rewrite (id_rcv _ _ _ _ _ Hj). unfold len. cbn. lia.
    - intros k v. rewrite (id_ooo _ _ _ _ _ Hj). by rewrite lookup_empty. }
  { rewrite (id_ooo _ _ _ _ _ Hj). apply lookup_empty. }
  { unfold buffered_bytes. rewrite (id_recv _ _ _ _ _ Hj), (id_ooo _ _ _ _ _ Hj), (id_cap _ _ _ _ _ Hj). exact Hroom. }
  exists tr', wr'. split; [exact Ed|]. rewrite Hk1 in Hr'.
  assert (Hbuf : recv_buffer r' = sent).
  { rewrite <- Hcat. eapply pieces_all_delivered; eauto. intros pre p post Ep.
    destruct (seg_at _ _ _ _ _ Hplaces Ep) as (s & Hs & Hseq).
    destruct (proj1 (list_elem_of_fmap _ _ _) (Hsup (queued_packet c1 s) ltac:(by apply list_elem_of_fmap_2)))
      as (s' & Es & Hs'). destruct (Hall s' Hs') as (sp & Hin & Hsp). exists sp. split; [done|].
    rewrite Hsp, <- Hseq. symmetry. by apply (queued_pieces_seq (us_data <$> segs) snd c1 segs l). }
  unfold recv. rewrite Hr'. unfold conn_recv. rewrite Hbuf, Nat.min_id.
  destruct (Nat.ltb_spec 0 (length sent)); cbn; [by rewrite firstn_all|]. by destruct sent; [|cbn in *; lia].
Qed.

(** C4: reliable transfer between two established ends.  The sender takes
    what its buffer holds, and puts on the wire, in packets, what of it the
    peer's window has room for.  When these packets reach the receiver in
    any order, each at least once and some possibly many times, the receiver
    has exactly the bytes sent, in order, and [recv] hands them out. *)
Theorem transfer_any_order (ts tr : TcpTable) (key : ConnectionKey) (c r : TcpConnection)
    (snd rcv : u32) (wnd wnd' : u16) (data : bytes) (ws : World) :
  ts.(connections) !! key = Some c → idle key snd rcv wnd c →
  tr.(connections) !! flip key = Some r → idle (flip key) rcv snd wnd' r →
  bytes_ok data → snd + len data < 2 ^ 32 →
  let accepted := Z.min (len data) DEFAULT_SEND_BUFFER_CAP in
  let sent := take (Z.to_nat (Z.min accepted wnd)) data in
  ∃ ts' ws' packets,
    send ts key data ws = Some ((accepted, ts'), ws') ∧ ws'.(w_sent) = ws.(w_sent) ++ packets ∧
    ∀ arr wr, (∀ p, p ∈ arr → p ∈ packets) → (∀ p, p ∈ packets → p ∈ arr) →
      payload_bytes arr ≤ DEFAULT_RECV_BUFFER_CAP →
      ∃ tr' wr', deliver_all tr arr wr = Some (tr', wr') ∧
        (recv tr' (flip key) (length sent)).1 = sent.
Proof. apply transfer_packets. Qed.

(** ** Witnesses *)

Definition wkey : ConnectionKey := mkConnectionKey 0x0A0A0001 49152 0x0A0A0002 80.

Lemma fresh_idle key snd rcv wnd :
  key_ok key → is_u32 snd → is_u16 wnd → is_u32 rcv →
  idle key snd rcv wnd (fresh_conn Established key snd wnd 0 rcv 0).
Proof. intros. split; try done; [by apply fresh_ok|by destruct key]. Qed.

Theorem handshake_completes_witness :
  ∃ tc2 ts2, is_established tc2 wkey = true ∧ is_established ts2 (flip wkey) = true ∧
    (accept ts2 0x0A0A0002 80).1 = Some (flip wkey).
Proof.
  destruct (handshake_completes new (listen new 0x0A0A0002 80 false).2 demo_world demo_world
    0x0A0A0001 0x0A0A0002 80) as
    (tc1 & wc1 & syn & ts1 & ws1 & synack & tc2 & wc2 & ack & ts2 & ws2 & c & s & ic & ise & _ & _ & _ & _ & _ & _ &
     _ & _ & Hc & Hs & [? Hic] & [? His] & Hq).
  - apply table_ok_new.
  - by_decide.
  - by_decide.
  - by_decide.
  - by_decide.
  - reflexivity.
  - exists tc2, ts2. unfold is_established, accept.
    change (mkConnectionKey 0x0A0A0001 (next_ephemeral_port new) 0x0A0A0002 80) with wkey in *.
    rewrite Hc, Hs, Hq. split; [by rewrite (id_state _ _ _ _ _ Hic)|].
    split; [by rewrite (id_state _ _ _ _ _ His)|reflexivity].
Defined.

Theorem transfer_any_order_witness :
  ∃ ts' ws' packets tr' wr', send (put_conn wkey (fresh_conn Established wkey 1000 65535 0 2000 0) new) wkey
      [1; 2; 3] demo_world = Some ((3, ts'), ws') ∧ ws'.(w_sent) = packets ∧
    deliver_all (put_conn (flip wkey) (fresh_conn Established (flip wkey) 2000 65535 0 1000 0) new)
      (packets ++ packets) demo_world = Some (tr', wr') ∧
    (recv tr' (flip wkey) 3).1 = [1; 2; 3].
Proof.
  destruct (transfer_any_order
    (put_conn wkey (fresh_conn Established wkey 1000 65535 0 2000 0) new)
    (put_conn (flip wkey) (fresh_conn Established (flip wkey) 2000 65535 0 1000 0) new)
    wkey (fresh_conn Established wkey 1000 65535 0 2000 0)
    (fresh_conn Established (flip wkey) 2000 65535 0 1000 0) 1000 2000 65535 65535 [1; 2; 3] demo_world)
    as (ts' & ws' & packets & E & Hw & Hgo).
  - apply lookup_insert_eq.
  - apply fresh_idle; [|by_decide..]. split_and!; by_decide.
  - apply lookup_insert_eq.
  - apply fresh_idle; [|by_decide..]. split_and!; by_decide.
  - by_decide.
  - by_decide.
  - destruct (Hgo (packets ++ packets) demo_world) as (tr' & wr' & E' & Hr).
    + intros q Hq. by apply elem_of_app in Hq as [?|?].
    + intros q Hq. apply elem_of_app. by left.
    + clear Hgo. vm_compute in E. injection E as <- <-. cbn in Hw. subst packets. vm_compute. discriminate.
    + exists ts', ws', packets, tr', wr'. exact (conj E (conj Hw (conj E' Hr))).
Defined.
