(* ===== verification/TcpEmit.v ===== *)
(** * The packets of a connection

    Everything a connection writes is a well-formed packet that carries its
    own addresses and ports: an operation on one connection can never be
    taken for traffic of another one. *)

From S2P Require Import Prelude Effects Ip TcpSegment TcpConn TcpSend TcpReceive TcpTable TcpInv TcpState TcpSystem.

(** A packet that a connection with the key [key] wrote, whose header and
    data satisfy [Q]. *)
Definition sent_by (key : ConnectionKey) (Q : TcpHeader → bytes → Prop) (p : bytes) : Prop :=
  ∃ c flags seq data, p = seg_packet c flags seq data ∧ conn_ok c ∧ conn_key c = key ∧
    is_u8 flags ∧ is_u32 seq ∧ seg_data_ok data ∧ Q (segment_header c flags seq) data.

Abbreviation own key := (sent_by key (λ _ _, True)).

(** ** The senders *)

Lemma wp_send_segment c flags seq data :
  conn_ok c → is_u8 flags → seg_data_ok data →
  wp (send_segment c flags seq data) (λ _ ps, ps = [seg_packet c flags seq data]).
Proof. intros Hc Hf Hd. eapply wp_emit; [|done]. intros w. apply send_segment_eq; auto. apply Hc. Qed.

Lemma wp_send_ack_only c :
  conn_ok c → wp (send_ack_only c) (λ _ ps, ps = [seg_packet c TCP_ACK c.(snd_nxt) []]).
Proof.
  intros Hc. unfold send_ack_only. apply wp_send_segment; [done|by_decide|apply seg_data_nil].
Qed.

Lemma wp_queue_and_send c flags data :
  conn_ok c → is_u8 flags → seg_data_ok data →
  wp (queue_and_send c flags data)
    (λ c' ps, (∃ now, c' = queued c flags data now) ∧ ps = [seg_packet c flags c.(snd_nxt) data]).
Proof.
  intros Hc Hf Hd. eapply wp_bind; [by apply wp_send_segment|]. intros _ ps ->.
  eapply wp_bind; [apply (wp_now (λ _ ps, ps = [])); done|]. intros now ps ->. apply wp_ret.
  rewrite !app_nil_r. split; [by exists now|done].
Qed.

Lemma wp_receive c seg payload :
  conn_ok c → bytes_ok payload →
  wp (receive_data_and_maybe_fin c seg payload)
    (λ r ps, r = ((receive_step c seg payload).1.1, fin_in_order c seg) ∧
       ps = if (receive_step c seg payload).1.2 : bool
            then [seg_packet r.1 TCP_ACK r.1.(snd_nxt) []] else []).
Proof.
  intros Hc Hp. pose proof (receive_step_ok c seg payload Hc Hp) as Hc'.
  rewrite <- (receive_step_fin c seg payload). unfold receive_data_and_maybe_fin.
  destruct (receive_step c seg payload) as [[c' a] f]. cbn in *. destruct a.
  - eapply wp_bind; [by apply wp_send_ack_only|]. intros _ ps ->. by apply wp_ret.
  - by apply wp_ret.
Qed.

(** [flush_send], from its closed form. *)
Lemma wp_flush_send c :
  conn_ok c →
  wp (flush_send c) (λ c' ps, conn_ok c' ∧ conn_key c' = conn_key c ∧
    (can_send c.(state) = false ∧ c' = c ∧ ps = [] ∨
     can_send c.(state) = true ∧ ∃ now segs fins nxt, c' = flushed c now segs fins nxt ∧
       concat (us_data <$> segs) = take (Z.to_nat (sendable c)) c.(send_pending) ∧
       Forall (λ s, fresh_segment data_flags s ∧ seg_data_ok s.(us_data)) segs ∧
       (if fin_due c then ∃ f, fins = [f] ∧ fresh_segment fin_flags f ∧ f.(us_data) = [] else fins = []) ∧
       chain c.(snd_nxt) (segs ++ fins) nxt ∧ Forall (λ s, is_u32 s.(us_seq)) (segs ++ fins) ∧
       ps = queued_packet c <$> segs ++ fins)).
Proof.
  intros Hc w. destruct (flush_send_ok c w Hc) as (c' & w' & E & Hc' & _ & Hk & _ & _ & Hw).
  destruct (can_send (state c)) eqn:Es.
  - destruct (flush_send_spec c w (conn_ok_ready c Hc) Es)
      as (w2 & segs & fins & nxt & E2 & Hd & Hf & Hfin & Hch & Hn & Hs & _).
    rewrite E in E2. injection E2 as -> ->. eexists _, w2, _. split; [exact E|]. split; [exact Hs|].
    split; [done|]. split_and!; [done|done|]. right. split; [done|]. exists (clock_now w), segs, fins, nxt.
    split_and!; try done; [|exact (chain_seqs _ _ _ (co_nxt c Hc) Hch)].
    assert (Hb : bytes_ok (concat (us_data <$> segs))) by (rewrite Hd; destruct Hc; auto with minitcp).
    clear -Hf Hb. induction segs as [|s segs IH]; [done|].
    apply Forall_cons_iff in Hf as [[? ?] Hf]. cbn in Hb. apply bytes_ok_app in Hb as [? ?].
    constructor; [|auto]. split; [done|]. split; [done|]. unfold MSS in *. lia.
  - rewrite flush_send_idle in E by done. injection E as <- <-. exists c, w, [].
    rewrite app_nil_r, flush_send_idle by done. split_and!; auto.
Qed.

(** ** Everything a connection sends is its own *)

Lemma own_packet c flags seq data :
  conn_ok c → is_u8 flags → is_u32 seq → seg_data_ok data → own (conn_key c) (seg_packet c flags seq data).
Proof. intros. exists c, flags, seq, data. done. Qed.

Definition own_result (key : ConnectionKey) (c : TcpConnection) : Prop := conn_ok c ∧ conn_key c = key.

Lemma own_send_segment key c flags seq data :
  own_result key c → is_u8 flags → is_u32 seq → seg_data_ok data →
  sends (own key) (send_segment c flags seq data) (λ _, True).
Proof.
  intros [Hc <-] Hf Hs Hd. eapply wp_mono; [by apply wp_send_segment|]. intros _ ps ->. split; [done|].
  apply Forall_singleton. by apply own_packet.
Qed.

Lemma own_send_ack_only key c :
  own_result key c → sends (own key) (send_ack_only c) (λ _, True).
Proof.
  intros Hc. unfold send_ack_only. apply own_send_segment; [done|by_decide| |apply seg_data_nil].
  destruct Hc as [Hc _]. apply Hc.
Qed.

Lemma own_flush_send key c :
  own_result key c → sends (own key) (flush_send c) (own_result key).
Proof.
  intros [Hc <-]. eapply wp_mono; [by apply wp_flush_send|].
  intros c' ps (Hc' & Hk & [(_ & _ & ->)|(_ & now & segs & fins & nxt & _ & _ & Hf & Hfin & _ & Hseq & ->)]);
    (split; [done|]); [done|].
  apply Forall_fmap, Forall_app. apply Forall_app in Hseq as [Hs1 Hs2]. split.
  - apply Forall_forall. intros s Hs. rewrite Forall_forall in Hf, Hs1.
    destruct (Hf s Hs) as [(E & _) Hd]. apply own_packet; auto. rewrite E. by_decide.
  - destruct (fin_due c); [|by subst]. destruct Hfin as (f & -> & (E & _) & Hd).
    apply Forall_cons_iff in Hs2 as [? _]. apply Forall_singleton. apply own_packet; auto.
    + rewrite E. by_decide.
    + rewrite Hd. apply seg_data_nil.
Qed.

Lemma own_receive key c seg payload :
  own_result key c → bytes_ok payload →
  sends (own key) (receive_data_and_maybe_fin c seg payload) (λ r, own_result key r.1 ∧ rx_frame c r.1).
Proof.
  intros [Hc <-] Hp. eapply wp_mono; [by apply wp_receive|]. intros r ps [-> ->]. cbn [fst].
  pose proof (receive_step_ok c seg payload Hc Hp) as Hc'.
  pose proof (receive_step_frame c seg payload) as Hf.
  set (c' := (receive_step c seg payload).1.1) in *.
  assert (Hk : conn_key c' = conn_key c) by (by rewrite Hf).
  split; [done|]. destruct (receive_step c seg payload).1.2; [|done]. apply Forall_singleton. rewrite <- Hk.
  apply own_packet; [done|by_decide|apply Hc'|apply seg_data_nil].
Qed.

Lemma own_process_ack key c seg :
  own_result key c → tcp_header_ok seg → own_result key (process_ack c seg).
Proof.
  intros [Hc <-] Hs. split; [by apply process_ack_ok|]. by destruct (process_ack_frame c seg) as (_ & _ & _ & _ & _ & ?).
Qed.

Lemma own_state key c s :
  own_result key c → can_send s = true ∨ s = Closed → own_result key (set_state s c).
Proof. intros [Hc <-] Hs. split; [|done]. apply conn_ok_state; auto. intros ->. by destruct Hs. Qed.

(** A step that does not send. *)
Ltac quiet := first [apply sends_ret; done | apply sends_now; done].

(** An arm that does not touch the accept queues. *)
Lemma own_arm (key : ConnectionKey) (m : M TcpConnection) (q : AcceptQueues) :
  sends (own key) m (λ _, True) → sends (own key) (c ← m; mret (c, q)) (λ _, True).
Proof. intros H. eapply sends_bind; [exact H|]. intros c _. quiet. Qed.

Lemma own_enter_time_wait (key : ConnectionKey) c : sends (own key) (enter_time_wait c) (λ _, True).
Proof. apply (sends_bind _ _ _ (λ _, True)); [quiet|]. intros now _. quiet. Qed.

Section OwnSegment.
Context (key : ConnectionKey) (c : TcpConnection) (seg : TcpHeader) (payload : bytes).
Hypothesis Hown : own_result key c.
Hypothesis Hs : tcp_header_ok seg.
Hypothesis Hp : bytes_ok payload.

(** The connection the handshake leaves. *)
Lemma own_opened rcv irs0 :
  is_u32 rcv →
  own_result key (set_state Established (remove_acked
    (set_snd_wnd seg.(th_window) (set_snd_una seg.(th_ack_num) (set_rcv_nxt rcv (set_irs irs0 c)))) seg.(th_ack_num))).
Proof.
  intros Hr. destruct Hown as [Hc Hk]. split; [|exact Hk]. destruct Hs as (_ & _ & _ & Ha & _ & _ & Hw & _).
  pose proof (conn_ok_acked _ _ c Hc Ha Hw) as []. split; cbn in *; auto.
Qed.

Lemma own_syn_sent : sends (own key) (process_syn_sent c seg) (λ _, True).
Proof.
  unfold process_syn_sent. destruct (_ && _); [|quiet].
  eapply sends_bind; [|intros _ _; quiet]. apply own_send_ack_only. apply own_opened. auto with minitcp.
Qed.

Lemma own_syn_rcvd q : sends (own key) (process_syn_rcvd q key c seg payload) (λ _, True).
Proof.
  unfold process_syn_rcvd. destruct (acks_everything c seg); [|quiet]. destruct (_ || _); [|quiet].
  eapply sends_bind; [|intros [c' fin] _; quiet]. apply own_receive; [|done].
  destruct Hown as [Hc Hk]. split; [|exact Hk]. destruct Hs as (_ & _ & _ & Ha & _ & _ & Hw & _).
  pose proof (conn_ok_acked _ _ c Hc Ha Hw) as []. split; cbn in *; auto.
Qed.

Lemma own_established : sends (own key) (process_established c seg payload) (λ _, True).
Proof.
  eapply sends_bind; [apply own_receive; [by apply own_process_ack|done]|].
  intros [c' fin] [Ho _]. eapply sends_mono; [apply own_flush_send|done|done].
  destruct fin; [|done]. apply own_state; auto.
Qed.

Lemma own_fin_wait1 : sends (own key) (process_fin_wait1 c seg payload) (λ _, True).
Proof.
  eapply sends_bind; [apply own_receive; [by apply own_process_ack|done]|].
  intros [c' fin] _. destruct (_ && _); [apply own_enter_time_wait|].
  destruct (acks_everything _ _); [quiet|]. destruct fin; quiet.
Qed.

Lemma own_fin_wait2 : sends (own key) (process_fin_wait2 c seg payload) (λ _, True).
Proof.
  eapply sends_bind; [apply own_receive; [by apply own_process_ack|done]|].
  intros [c' []] _; [apply own_enter_time_wait|quiet].
Qed.

Lemma own_process_conn q : sends (own key) (process_conn q key c seg payload) (λ _, True).
Proof.
  unfold process_conn. destruct (_ && _); [quiet|]. destruct (state c).
  - quiet.
  - quiet.
  - apply own_arm, own_syn_sent.
  - apply own_syn_rcvd.
  - apply own_arm, own_established.
  - apply own_arm, own_fin_wait1.
  - apply own_arm, own_fin_wait2.
  - apply own_arm. unfold process_closing. destruct (acks_everything _ _); [apply own_enter_time_wait|quiet].
  - apply own_arm. unfold process_time_wait. destruct (has_flag _ _); [|quiet].
    eapply sends_bind; [by apply own_send_ack_only|]. intros _ _.
    apply (sends_bind _ _ _ (λ _, True)); [quiet|]. intros now _. quiet.
  - apply own_arm. eapply sends_mono; [by apply own_flush_send, own_process_ack|done|done].
  - apply own_arm. unfold process_last_ack. quiet.
Qed.
End OwnSegment.

(** The timers of one connection. *)
Lemma own_tick_probe key now c : own_result key c → sends (own key) (tick_probe now c) (own_result key).
Proof.
  intros [Hc Hk]. apply sends_result.
  - unfold tick_probe. destruct (_ || _); [|quiet]. destruct (probe_deadline c); [|quiet].
    destruct (_ <=? _); [|quiet]. eapply sends_bind; [|intros _ _; quiet].
    apply own_send_segment; [done|by_decide|auto with minitcp|split; by_decide].
  - intros w. destruct (tick_probe_ok now c w Hc) as (c1 & w1 & E & H1 & _ & Hk1 & _).
    exists c1, w1. split; [done|]. split; congruence.
Qed.

Lemma own_tick_retransmit key now c :
  own_result key c → sends (own key) (tick_retransmit now c) (λ r, own_result key r.1).
Proof.
  intros [Hc Hk]. apply sends_result.
  - unfold tick_retransmit. destruct (retransmit_queue c) as [|f rest] eqn:Eq; [quiet|].
    destruct (_ <=? _); [|quiet]. destruct (_ <=? _); [quiet|].
    pose proof (co_queue c Hc) as Hq. rewrite Eq in Hq. apply Forall_cons_iff in Hq as [Hf _].
    eapply sends_bind; [|intros _ _; quiet]. apply own_send_segment; [done|apply Hf|apply Hf|by apply unacked_ok_data].
  - intros w. destruct (tick_retransmit_ok now c w Hc) as (c1 & g & w1 & E & H1 & _ & Hk1 & _).
    eexists _, w1. split; [done|]. split; [done|]. cbn. congruence.
Qed.

Lemma own_tick_conn key now c : own_result key c → sends (own key) (tick_conn now c) (λ _, True).
Proof.
  intros Ho. unfold tick_conn. case_bool_decide; [quiet|].
  eapply sends_bind; [by apply own_tick_probe|]. intros c1 H1.
  eapply sends_bind; [by apply own_tick_retransmit|]. intros [c2 g] H2. cbn [fst] in H2.
  destruct g; [quiet|]. eapply sends_mono; [by apply own_flush_send|done|done].
Qed.
