(* ===== verification/TcpNet.v ===== *)
(** * One end of a connection over an unreliable network

    The invariant of one end of an established connection, relative to what
    both ends have done so far: its queue and its pending bytes are the
    unacknowledged rest of its stream, its buffers hold pieces of the stream
    of the other end, and every packet it writes is a piece of its own.  The
    network built from two such ends is in [TcpNetwork]. *)

From S2P Require Import Prelude Effects Ip TcpSegment TcpConn TcpSend TcpReceive TcpTable TcpInv TcpState TcpSystem TcpEmit.

(** ** History of one end *)

(** What one end has done so far: the first sequence number of its stream,
    the bytes its application sent, whether its FIN was sent, and how far it
    has received the stream of the other end. *)
Record hist := mkHist {
  h_base : u32;
  h_str : bytes;
  h_fin : bool;
  h_high : u32;
}.

(** Histories grow; after the FIN the stream is final. *)
Record hist_le (g g' : hist) : Prop := {
  hl_base : g'.(h_base) = g.(h_base);
  hl_str : g.(h_str) `prefix_of` g'.(h_str);
  hl_fin : g.(h_fin) = true → g'.(h_fin) = true ∧ g'.(h_str) = g.(h_str);
  hl_high : g.(h_high) ≤ g'.(h_high);
}.

Global Instance hist_le_preorder : PreOrder hist_le.
Proof.
  split.
  - intros g. split; auto. lia.
  - intros g1 g2 g3 [E1 P1 F1 H1] [E2 P2 F2 H2]. split; [congruence|by etrans| |lia].
    intros Hf. destruct (F1 Hf) as [Hf2 Es]. destruct (F2 Hf2). split; [done|congruence].
Qed.

(** A segment that an end with history [gx] may send to one with history
    [gy]: a reset, or it acknowledges no more than was received, and is a
    repetition of what the other end has, or empty, or a slice of the stream
    with the FIN only at the end of it. *)
Definition seg_good (gx gy : hist) (seg : TcpHeader) (data : bytes) : Prop :=
  has_flag seg.(th_flags) TCP_SYN = false ∧
  (has_flag seg.(th_flags) TCP_RST = true ∨
   (has_flag seg.(th_flags) TCP_ACK = true → seg.(th_ack_num) ≤ gx.(h_high)) ∧
   (seg.(th_seq_num) < gy.(h_high) ∨
    data = [] ∧ has_flag seg.(th_flags) TCP_FIN = false ∨
    segment_of gx.(h_str) gx.(h_base) seg data ∧
    (has_flag seg.(th_flags) TCP_FIN = true → gx.(h_fin) = true))).

(** A packet on the wire: whatever in it reaches the connection is good. *)
Definition pkt_good (key : ConnectionKey) (gx gy : hist) (p : bytes) : Prop :=
  ∀ h seg data, parse_ip_header p = Some h → arrives h (drop IP_HEADER_LEN p) seg data →
    segment_key h seg = flip key → seg_good gx gy seg data.

(** The states after the own FIN, and after the FIN of the other end. *)
Definition fin_sent (s : TcpState) : bool :=
  match s with FinWait1 | FinWait2 | Closing | LastAck | TimeWait | Closed => true | _ => false end.

Definition fin_seen (s : TcpState) : bool :=
  match s with CloseWait | LastAck | Closing | TimeWait => true | _ => false end.

(** Acknowledged bytes, queued segments and pending bytes make up the stream,
    and every queued segment is numbered by its place; the FIN is last. *)
Definition tx_shape (g : hist) (queue : list UnackedSegment) (pending : bytes) (nxt : u32) : Prop :=
  ∃ acked segs fins,
    queue = segs ++ fins ∧
    g.(h_str) = acked ++ concat (us_data <$> segs) ++ (if g.(h_fin) then [] else pending) ∧
    Forall (λ s, s.(us_flags) = data_flags) segs ∧
    (segs ++ fins ≠ [] ∨ g.(h_fin) = false → chain (g.(h_base) + len acked) (segs ++ fins) nxt) ∧
    (fins = [] ∧ (g.(h_fin) = true → segs = []) ∨
     g.(h_fin) = true ∧ ∃ f, fins = [f] ∧ f.(us_flags) = fin_flags ∧ f.(us_data) = []).

(** The sending side. *)
Record tx_inv (g : hist) (c : TcpConnection) : Prop := {
  tx_base : 1 ≤ g.(h_base);
  tx_fits : g.(h_base) + len g.(h_str) + 1 < 2 ^ 32;
  tx_queue : ∃ pending, (can_send c.(state) = true → pending = c.(send_pending)) ∧
               tx_shape g c.(retransmit_queue) pending c.(snd_nxt);
  tx_state : if g.(h_fin) then fin_sent c.(state) = true
             else can_send c.(state) = true ∨ c.(state) = Closed;
  tx_una : g.(h_base) ≤ c.(snd_una);
}.

(** The receiving side, [off] bytes of the stream having been read. *)
Record rx_inv (g gy : hist) (off : nat) (c : TcpConnection) : Prop := {
  rx_stream : stream_inv gy.(h_str) gy.(h_base) off c;
  rx_high : c.(rcv_nxt) = g.(h_high);
  rx_open : gy.(h_fin) = false → c.(rcv_nxt) = gy.(h_base) + Z.of_nat off + len c.(recv_buffer);
  rx_eof : fin_seen c.(state) = true → c.(rcv_nxt) = gy.(h_base) + len gy.(h_str) + 1;
}.

Record conn_inv (key : ConnectionKey) (gx gy : hist) (off : nat) (c : TcpConnection) : Prop := {
  ci_ok : conn_ok c;
  ci_key : conn_key c = key;
  ci_tx : tx_inv gx c;
  ci_rx : rx_inv gx gy off c;
  ci_una : c.(snd_una) ≤ gy.(h_high);
}.

(** ** Histories and packets *)

Lemma stream_slice_prefix S S' i p : S `prefix_of` S' → stream_slice S i p → stream_slice S' i p.
Proof.
  intros [k ->] (H0 & Hl & Hp). split; [done|]. split; [rewrite len_app; pose proof (len_nonneg k); lia|].
  rewrite drop_app_le by (unfold len in *; lia).
  rewrite take_app_le by (rewrite length_drop; unfold len in *; lia). done.
Qed.

Lemma seg_good_mono gx gy gx' gy' seg data :
  hist_le gx gx' → hist_le gy gy' → seg_good gx gy seg data → seg_good gx' gy' seg data.
Proof.
  intros [Eb Es Ef Eh] [_ _ _ Eh'] [Hs H]. split; [done|]. destruct H as [?|[Ha H]]; [by left|right].
  split; [intros; specialize (Ha ltac:(done)); lia|]. destruct H as [?|[?|[[Hsl Hlast] Hf]]]; [left; lia|auto|].
  right. right. rewrite Eb. split; [split|].
  - by eapply stream_slice_prefix.
  - intros Hfl. destruct (Ef (Hf Hfl)) as [_ ->]. auto.
  - intros Hfl. by destruct (Ef (Hf Hfl)).
Qed.

Lemma pkt_good_mono key gx gy gx' gy' p :
  hist_le gx gx' → hist_le gy gy' → pkt_good key gx gy p → pkt_good key gx' gy' p.
Proof. intros Hx Hy H h seg data Hp Ha Hk. eapply seg_good_mono; eauto. Qed.

(** A packet of a connection is read at the other end with the fields it was
    written with. *)
Lemma sent_by_arrives key Q p h seg data :
  sent_by key Q p → parse_ip_header p = Some h → arrives h (drop IP_HEADER_LEN p) seg data →
  segment_key h seg = flip key ∧ ∃ hd, same_fields seg hd ∧ Q hd data.
Proof.
  intros (c & flags & seq & d & -> & Hc & Hk & Hf & Hs & Hd & HQ) Hp [Har1 Har2 Har3].
  destruct (seg_packet_arrives c flags seq d Hc Hf Hs Hd)
    as (h' & seg' & Hp' & Hsrc & Hdst & [Hpar _ Hdat] & Hsame & _).
  rewrite Hp in Hp'. injection Hp' as <-. rewrite Hpar in Har1. injection Har1 as <-. split.
  - rewrite <- Hk. destruct Hsame as (? & ? & _). by apply segment_key_flip.
  - exists (segment_header c flags seq). split; [done|]. subst data. by rewrite <- Hdat.
Qed.

Lemma seg_good_same gx gy seg hd data : same_fields seg hd → seg_good gx gy hd data → seg_good gx gy seg data.
Proof.
  intros (_ & _ & E1 & E2 & E3 & _). unfold seg_good, segment_of. by rewrite E1, E2, E3.
Qed.

Lemma sent_by_good key gx gy p : sent_by key (seg_good gx gy) p → pkt_good key gx gy p.
Proof.
  intros Hp h seg data Hpar Har _. destruct (sent_by_arrives _ _ _ _ _ _ Hp Hpar Har) as (_ & hd & Hs & HQ).
  by eapply seg_good_same.
Qed.

(** The other connections of a host do not matter. *)
Lemma own_other_good key key' gx gy p : key' ≠ key → own key' p → pkt_good key gx gy p.
Proof.
  intros Hne Hp h seg data Hpar Har Hk. destruct (sent_by_arrives _ _ _ _ _ _ Hp Hpar Har) as (Hk' & _).
  destruct Hne. rewrite <- (flip_flip key'), <- Hk', Hk. apply flip_flip.
Qed.

(** ** The sending side *)

Lemma queue_space_data segs :
  Forall (λ s, s.(us_flags) = data_flags) segs → queue_space segs = len (concat (us_data <$> segs)).
Proof.
  unfold queue_space. induction 1 as [|s segs Hs _ IH]; [done|]. cbn [foldr]. rewrite IH, fmap_cons.
  cbn [concat]. rewrite len_app. unfold seg_space. rewrite Hs.
  change (has_flag data_flags TCP_SYN) with false. change (has_flag data_flags TCP_FIN) with false. cbn [Z.b2z]. lia.
Qed.

(** Where the segments after a prefix of data segments start. *)
Lemma chain_skip_data base acked pre rest stop :
  0 ≤ base → base + len acked + len (concat (us_data <$> pre)) < 2 ^ 32 →
  Forall (λ s, s.(us_flags) = data_flags) pre → chain (base + len acked) (pre ++ rest) stop →
  chain (base + len (acked ++ concat (us_data <$> pre))) rest stop.
Proof.
  intros Hb Hl Hd (a & H1 & H2)%chain_suffix. pose proof (len_nonneg acked).
  rewrite len_app, Z.add_assoc. apply chain_stop_space in H1; [|lia|rewrite queue_space_data by done; lia].
  rewrite queue_space_data in H1 by done. by subst a.
Qed.

(** Every queued segment is a piece of the stream. *)
Lemma tx_queued_good g gy c s hd :
  tx_inv g c → s ∈ c.(retransmit_queue) → hd.(th_seq_num) = s.(us_seq) → hd.(th_flags) = s.(us_flags) →
  hd.(th_ack_num) ≤ g.(h_high) → seg_good g gy hd s.(us_data).
Proof.
  intros [Hb Hfit (pending & _ & acked & segs & fins & Eq & Estr & Hd & Hch & Hfin) _ _] Hin Es Ef Ea.
  rewrite Eq in Hin. set (pend := if h_fin g then [] else _) in Estr.
  assert (Hne : segs ++ fins ≠ []) by (intros E; rewrite E in Hin; by apply not_elem_of_nil in Hin).
  specialize (Hch (or_introl Hne)). rewrite Estr, !len_app in Hfit. pose proof (len_nonneg pend).
  unfold seg_good, segment_of. rewrite Es, Ef. apply elem_of_app in Hin as [Hin|Hin].
  - apply list_elem_of_split in Hin as (pre & post & ->).
    apply Forall_app in Hd as [Hpre [Hs _]%Forall_cons_iff]. rewrite Hs.
    rewrite fmap_app, fmap_cons, concat_app in Estr, Hfit. cbn [concat] in Estr, Hfit.
    rewrite !len_app in Hfit. pose proof (len_nonneg (us_data s)).
    pose proof (len_nonneg (concat (us_data <$> post))).
    rewrite <- app_assoc in Hch. apply chain_skip_data in Hch; [|lia..|done]. destruct Hch as [Hseq _].
    split; [done|]. right. split; [done|]. right. right. split; [split; [|done]|done].
    rewrite Hseq. rewrite Estr, <- !app_assoc, app_assoc. set (front := acked ++ _).
    split_and!; rewrite ?len_app; [pose proof (len_nonneg front); lia..|].
    replace (Z.to_nat (h_base g + len front - h_base g)) with (length front) by (unfold len; lia).
    rewrite drop_app_length. by rewrite take_app_length.
  - destruct Hfin as [[-> _]|(Hfg & f & -> & Hff & Hfd)]; [by apply not_elem_of_nil in Hin|].
    apply list_elem_of_singleton in Hin as ->. apply chain_skip_data in Hch; [|lia..|done].
    destruct Hch as [Hseq _]. rewrite Hff, Hfd. split; [done|]. right. split; [done|]. right. right.
    unfold pend in *. rewrite Hfg, app_nil_r in Estr. rewrite Hseq, <- Estr.
    split; [split|done]; [split_and!; unfold len; cbn; lia || done|unfold len; cbn; lia].
Qed.

(** Acknowledgements: the front of the queue goes. *)
Lemma tx_shape_drop g dropped rest pending nxt :
  0 ≤ g.(h_base) → g.(h_base) + len g.(h_str) + 1 < 2 ^ 32 →
  tx_shape g (dropped ++ rest) pending nxt → tx_shape g rest pending nxt.
Proof.
  intros Hb Hfit (acked & segs & fins & Eq & Estr & Hd & Hch & Hfin).
  pose proof (len_nonneg (if h_fin g then [] else pending)). rewrite Estr, !len_app in Hfit.
  symmetry in Eq. apply app_eq_inv in Eq as [(segs' & -> & ->)|(k & -> & Ek)].
  - exists (acked ++ concat (us_data <$> dropped)), segs', fins.
    rewrite fmap_app, concat_app in Estr, Hfit. rewrite len_app in Hfit. apply Forall_app in Hd as [Hd1 Hd2].
    pose proof (len_nonneg (concat (us_data <$> segs'))).
    split_and!; [done|by rewrite Estr, !app_assoc|done| |].
    + intros Hne. apply chain_skip_data; [lia..|done|]. rewrite app_assoc. apply Hch.
      destruct Hne as [Hne|]; [left|by right]. intros E. apply Hne.
      rewrite <- app_assoc in E. by apply app_nil in E as [_ E].
    + destruct Hfin as [[-> Hf]|Hf]; [left|by right]. split; [done|]. intros E. specialize (Hf E).
      by apply app_nil in Hf as [_ ?].
  - exists (acked ++ concat (us_data <$> segs)), [], rest. cbn [app fmap list_fmap concat].
    assert (Hskip : k = [] → segs ++ fins ≠ [] ∨ h_fin g = false →
              chain (h_base g + len (acked ++ concat (us_data <$> segs))) rest nxt).
    { intros -> Hne. cbn [app] in Ek. subst fins. apply chain_skip_data; [lia..|done|]. by apply Hch. }
    split_and!; [done|by rewrite Estr, app_assoc|done| |].
    + destruct k as [|f' k].
      * intros Hne. apply Hskip; [done|]. cbn in Ek. subst rest. destruct Hne as [Hne|]; [left|by right].
        intros E. by apply app_nil in E as [_ E].
      * destruct Hfin as [[-> _]|(Hfg & f & -> & _)]; [done|]. injection Ek as <- Ek. symmetry in Ek.
        apply app_nil in Ek as [-> ->]. rewrite Hfg. intros [|]; done.
    + destruct Hfin as [[-> Hf]|(Hfg & f & -> & Hff)].
      * symmetry in Ek. apply app_nil in Ek as [-> ->]. by left.
      * destruct k as [|f' k]; cbn [app] in Ek; [right; split; [done|]; by exists f|].
        injection Ek as <- Ek. symmetry in Ek. apply app_nil in Ek as [_ ->]. by left.
Qed.

Lemma tx_ack g c seg : tx_inv g c → tx_inv g (process_ack c seg).
Proof.
  intros [Hb Hfit (pending & Hp & Hq) Hst Hu]. rewrite process_ack_eq.
  destruct (negb (has_flag _ TCP_ACK)); [by split; eauto|]. cbv zeta.
  destruct (Z.ltb_spec (snd_una c) (th_ack_num seg)).
  2:{ destruct (negb _); split; cbn; eauto. }
  destruct (drop_acked_suffix (retransmit_queue c) (th_ack_num seg)) as (dropped & Edrop & _).
  rewrite Edrop in Hq. apply tx_shape_drop in Hq; [|lia..]. destruct (negb _); split; cbn; eauto; lia.
Qed.

(** [flush_send]: the history afterwards, and what it sends is in the new
    queue. *)
Definition flush_hist (g : hist) (c : TcpConnection) : hist :=
  mkHist g.(h_base) g.(h_str) (g.(h_fin) || fin_due c) g.(h_high).

Lemma tx_flush g c now segs fins nxt :
  tx_inv g c → can_send c.(state) = true →
  concat (us_data <$> segs) = take (Z.to_nat (sendable c)) c.(send_pending) →
  Forall (λ s, fresh_segment data_flags s ∧ seg_data_ok s.(us_data)) segs →
  (if fin_due c then ∃ f, fins = [f] ∧ fresh_segment fin_flags f ∧ f.(us_data) = [] else fins = []) →
  chain c.(snd_nxt) (segs ++ fins) nxt →
  tx_inv (flush_hist g c) (flushed c now segs fins nxt).
Proof.
  intros [Hb Hfit (pending & Hpend & acked & segs0 & fins0 & Eq & Estr & Hd & Hch & Hfin) Hst Hu] Hs Hdat Hf Hfins Hnew.
  rewrite (Hpend Hs) in Estr. clear pending Hpend.
  assert (Hg : h_fin g = false) by (destruct (h_fin g); [|done]; by destruct (state c)).
  rewrite Hg in *. destruct Hfin as [[-> _]|[? _]]; [|done]. rewrite app_nil_r in *.
  specialize (Hch (or_intror eq_refl)).
  assert (Hd' : Forall (λ s, us_flags s = data_flags) (segs0 ++ segs)).
  { apply Forall_app. split; [done|]. eapply Forall_impl; [|exact Hf]. by intros s [[? _] _]. }
  assert (Hsplit : h_str g = acked ++ concat (us_data <$> segs0 ++ segs) ++
            drop (Z.to_nat (sendable c)) (send_pending c)).
  { rewrite Estr, fmap_app, concat_app, Hdat, <- app_assoc. by rewrite take_drop. }
  unfold flushed, flush_hist. rewrite Hg. cbn [orb].
  split; cbn; [done|done| |destruct (fin_due c); [by destruct (state c)|by left]|done].
  eexists. split; [done|]. exists acked, (segs0 ++ segs), fins. cbn. split_and!.
  - by rewrite Eq, app_assoc.
  - rewrite Hsplit. do 2 f_equal. unfold fin_due. destruct (pending_close c); cbn [andb]; [|done].
    by case_bool_decide.
  - done.
  - intros _. rewrite <- app_assoc. by eapply chain_app.
  - destruct (fin_due c).
    + destruct Hfins as (f & -> & (? & _) & ?). right. split; [done|]. by exists f.
    + left. split; [done|]. done.
Qed.

(** ** The receiving side *)

Definition high_hist (g : hist) (v : u32) : hist := mkHist g.(h_base) g.(h_str) g.(h_fin) v.

(** The reassembly buffer has nothing behind the end of the stream. *)
Lemma splice_at_end S base off c a :
  stream_inv S base off c → c.(rcv_nxt) = base + len S + 1 →
  splice_ooo (size c.(ooo_buffer)) c a = (c, a).
Proof.
  intros Hi Hn. destruct (size (ooo_buffer c)); [done|]. cbn [splice_ooo].
  destruct (ooo_buffer c !! rcv_nxt c) as [p|] eqn:E; [|done].
  apply (si_ooo _ _ _ _ Hi) in E as [(? & ? & _) _]. pose proof (len_nonneg p). lia.
Qed.

(** What a good segment does to the receiving side. *)
Definition good_data (gx gy : hist) (seg : TcpHeader) (data : bytes) : Prop :=
  seg.(th_seq_num) < gy.(h_high) ∨
  data = [] ∧ has_flag seg.(th_flags) TCP_FIN = false ∨
  segment_of gx.(h_str) gx.(h_base) seg data ∧ (has_flag seg.(th_flags) TCP_FIN = true → gx.(h_fin) = true).

Lemma rx_in_order gx gy off c seg data :
  rx_inv gx gy off c → fin_seen c.(state) = false → seg.(th_seq_num) = c.(rcv_nxt) →
  segment_of gy.(h_str) gy.(h_base) seg data → (has_flag seg.(th_flags) TCP_FIN = true → gy.(h_fin) = true) →
  let c' := (receive_step c seg data).1.1 in
  rx_inv (high_hist gx c'.(rcv_nxt)) gy off c' ∧ gx.(h_high) ≤ c'.(rcv_nxt) ∧
  (fin_in_order c seg = true → c'.(rcv_nxt) = gy.(h_base) + len gy.(h_str) + 1).
Proof.
  intros [Hi Hh Ho He] Hst Heq Hs Hf c'. subst c'.
  destruct (receive_step_in_order _ _ _ _ _ _ Hi Hs Heq) as (Hi' & Hb & Hn & Hn').
  pose proof (receive_step_frame c seg data) as Hfr. set (c' := (receive_step c seg data).1.1) in *.
  assert (Hst' : fin_seen (state c') = false) by (by rewrite Hfr).
  pose proof (si_off _ _ _ _ Hi) as Hoff. unfold fin_in_order. destruct (has_flag _ TCP_FIN).
  - split_and!; [split; cbn; [done|done|by rewrite Hf|by rewrite Hst']|unfold len in *; lia|done].
  - split_and!; [split; cbn; [done|done|done|by rewrite Hst']|unfold len in *; lia|done].
Qed.

Lemma rx_unchanged gx gy off c c' : rx_inv gx gy off c → c'.(state) = c.(state) →
  stream_inv gy.(h_str) gy.(h_base) off c' → c'.(rcv_nxt) = c.(rcv_nxt) → c'.(recv_buffer) = c.(recv_buffer) →
  rx_inv (high_hist gx c'.(rcv_nxt)) gy off c'.
Proof. intros [Hi Hh Ho He] Es Hi' En Eb. split; cbn; rewrite ?Es, ?En, ?Eb; auto. Qed.

Lemma rx_receive gx gy off c seg data :
  rx_inv gx gy off c → fin_seen c.(state) = false → good_data gy gx seg data →
  let c' := (receive_step c seg data).1.1 in
  rx_inv (high_hist gx c'.(rcv_nxt)) gy off c' ∧ gx.(h_high) ≤ c'.(rcv_nxt) ∧
  (fin_in_order c seg = true → c'.(rcv_nxt) = gy.(h_base) + len gy.(h_str) + 1).
Proof.
  intros Hr Hst Hg. pose proof Hr as [Hi Hh Ho He].
  destruct (Z.eqb_spec (th_seq_num seg) (rcv_nxt c)) as [Heq|Hne].
  - destruct Hg as [?|[[-> Hnf]|[Hs Hf]]]; [lia| |by apply rx_in_order].
    destruct (si_nxt _ _ _ _ Hi) as [Hn|[Hn Hend]].
    + apply rx_in_order; try done; [|by rewrite Hnf]. split; [|by rewrite Hnf].
      rewrite Heq, Hn. pose proof (si_off _ _ _ _ Hi). split_and!; unfold len in *; cbn in *; lia || done.
    + assert ((receive_step c seg []).1.1 = c) as ->.
      { unfold receive_step. rewrite Heq, Z.eqb_refl, Hnf. cbn -[size].
        by erewrite splice_at_end by eauto. }
      unfold fin_in_order. rewrite Hnf. split_and!; [|lia|done]. by apply (rx_unchanged gx gy off c c).
  - assert (Hfin : fin_in_order c seg = false).
    { unfold fin_in_order. rewrite (proj2 (Z.eqb_neq _ _) Hne). apply andb_false_r. }
    assert (Hc' : let c' := (receive_step c seg data).1.1 in
      stream_inv (h_str gy) (h_base gy) off c' ∧ c'.(state) = c.(state) ∧ c'.(rcv_nxt) = c.(rcv_nxt) ∧
      c'.(recv_buffer) = c.(recv_buffer)).
    { split.
      - destruct Hg as [Hlt|[[-> _]|[Hs _]]]; [| |by apply receive_step_inv];
          unfold receive_step; rewrite (proj2 (Z.eqb_neq _ _) Hne).
        + destruct (Z.ltb_spec (rcv_nxt c) (th_seq_num seg)); [lia|done].
        + by destruct (_ <? _).
      - unfold receive_step. rewrite (proj2 (Z.eqb_neq _ _) Hne). destruct (_ <? _); [|done].
        by destruct (_ && _). }
    destruct Hc' as (Hi' & Es & En & Eb). rewrite Hfin. split_and!; [by apply (rx_unchanged gx gy off c)|lia|done].
Qed.

(** The connection as a whole. *)
Lemma conn_inv_ack key gx gy off c seg :
  conn_inv key gx gy off c → tcp_header_ok seg →
  (has_flag seg.(th_flags) TCP_ACK = true → seg.(th_ack_num) ≤ gy.(h_high)) →
  conn_inv key gx gy off (process_ack c seg).
Proof.
  intros [Hok Hk Htx Hrx Hu] Hs Ha.
  destruct (process_ack_frame c seg) as (Es & _ & En & _ & Eb & Ek). split.
  - by apply process_ack_ok.
  - congruence.
  - by apply tx_ack.
  - destruct (process_ack_rx c seg) as (_ & _ & Eo & _). destruct Hrx as [Hi Hh Ho He].
    split; rewrite ?Es, ?En, ?Eb; auto. destruct Hi as [Hi1 ? ? ? ? ? ?].
    split; rewrite ?En, ?Eb, ?Eo; auto. apply (process_ack_ok c seg Hok Hs).
  - rewrite process_ack_eq. destruct (has_flag _ TCP_ACK) eqn:Ef; cbn [negb]; [|done]. specialize (Ha eq_refl).
    cbv zeta. destruct (_ <? _), (negb _); cbn; lia.
Qed.

Lemma conn_inv_receive key gx gy off c seg data :
  conn_inv key gx gy off c → fin_seen c.(state) = false → bytes_ok data → good_data gy gx seg data →
  let c' := (receive_step c seg data).1.1 in
  let gx' := high_hist gx c'.(rcv_nxt) in
  conn_inv key gx' gy off c' ∧ hist_le gx gx' ∧ c'.(state) = c.(state) ∧
  (fin_in_order c seg = true → c'.(rcv_nxt) = gy.(h_base) + len gy.(h_str) + 1).
Proof.
  intros [Hok Hk Htx Hrx Hu] Hst Hb Hg. destruct (rx_receive gx gy off c seg data Hrx Hst Hg) as (Hrx' & Hle & Hfin).
  pose proof (receive_step_ok c seg data Hok Hb) as Hok'. pose proof (receive_step_frame c seg data) as Hf.
  cbv zeta. set (c' := (receive_step c seg data).1.1) in *. split_and!; [split|split|..]; cbn; auto; try (by rewrite Hf).
  destruct Htx as [? ? Hq ? ?]. split; cbn; auto; rewrite Hf; cbn; auto.
Qed.

(** ** Segments at one end *)

(** The connection is good for a grown history, and so is all it sent. *)
Definition net_post (key : ConnectionKey) (gx gy : hist) (off : nat) (c : TcpConnection) (ps : list bytes) : Prop :=
  ∃ gx', hist_le gx gx' ∧ gx'.(h_str) = gx.(h_str) ∧ conn_inv key gx' gy off c ∧
    Forall (pkt_good key gx' gy) ps.

Lemma net_post_refl key gx gy off c : conn_inv key gx gy off c → net_post key gx gy off c [].
Proof. intros H. by exists gx. Qed.

(** One step after another. *)
Lemma net_post_trans key gx gy off gx1 c ps qs :
  hist_le gx gx1 → gx1.(h_str) = gx.(h_str) → Forall (pkt_good key gx1 gy) ps →
  net_post key gx1 gy off c qs → net_post key gx gy off c (ps ++ qs).
Proof.
  intros H1 E1 Hps (gx2 & H2 & E2 & Hc & Hqs). exists gx2. split_and!; [by etrans|congruence|done|].
  apply Forall_app. split; [|done]. eapply Forall_impl; [|exact Hps]. intros p Hp. by eapply pkt_good_mono.
Qed.

Lemma conn_packet_good key gx gy off c flags seq data :
  conn_inv key gx gy off c → is_u8 flags → is_u32 seq → seg_data_ok data →
  seg_good gx gy (segment_header c flags seq) data → pkt_good key gx gy (seg_packet c flags seq data).
Proof. intros Hc Hf Hs Hd Hg. apply sent_by_good. exists c, flags, seq, data. split_and!; try done; apply Hc. Qed.

Lemma pure_ack_good key gx gy off c :
  conn_inv key gx gy off c → pkt_good key gx gy (seg_packet c TCP_ACK c.(snd_nxt) []).
Proof.
  intros Hc. eapply conn_packet_good; [done|by_decide|apply Hc|apply seg_data_nil|].
  split; [done|]. right. split; [intros _|right; by left].
  change (rcv_nxt c ≤ h_high gx). pose proof (rx_high _ _ _ _ (ci_rx _ _ _ _ _ Hc)). lia.
Qed.

Lemma conn_inv_state key gx gy off c s :
  conn_inv key gx gy off c → s ≠ Listen → (c.(pending_close) = true → can_send s = true ∨ s = Closed) →
  (if gx.(h_fin) then fin_sent s = true else can_send s = true ∨ s = Closed) →
  (fin_seen s = true → c.(rcv_nxt) = gy.(h_base) + len gy.(h_str) + 1) →
  (can_send s = true → can_send c.(state) = true) →
  conn_inv key gx gy off (set_state s c).
Proof.
  intros [Hok Hk [? ? (pending & Hpend & ?) ? ?] [[] ? ? ?] Hu] Hl Hp Hs Hf Hcs. split; cbn; auto.
  - by apply conn_ok_state.
  - split; cbn; eauto.
  - split; auto. by split.
Qed.

(** The fields the invariant looks at. *)
Definition net_same (c c' : TcpConnection) : Prop :=
  c'.(state) = c.(state) ∧ conn_key c' = conn_key c ∧ c'.(snd_una) = c.(snd_una) ∧ c'.(snd_nxt) = c.(snd_nxt) ∧
  c'.(rcv_nxt) = c.(rcv_nxt) ∧ c'.(retransmit_queue) = c.(retransmit_queue) ∧ c'.(ooo_buffer) = c.(ooo_buffer) ∧
  c'.(recv_buffer) = c.(recv_buffer) ∧ c'.(send_pending) = c.(send_pending).

Lemma conn_inv_same key gx gy off c c' :
  conn_inv key gx gy off c → conn_ok c' → net_same c c' → conn_inv key gx gy off c'.
Proof.
  intros [Hok Hk [] [[] ? ? ?] Hu] Hok' (E1 & E2 & E3 & E4 & E5 & E6 & E7 & E8 & E9). split.
  - done.
  - congruence.
  - split; rewrite ?E1, ?E3, ?E4, ?E6, ?E9; done.
  - split; rewrite ?E1, ?E5, ?E8; auto. split; rewrite ?E5, ?E7, ?E8; auto. apply Hok'.
  - by rewrite E3.
Qed.

Lemma conn_inv_time_wait key gx gy off c d :
  conn_inv key gx gy off c → conn_inv key gx gy off (set_time_wait_deadline d c).
Proof. intros Hc. eapply conn_inv_same; [exact Hc|apply conn_ok_time_wait, Hc|done]. Qed.

(** In a state that can still send, the FIN is to come. *)
Lemma can_send_open key gx gy off c :
  conn_inv key gx gy off c → can_send c.(state) = true → gx.(h_fin) = false.
Proof.
  intros Hc Hs. pose proof (tx_state _ _ (ci_tx _ _ _ _ _ Hc)) as Ht. destruct (h_fin gx); [|done].
  by destruct (state c).
Qed.

Lemma fin_sent_closed key gx gy off c :
  conn_inv key gx gy off c → fin_sent c.(state) = true → c.(state) ≠ Closed → gx.(h_fin) = true.
Proof.
  intros Hc Hs Hn. pose proof (tx_state _ _ (ci_tx _ _ _ _ _ Hc)) as Ht. destruct (h_fin gx); [done|].
  destruct Ht; [by destruct (state c)|done].
Qed.

Lemma net_flush_send key gx gy off c :
  conn_inv key gx gy off c → wp (flush_send c) (net_post key gx gy off).
Proof.
  intros Hc. eapply wp_mono; [apply wp_flush_send, Hc|].
  intros c' ps (Hok' & Hk' & [(_ & -> & ->)|(Hs & now & segs & fins & nxt & -> & Hd & Hf & Hfin & Hch & Hseq & ->)]).
  { by apply net_post_refl. }
  pose proof (can_send_open _ _ _ _ _ Hc Hs) as Hg. destruct Hc as [Hok Hk Htx Hrx Hu].
  pose proof (tx_flush gx c now segs fins nxt Htx Hs Hd Hf Hfin Hch) as Htx'.
  exists (flush_hist gx c). split_and!.
  - split; cbn; auto; [|lia]. by rewrite Hg.
  - done.
  - split; [done|congruence|done| |done]. destruct Hrx as [[] Hh Ho He]. split; cbn; [by split|done|done|].
    intros Hseen. apply He. revert Hseen. destruct (fin_due c); [|done]. by destruct (state c).
  - apply Forall_fmap, Forall_forall. intros s Hin%list_elem_of_In. apply sent_by_good.
    assert (Hin' : s ∈ retransmit_queue (flushed c now segs fins nxt)) by (cbn; apply elem_of_app; by right).
    pose proof (co_queue _ Hok') as Hq. rewrite Forall_forall in Hq. pose proof (Hq s (proj1 (list_elem_of_In _ _) Hin')) as Hso.
    exists c, (us_flags s), (us_seq s), (us_data s). split_and!; [done|done|done|apply Hso|apply Hso|..].
    { by apply unacked_ok_data. }
    eapply tx_queued_good; [exact Htx'|done|done|done|]. cbn. rewrite <- (rx_high _ _ _ _ Hrx).
    destruct (has_flag _ _); [lia|]. pose proof (co_rcv c Hok). unfold uN in *. lia.
Qed.

(** Acknowledge, then receive. *)
Lemma net_ack_receive key gx gy off c seg data :
  conn_inv key gx gy off c → tcp_header_ok seg → bytes_ok data → fin_seen c.(state) = false →
  (has_flag seg.(th_flags) TCP_ACK = true → seg.(th_ack_num) ≤ gy.(h_high)) → good_data gy gx seg data →
  wp (receive_data_and_maybe_fin (process_ack c seg) seg data)
    (λ r ps, ∃ gx', hist_le gx gx' ∧ gx'.(h_str) = gx.(h_str) ∧ conn_inv key gx' gy off r.1 ∧
       Forall (pkt_good key gx' gy) ps ∧ r.1.(state) = c.(state) ∧ gx'.(h_fin) = gx.(h_fin) ∧
       (r.2 = true → r.1.(rcv_nxt) = gy.(h_base) + len gy.(h_str) + 1)).
Proof.
  intros Hc Hs Hb Hst Ha Hg. pose proof (conn_inv_ack _ _ _ _ _ _ Hc Hs Ha) as H1.
  destruct (process_ack_frame c seg) as (Es & _).
  assert (Hst1 : fin_seen (state (process_ack c seg)) = false) by (by rewrite Es).
  eapply wp_mono; [apply wp_receive; [apply H1|done]|]. intros r ps [-> ->]. cbn [fst snd].
  destruct (conn_inv_receive _ _ _ _ _ _ _ H1 Hst1 Hb Hg) as (Hc' & Hle & Es' & Hfin).
  set (c' := (receive_step _ _ _).1.1) in *. exists (high_hist gx (rcv_nxt c')).
  split_and!; try done; [|congruence]. destruct (receive_step _ _ _).1.2; [|done].
  apply Forall_singleton. by eapply pure_ack_good.
Qed.

Section NetSegment.
Context (key : ConnectionKey) (gx gy : hist) (off : nat) (c : TcpConnection) (seg : TcpHeader) (data : bytes).
Hypothesis Hc : conn_inv key gx gy off c.
Hypothesis Hs : tcp_header_ok seg.
Hypothesis Hb : bytes_ok data.
Hypothesis Ha : has_flag seg.(th_flags) TCP_ACK = true → seg.(th_ack_num) ≤ gy.(h_high).
Hypothesis Hg : good_data gy gx seg data.

Lemma net_enter_time_wait (c1 : TcpConnection) gx1 :
  conn_inv key gx1 gy off c1 → gx1.(h_fin) = true → c1.(pending_close) = false →
  c1.(rcv_nxt) = gy.(h_base) + len gy.(h_str) + 1 →
  wp (enter_time_wait c1) (net_post key gx1 gy off).
Proof.
  intros H1 Hf Hp Hn. eapply wp_bind; [apply (wp_now (λ _ ps, ps = [])); done|]. intros now ps ->.
  apply wp_ret, net_post_refl, conn_inv_time_wait, conn_inv_state; try done; [by rewrite Hp|by rewrite Hf].
Qed.

Lemma net_established : c.(state) = Established → wp (process_established c seg data) (net_post key gx gy off).
Proof.
  intros Hst. eapply wp_bind; [apply net_ack_receive; try done; by rewrite Hst|].
  intros [c1 fin] ps (gx1 & Hle & Estr & H1 & Hps & Es & _ & Hfin). cbn [fst snd] in *.
  eapply wp_mono; [apply (net_flush_send key gx1 gy off)|intros c2 qs; by apply net_post_trans].
  destruct fin; [|done]. assert (Hop : h_fin gx1 = false) by (eapply can_send_open; [done|]; by rewrite Es, Hst).
  apply conn_inv_state; try done; [by left|rewrite Hop; by left|by rewrite Es, Hst].
Qed.

Lemma net_fin_wait1 : c.(state) = FinWait1 → wp (process_fin_wait1 c seg data) (net_post key gx gy off).
Proof.
  intros Hst. eapply wp_bind; [apply net_ack_receive; try done; by rewrite Hst|].
  intros [c1 fin] ps (gx1 & Hle & Estr & H1 & Hps & Es & _ & Hfin). cbn [fst snd] in *. rewrite Hst in Es.
  assert (Hop : h_fin gx1 = true) by (eapply fin_sent_closed; [done|..]; by rewrite Es).
  assert (Hp : pending_close c1 = false) by (apply not_pending; [apply H1|by rewrite Es..]).
  destruct (acks_everything _ _), fin; cbn [andb].
  - eapply wp_mono; [apply net_enter_time_wait; eauto|]. intros c2 qs. by apply net_post_trans.
  - apply wp_ret. eapply net_post_trans, net_post_refl, conn_inv_state; try done; [by rewrite Hp|by rewrite Hop].
  - apply wp_ret. eapply net_post_trans, net_post_refl, conn_inv_state; try done; [by rewrite Hp|by rewrite Hop].
  - apply wp_ret. by eapply net_post_trans, net_post_refl.
Qed.

Lemma net_fin_wait2 : c.(state) = FinWait2 → wp (process_fin_wait2 c seg data) (net_post key gx gy off).
Proof.
  intros Hst. eapply wp_bind; [apply net_ack_receive; try done; by rewrite Hst|].
  intros [c1 fin] ps (gx1 & Hle & Estr & H1 & Hps & Es & _ & Hfin). cbn [fst snd] in *. rewrite Hst in Es.
  assert (Hop : h_fin gx1 = true) by (eapply fin_sent_closed; [done|..]; by rewrite Es).
  assert (Hp : pending_close c1 = false) by (apply not_pending; [apply H1|by rewrite Es..]).
  destruct fin.
  - eapply wp_mono; [apply net_enter_time_wait; eauto|]. intros c2 qs. by apply net_post_trans.
  - apply wp_ret. by eapply net_post_trans, net_post_refl.
Qed.

Lemma net_closing : c.(state) = Closing → wp (process_closing c seg) (net_post key gx gy off).
Proof.
  intros Hst. unfold process_closing. pose proof (conn_inv_ack _ _ _ _ _ _ Hc Hs Ha) as H1.
  destruct (process_ack_frame c seg) as (Es & _). rewrite Hst in Es.
  destruct (acks_everything _ _); [|by apply wp_ret, net_post_refl].
  apply net_enter_time_wait; [done| | |].
  - eapply fin_sent_closed; [done|..]; by rewrite Es.
  - apply not_pending; [apply H1|by rewrite Es..].
  - apply (rx_eof _ _ _ _ (ci_rx _ _ _ _ _ H1)). by rewrite Es.
Qed.

Lemma net_last_ack : c.(state) = LastAck → wp (process_last_ack c seg) (net_post key gx gy off).
Proof.
  intros Hst. apply wp_ret, net_post_refl. pose proof (conn_inv_ack _ _ _ _ _ _ Hc Hs Ha) as H1.
  destruct (acks_everything _ _); [|done]. apply conn_inv_state; try done; [by right|].
  destruct (h_fin gx); [done|by right].
Qed.

Lemma net_time_wait : wp (process_time_wait c seg) (net_post key gx gy off).
Proof.
  unfold process_time_wait. destruct (has_flag _ TCP_FIN); [|by apply wp_ret, net_post_refl].
  eapply wp_bind; [apply wp_send_ack_only, Hc|]. intros _ ps ->.
  eapply wp_bind; [apply (wp_now (λ _ ps, ps = [])); done|]. intros now ps ->. apply wp_ret.
  rewrite app_nil_r. exists gx. split_and!; [done|done|by apply conn_inv_time_wait|].
  apply Forall_singleton. by eapply pure_ack_good.
Qed.
End NetSegment.

Lemma net_process_conn key gx gy off c seg data q :
  conn_inv key gx gy off c → tcp_header_ok seg → bytes_ok data → seg_good gy gx seg data →
  wp (process_conn q key c seg data) (λ r ps, net_post key gx gy off r.1 ps).
Proof.
  intros Hc Hs Hb [_ Hg]. unfold process_conn.
  destruct (has_flag (th_flags seg) TCP_RST && _) eqn:Er.
  { apply wp_ret, net_post_refl, conn_inv_state; try done; [by right|]. destruct (h_fin gx); [done|by right]. }
  pose proof (tx_state _ _ (ci_tx _ _ _ _ _ Hc)) as Ht.
  assert (Hidle : net_post key gx gy off c []) by (by apply net_post_refl).
  destruct (state c) eqn:Est; try (by destruct (h_fin gx); [|destruct Ht]); try (by apply wp_ret);
    cbn in Er; rewrite andb_true_r in Er; destruct Hg as [Hg|[Ha Hg]]; try congruence;
    (eapply wp_bind; [|intros c' ps Hp; apply wp_ret; rewrite app_nil_r; exact Hp]).
  - by apply net_established.
  - by apply net_fin_wait1.
  - by apply net_fin_wait2.
  - by apply net_closing.
  - by apply net_time_wait.
  - apply net_flush_send. by apply conn_inv_ack.
  - by apply net_last_ack.
Qed.

(** ** Timers at one end *)

Lemma net_tick_probe key gx gy off now c :
  conn_inv key gx gy off c →
  wp (tick_probe now c) (λ c' ps, conn_inv key gx gy off c' ∧ Forall (pkt_good key gx gy) ps).
Proof.
  intros Hc. pose proof (ci_ok _ _ _ _ _ Hc) as Hok. unfold tick_probe.
  destruct (_ || _).
  2:{ apply wp_ret. split; [|done]. eapply conn_inv_same; [exact Hc|by apply conn_ok_probe|done]. }
  destruct (probe_deadline c); [|by apply wp_ret]. destruct (_ <=? _); [|by apply wp_ret].
  eapply wp_bind; [apply wp_send_segment; [done|by_decide|split; by_decide]|]. intros _ ps ->.
  apply wp_ret. split.
  - eapply conn_inv_same; [exact Hc| |done]. destruct Hok. split; cbn; auto.
    unfold INITIAL_RTO, MAX_RTO, from_millis in *. lia.
  - rewrite app_nil_r. apply Forall_singleton.
    pose proof (tx_una _ _ (ci_tx _ _ _ _ _ Hc)). pose proof (tx_base _ _ (ci_tx _ _ _ _ _ Hc)).
    pose proof (ci_una _ _ _ _ _ Hc). pose proof (co_una c Hok) as Hu.
    eapply conn_packet_good; [done|by_decide|auto with minitcp|split; by_decide|].
    split; [done|]. right. split; [intros _|left].
    + change (rcv_nxt c ≤ h_high gx). pose proof (rx_high _ _ _ _ (ci_rx _ _ _ _ _ Hc)). lia.
    + cbn. rewrite wsub32_small; unfold uN in *; lia.
Qed.

Lemma tx_shape_front g f f' rest pending nxt :
  f'.(us_seq) = f.(us_seq) → f'.(us_flags) = f.(us_flags) → f'.(us_data) = f.(us_data) →
  tx_shape g (f :: rest) pending nxt → tx_shape g (f' :: rest) pending nxt.
Proof.
  intros E1 E2 E3 (acked & segs & fins & Eq & Estr & Hd & Hch & Hfin).
  assert (Ee : unacked_end f' = unacked_end f) by (unfold unacked_end; by rewrite E1, E2, E3).
  destruct segs as [|s segs]; cbn [app] in Eq.
  - exists acked, [], (f' :: rest). subst fins. split_and!; try done.
    + intros Hne. destruct (Hch ltac:(by left)) as [? ?]. split; [congruence|]. by rewrite Ee.
    + destruct Hfin as [[? _]|(Hg & f0 & E & ? & ?)]; [done|]. injection E as -> ->. right. split; [done|].
      exists f'. split_and!; [done|congruence|congruence].
  - injection Eq as <- ->. exists acked, (f' :: segs), fins. split_and!; [done| | | |].
    + rewrite Estr, !fmap_cons. by rewrite E3.
    + apply Forall_cons_iff in Hd as [? ?]. constructor; [congruence|done].
    + intros Hne. destruct (Hch ltac:(by left)) as [? ?]. cbn. split; [congruence|]. by rewrite Ee.
    + destruct Hfin as [[-> Hf]|Hf]; [|by right]. left. split; [done|]. intros E. by specialize (Hf E).
Qed.

Lemma net_tick_retransmit key gx gy off now c :
  conn_inv key gx gy off c →
  wp (tick_retransmit now c) (λ r ps, conn_inv key gx gy off r.1 ∧ Forall (pkt_good key gx gy) ps).
Proof.
  intros Hc. pose proof (ci_ok _ _ _ _ _ Hc) as Hok. unfold tick_retransmit.
  destruct (retransmit_queue c) as [|f rest] eqn:Eq; [by apply wp_ret|].
  destruct (_ <=? _); [|by apply wp_ret]. destruct (Z.leb_spec MAX_RETRIES (us_retry_count f)).
  { apply wp_ret. split; [|done]. apply conn_inv_state; try done; [by right|]. destruct (h_fin gx); [done|by right]. }
  pose proof (co_queue c Hok) as Hq. rewrite Eq in Hq. apply Forall_cons_iff in Hq as [Hf _].
  eapply wp_bind; [apply wp_send_segment; [done|apply Hf|by apply unacked_ok_data]|]. intros _ ps ->.
  apply wp_ret. cbn [fst]. rewrite app_nil_r. split.
  - pose proof (conn_ok_retransmitted now c f rest Hok Eq ltac:(lia)) as Hok'.
    destruct Hc as [_ Hk [? ? (pending & ? & Hsh) ? ?] [[] ? ? ?] Hu]. split; cbn; auto; [|split; auto; by split].
    split; cbn; auto. exists pending. split; [done|]. rewrite Eq in Hsh. by apply (tx_shape_front gx f).
  - apply Forall_singleton. eapply conn_packet_good; [done|apply Hf|apply Hf|by apply unacked_ok_data|].
    eapply tx_queued_good; [apply Hc|rewrite Eq; by left|done|done|].
    pose proof (rx_high _ _ _ _ (ci_rx _ _ _ _ _ Hc)) as Hh. pose proof (co_rcv c Hok). cbn.
    destruct (has_flag _ _); unfold uN in *; lia.
Qed.

Lemma net_tick_conn key gx gy off now c :
  conn_inv key gx gy off c → wp (tick_conn now c) (net_post key gx gy off).
Proof.
  intros Hc. unfold tick_conn. case_bool_decide as Etw.
  { apply wp_ret, net_post_refl. destruct (_ <=? _); [|done]. apply conn_inv_state; try done; [by right|].
    destruct (h_fin gx); [done|by right]. }
  eapply wp_bind; [by apply net_tick_probe|]. intros c1 ps [H1 Hps].
  eapply wp_bind; [by apply net_tick_retransmit|]. intros [c2 g] qs [H2 Hqs]. cbn [fst] in H2. destruct g.
  - apply wp_ret. rewrite app_nil_r. exists gx. split_and!; try done. by apply Forall_app.
  - eapply wp_mono; [by apply net_flush_send|]. intros c3 rs Hr. rewrite app_assoc.
    eapply net_post_trans; [done|done| |exact Hr]. by apply Forall_app.
Qed.
