(* ===== verification/TcpNetwork.v ===== *)
(** * Two hosts and an unreliable network

    Two hosts with an established connection between them, and a network
    that loses, delays, duplicates and reorders their packets at will, while
    both hosts serve other traffic, run their timers, send, receive and
    close.  The invariant: every packet a host has written for the
    connection is a piece of the stream its application sent; so what the
    other application reads is a prefix of that stream, and the end of the
    stream is not signalled before all of it is there. *)

From S2P Require Import Prelude Effects Ip TcpSegment TcpConn TcpSend TcpReceive TcpTable TcpInv TcpState TcpSystem TcpEmit TcpNet.

(** ** A host: the connection among others *)

Section Host.
Context (key : ConnectionKey) (gy : hist) (off : nat).

(** The table holds our connection, or no longer. *)
Definition holds (gx : hist) (t : TcpTable) : Prop :=
  ∀ c, t.(connections) !! key = Some c → conn_inv key gx gy off c.

Definition host_post (gx : hist) (t : TcpTable) (ps : list bytes) : Prop :=
  ∃ gx', hist_le gx gx' ∧ gx'.(h_str) = gx.(h_str) ∧ holds gx' t ∧ Forall (pkt_good key gx' gy) ps.

Lemma host_post_refl gx t : holds gx t → host_post gx t [].
Proof. intros H. by exists gx. Qed.

Lemma host_post_trans gx gx1 t ps qs :
  hist_le gx gx1 → gx1.(h_str) = gx.(h_str) → Forall (pkt_good key gx1 gy) ps →
  host_post gx1 t qs → host_post gx t (ps ++ qs).
Proof.
  intros H1 E1 Hps (gx2 & H2 & E2 & Hc & Hqs). exists gx2. split_and!; [by etrans|congruence|done|].
  apply Forall_app. split; [|done]. eapply Forall_impl; [|exact Hps]. intros p Hp. by eapply pkt_good_mono.
Qed.

Lemma host_put gx t c ps : net_post key gx gy off c ps → host_post gx (put_conn key c t) ps.
Proof.
  intros (gx' & H1 & E & Hc & Hps). exists gx'. split_and!; try done. intros c'. cbn.
  rewrite lookup_insert_eq. by intros [= <-].
Qed.

Lemma holds_put_other gx t k c : k ≠ key → holds gx t → holds gx (put_conn k c t).
Proof. intros Hne H c'. cbn. rewrite lookup_insert_ne by done. apply H. Qed.

Lemma others_good gx k ps : k ≠ key → Forall (own k) ps → Forall (pkt_good key gx gy) ps.
Proof. intros Hne Hps. eapply Forall_impl; [|exact Hps]. intros p. by apply own_other_good. Qed.

Lemma host_put_other gx t k c ps :
  k ≠ key → holds gx t → Forall (own k) ps → host_post gx (put_conn k c t) ps.
Proof. intros Hne H Hps. exists gx. split_and!; [done|done|by apply holds_put_other|by eapply others_good]. Qed.

Lemma host_cleanup gx t ps : host_post gx t ps → host_post gx (cleanup_closed_connections t) ps.
Proof.
  intros (gx' & H1 & E & Hc & Hps). exists gx'. split_and!; try done.
  intros c [? _]%map_lookup_filter_Some. by apply Hc.
Qed.

(** A reset for no connection is good whomever it meets. *)
Lemma rst_header_ok seg n : tcp_header_ok seg → tcp_header_ok (rst_header seg n).
Proof.
  intros (? & ? & ? & ? & _ & _ & _ & _). unfold rst_header, rst_fields, tcp_header_ok.
  destruct (has_flag _ TCP_ACK); cbn; split_and!; auto with minitcp; by_decide.
Qed.

Lemma rst_good gx h seg n :
  is_u32 h.(ip_src_addr) → is_u32 h.(ip_dst_addr) → tcp_header_ok seg →
  pkt_good key gx gy (tcp_packet h.(ip_dst_addr) h.(ip_src_addr) (rst_header seg n) []).
Proof.
  intros Hs Hd Hok h' seg' data' Hp' [Hpar' _ _] _.
  destruct (tcp_packet_received (ip_dst_addr h) (ip_src_addr h) (rst_header seg n) [])
    as (r & k & _ & Hp & _ & _ & _ & _ & _ & Hpar & _); auto.
  { by apply rst_header_ok. }
  { by constructor. }
  { by_decide. }
  rewrite Hp in Hp'. injection Hp' as <-. change IP_HEADER_LEN with 20%nat in Hpar'. rewrite Hpar in Hpar'.
  injection Hpar' as <-. unfold seg_good, rst_header, rst_fields. destruct (has_flag _ TCP_ACK); (split; [done|by left]).
Qed.

(** Incoming packets: those for our connection come from the other end. *)
Definition fed (soup : list bytes) (h : IpHeader) (payload : bytes) : Prop :=
  ∀ seg data, arrives h payload seg data → segment_key h seg = key →
    ∃ p, p ∈ soup ∧ parse_ip_header p = Some h ∧ payload = drop IP_HEADER_LEN p.

Lemma fed_good gx soup h payload seg data :
  Forall (pkt_good (flip key) gy gx) soup → fed soup h payload → arrives h payload seg data →
  segment_key h seg = key → seg_good gy gx seg data.
Proof.
  intros Hsoup Hfed Har Hk. destruct (Hfed seg data Har Hk) as (p & Hin & Hp & ->).
  rewrite Forall_forall in Hsoup. eapply (Hsoup p); [by apply list_elem_of_In|exact Hp|exact Har|].
  by rewrite flip_flip.
Qed.

Lemma host_process_segment gx t k seg data :
  table_ok t → holds gx t → is_Some (t.(connections) !! k) → tcp_header_ok seg → bytes_ok data →
  (k = key → seg_good gy gx seg data) →
  wp (process_segment t k seg data) (host_post gx).
Proof.
  intros Ht Hh [c Hc] Hs Hb Hg. unfold process_segment.
  eapply wp_bind; [apply (wp_lift _ c (λ a ps, a = c ∧ ps = [])); done|]. intros c0 ps [-> ->].
  destruct (decide (k = key)) as [->|Hne].
  - eapply wp_bind; [apply net_process_conn; auto; by apply Hh|]. intros [c' q] ps Hp. apply wp_ret.
    rewrite app_nil_r. apply (host_put gx t) in Hp. exact Hp.
  - destruct (table_ok_conn t k c Ht Hc) as [Hok Hk].
    eapply wp_bind; [by apply own_process_conn|]. intros [c' q] ps [_ Hp]. apply wp_ret.
    rewrite app_nil_r. apply (host_put_other gx t k c' ps Hne Hh) in Hp. exact Hp.
Qed.

(** The connections the two ways of opening start from. *)
Lemma wp_conn_new :
  wp conn_new (λ c ps, ps = [] ∧ ∃ tw, c = fresh_conn Closed (mkConnectionKey 0 0 0 0) 0 65535 0 0 tw).
Proof.
  eapply wp_bind; [apply (wp_now (λ _ ps, ps = [])); done|]. intros now ps ->. apply wp_ret.
  split; [done|]. by exists now.
Qed.

Lemma wp_passive_open h seg :
  wp (passive_open h seg) (λ c ps, ps = [] ∧ ∃ iss0 tw, is_u32 iss0 ∧
    c = fresh_conn SynRcvd (segment_key h seg) iss0 seg.(th_window) seg.(th_seq_num) (wadd32 seg.(th_seq_num) 1) tw).
Proof.
  eapply wp_bind; [apply wp_conn_new|]. intros c ps (-> & tw & ->).
  eapply wp_bind; [apply (wp_rand (λ v ps, is_u32 v ∧ ps = [])); auto|].
  intros iss0 ps [Hi ->]. apply wp_ret. split; [done|]. by exists iss0, tw.
Qed.

Lemma wp_active_open la lp ra rp :
  wp (active_open la lp ra rp) (λ c ps, ps = [] ∧ ∃ iss0 tw, is_u32 iss0 ∧
    c = fresh_conn SynSent (mkConnectionKey la lp ra rp) iss0 65535 0 0 tw).
Proof.
  eapply wp_bind; [apply wp_conn_new|]. intros c ps (-> & tw & ->).
  eapply wp_bind; [apply (wp_rand (λ v ps, is_u32 v ∧ ps = [])); auto|].
  intros iss0 ps [Hi ->]. apply wp_ret. split; [done|]. by exists iss0, tw.
Qed.

(** A connection registered under another key. *)
Lemma host_open gx t k c flags :
  holds gx t → k ≠ key → conn_ok c → conn_key c = k → is_u8 flags →
  wp (conn ← lift ((put_conn k c t).(connections) !! k); conn ← queue_and_send conn flags [];
      mret (put_conn k conn (put_conn k c t))) (host_post gx).
Proof.
  intros Hh Hne Hc Hk Hf.
  eapply wp_bind; [apply (wp_lift _ c (λ a ps, a = c ∧ ps = [])); [apply lookup_insert_eq|done]|].
  intros c0 ps [-> ->]. eapply wp_bind; [by apply wp_queue_and_send; auto using seg_data_nil|].
  intros c' ps [_ ->]. apply wp_ret. rewrite app_nil_r. apply host_put_other; [done|by apply holds_put_other|].
  apply Forall_singleton. rewrite <- Hk. apply own_packet; auto using seg_data_nil. apply Hc.
Qed.

Lemma host_handle_segment gx soup t h payload :
  table_ok t → holds gx t → is_u32 h.(ip_src_addr) → is_u32 h.(ip_dst_addr) → bytes_ok payload →
  len payload ≤ 65535 → Forall (pkt_good (flip key) gy gx) soup → fed soup h payload →
  wp (handle_segment t h payload) (host_post gx).
Proof.
  intros Ht Hh Hsrc Hdst Hb Hl Hsoup Hfed. unfold handle_segment.
  assert (Hidle : host_post gx t []) by (by apply host_post_refl).
  case_decide; [by apply wp_ret|]. destruct (parse_tcp_header payload) as [seg|] eqn:Ep; [|by apply wp_ret].
  pose proof (parse_tcp_header_ok payload seg Hb Ep) as Hs.
  eapply wp_bind; [eapply (wp_lift _ _ (λ a ps, a = _ ∧ ps = [])); [apply tcp_checksum_eq; [done|lia]|done]|].
  intros csum ps [Ecs ->]. destruct (negb (csum =? 0)) eqn:Ez; [by apply wp_ret|].
  assert (Hgood : segment_key h seg = key → seg_good gy gx seg (drop TCP_HEADER_LEN payload)).
  { intros Hk. eapply fed_good; [done..| |done]. split; [done| |done].
    rewrite tcp_checksum_eq by (done || lia). rewrite <- Ecs. f_equal.
    apply negb_false_iff, Z.eqb_eq in Ez. done. }
  case_bool_decide as Ek.
  { eapply wp_bind; [apply (host_process_segment gx); [done|done|done|done|by apply bytes_ok_drop|done]|]. intros t' ps Hp. apply wp_ret.
    rewrite app_nil_r. by apply host_cleanup. }
  destruct (has_flag (th_flags seg) TCP_SYN && _ && _) eqn:Esyn.
  - assert (Hne : segment_key h seg ≠ key).
    { intros Hk. destruct (Hgood Hk) as [Hnosyn _]. rewrite Hnosyn in Esyn. done. }
    destruct Hs as (? & ? & ? & ? & _ & _ & ? & _).
    eapply wp_bind; [apply wp_passive_open|]. intros c ps (-> & iss0 & tw & Hi & ->).
    apply host_open; [done|done| |done|by_decide]. apply fresh_ok; auto with minitcp. by split_and!.
  - destruct (negb (has_flag (th_flags seg) TCP_RST)); [|by apply wp_ret].
    set (p := tcp_packet (ip_dst_addr h) (ip_src_addr h)
      (rst_header seg (length (drop TCP_HEADER_LEN payload))) []).
    eapply wp_bind; [apply (wp_emit _ tt p (λ _ ps, ps = [p])); [|done]; intros w; by apply send_rst_for_unknown_eq|].
    intros _ ps ->. apply wp_ret. rewrite app_nil_r. exists gx. split_and!; try done.
    apply Forall_singleton. by apply rst_good.
Qed.

Lemma host_tick_loop gx now keys t :
  table_ok t → holds gx t → Forall (λ k, is_Some (t.(connections) !! k)) keys →
  wp (tick_loop now keys t) (host_post gx).
Proof.
  revert gx t. induction keys as [|k keys IH]; intros gx t Ht Hh Hk; cbn [tick_loop].
  { by apply wp_ret, host_post_refl. }
  apply Forall_cons_iff in Hk as [[c Hc] Hk]. destruct (table_ok_conn t k c Ht Hc) as [Hok Hkey].
  eapply wp_bind; [apply (wp_lift _ c (λ a ps, a = c ∧ ps = [])); done|]. intros c0 ps [-> ->].
  assert (Hput : ∀ c', conn_ok c' → conn_key c' = k → table_ok (put_conn k c' t) ∧
    Forall (λ k', is_Some ((put_conn k c' t).(connections) !! k')) keys).
  { intros c' ? ?. split; [by apply table_ok_put|]. eapply Forall_impl; [|exact Hk]. intros k' ?. cbn.
    by apply lookup_insert_is_Some'; auto. }
  destruct (decide (k = key)) as [->|Hne].
  - eapply wp_bind; [apply net_tick_conn; by apply Hh|]. intros c' ps (gx1 & Hle & Estr & Hc' & Hps).
    destruct (Hput c') as [Ht' Hk']; [apply Hc'..|].
    eapply wp_mono; [apply (IH gx1); [done| |done]|].
    { intros c2. cbn. rewrite lookup_insert_eq. by intros [= <-]. }
    intros t' qs. cbn [app]. by apply host_post_trans.
  - eapply wp_bind.
    { apply (sends_result (own k) _ (own_result k)); [by apply own_tick_conn|]. intros w.
      destruct (tick_conn_ok now c w Hok) as (c' & w' & E & ? & ? & _). exists c', w'. split; [done|]. split; congruence. }
    intros c' ps [[? ?] Hps]. destruct (Hput c') as [Ht' Hk']; [done..|].
    eapply wp_mono; [apply (IH gx); [done|by apply holds_put_other|done]|].
    intros t' qs. cbn [app]. apply host_post_trans; [done|done|]. by eapply others_good.
Qed.

Lemma host_tick gx t : table_ok t → holds gx t → wp (tick t) (host_post gx).
Proof.
  intros Ht Hh. eapply wp_bind; [apply (wp_now (λ _ ps, ps = [])); done|]. intros now ps ->.
  eapply wp_bind; [apply (wp_visit_order _ (λ l ps, l ≡ₚ (map_to_list t.(connections)).*1 ∧ ps = [])); done|].
  intros keys ps [Hp ->]. eapply wp_bind; [apply (host_tick_loop gx); [done|done|by apply keys_present]|].
  intros t' ps Hps. apply wp_ret. cbn [app]. rewrite app_nil_r. by apply host_cleanup.
Qed.

Lemma host_connect gx t la ra rp :
  table_ok t → holds gx t → is_u32 la → is_u32 ra → is_u16 rp →
  mkConnectionKey la t.(next_ephemeral_port) ra rp ≠ key →
  wp (connect t la ra rp) (λ r ps, host_post gx r.2 ps).
Proof.
  intros Ht Hh Hla Hra Hrp Hne. unfold connect, allocate_ephemeral_port. cbv beta iota zeta.
  set (t1 := set_next_ephemeral_port _ t). pose proof (to_port t Ht).
  eapply wp_bind; [apply wp_active_open|]. intros c ps (-> & iss0 & tw & Hi & ->).
  set (k := mkConnectionKey _ _ _ _) in *. set (c0 := fresh_conn _ _ _ _ _ _ _).
  assert (Hok : conn_ok c0) by (apply fresh_ok; try done; by_decide).
  eapply wp_mono; [|intros r ps Hr; exact Hr].
  assert (Hw := host_open gx t1 k c0 TCP_SYN Hh Hne Hok eq_refl ltac:(by_decide)).
  intros w. destruct (Hw w) as (t' & w' & ps & E & Hs & Hx & Hp).
  exists (k, t'), w', ps. split_and!; try done. revert E. unfold mbind, M_bind.
  destruct (lift _ w) as [[c1 w1]|]; [|done]. destruct (queue_and_send _ _ _ _) as [[c2 w2]|]; [|done].
  by intros [= <- <-].
Qed.

(** [send] and [close] on another connection. *)
Lemma host_send_other gx t k data :
  table_ok t → holds gx t → k ≠ key → bytes_ok data → wp (send t k data) (λ r ps, host_post gx r.2 ps).
Proof.
  intros Ht Hh Hne Hd. unfold send. destruct (connections t !! k) as [c|] eqn:Ec.
  2:{ by apply wp_ret, host_post_refl. }
  destruct (table_ok_conn t k c Ht Ec) as [Hok Hk].
  eapply wp_bind.
  { apply (own_flush_send k). split; [|exact Hk]. destruct Hok. split; cbn; auto. apply bytes_ok_app. auto with minitcp. }
  intros c' ps [_ Hps]. apply wp_ret. rewrite app_nil_r. by apply host_put_other.
Qed.

Lemma conn_inv_closing gx c :
  conn_inv key gx gy off c → can_send c.(state) = true → conn_inv key gx gy off (set_pending_close true c).
Proof.
  intros Hc Hs. eapply conn_inv_same; [exact Hc| |done]. destruct (ci_ok _ _ _ _ _ Hc). split; cbn; auto.
Qed.

Lemma host_close gx t k : table_ok t → holds gx t → wp (close t k) (host_post gx).
Proof.
  intros Ht Hh. unfold close. destruct (connections t !! k) as [c|] eqn:Ec.
  2:{ by apply wp_ret, host_post_refl. }
  destruct (table_ok_conn t k c Ht Ec) as [Hok Hk]. destruct (decide (k = key)) as [->|Hne].
  - specialize (Hh c Ec). eapply (wp_bind _ _ (net_post key gx gy off)).
    + pose proof (tx_state _ _ (ci_tx _ _ _ _ _ Hh)) as Hs.
      destruct (state c) eqn:Es; try (by apply wp_ret, net_post_refl); try (by destruct (h_fin gx); [|destruct Hs]).
      all: by apply net_flush_send, conn_inv_closing; [|rewrite Es].
    + intros c' ps Hp. apply wp_ret. rewrite app_nil_r. by apply host_put.
  - eapply (wp_bind _ _ (λ _ ps, Forall (own k) ps)).
    + destruct (state c) eqn:Es; try (by apply wp_ret).
      all: eapply wp_mono; [apply (own_flush_send k)|by intros c' ps [_ ?]].
      all: split; [|exact Hk]; destruct Hok; split; cbn; auto; intros _; left; by rewrite Es.
    + intros c' ps Hp. apply wp_ret. rewrite app_nil_r. by apply host_put_other.
Qed.
End Host.

(** ** Endpoints *)

(** A host with what the connection's application has sent and got.  Bytes
    that [send] takes after the FIN are not part of the stream. *)
Record endpoint := mkEndpoint {
  e_table : TcpTable;
  e_world : World;
  e_sent : bytes;
  e_got : bytes;
}.

Definition stream_part (t : TcpTable) (key : ConnectionKey) (taken : bytes) : bytes :=
  match t.(connections) !! key with
  | Some c => if can_send c.(state) then taken else []
  | None => []
  end.

(** Operations that are not the application's own: packets for the
    connection are among those the other end has written ([soup]), and the
    key is not given to a second connection. *)
Definition admissible (key : ConnectionKey) (soup : list bytes) (t : TcpTable) (op : table_op) : Prop :=
  match op with
  | OpSegment h payload => fed key soup h payload
  | OpConnect la ra rp => mkConnectionKey la t.(next_ephemeral_port) ra rp ≠ key
  | OpSend k _ | OpRecv k _ => k ≠ key
  | _ => True
  end.

Inductive endpoint_step (key : ConnectionKey) (soup : list bytes) : endpoint → endpoint → Prop :=
  | step_op op t w sent got t' w' :
      op_ok op → admissible key soup t op → run_op op t w = Some (t', w') →
      endpoint_step key soup (mkEndpoint t w sent got) (mkEndpoint t' w' sent got)
  | step_send data n t w sent got t' w' :
      bytes_ok data → send t key data w = Some ((n, t'), w') →
      endpoint_step key soup (mkEndpoint t w sent got)
        (mkEndpoint t' w' (sent ++ stream_part t key (take (Z.to_nat n) data)) got)
  | step_recv room t w sent got :
      endpoint_step key soup (mkEndpoint t w sent got)
        (mkEndpoint (recv t key room).2 w sent (got ++ (recv t key room).1)).

(** The two hosts: either takes a step, with the packets of the other as
    input; nothing is ever removed from what may still arrive. *)
Inductive net_step (key : ConnectionKey) : endpoint * endpoint → endpoint * endpoint → Prop :=
  | net_left a a' b :
      endpoint_step key b.(e_world).(w_sent) a a' → net_step key (a, b) (a', b)
  | net_right a b b' :
      endpoint_step (flip key) a.(e_world).(w_sent) b b' → net_step key (a, b) (a, b').

(** The invariant of one host. *)
Record host_inv (key : ConnectionKey) (gx gy : hist) (e : endpoint) : Prop := {
  hi_table : table_ok e.(e_table);
  hi_conn : holds key gy (length e.(e_got)) gx e.(e_table);
  hi_str : gx.(h_str) = e.(e_sent);
  hi_got : e.(e_got) `prefix_of` gy.(h_str);
  hi_base : 1 ≤ gx.(h_base);
  hi_wire : Forall (pkt_good key gx gy) e.(e_world).(w_sent);
}.

Lemma tx_extend gx c d :
  tx_inv gx c → can_send c.(state) = true → gx.(h_base) + len (gx.(h_str) ++ d) + 1 < 2 ^ 32 →
  tx_inv (mkHist gx.(h_base) (gx.(h_str) ++ d) gx.(h_fin) gx.(h_high)) (set_send_pending (c.(send_pending) ++ d) c).
Proof.
  intros [Hb _ (pending & Hp & acked & segs & fins & Eq & Estr & Hd & Hch & Hfin) Hst Hu] Hs Hfit.
  rewrite (Hp Hs) in Estr. assert (Hg : h_fin gx = false) by (destruct (h_fin gx); [|done]; by destruct (state c)).
  split; cbn; auto. exists (send_pending c ++ d). split; [done|]. exists acked, segs, fins. cbn.
  split_and!; try done. rewrite Estr, Hg. by rewrite <- !app_assoc.
Qed.

Lemma host_send key gx gy off t data w n t' w' :
  table_ok t → holds key gy off gx t → bytes_ok data → send t key data w = Some ((n, t'), w') →
  let part := stream_part t key (take (Z.to_nat n) data) in
  gx.(h_base) + len (gx.(h_str) ++ part) + 1 < 2 ^ 32 →
  ∃ ps gx', w'.(w_sent) = w.(w_sent) ++ ps ∧ hist_le gx gx' ∧ gx'.(h_str) = gx.(h_str) ++ part ∧
    holds key gy off gx' t' ∧ Forall (pkt_good key gx' gy) ps.
Proof.
  intros Ht Hh Hb E part Hfit. unfold part, stream_part in *. clear part. unfold send in E.
  destruct (connections t !! key) as [c|] eqn:Ec.
  2:{ injection E as <- <- <-. exists [], gx. rewrite !app_nil_r. split_and!; auto; done. }
  destruct (table_ok_conn t key c Ht Ec) as [Hok Hk]. specialize (Hh c Ec).
  apply bind_inv in E as (c' & w1 & E & [= <- <- <-]).
  set (d := take _ data) in *. set (c1 := set_send_pending _ c) in E.
  assert (Hok1 : conn_ok c1).
  { destruct Hok. split; cbn; auto. apply bytes_ok_app. split; [done|]. unfold d. auto with minitcp. }
  set (part := if can_send (state c) then d else []) in *.
  set (gx1 := mkHist (h_base gx) (h_str gx ++ part) (h_fin gx) (h_high gx)).
  assert (Hle : hist_le gx gx1).
  { split; cbn; auto; [by apply prefix_app_r| |lia]. intros Hf. split; [done|].
    destruct (can_send (state c)) eqn:Es; [|apply app_nil_r].
    pose proof (can_send_open _ _ _ _ _ Hh Es). congruence. }
  assert (H1 : conn_inv key gx1 gy off c1).
  { destruct Hh as [_ _ Htx [[] ? ? ?] Hu]. split; [done|done| |split; cbn; auto; by split|done].
    unfold gx1, part in *. destruct (can_send (state c)) eqn:Es; [by apply tx_extend|]. rewrite app_nil_r in *.
    destruct Htx as [? ? (pending & ? & ?) ? ?]. split; cbn; auto. exists pending. rewrite Es. done. }
  destruct (wp_run _ _ _ _ _ (net_flush_send _ _ _ _ _ H1) E) as (ps & Hs & _ & gx2 & Hle2 & Estr & Hc2 & Hps).
  exists ps, gx2. split_and!; [done|by etrans|done| |done].
  intros c2. cbn. rewrite lookup_insert_eq. by intros [= <-].
Qed.

Lemma host_op key gx gy off soup op t w t' w' :
  table_ok t → holds key gy off gx t → Forall (pkt_good (flip key) gy gx) soup →
  op_ok op → admissible key soup t op → run_op op t w = Some (t', w') →
  ∃ ps, w'.(w_sent) = w.(w_sent) ++ ps ∧ host_post key gy off gx t' ps.
Proof.
  intros Ht Hh Hsoup Hop Hadm E.
  assert (Hquiet : ∀ t'', holds key gy off gx t'' → (mret t'' : M TcpTable) w = Some (t', w') →
            ∃ ps, w'.(w_sent) = w.(w_sent) ++ ps ∧ host_post key gy off gx t' ps).
  { intros t'' Hh' [= <- <-]. exists []. rewrite app_nil_r. split; [done|]. by apply host_post_refl. }
  assert (Hwp : ∀ m, wp m (host_post key gy off gx) → m w = Some (t', w') →
            ∃ ps, w'.(w_sent) = w.(w_sent) ++ ps ∧ host_post key gy off gx t' ps).
  { intros m Hm E'. destruct (wp_run _ _ _ _ _ Hm E') as (ps & ? & _ & ?). by exists ps. }
  assert (Hsnd : ∀ A (m : M (A * TcpTable)), wp m (λ r ps, host_post key gy off gx r.2 ps) →
            wp (r ← m; mret r.2) (host_post key gy off gx)).
  { intros A m Hm. eapply wp_bind; [exact Hm|]. intros r ps Hr. apply wp_ret. by rewrite app_nil_r. }
  destruct op; cbn [run_op op_ok admissible] in *.
  - destruct Hop as (? & ? & ? & ?). eapply Hwp; [|exact E]. by eapply host_handle_segment.
  - eapply Hwp; [|exact E]. by apply host_tick.
  - eapply Hquiet; [|exact E]. unfold listen. by destruct (address_in_use _ _ _ _).
  - eapply Hquiet; [|exact E]. unfold accept. by destruct (accept_queues t !! _) as [[|]|].
  - destruct Hop as (? & ? & ?). eapply Hwp; [|exact E]. apply Hsnd. by apply host_connect.
  - eapply Hwp; [|exact E]. apply Hsnd. by apply host_send_other.
  - eapply Hquiet; [|exact E]. unfold recv. destruct (connections t !! key0) as [c|]; [|done].
    destruct (conn_recv c room). by apply holds_put_other.
  - eapply Hwp; [|exact E]. by apply host_close.
  - eapply Hquiet; [|exact E]. unfold set_recv_cap. destruct (connections t !! key0) as [c|] eqn:Ec; [|done].
    destruct (decide (key0 = key)) as [->|]; [|by apply holds_put_other]. intros c'. cbn. rewrite lookup_insert_eq.
    intros [= <-]. eapply conn_inv_same; [by apply Hh|apply conn_ok_recv_cap; by eapply Hh|done].
  - eapply Hquiet; [|exact E]. unfold set_send_cap. destruct (connections t !! key0) as [c|] eqn:Ec; [|done].
    destruct (decide (key0 = key)) as [->|]; [|by apply holds_put_other]. intros c'. cbn. rewrite lookup_insert_eq.
    intros [= <-]. eapply conn_inv_same; [by apply Hh|apply conn_ok_send_cap; by eapply Hh|done].
Qed.

(** Reading. *)
Lemma conn_inv_recv key gx gy got c room :
  conn_inv key gx gy (length got) c → got `prefix_of` gy.(h_str) →
  let r := conn_recv c room in
  conn_inv key gx gy (length (got ++ r.2)) r.1 ∧ (got ++ r.2) `prefix_of` gy.(h_str).
Proof.
  intros [Hok Hk Htx Hrx Hu] [rest Erest]. cbv zeta.
  pose proof (conn_recv_inv _ _ _ c room (rx_stream _ _ _ _ Hrx)) as Hr.
  assert (Hsame : let c' := (conn_recv c room).1 in
    c'.(state) = c.(state) ∧ conn_key c' = conn_key c ∧ c'.(snd_una) = c.(snd_una) ∧ c'.(rcv_nxt) = c.(rcv_nxt) ∧
    (tx_inv gx c → tx_inv gx c') ∧ conn_ok c').
  { unfold conn_recv. destruct (_ <? _)%nat; cbn; [|done]. split_and!; try done.
    - intros []. by split.
    - destruct Hok. split; cbn; auto with minitcp. }
  destruct (conn_recv c room) as [c' d]. cbn [fst snd] in *.
  destruct Hr as (Hi & (H0 & Hl & Hd) & Ed), Hsame as (Es & Ek & Eu & En & Ht & Hok').
  rewrite length_app. split.
  - split; [done|congruence|auto| |congruence]. destruct Hrx as [Hi0 Hh Ho He]. split; [done|congruence| |by rewrite Es, En].
    intros Hf. destruct (si_nxt _ _ _ _ Hi) as [?|[Hn Hend]]; [done|]. specialize (Ho Hf).
    pose proof (si_off _ _ _ _ Hi0). rewrite En in Hn. unfold len in *. lia.
  - rewrite Nat2Z.id in Hd. rewrite Erest in Hd |- *. apply prefix_app. rewrite drop_app_length in Hd. rewrite Hd.
    apply prefix_take.
Qed.

(** The other end has moved on. *)
Lemma conn_inv_grow key gx gy gy' off c :
  conn_inv key gx gy off c → hist_le gy gy' → gy'.(h_base) + len gy'.(h_str) + 1 < 2 ^ 32 →
  conn_inv key gx gy' off c.
Proof.
  intros [Hok Hk Htx [Hi Hh Ho He] Hu] [Eb Ep Ef El] Hfit. split; [done|done|done| |lia].
  pose proof (si_off _ _ _ _ Hi) as Hoff. pose proof (prefix_length _ _ Ep) as Hlen.
  assert (Hend : rcv_nxt c = h_base gy + len (h_str gy) + 1 → h_str gy' = h_str gy).
  { intros Hn. destruct (h_fin gy) eqn:Efin; [by apply Ef|]. specialize (Ho eq_refl). unfold len in *. lia. }
  assert (Hopen : h_fin gy' = false → h_fin gy = false) by (destruct (h_fin gy); [intros ?; destruct (Ef eq_refl); congruence|done]).
  split; [|done|rewrite Eb; auto|intros Hs; rewrite Eb, Hend; auto].
  destruct Hi as [Ha Hb Hf Ho' Hbuf Hn Hooo]. rewrite Eb in *. split; try done.
  - lia.
  - destruct Ep as [k ->]. rewrite drop_app_le by lia. rewrite take_app_le by (rewrite length_drop; lia). done.
  - destruct Hn as [?|[Hn ?]]; [by left|right]. rewrite (Hend Hn). done.
  - eapply map_Forall_impl; [exact Hooo|]. cbn. intros k v [? ?]. split; [|done]. by eapply stream_slice_prefix.
Qed.

Lemma host_inv_grow key gx gy gy' e :
  host_inv key gx gy e → hist_le gy gy' → gy'.(h_base) + len gy'.(h_str) + 1 < 2 ^ 32 →
  host_inv key gx gy' e.
Proof.
  intros [Ht Hc Hs Hg Hb Hw] Hle Hfit. split; [done| |done| |done|].
  - intros c Hk. eapply conn_inv_grow; eauto.
  - etrans; [exact Hg|apply Hle].
  - eapply Forall_impl; [|exact Hw]. intros p. by apply pkt_good_mono.
Qed.

(** The stream only grows. *)
Lemma endpoint_step_sent key soup e e' : endpoint_step key soup e e' → e.(e_sent) `prefix_of` e'.(e_sent).
Proof. intros []; cbn; [done|by apply prefix_app_r|done]. Qed.

(** One step of one host. *)
Lemma host_step key gx gy soup e e' :
  host_inv key gx gy e → Forall (pkt_good (flip key) gy gx) soup → endpoint_step key soup e e' →
  gx.(h_base) + len e'.(e_sent) + 1 < 2 ^ 32 →
  ∃ gx', hist_le gx gx' ∧ host_inv key gx' gy e'.
Proof.
  intros [Ht Hc Hs Hg Hb Hw] Hsoup Hstep Hfit.
  assert (Hwire : ∀ gx' w' ps, hist_le gx gx' → w_sent w' = w_sent (e_world e) ++ ps →
            Forall (pkt_good key gx' gy) ps → Forall (pkt_good key gx' gy) (w_sent w')).
  { intros gx' w' ps Hle -> Hps. apply Forall_app. split; [|done]. eapply Forall_impl; [|exact Hw].
    intros p. by apply pkt_good_mono. }
  destruct Hstep as [op t w sent got t' w' Hop Hadm E|data n t w sent got t' w' Hd E|room t w sent got];
    cbn [e_table e_world e_sent e_got] in *.
  - destruct (run_op_ok op t w Ht Hop) as (t2 & w2 & E2 & Ht' & _). rewrite E in E2. injection E2 as <- <-.
    destruct (host_op _ _ _ _ _ _ _ _ _ _ Ht Hc Hsoup Hop Hadm E) as (ps & Es & gx' & Hle & Estr & Hc' & Hps).
    exists gx'. split; [done|]. pose proof (hl_base _ _ Hle).
    split; cbn; [done|done|congruence|done|lia|by eapply Hwire].
  - destruct (send_ok t key data w Ht Hd) as (r & w2 & E2 & Ht' & _). rewrite E in E2. injection E2 as <- <-.
    destruct (host_send _ _ _ _ _ _ _ _ _ _ Ht Hc Hd E) as (ps & gx' & Es & Hle & Estr & Hc' & Hps).
    { by rewrite Hs. }
    exists gx'. split; [done|]. pose proof (hl_base _ _ Hle).
    split; cbn; [done|done|congruence|done|lia|by eapply Hwire].
  - exists gx. split; [done|]. pose proof (recv_ok t key room Ht) as Ht'. unfold recv in *.
    destruct (connections t !! key) as [c|] eqn:Ec; [|rewrite app_nil_r; by split].
    pose proof (conn_inv_recv key gx gy got c room (Hc c Ec) Hg) as [Hci Hgi].
    destruct (conn_recv c room) as [c' d]. cbn [fst snd] in *. split; cbn; try done.
    intros c2. cbn. rewrite lookup_insert_eq. by intros [= <-].
Qed.

(** The two hosts. *)
Definition net_inv (key : ConnectionKey) (na nb : u32) (s : endpoint * endpoint) : Prop :=
  ∃ ga gb, ga.(h_base) = na ∧ gb.(h_base) = nb ∧ host_inv key ga gb s.1 ∧ host_inv (flip key) gb ga s.2.

(** Sequence numbers do not wrap: the code compares them as plain integers. *)
Definition net_bounded (na nb : u32) (s : endpoint * endpoint) : Prop :=
  na + len s.1.(e_sent) + 1 < 2 ^ 32 ∧ nb + len s.2.(e_sent) + 1 < 2 ^ 32.

Lemma net_step_inv key na nb s s' :
  net_inv key na nb s → net_step key s s' → net_bounded na nb s' → net_inv key na nb s'.
Proof.
  intros (ga & gb & Ea & Eb & Ha & Hb) Hstep [Fa Fb]. destruct Hstep as [a a' b Hst|a b b' Hst]; cbn [fst snd] in *.
  - destruct (host_step key ga gb _ a a' Ha (hi_wire _ _ _ _ Hb) Hst) as (ga' & Hle & Ha'); [by rewrite Ea|].
    exists ga', gb. rewrite (hl_base _ _ Hle). split_and!; try done. eapply host_inv_grow; [done..|].
    rewrite (hl_base _ _ Hle), (hi_str _ _ _ _ Ha'), Ea. done.
  - destruct (host_step (flip key) gb ga (w_sent (e_world a)) b b' Hb) as (gb' & Hle & Hb').
    + rewrite flip_flip. apply (hi_wire _ _ _ _ Ha).
    + done.
    + by rewrite Eb.
    + exists ga, gb'. rewrite (hl_base _ _ Hle). split_and!; try done. eapply host_inv_grow; [done..|].
      rewrite (hl_base _ _ Hle), (hi_str _ _ _ _ Hb'), Eb. done.
Qed.

Lemma net_step_bounded key na nb s s' : net_step key s s' → net_bounded na nb s' → net_bounded na nb s.
Proof.
  intros Hstep [Ha Hb]. destruct Hstep as [a a' b Hst|a b b' Hst];
    apply endpoint_step_sent, prefix_length in Hst; split; cbn [fst snd] in *; unfold len in *; lia.
Qed.

Lemma net_run_inv key na nb s s' :
  net_inv key na nb s → rtc (net_step key) s s' → net_bounded na nb s' → net_inv key na nb s'.
Proof.
  intros Hs Hrun Hb. induction Hrun as [s|s1 s2 s3 Hstep Hrun IH]; [done|].
  apply IH; [|done]. eapply net_step_inv; [exact Hs|exact Hstep|]. clear -Hrun Hb.
  induction Hrun as [|s1 s2 s3 Hstep _ IH]; [done|]. eapply net_step_bounded; [exact Hstep|auto].
Qed.

(** Both ends established, nothing sent yet, no packet under way. *)
Definition net_start (key : ConnectionKey) (na nb : u32) (s : endpoint * endpoint) : Prop :=
  let '(a, b) := s in
  table_ok a.(e_table) ∧ table_ok b.(e_table) ∧
  (∃ ca wnd, a.(e_table).(connections) !! key = Some ca ∧ idle key na nb wnd ca) ∧
  (∃ cb wnd, b.(e_table).(connections) !! flip key = Some cb ∧ idle (flip key) nb na wnd cb) ∧
  a.(e_sent) = [] ∧ a.(e_got) = [] ∧ b.(e_sent) = [] ∧ b.(e_got) = [] ∧
  a.(e_world).(w_sent) = [] ∧ b.(e_world).(w_sent) = [] ∧ 1 ≤ na ∧ 1 ≤ nb.

Lemma idle_conn_inv key na nb wnd c :
  idle key na nb wnd c → 1 ≤ na → 1 ≤ nb → na + 1 < 2 ^ 32 → nb + 1 < 2 ^ 32 →
  conn_inv key (mkHist na [] false nb) (mkHist nb [] false na) 0 c.
Proof.
  intros [Hok Hk Hst Hu Hn Hw Hr Hq Ho Hb Hp _ _ _] Ha1 Hb1 Ha Hb2. split; [done|done| | |cbn; lia].
  - split; cbn; [done|by rewrite Z.add_0_r| |rewrite Hst; by left|lia].
    exists []. rewrite Hp, Hq, Hn. split; [done|]. exists [], [], []. split_and!; try done; [|by left].
    intros _. unfold len. cbn. lia.
  - split; cbn; [|done|rewrite Hb, Hr; unfold len; cbn; lia|by rewrite Hst].
    split; cbn; rewrite ?Hb, ?Ho, ?Hr; unfold len; cbn; auto; try lia; [apply Hok|].
    apply map_Forall_empty.
Qed.

Lemma net_start_inv key na nb s : net_start key na nb s → net_bounded na nb s → net_inv key na nb s.
Proof.
  destruct s as [[ta wa sa ra] [tb wb sb rb]]. cbn. unfold net_bounded. cbn.
  intros (Hta & Htb & (ca & wnda & Eca & Ia) & (cb & wndb & Ecb & Ib) & -> & -> & -> & -> & Ewa & Ewb & Ha & Hb) [Fa Fb].
  cbn in Fa, Fb. rewrite Z.add_0_r in *.
  exists (mkHist na [] false nb), (mkHist nb [] false na). split_and!; try done.
  - split; cbn; try done; [|by rewrite Ewa]. intros c. rewrite Eca. intros [= <-]. by eapply idle_conn_inv.
  - split; cbn; try done; [|by rewrite Ewb]. intros c. rewrite Ecb. intros [= <-]. by eapply idle_conn_inv.
Qed.

(** ** Theorem *)

(** What [from] has sent is what [to], whose connection has the key [key],
    has got, as far as it got; after the FIN it got everything. *)
Definition delivers (from to : endpoint) (key : ConnectionKey) : Prop :=
  to.(e_got) `prefix_of` from.(e_sent) ∧
  ∀ c, to.(e_table).(connections) !! key = Some c →
    (to.(e_got) ++ c.(recv_buffer)) `prefix_of` from.(e_sent) ∧
    (fin_seen c.(state) = true → to.(e_got) ++ c.(recv_buffer) = from.(e_sent)).

Lemma host_delivers key gx gy e from :
  host_inv key gx gy e → gy.(h_str) = from.(e_sent) → delivers from e key.
Proof.
  intros [_ Hc _ Hg _ _] Es. unfold delivers. rewrite <- Es. split; [done|]. intros c Ec.
  destruct (Hc c Ec) as [_ _ _ [Hi _ _ He] _]. destruct Hg as [rest Erest].
  pose proof (si_buf _ _ _ _ Hi) as Hbuf. pose proof (si_off _ _ _ _ Hi) as Ho.
  rewrite Erest in Hbuf. rewrite drop_app_length in Hbuf. split.
  - rewrite Erest, Hbuf. apply prefix_app, prefix_take.
  - intros Hs. specialize (He Hs). destruct (si_nxt _ _ _ _ Hi) as [Hn|[_ Hend]]; [unfold len in *; lia|].
    rewrite Erest in Hend |- *. f_equal. rewrite length_app in Hend. rewrite Hbuf. apply take_ge. lia.
Qed.

(** C1: whatever the network loses, duplicates, delays and reorders, and
    whatever both hosts do meanwhile (sending, receiving, closing, timers,
    other connections, segments of other hosts), each application receives a
    prefix of the bytes the other application sent; and the state in which
    [recv] reports the end of the stream after an orderly close is reached
    only with all of them. *)
Theorem stream_integrity (key : ConnectionKey) (na nb : u32) (a0 b0 a b : endpoint) :
  net_start key na nb (a0, b0) → rtc (net_step key) (a0, b0) (a, b) → net_bounded na nb (a, b) →
  delivers a b (flip key) ∧ delivers b a key.
Proof.
  intros Hstart Hrun Hb.
  assert (Hb0 : net_bounded na nb (a0, b0)).
  { clear Hstart. revert Hb. generalize (a0, b0) (a, b) Hrun. induction 1; eauto using net_step_bounded. }
  destruct (net_run_inv key na nb _ _ (net_start_inv _ _ _ _ Hstart Hb0) Hrun Hb) as (ga & gb & _ & _ & Ha & Hbb).
  split; eapply host_delivers; try done; [apply (hi_str _ _ _ _ Ha)|apply (hi_str _ _ _ _ Hbb)].
Qed.

(** A run: three bytes are sent, their packet is delivered twice, and they
    are read. *)
Definition start_a : endpoint :=
  mkEndpoint (put_conn wkey (fresh_conn Established wkey 1000 65535 0 2000 0) new) demo_world [] [].

Definition start_b : endpoint :=
  mkEndpoint (put_conn (flip wkey) (fresh_conn Established (flip wkey) 2000 65535 0 1000 0) new) demo_world [] [].

Definition packet_op (p : bytes) : table_op :=
  match parse_ip_header p with
  | Some h => OpSegment h (drop IP_HEADER_LEN p)
  | None => OpTick
  end.

Global Instance op_ok_dec op : Decision (op_ok op).
Proof. destruct op; cbn; apply _. Defined.

Definition demo_net : option (endpoint * endpoint) :=
  r ← send start_a.(e_table) wkey [1; 2; 3] start_a.(e_world);
  let '((n, ta), wa) := r in
  p ← head wa.(w_sent);
  guard (op_ok (packet_op p));;
  r1 ← run_op (packet_op p) start_b.(e_table) start_b.(e_world);
  r2 ← run_op (packet_op p) r1.1 r1.2;
  let d := recv r2.1 (flip wkey) 10 in
  Some (mkEndpoint ta wa (stream_part start_a.(e_table) wkey (take (Z.to_nat n) [1; 2; 3])) [],
        mkEndpoint d.2 r2.2 [] d.1).

Lemma demo_net_run a b : demo_net = Some (a, b) → rtc (net_step wkey) (start_a, start_b) (a, b).
Proof.
  unfold demo_net. destruct (send _ _ _ _) as [[[n ta] wa]|] eqn:E1; [|discriminate]. cbn [mbind option_bind].
  destruct (head (w_sent wa)) as [p|] eqn:E2; [|discriminate]. cbn [mbind option_bind].
  case_guard as Hok; [|discriminate]. cbn [mbind option_bind].
  destruct (run_op _ (e_table start_b) _) as [[t1 w1]|] eqn:E3; [|discriminate]. cbn [mbind option_bind fst snd].
  destruct (run_op _ t1 w1) as [[t2 w2]|] eqn:E4; [|discriminate]. cbn [mbind option_bind fst snd]. intros [= <- <-].
  assert (Hadm : ∀ t, admissible (flip wkey) wa.(w_sent) t (packet_op p)).
  { intros t. unfold packet_op. destruct (parse_ip_header p) as [h|] eqn:Ep; [|done]. intros seg data _ _.
    exists p. split_and!; auto. destruct (w_sent wa); [done|]. injection E2 as ->. by left. }
  eapply rtc_l; [apply net_left, (step_send _ _ [1; 2; 3] n); [by_decide|exact E1]|].
  eapply rtc_l; [apply net_right, (step_op _ _ (packet_op p)); [exact Hok|apply Hadm|exact E3]|].
  eapply rtc_l; [apply net_right, (step_op _ _ (packet_op p)); [exact Hok|apply Hadm|exact E4]|].
  apply rtc_once. apply net_right, step_recv.
Qed.

Theorem stream_integrity_witness :
  ∃ a b, rtc (net_step wkey) (start_a, start_b) (a, b) ∧ b.(e_got) = [1; 2; 3] ∧
    delivers a b (flip wkey) ∧ delivers b a wkey.
Proof.
  destruct demo_net as [[a b]|] eqn:E; [|by vm_compute in E].
  assert (Hrun := demo_net_run a b E).
  assert (Hsent : (λ s, (e_sent s.1, e_sent s.2, e_got s.2)) <$> demo_net = Some ([1; 2; 3], [], [1; 2; 3]))
    by (vm_compute; reflexivity).
  rewrite E in Hsent. injection Hsent as Es1 Es2 Eg.
  exists a, b. split; [exact Hrun|]. split; [exact Eg|].
  apply (stream_integrity wkey 1000 2000 start_a start_b a b).
  - split_and!; try reflexivity; try lia.
    + apply table_ok_put; [apply table_ok_new|apply fresh_ok; [split_and!|..]|reflexivity]; by_decide.
    + apply table_ok_put; [apply table_ok_new|apply fresh_ok; [split_and!|..]|reflexivity]; by_decide.
    + eexists _, 65535. split; [apply lookup_insert_eq|]. apply fresh_idle; [split_and!|..]; by_decide.
    + eexists _, 65535. split; [apply lookup_insert_eq|]. apply fresh_idle; [split_and!|..]; by_decide.
  - exact Hrun.
  - unfold net_bounded. cbn [fst snd]. rewrite Es1, Es2. unfold len. cbn. lia.
Defined.
