(* ===== verification/TcpLoss.v ===== *)
(** * Recovery from loss

    The first transmission of some data loses any of its packets; the
    retransmission timer brings all of it across once packets get through. *)

From S2P Require Import Prelude Effects Ip TcpSegment TcpConn TcpSend TcpReceive TcpTable TcpInv TcpState TcpSystem.

(** ** One round *)

(** A host: its table and its world. *)
Abbreviation host := (TcpTable * World)%type.

(** What a host has written between two worlds. *)
Definition written (w w' : World) : list bytes := drop (length w.(w_sent)) w'.(w_sent).

(** The timers of the first host run; what it writes reaches the second
    host, and what that answers reaches the first. *)
Definition exchange (s : host * host) : option (host * host) :=
  let '((ta, wa), (tb, wb)) := s in
  r ← tick ta wa; let '(ta1, wa1) := r in
  r ← deliver_all tb (written wa wa1) wb; let '(tb1, wb1) := r in
  r ← deliver_all ta1 (written wb wb1) wa1; let '(ta2, wa2) := r in
  Some ((ta2, wa2), (tb1, wb1)).

Fixpoint exchanges (n : nat) (s : host * host) : option (host * host) :=
  match n with
  | O => Some s
  | S n' => s' ← exchange s; exchanges n' s'
  end.

Lemma written_app w w' ps : w'.(w_sent) = w.(w_sent) ++ ps → written w w' = ps.
Proof. intros E. unfold written. rewrite E. apply drop_app_length. Qed.

(** ** The state between rounds *)

(** The sender: the pieces [pre] of the data are acknowledged, the others
    wait in the retransmission queue, as first sent, and are due at time [T]
    at the latest. *)
Record sender (key : ConnectionKey) (cs : list bytes) (base nb : u32) (T : Instant) (pre : list bytes)
    (c : TcpConnection) : Prop := {
  sn_ok : conn_ok c;
  sn_key : conn_key c = key;
  sn_state : c.(state) = Established;
  sn_pending : c.(send_pending) = [];
  sn_close : c.(pending_close) = false;
  sn_probe : c.(probe_deadline) = None;
  sn_ooo : c.(ooo_buffer) = ∅;
  sn_rcv : c.(rcv_nxt) = nb;
  sn_una : c.(snd_una) = base + len (concat pre);
  sn_rest : cs = pre ++ (us_data <$> c.(retransmit_queue));
  sn_pieces : Forall (seg_piece cs base) c.(retransmit_queue);
  sn_places : at_places c.(retransmit_queue) (base + len (concat pre));
  sn_fresh : Forall (fresh_segment data_flags) c.(retransmit_queue);
  sn_due : Forall (λ q, q.(us_sent_at) + INITIAL_RTO ≤ T) c.(retransmit_queue);
}.

(** The receiver is at least as far. *)
Record receiver (key : ConnectionKey) (cs : list bytes) (base nb : u32) (pre : list bytes)
    (r : TcpConnection) : Prop := {
  rv_ready : rx_ready key r;
  rv_pieces : ∃ seen, pieces_inv cs base seen r;
  rv_spliced : r.(ooo_buffer) !! r.(rcv_nxt) = None;
  rv_nxt : r.(snd_nxt) = nb;
  rv_far : base + len (concat pre) ≤ r.(rcv_nxt);
}.

Definition recovering (key : ConnectionKey) (cs : list bytes) (base nb : u32) (T : Instant) (pre : list bytes)
    (s : host * host) : Prop :=
  ∃ c r, s.1.1.(connections) = {[key := c]} ∧ sender key cs base nb T pre c ∧
    s.2.1.(connections) = {[flip key := r]} ∧ receiver (flip key) cs base nb pre r.

(** ** Lemmas *)

(** A tick with a single connection. *)
Lemma tick_one t key c w :
  t.(connections) = {[key := c]} → ∃ w1, w1.(w_sent) = w.(w_sent) ∧ world_ext w w1 ∧
    (w.(w_reads) < w1.(w_reads))%nat ∧
    ∀ c' w2, tick_conn (clock_now w) c w1 = Some (c', w2) →
      tick t w = Some (cleanup_closed_connections (put_conn key c' t), w2).
Proof.
  intros Hc. unfold tick.
  destruct (visit_order_spec (map_to_list t.(connections)).*1 (clock_next w)) as (keys & w1 & E & Hp & Hs & Hw).
  rewrite Hc, map_to_list_singleton in Hp. cbn in Hp. apply Permutation_singleton_r in Hp as ->.
  exists w1. split; [exact Hs|]. split; [by etrans; [apply clock_next_ext|]|].
  split; [pose proof (ext_reads _ _ Hw); cbn in *; lia|].
  intros c' w2 Et. erewrite bind_Some by reflexivity. erewrite bind_Some by exact E.
  erewrite bind_Some; [reflexivity|]. cbn [tick_loop].
  erewrite bind_lift by (rewrite Hc; apply lookup_singleton_eq). by erewrite bind_Some by exact Et.
Qed.

Definition due (now : Instant) (f : UnackedSegment) : bool := f.(us_rto) <=? Z.max 0 (now - f.(us_sent_at)).

Lemma tick_conn_sender now c w :
  conn_ok c → c.(state) = Established → c.(send_pending) = [] → c.(pending_close) = false → c.(probe_deadline) = None →
  Forall (fresh_segment data_flags) c.(retransmit_queue) →
  tick_conn now c w =
    Some (match c.(retransmit_queue) with
          | f :: rest => if due now f
                         then (set_retransmit_queue (retransmitted now f :: rest) c, emit (queued_packet c f) w)
                         else (c, w)
          | [] => (c, w)
          end).
Proof.
  intros Hok Hs Hp Hpc Hpd Hq. unfold tick_conn. rewrite Hs. cbn [bool_decide decide].
  rewrite bool_decide_eq_false_2 by done. unfold tick_probe. rewrite Hs, Hpd.
  rewrite bool_decide_eq_true_2 by done. cbn [orb]. rewrite bind_ret. unfold tick_retransmit.
  destruct (retransmit_queue c) as [|f rest] eqn:Eq; [by apply flush_send_nothing|].
  fold (due now f). destruct (due now f); [|by apply flush_send_nothing].
  apply Forall_cons_iff in Hq as [(_ & _ & Hr) _]. rewrite Hr.
  pose proof (co_queue c Hok) as Hqo. rewrite Eq in Hqo. apply Forall_cons_iff in Hqo as [Hf _].
  change (MAX_RETRIES <=? 0) with false. cbv iota.
  erewrite bind_Some.
  2:{ erewrite bind_Some by (apply send_segment_eq; [apply Hok|apply Hf|by apply unacked_ok_data]). reflexivity. }
  by apply flush_send_nothing.
Qed.

(** A pure acknowledgement in sequence, at a sender with nothing pending. *)
Lemma ack_at_sender q key c seg w :
  conn_ok c → tcp_header_ok seg → c.(state) = Established → c.(send_pending) = [] → c.(pending_close) = false →
  c.(ooo_buffer) = ∅ → seg.(th_flags) = TCP_ACK → seg.(th_seq_num) = c.(rcv_nxt) →
  process_conn q key c seg [] w = Some ((process_ack c seg, q), w).
Proof.
  intros Hok Hs Hst Hp Hpc Ho Hf Hseq. unfold process_conn. rewrite Hf, Hst.
  change (has_flag TCP_ACK TCP_RST) with false. cbn [andb]. erewrite bind_Some; [reflexivity|].
  destruct (process_ack_frame c seg) as (_ & _ & Hn & Hpc1 & _). destruct (process_ack_rx c seg) as (_ & _ & Ho1 & _ & Hp1).
  unfold process_established. unfold receive_data_and_maybe_fin, receive_step.
  rewrite Hf, Hn, Hseq, Z.eqb_refl. change (has_flag TCP_ACK TCP_FIN) with false.
  rewrite bool_decide_eq_true_2 by done. cbn [negb]. rewrite Ho1, Ho, map_size_empty. cbn [splice_ooo].
  rewrite bind_ret, bind_ret. apply flush_send_nothing; congruence.
Qed.

Lemma at_places_app q1 q2 a :
  at_places (q1 ++ q2) a → at_places q1 a ∧ at_places q2 (a + len (concat (us_data <$> q1))).
Proof.
  intros H. split.
  - intros pre s post ->. apply (H pre s (post ++ q2)). by rewrite <- app_assoc.
  - intros pre s post ->. rewrite (H (q1 ++ pre) s post) by (by rewrite app_assoc).
    rewrite fmap_app, concat_app, len_app. lia.
Qed.

(** An acknowledgement that ends between two pieces drops those before it. *)
Lemma drop_acked_pieces q1 q2 a :
  at_places (q1 ++ q2) a → 0 ≤ a → a + len (concat (us_data <$> q1 ++ q2)) < 2 ^ 32 →
  Forall (λ s, s.(us_flags) = data_flags ∧ s.(us_data) ≠ []) (q1 ++ q2) →
  drop_acked (q1 ++ q2) (a + len (concat (us_data <$> q1))) = q2.
Proof.
  assert (Hend : ∀ s, us_flags s = data_flags → unacked_end s = wadd32 (us_seq s) (len (us_data s))).
  { intros s Hs. unfold unacked_end. rewrite Hs. change (has_flag data_flags TCP_SYN) with false.
    change (has_flag data_flags TCP_FIN) with false. unfold as_u32. apply wadd32_idemp_r. }
  revert a. induction q1 as [|s q1 IH]; intros a Hp Ha Hfit Hd.
  - cbn [app fmap list_fmap concat]. change (len []) with 0. rewrite Z.add_0_r. destruct q2 as [|s q2]; [done|].
    apply Forall_cons_iff in Hd as [[Hf Hnil] _]. cbn [drop_acked].
    rewrite Hend by done. pose proof (Hp [] s q2 eq_refl) as Hseq. cbn in Hseq. change (len []) with 0 in Hseq.
    cbn [app fmap list_fmap concat] in Hfit. rewrite len_app in Hfit. apply len_pos in Hnil.
    pose proof (len_nonneg (concat (us_data <$> q2))). rewrite Hseq, wadd32_small by (cbn in *; lia).
    destruct (Z.leb_spec (a + 0 + len (us_data s)) a); [lia|done].
  - apply Forall_cons_iff in Hd as [[Hf Hnil] Hd]. cbn [app drop_acked fmap list_fmap concat].
    cbn [app fmap list_fmap concat] in Hfit. rewrite len_app in Hfit. rewrite !len_app.
    pose proof (Hp [] s (q1 ++ q2) eq_refl) as Hseq. cbn in Hseq. change (len []) with 0 in Hseq.
    apply (at_places_app [s]) in Hp as [_ Hp]. cbn in Hp. rewrite app_nil_r in Hp.
    pose proof (len_nonneg (us_data s)). pose proof (len_nonneg (concat (us_data <$> q1))).
    pose proof (len_nonneg (concat (us_data <$> q1 ++ q2))).
    rewrite Hend, Hseq, wadd32_small by (done || (cbn in *; lia)).
    destruct (Z.leb_spec (a + 0 + len (us_data s)) (a + (len (us_data s) + len (concat (us_data <$> q1))))); [|lia].
    rewrite Z.add_assoc. apply IH; [done|lia|cbn in *; lia|done].
Qed.

Section Recovery.
Context (key : ConnectionKey) (cs : list bytes) (base nb : u32) (T : Instant).
Hypothesis Hne : Forall (λ p, p ≠ []) cs.
Hypothesis Hbase : 0 ≤ base.
Hypothesis Hfits : base + len (concat cs) < 2 ^ 32.

(** The retransmitted piece at the receiver: it is now past it, at the end
    of some later piece, and says so. *)
Lemma front_at_receiver tb wb c r pre f rest :
  conn_ok c → conn_key c = key → cs = pre ++ us_data f :: rest →
  f.(us_seq) = base + len (concat pre) → seg_piece cs base f →
  tb.(connections) = {[flip key := r]} → receiver (flip key) cs base nb pre r →
  ∃ tb1 r' k post, deliver tb (queued_packet c f) wb =
      Some (tb1, emit (seg_packet r' TCP_ACK r'.(snd_nxt) []) wb) ∧
    tb1.(connections) = {[flip key := r']} ∧ us_data f :: rest = k ++ post ∧ k ≠ [] ∧
    r'.(rcv_nxt) = base + len (concat (pre ++ k)) ∧ receiver (flip key) cs base nb (pre ++ k) r'.
Proof.
  intros Hok Hk Ecs Hseq Hpc Hb [Hr [seen Hi] Hx Hnb Hle].
  destruct (deliver_piece cs base c Hne Hbase Hfits Hok tb r seen f wb) as
    (tb1 & r' & sp & wb1 & E & -> & -> & Hn & Hgrow & _ & Hr' & Hi' & Hx' & Hsp & _ & _);
    rewrite ?Hk; auto.
  { rewrite Hb. apply lookup_singleton_eq. }
  { left. lia. }
  assert (Hpast : base + len (concat pre) < rcv_nxt r').
  { destruct (pi_pos _ _ _ _ Hi) as (p1 & q1 & _ & B1 & N1), (pi_pos _ _ _ _ Hi') as (p2 & q2 & _ & B2 & N2).
    rewrite B1, B2 in Hgrow. apply prefix_length in Hgrow.
    assert (rcv_nxt r ≤ rcv_nxt r') by (rewrite N1, N2; unfold len; lia).
    destruct (pi_arr _ _ _ _ Hi' sp) as [?|Hlk]; [by left|lia|].
    destruct (decide (rcv_nxt r' = base + len (concat pre))) as [Eq|]; [|lia].
    rewrite Hsp, Hseq, <- Eq, Hx' in Hlk. done. }
  destruct (pi_pos _ _ _ _ Hi') as (p2 & post & E2 & B2 & N2). rewrite Ecs in E2.
  apply app_eq_inv in E2 as [(k & -> & Ek)|(k & -> & Ek)].
  { rewrite N2, len_concat_app in Hpast. pose proof (len_nonneg (concat k)). lia. }
  rewrite Hk in *. eexists _, r', k, post. split_and!; try done.
  - apply cleanup_one; [by eapply put_one|]. by rewrite (rr_state _ _ Hr').
  - intros ->. rewrite app_nil_r in N2. lia.
  - split; [done|by exists (sp :: seen)|done|congruence|lia].
Qed.

(** The sender after its front segment was sent again. *)
Definition resent (now : Instant) (c : TcpConnection) (f : UnackedSegment) (rest : list UnackedSegment) :=
  set_retransmit_queue (retransmitted now f :: rest) c.

(** What the acknowledgement drops. *)
Lemma acked_resent pre now f q1 q2 :
  cs = pre ++ (us_data <$> (f :: q1) ++ q2) → Forall (seg_piece cs base) ((f :: q1) ++ q2) →
  at_places ((f :: q1) ++ q2) (base + len (concat pre)) →
  drop_acked (retransmitted now f :: q1 ++ q2) (base + len (concat (pre ++ (us_data <$> f :: q1)))) = q2.
Proof.
  intros Ecs Hsp Hpl. rewrite len_concat_app, Z.add_assoc.
  change (us_data <$> f :: q1) with (us_data <$> retransmitted now f :: q1).
  apply (drop_acked_pieces (retransmitted now f :: q1)).
  - intros p s post Ep. destruct p as [|f' p]; cbn [app] in Ep; injection Ep as <- Ep.
    + exact (Hpl [] f (q1 ++ q2) eq_refl).
    + exact (Hpl (f :: p) s post (f_equal (cons f) Ep)).
  - pose proof (len_nonneg (concat pre)). lia.
  - change (us_data <$> (retransmitted now f :: q1) ++ q2) with (us_data <$> (f :: q1) ++ q2).
    rewrite Ecs, len_concat_app in Hfits. lia.
  - assert (Hq : Forall (λ s, us_flags s = data_flags ∧ us_data s ≠ []) ((f :: q1) ++ q2)).
    { eapply Forall_impl; [|exact Hsp]. intros s (Hf & _ & _ & p1 & p2 & Ep & _). split; [done|].
      rewrite Ep in Hne. by apply Forall_app in Hne as [_ [? _]%Forall_cons_iff]. }
    apply Forall_cons_iff in Hq as [? ?]. by apply Forall_cons_iff.
Qed.

(** The acknowledgement at the sender. *)
Lemma ack_at_resent ta wa now c f q1 q2 r' pre :
  sender key cs base nb T pre c → c.(retransmit_queue) = f :: q1 ++ q2 →
  ta.(connections) = {[key := resent now c f (q1 ++ q2)]} →
  r'.(rcv_nxt) = base + len (concat (pre ++ (us_data <$> f :: q1))) →
  receiver (flip key) cs base nb (pre ++ (us_data <$> f :: q1)) r' →
  ∃ ta' c', deliver ta (seg_packet r' TCP_ACK r'.(snd_nxt) []) wa = Some (ta', wa) ∧
    ta'.(connections) = {[key := c']} ∧ sender key cs base nb T (pre ++ (us_data <$> f :: q1)) c'.
Proof.
  intros [Hok Hk Hst Hp Hpc Hpd Ho Hnb Hu Ecs Hsp Hpl Hfr Hdue] Eq Hta Hrn [Hr _ _ Hn _].
  set (c1 := resent now c f (q1 ++ q2)) in *. rewrite Eq in *.
  assert (Hok1 : conn_ok c1).
  { apply (conn_ok_retransmitted _ c f); [done|done|]. apply Forall_cons_iff in Hfr as [(_ & _ & ->) _]. by_decide. }
  assert (Hkf : flip (conn_key r') = key) by (rewrite (rr_key _ _ Hr); apply flip_flip).
  destruct (deliver_conn ta r' TCP_ACK (snd_nxt r') [] wa c1) as (seg & (_ & _ & G3 & G4 & G5 & _) & Hs & E).
  1: apply Hr.
  1: by_decide.
  1: apply (rr_ok _ _ Hr).
  1: apply seg_data_nil.
  1: rewrite Hkf, Hta; apply lookup_singleton_eq.
  cbn in G3, G5. change (th_ack_num seg = rcv_nxt r') in G4. rewrite Hkf in E.
  specialize (E _ _ _ (ack_at_sender _ _ c1 seg wa Hok1 Hs Hst Hp Hpc Ho G5 ltac:(cbn; congruence))).
  destruct (process_ack_frame c1 seg) as (P1 & _ & P3 & P4 & _ & P6).
  destruct (process_ack_rx c1 seg) as (_ & _ & R3 & _ & R5).
  change (f :: q1 ++ q2) with ((f :: q1) ++ q2) in *.
  assert (snd_una (process_ack c1 seg) = th_ack_num seg ∧
    retransmit_queue (process_ack c1 seg) = q2 ∧ probe_deadline (process_ack c1 seg) = None) as (F1 & F2 & F3).
  { assert (Hdrop : drop_acked (retransmitted now f :: q1 ++ q2) (th_ack_num seg) = q2).
    { rewrite G4, Hrn. by apply (acked_resent pre now f q1 q2). }
    assert (Hlt : snd_una c1 < th_ack_num seg).
    { change (snd_una c1) with (snd_una c). rewrite Hu, G4, Hrn, len_concat_app. cbn [fmap list_fmap concat app].
      rewrite len_app. pose proof (len_nonneg (concat (us_data <$> q1))).
      rewrite Ecs in Hne. apply Forall_app in Hne as [_ [Hf%len_pos _]%Forall_cons_iff]. cbn in *. lia. }
    rewrite process_ack_eq, G5. change (has_flag TCP_ACK TCP_ACK) with true. cbn [negb].
    rewrite (proj2 (Z.ltb_lt _ _)) by done. change (retransmit_queue c1) with (retransmitted now f :: q1 ++ q2).
    rewrite Hdrop. by destruct (negb _). }
  apply Forall_app in Hsp as [_ Hsp2], Hfr as [_ Hfr2], Hdue as [_ Hdue2]. apply at_places_app in Hpl as [_ Hpl2].
  eexists _, (process_ack c1 seg). split; [exact E|].
  split; [apply cleanup_one; [exact (put_one ta key c1 _ Hta)|rewrite P1; cbn; by rewrite Hst]|].
  split; rewrite ?F1, ?F2, ?F3, ?P1, ?P3, ?P4, ?P6, ?R3, ?R5; try done.
  - by apply process_ack_ok.
  - congruence.
  - by rewrite Ecs, fmap_app, app_assoc.
  - rewrite len_concat_app, Z.add_assoc. exact Hpl2.
Qed.
(** What a round achieves: time passes, and once the timer is due another
    piece is across. *)
Definition progress (pre pre' : list bytes) (s s' : host * host) : Prop :=
  s'.1.2.(w_clock) = s.1.2.(w_clock) ∧ (s.1.2.(w_reads) < s'.1.2.(w_reads))%nat ∧ (length pre ≤ length pre')%nat ∧
  (T ≤ clock_now s.1.2 → pre ≠ cs → (length pre < length pre')%nat).

(** A round in which nothing is due. *)
Lemma quiet_round pre ta wa tb wb c r :
  ta.(connections) = {[key := c]} → sender key cs base nb T pre c →
  tb.(connections) = {[flip key := r]} → receiver (flip key) cs base nb pre r →
  (∀ w, tick_conn (clock_now wa) c w = Some (c, w)) → (T ≤ clock_now wa → pre = cs) →
  ∃ s', exchange ((ta, wa), (tb, wb)) = Some s' ∧ recovering key cs base nb T pre s' ∧
    progress pre pre ((ta, wa), (tb, wb)) s'.
Proof.
  intros Hta Hs Htb Hr Hq Hd. destruct (tick_one ta key c wa Hta) as (w1 & Hw & Hx & Hrd & Et).
  specialize (Et c w1 (Hq w1)). unfold exchange. rewrite Et. cbn [mbind option_bind].
  rewrite (written_app wa w1 []) by (by rewrite app_nil_r). cbn [deliver_all]. unfold mret, M_ret. cbn [mbind option_bind].
  rewrite (written_app wb wb []) by (by rewrite app_nil_r). cbn [deliver_all]. unfold mret, M_ret. cbn [mbind option_bind].
  eexists. split; [reflexivity|]. split.
  - exists c, r. split_and!; try done. cbn [fst]. apply cleanup_one; [by eapply put_one|]. by rewrite (sn_state _ _ _ _ _ _ _ Hs).
  - split_and!; cbn; [apply (ext_clock _ _ Hx)|done|done|]. intros HT Hn. by destruct Hn; apply Hd.
Qed.

(** A round in which the front segment is sent again. *)
Lemma due_round pre ta wa tb wb c r f rest :
  ta.(connections) = {[key := c]} → sender key cs base nb T pre c →
  tb.(connections) = {[flip key := r]} → receiver (flip key) cs base nb pre r →
  c.(retransmit_queue) = f :: rest → due (clock_now wa) f = true →
  ∃ pre' s', exchange ((ta, wa), (tb, wb)) = Some s' ∧ recovering key cs base nb T pre' s' ∧
    progress pre pre' ((ta, wa), (tb, wb)) s'.
Proof.
  intros Hta Hs Htb Hr Eq Hd. destruct (tick_one ta key c wa Hta) as (w1 & Hw & Hx & Hrd & Et).
  pose proof Hs as [Hok Hk Hst Hp Hpc Hpd Ho Hnb Hu Ecs Hsp Hpl Hfr Hdue]. rewrite Eq in *.
  pose proof (tick_conn_sender (clock_now wa) c w1 Hok Hst Hp Hpc Hpd) as Htc. rewrite Eq, Hd in Htc.
  specialize (Et _ _ (Htc Hfr)). apply Forall_cons_iff in Hsp as [Hf _].
  destruct (front_at_receiver tb wb c r pre f (us_data <$> rest)) as
    (tb1 & r' & k & post & Ed & Htb1 & Ek & Hk0 & Hn & Hr1); auto.
  { rewrite (Hpl [] f rest eq_refl). apply Z.add_0_r. }
  change (us_data f :: (us_data <$> rest)) with (us_data <$> f :: rest) in Ek.
  apply fmap_app_inv in Ek as (q1 & q2 & -> & -> & Eq2). destruct q1 as [|f' q1]; [done|].
  cbn [app] in Eq2. injection Eq2 as <- ->.
  destruct (ack_at_resent (cleanup_closed_connections (put_conn key (resent (clock_now wa) c f (q1 ++ q2)) ta))
    (emit (queued_packet c f) w1) (clock_now wa) c f q1 q2 r' pre) as (ta2 & c2 & Ea & Hta2 & Hs2); auto.
  { apply cleanup_one; [by eapply put_one|]. cbn. by rewrite Hst. }
  exists (pre ++ (us_data <$> f :: q1)). unfold exchange. rewrite Et. cbn [mbind option_bind].
  rewrite (written_app wa _ [queued_packet c f]) by (cbn; by rewrite Hw).
  cbn [deliver_all]. rewrite (bind_Some _ _ _ _ _ Ed). unfold mret, M_ret. cbn [mbind option_bind].
  rewrite (written_app wb _ [seg_packet r' TCP_ACK (snd_nxt r') []]) by done.
  cbn [deliver_all]. unfold resent in Ea. rewrite (bind_Some _ _ _ _ _ Ea). unfold mret, M_ret. cbn [mbind option_bind].
  eexists. split; [reflexivity|]. split; [by exists c2, r'|].
  split_and!; cbn; [apply (ext_clock _ _ Hx)|done|rewrite length_app; cbn; lia..].
Qed.

Lemma exchange_round pre s :
  recovering key cs base nb T pre s →
  ∃ pre' s', exchange s = Some s' ∧ recovering key cs base nb T pre' s' ∧ progress pre pre' s s'.
Proof.
  destruct s as [[ta wa] [tb wb]]. intros (c & r & Hta & Hs & Htb & Hr). cbn [fst snd] in *.
  pose proof Hs as [Hok Hk Hst Hp Hpc Hpd Ho Hnb Hu Ecs Hsp Hpl Hfr Hdue].
  pose proof (λ w, tick_conn_sender (clock_now wa) c w Hok Hst Hp Hpc Hpd Hfr) as Htc.
  destruct (retransmit_queue c) as [|f rest] eqn:Eq.
  { exists pre. eapply quiet_round; eauto. intros _. by rewrite Ecs, app_nil_r. }
  destruct (due (clock_now wa) f) eqn:Hd; [by eapply due_round|].
  exists pre. eapply quiet_round; eauto. intros HT. exfalso.
  apply Forall_cons_iff in Hfr as [(_ & Hrto & _) _], Hdue as [Hdue _]. unfold due in Hd. apply Z.leb_gt in Hd.
  rewrite Hrto in Hd. lia.
Qed.

(** ** All rounds *)

Lemma exchanges_progress n pre s :
  recovering key cs base nb T pre s →
  ∃ pre' s', exchanges n s = Some s' ∧ recovering key cs base nb T pre' s' ∧
    s'.1.2.(w_clock) = s.1.2.(w_clock) ∧ (s.1.2.(w_reads) + n ≤ s'.1.2.(w_reads))%nat ∧
    (length pre ≤ length pre')%nat ∧
    ((∀ m, (s.1.2.(w_reads) ≤ m)%nat → T ≤ s.1.2.(w_clock) m) →
     pre' = cs ∨ (length pre + n ≤ length pre')%nat).
Proof.
  revert pre s. induction n as [|n IH]; intros pre s Hs.
  { exists pre, s. split_and!; [done..|lia|lia|]. intros _. right. lia. }
  destruct (exchange_round pre s Hs) as (pre1 & s1 & E & Hs1 & Hcl & Hrd & Hle & Hlt).
  destruct (IH pre1 s1 Hs1) as (pre2 & s2 & E2 & Hs2 & Hcl2 & Hrd2 & Hle2 & Hlt2).
  exists pre2, s2. cbn [exchanges]. rewrite E. split_and!; [done..|congruence|lia|lia|].
  intros HT. destruct Hlt2 as [?|Hn]; [intros m Hm; rewrite Hcl; apply HT; lia|by left|].
  destruct (decide (pre = cs)) as [->|Hne'].
  - left. destruct Hs2 as (c2 & _ & _ & Hc2 & _). pose proof (sn_rest _ _ _ _ _ _ _ Hc2) as Er.
    assert (us_data <$> retransmit_queue c2 = []) as E0.
    { apply length_zero_iff_nil. apply (f_equal length) in Er. rewrite length_app in Er. lia. }
    rewrite E0, app_nil_r in Er. done.
  - right. specialize (Hlt (HT _ (le_n _)) Hne'). lia.
Qed.
End Recovery.

(** ** From a first transmission *)

(** The sender as [send] leaves it. *)
Lemma sent_sender key c snd rcv wnd data now segs nxt :
  idle key snd rcv wnd c → c.(probe_deadline) = None → len data ≤ wnd →
  let c1 := set_send_pending data c in
  let c2 := flushed c1 now segs [] nxt in
  conn_ok c2 → Forall (seg_piece (us_data <$> segs) snd) segs → at_places segs snd →
  Forall (fresh_segment data_flags) segs →
  ∃ T, sender key (us_data <$> segs) snd rcv T [] c2.
Proof.
  intros Hi Hpd Hw c1 c2 Hok Hsp Hpl Hfr.
  assert (Hfd : fin_due c1 = false) by (unfold fin_due; cbn; by rewrite (id_close _ _ _ _ _ Hi)).
  assert (Hq : retransmit_queue c2 = segs).
  { cbn. rewrite (id_queue _ _ _ _ _ Hi), app_nil_r. reflexivity. }
  exists (foldr (λ s T, Z.max (us_sent_at s + INITIAL_RTO) T) 0 segs).
  split; rewrite ?Hq; try done.
  - exact (id_key _ _ _ _ _ Hi).
  - cbn. rewrite Hfd. exact (id_state _ _ _ _ _ Hi).
  - cbn. apply drop_ge. unfold sendable. cbn. rewrite (id_nxt _ _ _ _ _ Hi), (id_una _ _ _ _ _ Hi), (id_wnd _ _ _ _ _ Hi).
    rewrite wsub32_small by lia. unfold len in *. lia.
  - cbn. rewrite Hfd. exact (id_close _ _ _ _ _ Hi).
  - cbn. unfold armed_probe. cbn. rewrite Hpd, (id_wnd _ _ _ _ _ Hi). destruct (Z.eqb_spec wnd 0) as [->|]; [|done].
    destruct data; [done|]. unfold len in Hw. cbn in Hw. lia.
  - exact (id_ooo _ _ _ _ _ Hi).
  - exact (id_rcv _ _ _ _ _ Hi).
  - cbn. rewrite (id_una _ _ _ _ _ Hi). symmetry. apply Z.add_0_r.
  - cbn. change (len []) with 0. by rewrite Z.add_0_r.
  - clear. induction segs as [|s segs IH]; constructor; cbn [foldr]; [lia|].
    eapply Forall_impl; [|exact IH]. cbn. intros. lia.
Qed.

(** The receiver, after some of the first packets came. *)
Lemma got_receiver key cs base nb r seen :
  rx_ready key r → pieces_inv cs base seen r → r.(ooo_buffer) !! r.(rcv_nxt) = None → r.(snd_nxt) = nb →
  receiver key cs base nb [] r.
Proof.
  intros Hr Hi Hx Hn. split; [done|by exists seen|done|done|].
  destruct (pi_pos _ _ _ _ Hi) as (p & q & _ & _ & ->). pose proof (len_nonneg (concat p)).
  change (len (concat [])) with 0. lia.
Qed.

(** At the end the receiver has everything. *)
Lemma receiver_done key cs base nb r :
  Forall (λ p, p ≠ []) cs → receiver key cs base nb cs r → r.(recv_buffer) = concat cs.
Proof.
  intros Hne [_ [seen Hi] _ _ Hfar]. destruct (pi_pos _ _ _ _ Hi) as (p & q & -> & -> & N).
  rewrite N, len_concat_app in Hfar. destruct q as [|x q]; [by rewrite app_nil_r|].
  apply Forall_app in Hne as [_ [Hx%len_pos _]%Forall_cons_iff]. cbn [concat] in Hfar. rewrite len_app in Hfar.
  pose proof (len_nonneg (concat q)). lia.
Qed.

Lemma recv_all t key r :
  t.(connections) !! key = Some r → (recv t key (length r.(recv_buffer))).1 = r.(recv_buffer).
Proof.
  intros E. unfold recv. rewrite E. unfold conn_recv. rewrite Nat.min_id.
  destruct (Nat.ltb_spec 0 (length (recv_buffer r))); cbn; [by rewrite firstn_all|].
  by destruct (recv_buffer r); [|cbn in *; lia].
Qed.

(** A receiver with nothing has none of the pieces. *)
Lemma idle_pieces key snd rcv wnd r cs :
  idle key rcv snd wnd r → pieces_inv cs snd [] r ∧ r.(ooo_buffer) !! r.(rcv_nxt) = None.
Proof.
  intros Hj. rewrite (id_ooo _ _ _ _ _ Hj). split; [|apply lookup_empty].
  split; [exists [], cs| |by intros ? ?%elem_of_nil].
  - split; [done|]. split; [apply Hj|]. rewrite (id_rcv _ _ _ _ _ Hj). symmetry. apply Z.add_0_r.
  - intros k v. rewrite (id_ooo _ _ _ _ _ Hj). by rewrite lookup_empty.
Qed.

Lemma exchanges_add n m s s1 : exchanges n s = Some s1 → exchanges (n + m) s = exchanges m s1.
Proof.
  revert s. induction n as [|n IH]; intros s E; cbn in *; [by injection E as ->|].
  destruct (exchange s) as [s'|]; [|done]. by apply IH.
Qed.

(** From the state between rounds to the end. *)
Lemma recovered key cs base nb T s :
  Forall (λ p, p ≠ []) cs → 0 ≤ base → base + len (concat cs) < 2 ^ 32 →
  recovering key cs base nb T [] s → (∃ n, ∀ m, (n ≤ m)%nat → T ≤ s.1.2.(w_clock) m) →
  ∃ n s', exchanges n s = Some s' ∧ recovering key cs base nb T cs s'.
Proof.
  intros Hne Hb Hf Hs [n0 Hn0].
  destruct (exchanges_progress key cs base nb T Hne Hb Hf n0 [] s Hs) as (pre1 & s1 & E1 & Hs1 & Hcl & Hrd & _).
  destruct (exchanges_progress key cs base nb T Hne Hb Hf (length cs) pre1 s1 Hs1) as (pre2 & s2 & E2 & Hs2 & _ & _ & _ & Hd).
  exists (n0 + length cs)%nat, s2. rewrite (exchanges_add _ _ _ _ E1). split; [done|].
  destruct Hd as [<-|Hlen]; [intros m Hm; rewrite Hcl; apply Hn0; lia|done|].
  destruct Hs2 as (c2 & r2 & H1 & Hc2 & H3). pose proof (sn_rest _ _ _ _ _ _ _ Hc2) as Er.
  assert (us_data <$> retransmit_queue c2 = []) as E0.
  { apply length_zero_iff_nil. apply (f_equal length) in Er. rewrite length_app in Er. lia. }
  rewrite E0, app_nil_r in Er. rewrite <- Er in H3, Hc2. by exists c2, r2.
Qed.

(** What holds when the rounds are over. *)
Lemma recovered_result key cs base nb T s :
  Forall (λ p, p ≠ []) cs → recovering key cs base nb T cs s →
  (recv s.2.1 (flip key) (length (concat cs))).1 = concat cs ∧
  ∃ c, s.1.1.(connections) !! key = Some c ∧ c.(retransmit_queue) = [] ∧ c.(snd_una) = base + len (concat cs).
Proof.
  intros Hne (c & r & Hc & Hs & Hr & Hv). pose proof (receiver_done _ _ _ _ _ Hne Hv) as Hbuf. split.
  - rewrite <- Hbuf. apply recv_all. rewrite Hr. apply lookup_singleton_eq.
  - exists c. rewrite Hc. split; [apply lookup_singleton_eq|]. split; [|apply Hs].
    pose proof (sn_rest _ _ _ _ _ _ _ Hs) as Er. apply (fmap_nil_inv us_data), length_zero_iff_nil.
    apply (f_equal length) in Er. rewrite length_app in Er. lia.
Qed.

(** The first transmission, with what of it arrives. *)
Lemma first_transmission ta tb key c r snd rcv wnd wnd' data wa :
  ta.(connections) = {[key := c]} → idle key snd rcv wnd c → c.(probe_deadline) = None →
  tb.(connections) = {[flip key := r]} → idle (flip key) rcv snd wnd' r →
  bytes_ok data → snd + len data < 2 ^ 32 → len data ≤ DEFAULT_SEND_BUFFER_CAP → len data ≤ wnd →
  ∃ ta1 wa1 packets cs T,
    send ta key data wa = Some ((len data, ta1), wa1) ∧ wa1.(w_sent) = wa.(w_sent) ++ packets ∧
    wa1.(w_clock) = wa.(w_clock) ∧ Forall (λ p, p ≠ []) cs ∧ 0 ≤ snd ∧ concat cs = data ∧
    ∀ arr wb, (∀ p, p ∈ arr → p ∈ packets) → payload_bytes arr ≤ DEFAULT_RECV_BUFFER_CAP →
      ∃ tb1 wb1, deliver_all tb arr wb = Some (tb1, wb1) ∧
        recovering key cs snd rcv T [] ((ta1, wa1), (tb1, wb1)).
Proof.
  intros Hta Hi Hpd Htb Hj Hb Hfit Hcap Hwnd.
  destruct (send_idle ta key c snd rcv wnd data wa) as
    (ta1 & wa1 & c1 & segs & E & Hw & Hcl & Hok1 & Hk1 & Hcat & Hne & Hsp & Hpl & Hfr & Ec1 & nxt & Eta & Hok2); auto.
  { rewrite Hta. apply lookup_singleton_eq. }
  rewrite (Z.min_l (len data) _ Hcap) in *. rewrite (Z.min_l _ _ Hwnd) in Hcat.
  rewrite firstn_all2 in Hcat by (unfold len; lia). rewrite firstn_all2 in Ec1 by (unfold len; lia). subst c1.
  destruct (sent_sender key c snd rcv wnd data (clock_now wa) segs nxt) as [T Hs]; auto.
  assert (Hsnd : 0 ≤ snd) by (rewrite <- (id_nxt _ _ _ _ _ Hi); apply (id_ok _ _ _ _ _ Hi)).
  exists ta1, wa1, (queued_packet (set_send_pending data c) <$> segs), (us_data <$> segs), T. split_and!; [done..|].
  intros arr wb Hsub Hroom. destruct (elem_fmap_cover _ _ _ Hsub) as (l & -> & Hl). rewrite payload_bytes_segs in Hroom.
  destruct (idle_pieces _ _ _ _ _ (us_data <$> segs) Hj) as [Hi0 Hx0].
  destruct (deliver_pieces (us_data <$> segs) snd _ Hne Hsnd ltac:(by rewrite Hcat) Hok1 l tb r [] wb)
    as (tb1 & r1 & seen & wb1 & Ed & _ & Hr1 & Hi1 & Hx1 & _ & _ & Hn1 & Hone); rewrite ?Hk1 in *; auto.
  { rewrite Htb. apply lookup_singleton_eq. }
  { split; apply Hj. }
  { eapply Forall_impl; [|exact Hl]. intros s Hin. cbn in Hin. by eapply Forall_forall in Hsp; [|apply list_elem_of_In]. }
  { unfold buffered_bytes. rewrite (id_recv _ _ _ _ _ Hj), (id_ooo _ _ _ _ _ Hj), (id_cap _ _ _ _ _ Hj). exact Hroom. }
  exists tb1, wb1. split; [exact Ed|]. eexists _, r1. split; [subst ta1; by eapply put_one|]. split; [exact Hs|].
  split; [by apply Hone|]. eapply got_receiver; eauto. rewrite Hn1. apply Hj.
Qed.

(** C2: recovery from loss.  Data that fits the buffer and the window goes
    out in packets, of which any may be lost, and the acknowledgements of the
    others too.  If from then on the packets get through, and the clock goes
    past every time, the retransmission timer brings all of the data across:
    after some number of rounds the receiver has exactly the bytes sent, and
    nothing is left in the sender's retransmission queue. *)
Theorem retransmission_recovers (ta tb : TcpTable) (key : ConnectionKey) (c r : TcpConnection)
    (snd rcv : u32) (wnd wnd' : u16) (data : bytes) (wa : World) :
  ta.(connections) = {[key := c]} → idle key snd rcv wnd c → c.(probe_deadline) = None →
  tb.(connections) = {[flip key := r]} → idle (flip key) rcv snd wnd' r →
  bytes_ok data → snd + len data < 2 ^ 32 → len data ≤ DEFAULT_SEND_BUFFER_CAP → len data ≤ wnd →
  (∀ T, ∃ n, ∀ m, (n ≤ m)%nat → T ≤ wa.(w_clock) m) →
  ∃ ta1 wa1 packets,
    send ta key data wa = Some ((len data, ta1), wa1) ∧ wa1.(w_sent) = wa.(w_sent) ++ packets ∧
    ∀ arr wb, (∀ p, p ∈ arr → p ∈ packets) → payload_bytes arr ≤ DEFAULT_RECV_BUFFER_CAP →
      ∃ tb1 wb1 n ta2 wa2 tb2 wb2 c2,
        deliver_all tb arr wb = Some (tb1, wb1) ∧
        exchanges n ((ta1, wa1), (tb1, wb1)) = Some ((ta2, wa2), (tb2, wb2)) ∧
        (recv tb2 (flip key) (length data)).1 = data ∧
        ta2.(connections) !! key = Some c2 ∧ c2.(retransmit_queue) = [] ∧ c2.(snd_una) = snd + len data.
Proof.
  intros Hta Hi Hpd Htb Hj Hb Hfit Hcap Hwnd Hclk.
  destruct (first_transmission ta tb key c r snd rcv wnd wnd' data wa)
    as (ta1 & wa1 & packets & cs & T & E & Hw & Hcl & Hne & Hsnd & Hcat & Hgo); auto.
  exists ta1, wa1, packets. split; [done|]. split; [done|]. intros arr wb Hsub Hroom.
  destruct (Hgo arr wb Hsub Hroom) as (tb1 & wb1 & Ed & Hs).
  destruct (recovered key cs snd rcv T _ Hne Hsnd ltac:(by rewrite Hcat) Hs) as (n & [[ta2 wa2] [tb2 wb2]] & En & Hs2).
  { cbn; rewrite Hcl. apply Hclk. }
  destruct (recovered_result _ _ _ _ _ _ Hne Hs2) as (Hrecv & c2 & Hc2 & Hq2 & Hu2). cbn in Hrecv, Hc2.
  rewrite Hcat in *. by exists tb1, wb1, n, ta2, wa2, tb2, wb2, c2.
Qed.

(** The only packet is lost. *)
Theorem retransmission_recovers_witness :
  let ta := put_conn wkey (fresh_conn Established wkey 1000 65535 0 2000 0) new in
  let tb := put_conn (flip wkey) (fresh_conn Established (flip wkey) 2000 65535 0 1000 0) new in
  ∃ ta1 wa1 n ta2 wa2 tb2 wb2,
    send ta wkey [1; 2; 3] demo_world = Some ((3, ta1), wa1) ∧
    exchanges n ((ta1, wa1), (tb, demo_world)) = Some ((ta2, wa2), (tb2, wb2)) ∧
    (recv tb2 (flip wkey) 3).1 = [1; 2; 3].
Proof.
  intros ta tb.
  destruct (retransmission_recovers ta tb wkey (fresh_conn Established wkey 1000 65535 0 2000 0)
    (fresh_conn Established (flip wkey) 2000 65535 0 1000 0) 1000 2000 65535 65535 [1; 2; 3] demo_world)
    as (ta1 & wa1 & packets & E & _ & Hgo).
  - apply insert_empty.
  - apply fresh_idle; [|by_decide..]. split_and!; by_decide.
  - reflexivity.
  - apply insert_empty.
  - apply fresh_idle; [|by_decide..]. split_and!; by_decide.
  - by_decide.
  - by_decide.
  - by_decide.
  - by_decide.
  - intros T. exists (Z.to_nat T). intros m Hm. cbn. lia.
  - assert (Hnone : ∀ p, p ∈ ([] : list bytes) → p ∈ packets) by (clear; set_solver).
    specialize (Hgo [] demo_world Hnone).
    assert (Hroom : payload_bytes [] ≤ DEFAULT_RECV_BUFFER_CAP) by (vm_compute; discriminate).
    specialize (Hgo Hroom).
    destruct Hgo as (tb1 & wb1 & n & ta2 & wa2 & tb2 & wb2 & c2 & E1 & E2 & E3 & _).
    injection E1 as <- <-. exists ta1, wa1, n, ta2, wa2, tb2, wb2. exact (conj E (conj E2 E3)).
Defined.
