(* ===== verification/TcpPersist.v ===== *)
(** * The persist timer

    A receiver whose buffer was full has closed its window, and since [recv]
    announces nothing the sender would wait for ever.  The probe of the
    persist timer makes the receiver say how much room it has by now. *)

From S2P Require Import Prelude Effects Ip TcpSegment TcpConn TcpSend TcpReceive TcpTable TcpInv TcpState TcpSystem TcpLoss.

(** A sender with data that the closed window holds back. *)
Record stalled (key : ConnectionKey) (c : TcpConnection) : Prop := {
  st_ok : conn_ok c;
  st_key : conn_key c = key;
  st_state : c.(state) = Established;
  st_pending : c.(send_pending) ≠ [];
  st_close : c.(pending_close) = false;
  st_wnd : c.(snd_wnd) = 0;
  st_acked : c.(snd_una) = c.(snd_nxt);
  st_queue : c.(retransmit_queue) = [];
  st_ooo : c.(ooo_buffer) = ∅;
  st_una : 1 ≤ c.(snd_una);
}.

(** The sender after a probe: it will try again after twice the time. *)
Definition probed (now : Instant) (c : TcpConnection) : TcpConnection :=
  let rto := Z.min (c.(probe_rto) * 2) MAX_RTO in
  set_probe_deadline (Some (now + rto)) (set_probe_rto rto c).

Definition probe_packet (c : TcpConnection) : bytes := seg_packet c TCP_ACK (c.(snd_una) - 1) [0].

Lemma stalled_probed key now c : stalled key c → stalled key (probed now c).
Proof.
  intros [Hok ? ? ? ? ? ? ? ? ?]. split; try done. destruct Hok as [? ? ? ? ? ? ? ? ? ? ? Hp ? ?]. split; try done.
  change (INITIAL_RTO ≤ Z.min (probe_rto c * 2) MAX_RTO ≤ MAX_RTO).
  assert (0 ≤ INITIAL_RTO ≤ MAX_RTO) by by_decide. lia.
Qed.

Lemma probe_data_ok : seg_data_ok [0].
Proof. split; by_decide. Qed.

(** The timer, when it is due. *)
Lemma tick_probe_due key now c d w :
  stalled key c → c.(probe_deadline) = Some d → d ≤ now →
  ∃ w', tick_conn now c w = Some (probed now c, w') ∧ w'.(w_sent) = w.(w_sent) ++ [probe_packet c] ∧ world_ext w w'.
Proof.
  intros Hst Hd Hle. pose proof (stalled_probed key now c Hst) as Hst'. destruct Hst as [Hok Hk Hs Hp Hc Hw Ha Hq Ho Hu].
  unfold tick_conn. rewrite bool_decide_eq_false_2 by (by rewrite Hs).
  pose proof (co_una c Hok) as Hur. unfold uN in Hur.
  assert (Hprobe : tick_probe now c w = Some (probed now c, emit (probe_packet c) w)).
  { unfold tick_probe. rewrite bool_decide_eq_true_2 by done. cbn [orb]. rewrite Hd.
    rewrite (proj2 (Z.leb_le _ _)) by done. rewrite wsub32_small by lia.
    erewrite bind_Some by (apply send_segment_eq; [apply Hok|by_decide|apply probe_data_ok]). reflexivity. }
  erewrite bind_Some by exact Hprobe. unfold tick_retransmit.
  change (retransmit_queue (probed now c)) with (retransmit_queue c). rewrite Hq.
  rewrite bind_ret. cbn [fst snd].
  destruct (flush_send_closed (probed now c) (emit (probe_packet c) w)) as (w' & E & Hw' & Hx).
  { apply conn_ok_ready, Hst'. }
  { change (state (probed now c)) with (state c). by rewrite Hs. }
  { exact Hc. }
  { exact Hw. }
  exists w'. split; [|split; [by rewrite Hw'|by etrans; [apply emit_ext|]]]. rewrite E. do 2 f_equal.
  unfold armed_probe. change (snd_wnd (probed now c)) with (snd_wnd c). rewrite Hw.
  change (send_pending (probed now c)) with (send_pending c). by rewrite bool_decide_eq_false_2 by done.
Qed.

(** The probe at the receiver: its byte is not taken, the answer says how
    much room there is. *)
Lemma probe_at_receiver tb wb c r :
  conn_ok c → 1 ≤ c.(snd_una) → tb.(connections) = {[flip (conn_key c) := r]} → rx_ready (flip (conn_key c)) r →
  r.(rcv_nxt) = c.(snd_una) →
  ∃ tb' r', deliver tb (probe_packet c) wb = Some (tb', emit (seg_packet r' TCP_ACK r'.(snd_nxt) []) wb) ∧
    tb'.(connections) = {[flip (conn_key c) := r']} ∧ rx_ready (flip (conn_key c)) r' ∧
    r'.(rcv_nxt) = r.(rcv_nxt) ∧ r'.(snd_nxt) = r.(snd_nxt) ∧ r'.(recv_buffer) = r.(recv_buffer) ∧
    advertise_window r' = advertise_window r.
Proof.
  intros Hok Hu Hb Hr Hn. pose proof (co_una c Hok) as Hur. unfold uN in Hur.
  destruct (deliver_conn tb c TCP_ACK (snd_una c - 1) [0] wb r) as (seg & (_ & _ & G3 & _ & G5 & _) & Hs & E).
  1: done.
  1: by_decide.
  1: unfold uN; lia.
  1: apply probe_data_ok.
  1: rewrite Hb; apply lookup_singleton_eq.
  cbn in G3, G5. destruct (process_ack_rx r seg) as (R1 & R2 & R3 & R4 & _).
  destruct (established_data (accept_queues tb) _ r seg [0] wb Hr Hs) as (E' & Hr' & Hn').
  1: by_decide.
  1,2: by rewrite G5.
  specialize (E _ _ _ E').
  assert (Hstep : receive_step (process_ack r seg) seg [0] = (process_ack r seg, true, false)).
  { unfold receive_step. rewrite G3, R1, Hn. destruct (Z.eqb_spec (snd_una c - 1) (snd_una c)); [lia|].
    destruct (Z.ltb_spec (snd_una c) (snd_una c - 1)); [lia|done]. }
  rewrite Hstep in *. cbn [fst snd acked_world] in *. eexists _, (process_ack r seg). split; [exact E|].
  split; [apply cleanup_one; [exact (put_one tb _ r _ Hb)|by rewrite (rr_state _ _ Hr')]|].
  split_and!; try done. unfold advertise_window, buffered_bytes. by rewrite R2, R3, R4.
Qed.

(** The answer at the sender: it sends what the window has room for. *)
Lemma window_opens ta wa key c r' :
  ta.(connections) = {[key := c]} → stalled key c → rx_ready (flip key) r' →
  r'.(rcv_nxt) = c.(snd_nxt) → r'.(snd_nxt) = c.(rcv_nxt) → 0 < advertise_window r' →
  let n := Z.to_nat (Z.min (advertise_window r') (len c.(send_pending))) in
  ∃ ta' wa' c1 c' segs, deliver ta (seg_packet r' TCP_ACK r'.(snd_nxt) []) wa = Some (ta', wa') ∧
    wa'.(w_sent) = wa.(w_sent) ++ (queued_packet c1 <$> segs) ∧ conn_key c1 = key ∧
    ta'.(connections) = {[key := c']} ∧ c'.(retransmit_queue) = segs ∧
    concat (us_data <$> segs) = take n c.(send_pending) ∧ c'.(send_pending) = drop n c.(send_pending) ∧
    c'.(probe_deadline) = None.
Proof.
  intros Hta [Hok Hk Hst Hp Hcl Hw0 Ha Hq Ho Hu] Hr Hn1 Hn2 Hwin n.
  assert (Hkf : flip (conn_key r') = key) by (rewrite (rr_key _ _ Hr); apply flip_flip).
  destruct (deliver_conn ta r' TCP_ACK (snd_nxt r') [] wa c) as (seg & (_ & _ & G3 & G4 & G5 & G6) & Hs & E).
  1: apply Hr.
  1: by_decide.
  1: apply (rr_ok _ _ Hr).
  1: apply seg_data_nil.
  1: rewrite Hkf, Hta; apply lookup_singleton_eq.
  cbn in G3, G5. change (th_ack_num seg = rcv_nxt r') in G4. change (th_window seg = advertise_window r') in G6.
  rewrite Hkf in E. set (c1 := process_ack c seg).
  assert (Hc1 : c1 = set_probe_rto INITIAL_RTO (set_probe_deadline None (set_snd_wnd (th_window seg) c))).
  { unfold c1. rewrite process_ack_eq, G5. change (has_flag TCP_ACK TCP_ACK) with true. cbn [negb].
    rewrite (proj2 (Z.ltb_ge _ _)) by lia. destruct (Z.eqb_spec (th_window seg) 0); [lia|done]. }
  assert (Hok1 : conn_ok c1) by (by apply process_ack_ok).
  assert (Hs1 : can_send (state c1) = true) by (rewrite Hc1; cbn; by rewrite Hst).
  destruct (flush_send_spec c1 wa (conn_ok_ready c1 Hok1) Hs1) as (w' & segs & fins & nxt & Ef & Hd & _ & Hfin & _ & _ & Hw & _).
  assert (Hfd : fin_due c1 = false) by (unfold fin_due; rewrite Hc1; cbn; by rewrite Hcl). rewrite Hfd in Hfin. subst fins.
  assert (Hsend : Z.to_nat (sendable c1) = n).
  { unfold sendable, n. rewrite Hc1. cbn. rewrite Ha, wsub32_small by lia. rewrite G6, Z.sub_diag, Z.sub_0_r. f_equal. lia. }
  rewrite Hsend in Hd. assert (Hpc : process_conn (accept_queues ta) key c seg [] wa =
    Some ((flushed c1 (clock_now wa) segs [] nxt, accept_queues ta), w')).
  { unfold process_conn. rewrite G5, Hst. change (has_flag TCP_ACK TCP_RST) with false. cbn [andb].
    erewrite bind_Some; [reflexivity|]. unfold process_established, receive_data_and_maybe_fin, receive_step. fold c1.
    rewrite G5, G3. replace (rcv_nxt c1) with (rcv_nxt c) by (by rewrite Hc1). rewrite Hn2, Z.eqb_refl.
    change (has_flag TCP_ACK TCP_FIN) with false. rewrite bool_decide_eq_true_2 by done. cbn [negb].
    replace (ooo_buffer c1) with (ooo_buffer c) by (by rewrite Hc1). rewrite Ho, map_size_empty. cbn [splice_ooo].
    by rewrite bind_ret, bind_ret. }
  rewrite app_nil_r in Hw. eexists _, w', c1, (flushed c1 (clock_now wa) segs [] nxt), segs. split; [by apply E|].
  split; [exact Hw|]. split; [rewrite Hc1; exact Hk|].
  split; [apply cleanup_one; [exact (put_one ta _ c _ Hta)|cbn; rewrite Hfd, Hc1; cbn; by rewrite Hst]|].
  cbn. rewrite Hsend. unfold armed_probe. rewrite Hc1. cbn. rewrite Hq, app_nil_r, G6.
  rewrite Hc1 in Hd. destruct (Z.eqb_spec (advertise_window r') 0); [lia|]. by split_and!.
Qed.

(** C3: the persist timer ends a zero-window stall.  The receiver has closed
    its window and read its data since, without saying so; the sender has
    data pending and nothing in flight.  At the first tick after the probe
    deadline one round brings the connection back to life: the probe's byte
    does not enter the receiver's stream, the acknowledgement it provokes
    carries the receiver's window, and the sender at once sends as much of the
    pending data as that window admits, at least one byte, in order. *)
Theorem persist_probe_reopens (ta tb : TcpTable) (key : ConnectionKey) (c r : TcpConnection) (d : Instant)
    (wa wb : World) :
  ta.(connections) = {[key := c]} → stalled key c → c.(probe_deadline) = Some d → d ≤ clock_now wa →
  tb.(connections) = {[flip key := r]} → rx_ready (flip key) r →
  r.(rcv_nxt) = c.(snd_nxt) → r.(snd_nxt) = c.(rcv_nxt) → 0 < advertise_window r →
  let n := Z.to_nat (Z.min (advertise_window r) (len c.(send_pending))) in
  ∃ ta' wa' tb' wb' c' r', exchange ((ta, wa), (tb, wb)) = Some ((ta', wa'), (tb', wb')) ∧
    tb'.(connections) = {[flip key := r']} ∧ r'.(recv_buffer) = r.(recv_buffer) ∧ r'.(rcv_nxt) = r.(rcv_nxt) ∧
    ta'.(connections) = {[key := c']} ∧ (0 < n)%nat ∧
    concat (us_data <$> c'.(retransmit_queue)) = take n c.(send_pending) ∧
    c'.(send_pending) = drop n c.(send_pending) ∧ c'.(probe_deadline) = None ∧
    ∃ c1, conn_key c1 = key ∧
      wa'.(w_sent) = wa.(w_sent) ++ probe_packet c :: (queued_packet c1 <$> c'.(retransmit_queue)).
Proof.
  intros Hta Hs Hd Hle Htb Hr Hn1 Hn2 Hwin n. pose proof (st_key _ _ Hs) as Hk.
  destruct (tick_one ta key c wa Hta) as (w1 & Hw1 & _ & _ & Et).
  destruct (tick_probe_due key (clock_now wa) c d w1 Hs Hd Hle) as (w2 & Etc & Hw2 & _). specialize (Et _ _ Etc).
  destruct (probe_at_receiver tb wb c r) as (tb' & r' & Eb & Htb' & Hr' & Hb1 & Hb2 & Hb3 & Hb4);
    rewrite ?Hk in *; auto; [apply Hs|apply Hs|by rewrite (st_acked _ _ Hs)|].
  pose proof (stalled_probed key (clock_now wa) c Hs) as Hs'.
  set (ta1 := cleanup_closed_connections (put_conn key (probed (clock_now wa) c) ta)) in *.
  assert (Hta1 : ta1.(connections) = {[key := probed (clock_now wa) c]})
    by (apply cleanup_one; [exact (put_one ta _ c _ Hta)|by rewrite (st_state _ _ Hs')]).
  destruct (window_opens ta1 w2 key (probed (clock_now wa) c) r') as
    (ta' & wa' & c1 & c' & segs & Ea & Hwa & Hk1 & Hta' & Hq & Hcat & Hrest & Hpd); auto.
  { rewrite Hb1. exact Hn1. }
  { rewrite Hb2. exact Hn2. }
  { by rewrite Hb4. }
  change (send_pending (probed (clock_now wa) c)) with (send_pending c) in *. rewrite Hb4 in Hcat, Hrest.
  exists ta', wa', tb', (emit (seg_packet r' TCP_ACK r'.(snd_nxt) []) wb), c', r'. split_and!; try done.
  - unfold exchange. rewrite Et. cbn [mbind option_bind].
    rewrite (written_app wa w2 [probe_packet c]) by (by rewrite Hw2, Hw1).
    cbn [deliver_all]. rewrite (bind_Some _ _ _ _ _ Eb). unfold mret, M_ret. cbn [mbind option_bind].
    rewrite (written_app wb _ [seg_packet r' TCP_ACK (snd_nxt r') []]) by done.
    cbn [deliver_all]. rewrite (bind_Some _ _ _ _ _ Ea). done.
  - unfold n. pose proof (len_pos _ (st_pending _ _ Hs)). lia.
  - by rewrite Hq.
  - exists c1. split; [done|]. rewrite Hwa, Hw2, Hw1, Hq. by rewrite <- app_assoc.
Qed.

(** Three bytes wait; the receiver has room for two. *)
Theorem persist_probe_reopens_witness :
  let c := set_probe_deadline (Some 0) (set_send_pending [7; 8; 9] (fresh_conn Established wkey 1000 0 0 2000 0)) in
  let r := set_recv_buffer_cap 2 (fresh_conn Established (flip wkey) 2000 65535 0 1000 0) in
  ∃ s', exchange ((put_conn wkey c new, demo_world), (put_conn (flip wkey) r new, demo_world)) = Some s'.
Proof.
  intros c r.
  destruct (persist_probe_reopens (put_conn wkey c new) (put_conn (flip wkey) r new) wkey c r 0 demo_world demo_world)
    as (ta' & wa' & tb' & wb' & c' & r' & E & _).
  - apply insert_empty.
  - split; try done; try by_decide. split; try done; try by_decide. by exists 1000.
  - reflexivity.
  - by_decide.
  - apply insert_empty.
  - split; try done. split; try done; try by_decide. by exists 2000.
  - reflexivity.
  - reflexivity.
  - by_decide.
  - exists ((ta', wa'), (tb', wb')). exact E.
Defined.
