(* ===== verification/TcpOpen.v ===== *)
(** * Opening: the listen guard and ephemeral ports *)

From S2P Require Import Prelude Ip TcpSegment TcpConn TcpSend TcpTable TcpInv TcpState TcpSystem.

(** A connection that keeps a fresh [listen] from its local address. *)
Definition occupies (addr : u32) (port : u16) (reuse : bool) (key : ConnectionKey) (c : TcpConnection) : Prop :=
  key.(k_local_addr) = addr ∧ key.(k_local_port) = port ∧ c.(state) ≠ Closed ∧ ¬ (c.(state) = TimeWait ∧ reuse = true).

Lemma blocks_address_spec addr port reuse c :
  blocks_address addr port reuse c = true ↔ occupies addr port reuse (conn_key c) c.
Proof.
  unfold blocks_address, occupies. cbn. rewrite !andb_true_iff, negb_orb, !negb_involutive, andb_true_iff, !Z.eqb_eq.
  rewrite !negb_true_iff, bool_decide_eq_false, andb_false_iff, bool_decide_eq_false.
  destruct reuse; intuition congruence.
Qed.

Lemma address_in_use_spec t addr port reuse :
  table_ok t →
  address_in_use t addr port reuse = true ↔
    (¬ ((addr, port) ∈ t.(listeners)) ∧ ∃ key c, t.(connections) !! key = Some c ∧ occupies addr port reuse key c).
Proof.
  intros Ht. unfold address_in_use. case_bool_decide as Hl; [split; [done|by intros [? _]]|]. rewrite existsb_exists. split.
  - intros ([key c] & Hin & Hb). apply list_elem_of_In, elem_of_map_to_list in Hin.
    destruct (table_ok_conn t key c Ht Hin) as [_ Hk]. apply blocks_address_spec in Hb. cbn in Hb. rewrite Hk in Hb. eauto.
  - intros (_ & key & c & Hin & Ho). exists (key, c). destruct (table_ok_conn t key c Ht Hin) as [_ Hk].
    split; [by apply list_elem_of_In, elem_of_map_to_list|]. apply blocks_address_spec. cbn. by rewrite Hk.
Qed.

(** [listen] succeeds exactly when the address is already listening or no
    live connection occupies it; TIME_WAIT occupies it unless [reuse_addr] is
    set.  Success registers the address and touches nothing else; failure
    changes nothing; repeating a successful call succeeds. *)
Theorem listen_guard (t : TcpTable) (addr : u32) (port : u16) (reuse reuse' : bool) :
  table_ok t →
  let '(ok, t') := listen t addr port reuse in
  (ok = true ↔ (addr, port) ∈ t.(listeners) ∨
     ∀ key c, t.(connections) !! key = Some c → ¬ occupies addr port reuse key c) ∧
  t'.(connections) = t.(connections) ∧
  (if ok then t'.(listeners) = {[(addr, port)]} ∪ t.(listeners) ∧ (listen t' addr port reuse').1 = true else t' = t).
Proof.
  intros Ht. pose proof (address_in_use_spec t addr port reuse Ht) as Hs. unfold listen.
  destruct (address_in_use t addr port reuse) eqn:E.
  - destruct (proj1 Hs eq_refl) as (Hn & key & c & Hc & Ho). split; [|done]. split; [done|].
    intros [?|H]; [done|]. by destruct (H key c).
  - split_and!; [|done|done|].
    + split; [|done]. intros _. destruct (decide ((addr, port) ∈ listeners t)); [by left|right].
      intros key c Hc Ho. assert (false = true) by (apply Hs; eauto). done.
    + cbn. unfold address_in_use. cbn. rewrite bool_decide_eq_true_2; [done|]. apply elem_of_union_l, elem_of_singleton_2. done.
Qed.

Theorem listen_guard_witness :
  (listen new 0x0A0A0002 80 false).1 = true.
Proof.
  pose proof (listen_guard new 0x0A0A0002 80 false false table_ok_new) as H.
  destruct (listen new 0x0A0A0002 80 false) as [ok t']. destruct H as (H & _). apply H. right.
  intros key c Hc. cbn in Hc. by rewrite lookup_empty in Hc.
Defined.

(** Ephemeral ports are handed out by a counter that wraps around at [2^16],
    to zero and through the well-known ports, and is never checked against
    the table: when it comes back to the port of a connection that is still
    open to the same peer, [connect] replaces that connection by a new one in
    SYN_SENT, and what was in its buffers is gone. *)
Theorem connect_replaces (t : TcpTable) (la ra : u32) (rp : u16) (c : TcpConnection) (w : World) :
  table_ok t → is_u32 la → is_u32 ra → is_u16 rp →
  let key := mkConnectionKey la t.(next_ephemeral_port) ra rp in
  t.(connections) !! key = Some c →
  ∃ t' w' c', connect t la ra rp w = Some ((key, t'), w') ∧ t'.(connections) !! key = Some c' ∧
    c'.(state) = SynSent ∧ c'.(recv_buffer) = [] ∧ c'.(send_pending) = [] ∧
    t'.(next_ephemeral_port) = wadd16 t.(next_ephemeral_port) 1.
Proof.
  intros Ht Hla Hra Hrp key Hc. destruct (connect_eq t la ra rp w Ht Hla Hra Hrp) as (iss0 & tw & now & t1 & w1 & E & _ & Hk & _).
  eexists t1, w1, _. split; [exact E|]. split; [exact Hk|]. split_and!; try done.
  revert E. unfold connect, allocate_ephemeral_port, mbind, M_bind. cbv beta iota zeta.
  destruct (active_open _ _ _ _ w) as [[c1 w2]|]; [|done]. destruct (lift _ w2) as [[c2 w3]|]; [|done].
  destruct (queue_and_send _ _ _ w3) as [[c3 w4]|]; [|done]. by intros [= <- _].
Qed.

Theorem connect_replaces_witness :
  let t := set_next_ephemeral_port 49152 (put_conn wkey (set_recv_buffer [1] (fresh_conn Established wkey 1000 65535 0 2000 0)) new) in
  ∃ t' w' c', connect t 0x0A0A0001 0x0A0A0002 80 demo_world = Some ((wkey, t'), w') ∧
    t'.(connections) !! wkey = Some c' ∧ c'.(recv_buffer) = [].
Proof.
  intros t. destruct (connect_replaces t 0x0A0A0001 0x0A0A0002 80
    (set_recv_buffer [1] (fresh_conn Established wkey 1000 65535 0 2000 0)) demo_world) as (t' & w' & c' & E & Hk & _ & Hb & _).
  - assert (Ht : table_ok (put_conn wkey (set_recv_buffer [1] (fresh_conn Established wkey 1000 65535 0 2000 0)) new)).
    { apply table_ok_put; [apply table_ok_new| |reflexivity]. split; try done; try by_decide. by exists 1000. }
    destruct Ht. split; cbn; auto.
  - by_decide.
  - by_decide.
  - by_decide.
  - apply lookup_insert_eq.
  - exists t', w', c'. exact (conj E (conj Hk Hb)).
Defined.
