(* ===== verification/TcpClose.v ===== *)
(** * Orderly release of a connection

    The four packets of a close: FIN, its acknowledgement, the FIN of the
    other side and the acknowledgement of that; and the close in which both
    ends begin and the FINs cross. *)

From S2P Require Import Prelude Ip TcpSegment TcpConn TcpSend TcpReceive TcpTable TcpInv TcpState TcpSystem.

(** A connection in state [s] that has sent everything up to [nxt], received
    everything up to [rcv], and has nothing pending. *)
Record phase (s : TcpState) (key : ConnectionKey) (nxt rcv : u32) (c : TcpConnection) : Prop := {
  ph_ok : conn_ok c;
  ph_key : conn_key c = key;
  ph_state : c.(state) = s;
  ph_nxt : c.(snd_nxt) = nxt;
  ph_rcv : c.(rcv_nxt) = rcv;
  ph_ooo : c.(ooo_buffer) = ∅;
  ph_pending : c.(send_pending) = [];
  ph_close : c.(pending_close) = false;
}.

Lemma idle_phase key snd rcv wnd c : idle key snd rcv wnd c → phase Established key snd rcv c.
Proof. intros []. by split. Qed.

(** ** The application closes *)

Lemma flush_fin_now c w :
  conn_ok c → can_send c.(state) = true → c.(send_pending) = [] → c.(pending_close) = true →
  flush_send c w =
    Some (set_pending_close false (set_state (fin_state c.(state)) (queued c fin_flags [] (clock_now w))),
          clock_next (emit (seg_packet c fin_flags c.(snd_nxt) []) w)).
Proof.
  intros Hc Hs Hp Hcl. unfold flush_send.
  assert (negb (bool_decide (state c = Established)) && negb (bool_decide (state c = CloseWait)) = false) as ->
    by (unfold can_send in Hs; by rewrite <- negb_orb, Hs).
  rewrite (bool_decide_eq_true_2 (send_pending c = [])) by done. cbn [negb]. rewrite andb_false_r, bind_ret.
  rewrite Hp. cbn [length flush_loop]. rewrite bind_ret, flush_fin_spec by (apply Hc || done).
  rewrite Hp, Hcl. reflexivity.
Qed.

Lemma close_phase t s key nxt rcv c w :
  t.(connections) !! key = Some c → phase s key nxt rcv c → can_send s = true →
  ∃ t' c' w' c0, TcpTable.close t key w = Some (t', w') ∧ t'.(connections) !! key = Some c' ∧
    phase (fin_state s) key (wadd32 nxt 1) rcv c' ∧ conn_ok c0 ∧ conn_key c0 = key ∧ c0.(rcv_nxt) = rcv ∧
    w'.(w_sent) = w.(w_sent) ++ [seg_packet c0 fin_flags nxt []].
Proof.
  intros Hk Hp Hs. set (c0 := set_pending_close true c).
  pose proof (ph_ok _ _ _ _ _ Hp) as Hok. pose proof (ph_state _ _ _ _ _ Hp) as Hst.
  assert (Hok0 : conn_ok c0).
  { destruct Hok. split; cbn; auto. rewrite Hst. auto. }
  assert (E : flush_send c0 w = _) by (apply flush_fin_now; auto; [cbn; by rewrite Hst|apply Hp]).
  destruct (flush_send_ok c0 w Hok0) as (c' & w' & E' & Hok' & Hst' & Hk' & Hr' & _). rewrite E in E'.
  injection E' as <- <-. eexists _, _, _, c0. split.
  { unfold close. rewrite Hk, Hst.
    erewrite bind_Some; [reflexivity|]. destruct s; try discriminate Hs; exact E. }
  split_and!; [apply lookup_insert_eq| |done|apply Hp|apply Hp|cbn; by rewrite (ph_nxt _ _ _ _ _ Hp)].
  split; [done| | | | | | |done]; cbn; try apply Hp.
  - by rewrite Hst.
  - by rewrite (ph_nxt _ _ _ _ _ Hp).
Qed.

(** ** Segments of a close *)

(** An empty segment in sequence, with nothing to reassemble. *)
Lemma receive_step_empty c seg :
  c.(ooo_buffer) = ∅ → seg.(th_seq_num) = c.(rcv_nxt) →
  receive_step c seg [] =
    if has_flag seg.(th_flags) TCP_FIN then (set_rcv_nxt (wadd32 c.(rcv_nxt) 1) c, true, true)
    else (c, false, false).
Proof.
  intros Ho Hs. unfold receive_step. rewrite Hs, Z.eqb_refl.
  rewrite bool_decide_eq_true_2 by done. cbn [negb]. rewrite Ho, map_size_empty. cbn [splice_ooo].
  by destruct (has_flag _ _).
Qed.

(** A phase survives the bookkeeping of acknowledgements. *)
Lemma process_ack_phase s key nxt rcv c seg :
  phase s key nxt rcv c → tcp_header_ok seg → phase s key nxt rcv (process_ack c seg).
Proof.
  intros Hp Hs. destruct (process_ack_frame c seg) as (E1 & E2 & E3 & E4 & _ & E6).
  destruct (process_ack_rx c seg) as (_ & _ & E7 & _ & E8).
  destruct Hp. split; [by apply process_ack_ok|congruence..].
Qed.

Lemma phase_rcv s key nxt rcv c :
  phase s key nxt rcv c → phase s key nxt (wadd32 rcv 1) (set_rcv_nxt (wadd32 c.(rcv_nxt) 1) c).
Proof.
  intros [Hok ? ? ? Hr ? ? ?]. split; cbn; auto; [|congruence].
  destruct Hok. split; cbn; auto with minitcp.
Qed.

Lemma phase_state s s' key nxt rcv c :
  phase s key nxt rcv c → s' ≠ Listen → phase s' key nxt rcv (set_state s' c).
Proof.
  intros Hp Hn. destruct Hp as [Hok ? ? ? ? ? ? Hcl]. split; cbn; auto.
  apply conn_ok_state; [done|done|]. by rewrite Hcl.
Qed.

(** Receiving the peer's FIN: it is consumed and acknowledged. *)
Lemma receive_fin s key nxt rcv c seg w :
  phase s key nxt rcv c → seg.(th_flags) = fin_flags → seg.(th_seq_num) = rcv →
  let c' := set_rcv_nxt (wadd32 c.(rcv_nxt) 1) c in
  receive_data_and_maybe_fin c seg [] w = Some ((c', true), emit (seg_packet c' TCP_ACK nxt []) w) ∧
  phase s key nxt (wadd32 rcv 1) c'.
Proof.
  intros Hp Hf Hs c'. pose proof (phase_rcv _ _ _ _ _ Hp) as Hp'. fold c' in Hp'. split; [|done].
  assert (E : receive_step c seg [] = (c', true, true)).
  { rewrite receive_step_empty by (apply Hp || by rewrite (ph_rcv _ _ _ _ _ Hp)). by rewrite Hf. }
  rewrite receive_data_eq; rewrite ?E; [|apply Hp|apply Hp']. cbn [fst snd acked_world].
  change (snd_nxt c') with (snd_nxt c). by rewrite (ph_nxt _ _ _ _ _ Hp).
Qed.

(** Receiving a pure acknowledgement: nothing to answer. *)
Lemma receive_ack s key nxt rcv c seg w :
  phase s key nxt rcv c → seg.(th_flags) = TCP_ACK → seg.(th_seq_num) = rcv →
  receive_data_and_maybe_fin c seg [] w = Some ((c, false), w).
Proof.
  intros Hp Hf Hs.
  assert (E : receive_step c seg [] = (c, false, false)).
  { rewrite receive_step_empty by (apply Hp || by rewrite (ph_rcv _ _ _ _ _ Hp)). by rewrite Hf. }
  by rewrite receive_data_eq; rewrite ?E; [|apply Hp..].
Qed.

Section Arms.
Context (q : AcceptQueues) (key : ConnectionKey) (nxt rcv : u32) (c : TcpConnection) (seg : TcpHeader) (w : World).
Hypothesis Hs : tcp_header_ok seg.
Hypothesis Hseq : seg.(th_seq_num) = rcv.

Lemma fin_at_established :
  phase Established key nxt rcv c → seg.(th_flags) = fin_flags →
  ∃ c', process_conn q key c seg [] w = Some ((c', q), emit (seg_packet c' TCP_ACK nxt []) w) ∧
    phase CloseWait key nxt (wadd32 rcv 1) c'.
Proof.
  intros Hp Hf. pose proof (process_ack_phase _ _ _ _ _ _ Hp Hs) as Hp1.
  destruct (receive_fin _ _ _ _ _ _ w Hp1 Hf Hseq) as [E Hp2]. set (c2 := set_rcv_nxt _ _) in *.
  exists (set_state CloseWait c2). split; [|by eapply phase_state].
  unfold process_conn, process_established. rewrite Hf, (ph_state _ _ _ _ _ Hp).
  change (has_flag fin_flags TCP_RST) with false. cbn [andb].
  erewrite bind_Some; [reflexivity|]. erewrite bind_Some by exact E.
  apply flush_send_nothing; apply Hp2.
Qed.

Lemma fin_at_fin_wait2 :
  phase FinWait2 key nxt rcv c → seg.(th_flags) = fin_flags →
  ∃ c', process_conn q key c seg [] w =
      Some ((c', q), clock_next (emit (seg_packet c' TCP_ACK nxt []) w)) ∧
    phase TimeWait key nxt (wadd32 rcv 1) c' ∧
    c'.(time_wait_deadline) = clock_now w + TIME_WAIT_DURATION.
Proof.
  intros Hp Hf. pose proof (process_ack_phase _ _ _ _ _ _ Hp Hs) as Hp1.
  destruct (receive_fin _ _ _ _ _ _ w Hp1 Hf Hseq) as [E Hp2]. set (c2 := set_rcv_nxt _ _) in *.
  exists (set_time_wait_deadline (clock_now w + TIME_WAIT_DURATION) (set_state TimeWait c2)). split_and!.
  - unfold process_conn, process_fin_wait2. rewrite Hf, (ph_state _ _ _ _ _ Hp).
    change (has_flag fin_flags TCP_RST) with false. cbn [andb].
    erewrite bind_Some; [reflexivity|]. erewrite bind_Some by exact E. reflexivity.
  - apply phase_state with (s' := TimeWait) in Hp2; [|done]. destruct Hp2. split; try done.
    by apply conn_ok_time_wait.
  - reflexivity.
Qed.

(** A FIN that crossed ours: it does not acknowledge it. *)
Lemma fin_at_fin_wait1 :
  phase FinWait1 key nxt rcv c → seg.(th_flags) = fin_flags → seg.(th_ack_num) ≠ nxt →
  ∃ c', process_conn q key c seg [] w = Some ((c', q), emit (seg_packet c' TCP_ACK nxt []) w) ∧
    phase Closing key nxt (wadd32 rcv 1) c'.
Proof.
  intros Hp Hf Hne. pose proof (process_ack_phase _ _ _ _ _ _ Hp Hs) as Hp1.
  destruct (receive_fin _ _ _ _ _ _ w Hp1 Hf Hseq) as [E Hp2]. set (c2 := set_rcv_nxt _ _) in *.
  exists (set_state Closing c2). split; [|by eapply phase_state].
  unfold process_conn, process_fin_wait1. rewrite Hf, (ph_state _ _ _ _ _ Hp).
  change (has_flag fin_flags TCP_RST) with false. cbn [andb].
  erewrite bind_Some; [reflexivity|]. erewrite bind_Some by exact E.
  unfold acks_everything. rewrite (ph_nxt _ _ _ _ _ Hp1), (proj2 (Z.eqb_neq _ _) Hne), andb_false_r. reflexivity.
Qed.

Hypothesis Hf : seg.(th_flags) = TCP_ACK.
Hypothesis Hack : seg.(th_ack_num) = nxt.

Lemma ack_at_fin_wait1 :
  phase FinWait1 key nxt rcv c →
  ∃ c', process_conn q key c seg [] w = Some ((c', q), w) ∧ phase FinWait2 key nxt rcv c'.
Proof.
  intros Hp. pose proof (process_ack_phase _ _ _ _ _ _ Hp Hs) as Hp1.
  pose proof (receive_ack _ _ _ _ _ _ w Hp1 Hf Hseq) as E.
  exists (set_state FinWait2 (process_ack c seg)). split; [|by eapply phase_state].
  unfold process_conn, process_fin_wait1. rewrite Hf, (ph_state _ _ _ _ _ Hp).
  change (has_flag TCP_ACK TCP_RST) with false. cbn [andb].
  erewrite bind_Some; [reflexivity|]. erewrite bind_Some by exact E.
  unfold acks_everything. by rewrite Hf, Hack, (ph_nxt _ _ _ _ _ Hp1), Z.eqb_refl.
Qed.

Lemma ack_at_last_ack :
  phase LastAck key nxt rcv c →
  ∃ c', process_conn q key c seg [] w = Some ((c', q), w) ∧ c'.(state) = Closed.
Proof.
  intros Hp. pose proof (process_ack_phase _ _ _ _ _ _ Hp Hs) as Hp1.
  exists (set_state Closed (process_ack c seg)). split; [|done].
  unfold process_conn, process_last_ack. rewrite Hf, (ph_state _ _ _ _ _ Hp).
  change (has_flag TCP_ACK TCP_RST) with false. cbn [andb].
  erewrite bind_Some; [reflexivity|]. unfold acks_everything.
  by rewrite Hf, Hack, (ph_nxt _ _ _ _ _ Hp1), Z.eqb_refl.
Qed.

Lemma ack_at_closing :
  phase Closing key nxt rcv c →
  ∃ c', process_conn q key c seg [] w = Some ((c', q), clock_next w) ∧ c'.(state) = TimeWait ∧
    c'.(time_wait_deadline) = clock_now w + TIME_WAIT_DURATION.
Proof.
  intros Hp. pose proof (process_ack_phase _ _ _ _ _ _ Hp Hs) as Hp1.
  exists (set_time_wait_deadline (clock_now w + TIME_WAIT_DURATION) (set_state TimeWait (process_ack c seg))).
  split; [|done]. unfold process_conn, process_closing. rewrite Hf, (ph_state _ _ _ _ _ Hp).
  change (has_flag TCP_ACK TCP_RST) with false. cbn [andb].
  erewrite bind_Some; [reflexivity|]. unfold acks_everything.
  by rewrite Hf, Hack, (ph_nxt _ _ _ _ _ Hp1), Z.eqb_refl.
Qed.

End Arms.

(** ** The exchange *)

(** Delivery of a control segment between two phases. *)
Lemma deliver_control t key key' flags seq c c2 w (P : TcpConnection → World → Prop) :
  conn_ok c → conn_key c = key → key' = flip key → is_u8 flags → is_u32 seq →
  t.(connections) !! key' = Some c2 →
  (∀ seg, tcp_header_ok seg → seg.(th_flags) = flags → seg.(th_seq_num) = seq →
     (has_flag flags TCP_ACK = true → seg.(th_ack_num) = c.(rcv_nxt)) →
     ∃ c2' w', process_conn t.(accept_queues) key' c2 seg [] w = Some ((c2', t.(accept_queues)), w') ∧ P c2' w') →
  ∃ t' c2' w', deliver t (seg_packet c flags seq []) w = Some (t', w') ∧
    t'.(connections) !! key' = (if bool_decide (c2'.(state) = Closed) then None else Some c2') ∧ P c2' w'.
Proof.
  intros Hok <- -> Hf Hs Hk Hp. apply deliver_process with (c2 := c2); auto using seg_data_nil.
  intros seg (_ & _ & E3 & E4 & E5 & _) Hh. apply Hp; [done|done|done|].
  intros Ha. rewrite E4. cbn. by rewrite Ha.
Qed.

Lemma phase_nxt s key nxt rcv c : phase s key nxt rcv c → is_u32 nxt.
Proof. intros Hp. rewrite <- (ph_nxt _ _ _ _ _ Hp). apply (ph_ok _ _ _ _ _ Hp). Qed.

(** The first FIN and its acknowledgement. *)
Lemma half_close ta tb wa wb key a b na nb :
  ta.(connections) !! key = Some a → phase Established key na nb a →
  tb.(connections) !! flip key = Some b → phase Established (flip key) nb na b →
  ∃ ta1 wa1 fin1 tb1 wb1 ack1 ta2 a2 b1,
    TcpTable.close ta key wa = Some (ta1, wa1) ∧ wa1.(w_sent) = wa.(w_sent) ++ [fin1] ∧
    deliver tb fin1 wb = Some (tb1, wb1) ∧ wb1.(w_sent) = wb.(w_sent) ++ [ack1] ∧
    deliver ta1 ack1 wa1 = Some (ta2, wa1) ∧
    ta2.(connections) !! key = Some a2 ∧ phase FinWait2 key (wadd32 na 1) nb a2 ∧
    tb1.(connections) !! flip key = Some b1 ∧ phase CloseWait (flip key) nb (wadd32 na 1) b1.
Proof.
  intros Hka Ha Hkb Hb. pose proof (phase_nxt _ _ _ _ _ Ha) as Hna. pose proof (phase_nxt _ _ _ _ _ Hb) as Hnb.
  assert (Hff : is_u8 fin_flags) by by_decide. assert (Hfa : is_u8 TCP_ACK) by by_decide.
  destruct (close_phase ta Established key na nb a wa Hka Ha eq_refl)
    as (ta1 & a1 & wa1 & a0 & E1 & Hk1 & P1 & Hok0 & Hk0 & _ & Hw1).
  destruct (deliver_control tb key (flip key) fin_flags na a0 b wb
    (λ b1 w', phase CloseWait (flip key) nb (wadd32 na 1) b1 ∧ w' = emit (seg_packet b1 TCP_ACK nb []) wb))
    as (tb1 & b1 & wb1 & E2 & Hk2 & P2 & ->); auto.
  { intros seg Hs Hf Hq _. destruct (fin_at_established (accept_queues tb) _ _ _ _ seg wb Hs Hq Hb Hf) as (b1 & ? & ?).
    exists b1, (emit (seg_packet b1 TCP_ACK nb []) wb). auto. }
  rewrite bool_decide_eq_false_2 in Hk2 by (by rewrite (ph_state _ _ _ _ _ P2)).
  destruct (deliver_control ta1 (flip key) key TCP_ACK nb b1 a1 wa1
    (λ a2 w', phase FinWait2 key (wadd32 na 1) nb a2 ∧ w' = wa1)) as (ta2 & a2 & wa2 & E3 & Hk3 & P3 & ->);
    auto; [apply P2|apply P2|by rewrite flip_flip| |].
  { intros seg Hs Hf Hq Hn. specialize (Hn eq_refl). rewrite (ph_rcv _ _ _ _ _ P2) in Hn.
    destruct (ack_at_fin_wait1 (accept_queues ta1) _ _ _ _ seg wa1 Hs Hq Hf Hn P1) as (a2 & ? & ?). exists a2, wa1. auto. }
  rewrite bool_decide_eq_false_2 in Hk3 by (by rewrite (ph_state _ _ _ _ _ P3)).
  eexists ta1, wa1, _, tb1, _, _, ta2, a2, b1.
  split_and!; [exact E1|exact Hw1|exact E2|reflexivity|exact E3|exact Hk3|exact P3|exact Hk2|exact P2].
Qed.

(** The second FIN and its acknowledgement. *)
Lemma full_close ta tb wa wb key a b na nb :
  ta.(connections) !! key = Some a → phase FinWait2 key na nb a →
  tb.(connections) !! flip key = Some b → phase CloseWait (flip key) nb na b →
  ∃ tb1 wb1 fin ta1 wa1 a1 ack tb2,
    TcpTable.close tb (flip key) wb = Some (tb1, wb1) ∧ wb1.(w_sent) = wb.(w_sent) ++ [fin] ∧
    deliver ta fin wa = Some (ta1, wa1) ∧ wa1.(w_sent) = wa.(w_sent) ++ [ack] ∧
    deliver tb1 ack wb1 = Some (tb2, wb1) ∧
    ta1.(connections) !! key = Some a1 ∧ a1.(state) = TimeWait ∧
    a1.(time_wait_deadline) = clock_now wa + TIME_WAIT_DURATION ∧ tb2.(connections) !! flip key = None.
Proof.
  intros Hka Ha Hkb Hb. pose proof (phase_nxt _ _ _ _ _ Ha) as Hna. pose proof (phase_nxt _ _ _ _ _ Hb) as Hnb.
  assert (Hff : is_u8 fin_flags) by by_decide. assert (Hfa : is_u8 TCP_ACK) by by_decide.
  destruct (close_phase tb CloseWait (flip key) nb na b wb Hkb Hb eq_refl)
    as (tb1 & b1 & wb1 & b0 & E1 & Hk1 & P1 & Hok0 & Hk0 & _ & Hw1).
  destruct (deliver_control ta (flip key) key fin_flags nb b0 a wa
    (λ a1 w', phase TimeWait key na (wadd32 nb 1) a1 ∧
       a1.(time_wait_deadline) = clock_now wa + TIME_WAIT_DURATION ∧
       w' = clock_next (emit (seg_packet a1 TCP_ACK na []) wa)))
    as (ta1 & a1 & wa1 & E2 & Hk2 & P2 & Hd2 & ->); auto; [by rewrite flip_flip| |].
  { intros seg Hs Hf Hq _. destruct (fin_at_fin_wait2 (accept_queues ta) _ _ _ _ seg wa Hs Hq Ha Hf) as (a3 & ? & ? & ?).
    eexists a3, _. eauto. }
  rewrite bool_decide_eq_false_2 in Hk2 by (by rewrite (ph_state _ _ _ _ _ P2)).
  destruct (deliver_control tb1 key (flip key) TCP_ACK na a1 b1 wb1
    (λ b3 w', b3.(state) = Closed ∧ w' = wb1)) as (tb2 & b2 & wb2 & E3 & Hk3 & Hc3 & ->);
    auto; [apply P2|apply P2| |].
  { intros seg Hs Hf Hq Hn. specialize (Hn eq_refl). rewrite (ph_rcv _ _ _ _ _ P2) in Hn.
    destruct (ack_at_last_ack (accept_queues tb1) _ _ _ _ seg wb1 Hs Hf Hn P1) as (b3 & ? & ?). exists b3, wb1. auto. }
  rewrite bool_decide_eq_true_2 in Hk3 by done. eexists tb1, wb1, _, ta1, _, a1, _, tb2.
  split_and!; [exact E1|exact Hw1|exact E2|reflexivity|exact E3|exact Hk2|apply P2|exact Hd2|exact Hk3].
Qed.

(** One end of a simultaneous close: the other FIN arrives... *)
Lemma crossing_fin t key c n m c0 w :
  t.(connections) !! key = Some c → phase FinWait1 key (wadd32 n 1) m c → is_u32 n → is_u32 m →
  conn_ok c0 → conn_key c0 = flip key → c0.(rcv_nxt) = n →
  ∃ t' c', deliver t (seg_packet c0 fin_flags m []) w =
      Some (t', emit (seg_packet c' TCP_ACK (wadd32 n 1) []) w) ∧
    t'.(connections) !! key = Some c' ∧ phase Closing key (wadd32 n 1) (wadd32 m 1) c'.
Proof.
  intros Hk Hp Hn Hm Hok0 Hk0 Hr0. assert (Hff : is_u8 fin_flags) by by_decide.
  destruct (deliver_control t (flip key) key fin_flags m c0 c w
    (λ c' w', phase Closing key (wadd32 n 1) (wadd32 m 1) c' ∧ w' = emit (seg_packet c' TCP_ACK (wadd32 n 1) []) w))
    as (t' & c' & w' & E & Hk' & P & ->); auto; [by rewrite flip_flip| |].
  { intros seg Hs Hf Hq Ha. specialize (Ha eq_refl). rewrite Hr0 in Ha.
    destruct (fin_at_fin_wait1 (accept_queues t) _ _ _ _ seg w Hs Hq Hp Hf) as (c' & ? & ?); [|eauto].
    rewrite Ha. unfold wadd32, uN in *. zdm. }
  rewrite bool_decide_eq_false_2 in Hk' by (by rewrite (ph_state _ _ _ _ _ P)). eauto.
Qed.

(** ...and then the acknowledgement of its own. *)
Lemma crossing_ack t key c nxt rcv c2 seq w :
  t.(connections) !! key = Some c → phase Closing key nxt rcv c → is_u32 seq → seq = rcv →
  conn_ok c2 → conn_key c2 = flip key → c2.(rcv_nxt) = nxt →
  ∃ t' c', deliver t (seg_packet c2 TCP_ACK seq []) w = Some (t', clock_next w) ∧
    t'.(connections) !! key = Some c' ∧ c'.(state) = TimeWait ∧
    c'.(time_wait_deadline) = clock_now w + TIME_WAIT_DURATION.
Proof.
  intros Hk Hp Hm Hsq Hok2 Hk2 Hr2. assert (Hff : is_u8 TCP_ACK) by by_decide.
  destruct (deliver_control t (flip key) key TCP_ACK seq c2 c w
    (λ c' w', c'.(state) = TimeWait ∧ c'.(time_wait_deadline) = clock_now w + TIME_WAIT_DURATION ∧ w' = clock_next w))
    as (t' & c' & w' & E & Hk' & Hst & Hd & ->); auto; [by rewrite flip_flip| |].
  { intros seg Hs Hf Hq Ha. specialize (Ha eq_refl). rewrite Hr2 in Ha.
    destruct (ack_at_closing (accept_queues t) _ _ _ _ seg w Hs Hf Ha Hp) as (c' & ? & ? & ?). eexists c', _. eauto. }
  rewrite bool_decide_eq_false_2 in Hk' by (by rewrite Hst). exists t', c'. auto.
Qed.

(** ** Theorem *)

(** C6: orderly release.  One end of an established connection closes, its
    FIN is acknowledged, the other end closes too, and its FIN is
    acknowledged: then the end that closed first is in TIME_WAIT, with its
    deadline four seconds after the last packet, and the other end's
    connection is gone.  In between, the first end waits in FIN_WAIT_2. *)
Theorem orderly_release (ta tb : TcpTable) (wa wb : World) (key : ConnectionKey) (a b : TcpConnection)
    (na nb : u32) :
  ta.(connections) !! key = Some a → phase Established key na nb a →
  tb.(connections) !! flip key = Some b → phase Established (flip key) nb na b →
  ∃ ta1 wa1 fin1 tb1 wb1 ack1 ta2 a2 tb2 wb2 fin2 ta3 wa3 a3 ack2 tb3,
    TcpTable.close ta key wa = Some (ta1, wa1) ∧ wa1.(w_sent) = wa.(w_sent) ++ [fin1] ∧
    deliver tb fin1 wb = Some (tb1, wb1) ∧ wb1.(w_sent) = wb.(w_sent) ++ [ack1] ∧
    deliver ta1 ack1 wa1 = Some (ta2, wa1) ∧
    ta2.(connections) !! key = Some a2 ∧ a2.(state) = FinWait2 ∧
    TcpTable.close tb1 (flip key) wb1 = Some (tb2, wb2) ∧ wb2.(w_sent) = wb1.(w_sent) ++ [fin2] ∧
    deliver ta2 fin2 wa1 = Some (ta3, wa3) ∧ wa3.(w_sent) = wa1.(w_sent) ++ [ack2] ∧
    deliver tb2 ack2 wb2 = Some (tb3, wb2) ∧
    ta3.(connections) !! key = Some a3 ∧ a3.(state) = TimeWait ∧
    a3.(time_wait_deadline) = clock_now wa1 + from_secs 4 ∧
    tb3.(connections) !! flip key = None.
Proof.
  intros Hka Ha Hkb Hb.
  destruct (half_close ta tb wa wb key a b na nb Hka Ha Hkb Hb)
    as (ta1 & wa1 & fin1 & tb1 & wb1 & ack1 & ta2 & a2 & b1 & E1 & E2 & E3 & E4 & E5 & Hk2 & P2 & Hkb1 & Pb1).
  destruct (full_close ta2 tb1 wa1 wb1 key a2 b1 (wadd32 na 1) nb Hk2 P2 Hkb1 Pb1)
    as (tb2 & wb2 & fin2 & ta3 & wa3 & a3 & ack2 & tb3 & E6 & E7 & E8 & E9 & E10 & E11 & E12 & E13 & E14).
  exists ta1, wa1, fin1, tb1, wb1, ack1, ta2, a2, tb2, wb2, fin2, ta3, wa3, a3, ack2, tb3.
  split_and!; try done. apply P2.
Qed.

Theorem orderly_release_witness :
  ∃ ta tb wa ta3 tb3 a3, TcpTable.close ta wkey wa ≠ None ∧
    ta3.(connections) !! wkey = Some a3 ∧ a3.(state) = TimeWait ∧ tb3.(connections) !! flip wkey = None ∧
    tb.(connections) !! flip wkey ≠ None.
Proof.
  set (a := fresh_conn Established wkey 1000 65535 0 2000 0).
  set (b := fresh_conn Established (flip wkey) 2000 65535 0 1000 0).
  destruct (orderly_release (put_conn wkey a new) (put_conn (flip wkey) b new) demo_world demo_world wkey a b 1000 2000)
    as (ta1 & wa1 & fin1 & tb1 & wb1 & ack1 & ta2 & a2 & tb2 & wb2 & fin2 & ta3 & wa3 & a3 & ack2 & tb3 &
        E1 & _ & _ & _ & _ & _ & _ & _ & _ & _ & _ & _ & Ha3 & Hs3 & _ & Hb3).
  - apply lookup_insert_eq.
  - eapply idle_phase, fresh_idle; [|by_decide..]. split_and!; by_decide.
  - apply lookup_insert_eq.
  - eapply idle_phase, fresh_idle; [|by_decide..]. split_and!; by_decide.
  - exists (put_conn wkey a new), (put_conn (flip wkey) b new), demo_world, ta3, tb3, a3.
    split; [rewrite E1; discriminate|]. split; [exact Ha3|]. split; [exact Hs3|]. split; [exact Hb3|].
    cbn [put_conn set_connections connections]. rewrite lookup_insert_eq. discriminate.
Defined.

(** C34: simultaneous close.  Both ends of an established connection close
    before either FIN arrives.  The FINs cross: each end receives the other's
    while its own is unacknowledged, goes to CLOSING and acknowledges it; and
    when these acknowledgements arrive both ends are in TIME_WAIT, with their
    deadlines four seconds later, and nothing more is sent. *)
Theorem simultaneous_close (ta tb : TcpTable) (wa wb : World) (key : ConnectionKey) (a b : TcpConnection)
    (na nb : u32) :
  ta.(connections) !! key = Some a → phase Established key na nb a →
  tb.(connections) !! flip key = Some b → phase Established (flip key) nb na b →
  ∃ ta1 wa1 fin_a tb1 wb1 fin_b ta2 wa2 a2 ack_a tb2 wb2 b2 ack_b ta3 a3 tb3 b3,
    (TcpTable.close ta key wa = Some (ta1, wa1) ∧ wa1.(w_sent) = wa.(w_sent) ++ [fin_a]) ∧
    (TcpTable.close tb (flip key) wb = Some (tb1, wb1) ∧ wb1.(w_sent) = wb.(w_sent) ++ [fin_b]) ∧
    (deliver ta1 fin_b wa1 = Some (ta2, wa2) ∧ wa2.(w_sent) = wa1.(w_sent) ++ [ack_a] ∧
     ta2.(connections) !! key = Some a2 ∧ a2.(state) = Closing) ∧
    (deliver tb1 fin_a wb1 = Some (tb2, wb2) ∧ wb2.(w_sent) = wb1.(w_sent) ++ [ack_b] ∧
     tb2.(connections) !! flip key = Some b2 ∧ b2.(state) = Closing) ∧
    (deliver ta2 ack_b wa2 = Some (ta3, clock_next wa2) ∧ ta3.(connections) !! key = Some a3 ∧
     a3.(state) = TimeWait ∧ a3.(time_wait_deadline) = clock_now wa2 + from_secs 4) ∧
    (deliver tb2 ack_a wb2 = Some (tb3, clock_next wb2) ∧ tb3.(connections) !! flip key = Some b3 ∧
     b3.(state) = TimeWait ∧ b3.(time_wait_deadline) = clock_now wb2 + from_secs 4).
Proof.
  intros Hka Ha Hkb Hb. pose proof (phase_nxt _ _ _ _ _ Ha) as Hna. pose proof (phase_nxt _ _ _ _ _ Hb) as Hnb.
  destruct (close_phase ta Established key na nb a wa Hka Ha eq_refl)
    as (ta1 & a1 & wa1 & a0 & E1 & Hk1 & P1 & Hoka & Hkeya & Hra & Hw1).
  destruct (close_phase tb Established (flip key) nb na b wb Hkb Hb eq_refl)
    as (tb1 & b1 & wb1 & b0 & E2 & Hk2 & P2 & Hokb & Hkeyb & Hrb & Hw2).
  destruct (crossing_fin ta1 key a1 na nb b0 wa1) as (ta2 & a2 & E3 & Hk3 & P3); auto.
  destruct (crossing_fin tb1 (flip key) b1 nb na a0 wb1) as (tb2 & b2 & E4 & Hk4 & P4); auto; [by rewrite flip_flip|].
  pose proof (phase_nxt _ _ _ _ _ P3) as Hna'. pose proof (phase_nxt _ _ _ _ _ P4) as Hnb'.
  destruct (crossing_ack ta2 key a2 (wadd32 na 1) (wadd32 nb 1) b2 (wadd32 nb 1)
    (emit (seg_packet a2 TCP_ACK (wadd32 na 1) []) wa1)) as (ta3 & a3 & E5 & Hk5 & Hs5 & Hd5); auto; [apply P4..|].
  destruct (crossing_ack tb2 (flip key) b2 (wadd32 nb 1) (wadd32 na 1) a2 (wadd32 na 1)
    (emit (seg_packet b2 TCP_ACK (wadd32 nb 1) []) wb1)) as (tb3 & b3 & E6 & Hk6 & Hs6 & Hd6); auto;
    [apply P3|rewrite flip_flip; apply P3|apply P3|].
  eexists ta1, wa1, _, tb1, wb1, _, ta2, _, a2, _, tb2, _, b2, _, ta3, a3, tb3, b3.
  split_and!; [exact E1|exact Hw1|exact E2|exact Hw2|exact E3|reflexivity|exact Hk3|apply P3|exact E4|reflexivity|exact Hk4
    |apply P4|exact E5|exact Hk5|exact Hs5|exact Hd5|exact E6|exact Hk6|exact Hs6|exact Hd6].
Qed.

Theorem simultaneous_close_witness :
  ∃ ta tb ta3 a3 tb3 b3, TcpTable.close ta wkey demo_world ≠ None ∧ TcpTable.close tb (flip wkey) demo_world ≠ None ∧
    ta3.(connections) !! wkey = Some a3 ∧ a3.(state) = TimeWait ∧
    tb3.(connections) !! flip wkey = Some b3 ∧ b3.(state) = TimeWait.
Proof.
  set (a := fresh_conn Established wkey 1000 65535 0 2000 0).
  set (b := fresh_conn Established (flip wkey) 2000 65535 0 1000 0).
  destruct (simultaneous_close (put_conn wkey a new) (put_conn (flip wkey) b new) demo_world demo_world wkey a b 1000 2000)
    as (ta1 & wa1 & fa & tb1 & wb1 & fb & ta2 & wa2 & a2 & aa & tb2 & wb2 & b2 & ab & ta3 & a3 & tb3 & b3 &
        [E1 _] & [E2 _] & _ & _ & (_ & Ha3 & Hs3 & _) & (_ & Hb3 & Ht3 & _)).
  - apply lookup_insert_eq.
  - eapply idle_phase, fresh_idle; [|by_decide..]. split_and!; by_decide.
  - apply lookup_insert_eq.
  - eapply idle_phase, fresh_idle; [|by_decide..]. split_and!; by_decide.
  - exists (put_conn wkey a new), (put_conn (flip wkey) b new), ta3, a3, tb3, b3.
    split; [rewrite E1; discriminate|]. split; [rewrite E2; discriminate|].
    exact (conj Ha3 (conj Hs3 (conj Hb3 Ht3))).
Defined.
