(* ===== verification/Wire.v ===== *)
(** * Everything the stack writes is a well-formed packet

    The type invariant of the wire: whatever the calls and the incoming
    packets are, each buffer handed to the device is an IPv4 packet whose
    header verifies and whose length field and transport checksum are right. *)

From S2P Require Import Prelude Effects Ip Icmp Udp TcpSegment TcpConn TcpSend TcpReceive TcpTable TcpInv TcpState TcpSystem TcpEmit TcpNetwork.

(** The checksum of the message inside, as its protocol defines it. *)
Definition transport_ok (r : IpHeader) (body : bytes) : Prop :=
  r.(ip_protocol) = 1 ∧ checksum16 body = Some 0 ∨
  r.(ip_protocol) = 17 ∧ checksum16 (udp_pseudo r.(ip_src_addr) r.(ip_dst_addr) (len body) ++ body) = Some 0 ∨
  r.(ip_protocol) = 6 ∧ tcp_checksum r.(ip_src_addr) r.(ip_dst_addr) body = Some 0.

Definition wire_ok (p : bytes) : Prop :=
  bytes_ok p ∧ verify_ip_checksum p = Some true ∧
  ∃ r, parse_ip_header p = Some r ∧ r.(ip_version) = 4 ∧ r.(ip_ihl) = 5 ∧ r.(ip_total_length) = len p ∧
    transport_ok r (drop IP_HEADER_LEN p).

(** ** The three kinds of packets *)

Lemma wire_ip h body :
  ip_header_ok h → h.(ip_ihl) = 5 → bytes_ok body → h.(ip_total_length) = 20 + len body → transport_ok h body →
  wire_ok (ip_packet h body).
Proof.
  intros Hh Hi Hb Hl Ht. split; [by apply ip_packet_ok|]. split; [by apply ip_packet_verifies|].
  exists (with_checksum (ip_csum h) h). split; [by apply ip_packet_parses|]. split; [apply Hh|]. split; [done|].
  split; [|change IP_HEADER_LEN with 20%nat; by rewrite ip_packet_body].
  unfold ip_packet. rewrite len_app. change (len (ip_header_bytes _ _)) with 20. done.
Qed.

Lemma wire_icmp h payload :
  ip_header_ok h → bytes_ok payload → (8 ≤ length payload)%nat → len payload ≤ 65515 →
  wire_ok (ip_packet (reply_ip_header h (length payload)) (echo_reply payload)).
Proof.
  intros Hh Hb Hl Hm. assert (Hle : len (echo_reply payload) = len payload) by (unfold len; by rewrite length_echo_reply).
  apply wire_ip; auto using reply_ip_header_ok, echo_reply_ok.
  - rewrite Hle. cbn. rewrite as_u16_small; unfold len, uN, IP_HEADER_LEN in *; lia.
  - left. split; [done|]. rewrite checksum16_rfc; [by rewrite rfc1071_echo_reply|by apply echo_reply_ok|lia].
Qed.

Lemma wire_udp s sp d dp data :
  is_u32 s → is_u32 d → bytes_ok data → len data ≤ 65507 → wire_ok (udp_packet s sp d dp data).
Proof.
  intros Hs Hd Hb Hl. pose proof (len_nonneg data).
  apply wire_ip; auto using udp_message_ok.
  - apply udp_ip_header_ok; unfold uN; auto; lia.
  - rewrite len_udp_message. cbn. lia.
  - right. left. split; [done|]. rewrite len_udp_message. cbn [ip_src_addr ip_dst_addr udp_ip_header].
    rewrite checksum16_rfc; [by rewrite udp_csum_valid| |].
    + apply bytes_ok_app. auto using udp_pseudo_ok, udp_message_ok.
    + rewrite len_app, len_udp_message. change (len (udp_pseudo _ _ _)) with 12. lia.
Qed.

Lemma wire_tcp s d h data :
  is_u32 s → is_u32 d → tcp_header_ok h → bytes_ok data → len data ≤ 65495 → wire_ok (tcp_packet s d h data).
Proof.
  intros Hs Hd Hh Hb Hl. pose proof Hh as (? & ? & ? & ? & Ho & Hf & ? & ? & ?).
  pose proof (tcp_segment_bytes_ok s d h data Ho Hf Hb) as Hsb. pose proof (len_tcp_segment_bytes s d h data) as Hsl.
  apply wire_ip; auto using tcp_ip_header_ok.
  - rewrite Hsl. cbn. rewrite as_u16_small; unfold len, uN, IP_HEADER_LEN in *; lia.
  - right. right. split; [done|]. rewrite tcp_checksum_eq by (done || lia). rewrite Hsl.
    cbn [ip_src_addr ip_dst_addr tcp_ip_header]. by rewrite tcp_csum_valid.
Qed.

Lemma wire_own key p : own key p → wire_ok p.
Proof.
  intros (c & flags & seq & data & -> & Hc & _ & Hf & Hs & [Hb Hl] & _).
  pose proof (segment_header_ok c flags seq Hc Hf Hs). unfold seg_packet. destruct (co_addrs c Hc).
  apply wire_tcp; auto.
Qed.

(** ** The TCP table *)

Lemma wire_from_own {A} key (m : M A) (Φ : A → Prop) : sends (own key) m Φ → sends wire_ok m Φ.
Proof. intros H. eapply sends_mono; [exact H|apply wire_own|done]. Qed.

Lemma wire_process_segment t key seg data :
  table_ok t → is_Some (t.(connections) !! key) → tcp_header_ok seg → bytes_ok data →
  sends wire_ok (process_segment t key seg data) table_ok.
Proof.
  intros Ht Hk Hs Hb. apply sends_result.
  - destruct Hk as [c Hc]. destruct (table_ok_conn t key c Ht Hc) as [Hok Hk]. unfold process_segment.
    eapply sends_bind; [apply (sends_lift _ _ c (eq c)); done|]. intros ? <-.
    eapply sends_bind; [eapply wire_from_own, own_process_conn; done|]. intros [c' q] _. by apply sends_ret.
  - intros w. destruct (process_segment_ok t key seg data w) as (t' & w' & E & ? & _); auto. by exists t', w'.
Qed.

(** Opening: the connection is registered and its first segment sent. *)
Lemma wire_open t k c flags :
  conn_ok c → conn_key c = k → is_u8 flags →
  sends wire_ok (conn ← lift ((put_conn k c t).(connections) !! k); conn ← queue_and_send conn flags [];
                 mret (put_conn k conn (put_conn k c t))) (λ _, True).
Proof.
  intros Hc Hk Hf. eapply sends_bind; [apply (sends_lift _ _ c (eq c)); [apply lookup_insert_eq|done]|]. intros ? <-.
  eapply sends_bind; [|intros c' _; by apply sends_ret].
  eapply wp_mono; [by apply wp_queue_and_send; auto using seg_data_nil|]. intros c' ps [_ ->].
  split; [exact I|]. apply Forall_singleton, (wire_own k). rewrite <- Hk.
  apply own_packet; auto using seg_data_nil. apply Hc.
Qed.

Lemma wire_handle_segment t h payload :
  table_ok t → is_u32 h.(ip_src_addr) → is_u32 h.(ip_dst_addr) → bytes_ok payload → len payload ≤ 65535 →
  sends wire_ok (handle_segment t h payload) table_ok.
Proof.
  intros Ht Hsrc Hdst Hb Hl. apply sends_result.
  2:{ intros w. destruct (handle_segment_ok t h payload w) as (t' & w' & E & ? & _); auto. by exists t', w'. }
  unfold handle_segment. case_decide; [by apply sends_ret|].
  destruct (parse_tcp_header payload) as [seg|] eqn:Ep; [|by apply sends_ret].
  pose proof (parse_tcp_header_ok payload seg Hb Ep) as Hs.
  eapply sends_bind; [eapply (sends_lift _ _ _ (λ _, True)); [apply tcp_checksum_eq; [done|lia]|done]|].
  intros csum _. destruct (negb (csum =? 0)); [by apply sends_ret|]. case_bool_decide as Ek.
  { eapply sends_bind; [by apply wire_process_segment; [| | |apply bytes_ok_drop]|]. intros; by apply sends_ret. }
  destruct (has_flag (th_flags seg) TCP_SYN && _ && _).
  - destruct Hs as (? & ? & ? & ? & _ & _ & ? & _).
    eapply sends_bind.
    { eapply wp_mono; [apply wp_passive_open|]. intros c ps (-> & Hc). split; [exact Hc|done]. }
    cbn. intros c (iss0 & tw & Hi & ->). apply wire_open; [|done|by_decide].
    apply fresh_ok; auto with minitcp. by split_and!.
  - destruct (negb (has_flag (th_flags seg) TCP_RST)); [|by apply sends_ret].
    apply (sends_bind _ _ _ (λ _, True)); [|intros _ _; by apply sends_ret].
    eapply wp_emit; [intros w; by apply send_rst_for_unknown_eq|]. split; [exact I|].
    apply Forall_singleton, wire_tcp; auto using rst_header_ok; by_decide.
Qed.

Lemma wire_tick_conn now k c : own_result k c → sends wire_ok (tick_conn now c) (own_result k).
Proof.
  intros [Hok Hk]. apply (wire_from_own k), sends_result; [by apply own_tick_conn|]. intros w.
  destruct (tick_conn_ok now c w Hok) as (c' & w' & E & ? & ? & _). exists c', w'. split; [done|]. split; congruence.
Qed.

Lemma wire_tick_loop now keys t :
  table_ok t → Forall (λ k, is_Some (t.(connections) !! k)) keys → sends wire_ok (tick_loop now keys t) table_ok.
Proof.
  revert t. induction keys as [|k keys IH]; intros t Ht Hk; cbn [tick_loop]; [by apply sends_ret|].
  apply Forall_cons_iff in Hk as [[c Hc] Hk].
  eapply sends_bind; [apply (sends_lift _ _ c (eq c)); done|]. intros ? <-.
  eapply sends_bind; [apply (wire_tick_conn now k); by apply table_ok_conn in Hc|]. intros c' [? ?]. apply IH.
  - by apply table_ok_put.
  - eapply Forall_impl; [|exact Hk]. intros k' ?. cbn. by apply lookup_insert_is_Some'; auto.
Qed.

Lemma wire_tick t : table_ok t → sends wire_ok (tick t) table_ok.
Proof.
  intros Ht. apply sends_result.
  2:{ intros w. destruct (tick_ok t w Ht) as (t' & w' & E & ? & _). by exists t', w'. }
  apply (sends_bind _ _ _ (λ _, True)); [by apply sends_now|]. intros now _.
  apply (sends_bind _ _ _ (λ l, l ≡ₚ (map_to_list t.(connections)).*1)); [by apply wp_visit_order|].
  intros keys Hp. eapply sends_bind; [by apply wire_tick_loop, keys_present|]. intros; by apply sends_ret.
Qed.

Lemma wire_connect t la ra rp :
  table_ok t → is_u32 la → is_u32 ra → is_u16 rp → sends wire_ok (connect t la ra rp) (λ r, table_ok r.2).
Proof.
  intros Ht Hla Hra Hrp. apply sends_result.
  2:{ intros w. destruct (connect_ok t la ra rp w) as (r & w' & E & ? & _); auto. by exists r, w'. }
  unfold connect, allocate_ephemeral_port. cbv beta iota zeta. pose proof (to_port t Ht).
  eapply sends_bind.
  { eapply wp_mono; [apply wp_active_open|]. intros c ps (-> & Hc). split; [exact Hc|done]. }
  cbn. intros c (iss0 & tw & Hi & ->). set (k := mkConnectionKey _ _ _ _) in *. set (c0 := fresh_conn _ _ _ _ _ _ _).
  assert (Hok : conn_ok c0) by (apply fresh_ok; try done; by_decide).
  eapply sends_bind; [apply (sends_lift _ _ c0 (eq c0)); [apply lookup_insert_eq|done]|]. intros ? <-.
  apply (sends_bind _ _ _ (λ _, True)); [|intros c' _; by apply sends_ret].
  eapply wp_mono; [apply wp_queue_and_send; [exact Hok|by_decide|apply seg_data_nil]|]. intros c' ps [_ ->].
  split; [exact I|]. apply Forall_singleton, (wire_own k), (own_packet c0); [exact Hok|by_decide|apply Hok|apply seg_data_nil].
Qed.

Lemma wire_send t k data :
  table_ok t → bytes_ok data → sends wire_ok (send t k data) (λ r, table_ok r.2).
Proof.
  intros Ht Hd. apply sends_result.
  2:{ intros w. destruct (send_ok t k data w) as (r & w' & E & ? & _); auto. by exists r, w'. }
  unfold send. destruct (connections t !! k) as [c|] eqn:Ec; [|by apply sends_ret].
  destruct (table_ok_conn t k c Ht Ec) as [Hok Hk].
  eapply sends_bind; [|intros c' _; by apply sends_ret]. apply (wire_from_own k), own_flush_send.
  split; [|exact Hk]. destruct Hok. split; cbn; auto. apply bytes_ok_app. auto with minitcp.
Qed.

Lemma wire_close t k : table_ok t → sends wire_ok (close t k) table_ok.
Proof.
  intros Ht. apply sends_result.
  2:{ intros w. destruct (close_ok t k w Ht) as (t' & w' & E & ? & _); auto. by exists t', w'. }
  unfold close. destruct (connections t !! k) as [c|] eqn:Ec; [|by apply sends_ret].
  destruct (table_ok_conn t k c Ht Ec) as [Hok Hk].
  apply (sends_bind _ _ _ (λ _, True)); [|intros c' _; by apply sends_ret].
  destruct (state c) eqn:Es; try (by apply sends_ret).
  all: apply (wire_from_own k); eapply sends_mono; [apply own_flush_send|done|done].
  all: split; [|exact Hk]; destruct Hok; split; cbn; auto; intros _; left; by rewrite Es.
Qed.
