(* ===== verification/Stack.v ===== *)
(** * The socket layer ([src/stack.rs])

    The [Stack] that owns the protocol tables and the sockets: packet
    dispatch, the event-loop step [pump_once], and the socket calls,
    blocking ones as loops with fuel.  The definitions only; the theorems are
    in [StackProps].

    The TUN descriptor and the trace flag are not part of the state: the
    descriptor is the world, tracing only prints. *)

From S2P Require Import Prelude Ip Icmp Udp TcpSegment TcpConn TcpTable.

Definition TIMEOUT : Z := -2.

Abbreviation SocketId := Z (only parsing).

Inductive SocketKind := Tcp | Udp.

Global Instance SocketKind_eq_dec : EqDecision SocketKind.
Proof. solve_decision. Defined.

Record SocketOptions := mkSocketOptions {
  rcvtimeo : option Duration;
  reuse_addr : bool;
  rcvbuf : option usize;
  sndbuf : option usize;
}.

Inductive SockOpt :=
  | RcvTimeo (d : Duration)
  | ReuseAddr (v : bool)
  | RcvBuf (v : usize)
  | SndBuf (v : usize).

Record Socket := mkSocket {
  kind : SocketKind;
  conn_key : option ConnectionKey;
  is_listener : bool;
  listen_addr : u32;
  listen_port : u16;
  udp_key : option (u32 * u16);
  opts : SocketOptions;
}.

Definition socket_new (k : SocketKind) : Socket :=
  mkSocket k None false 0 0 None (mkSocketOptions None false None None).

Definition set_conn_key (v : option ConnectionKey) (s : Socket) : Socket :=
  mkSocket s.(kind) v s.(is_listener) s.(listen_addr) s.(listen_port) s.(udp_key) s.(opts).
Definition set_listening (addr : u32) (port : u16) (s : Socket) : Socket :=
  mkSocket s.(kind) s.(conn_key) true addr port s.(udp_key) s.(opts).
Definition set_udp_key (v : option (u32 * u16)) (s : Socket) : Socket :=
  mkSocket s.(kind) s.(conn_key) s.(is_listener) s.(listen_addr) s.(listen_port) v s.(opts).
Definition set_opts (v : SocketOptions) (s : Socket) : Socket :=
  mkSocket s.(kind) s.(conn_key) s.(is_listener) s.(listen_addr) s.(listen_port) s.(udp_key) v.

Record Stack := mkStack {
  self_addr : u32;
  next_udp_ephemeral_port : u16;
  tcp : TcpTable;
  udp : UdpTable;
  sockets : gmap SocketId Socket;
  next_socket_id : u64;
}.

Definition stack_new (addr : u32) : Stack := mkStack addr 51000 TcpTable.new udp_new ∅ 1.

Definition set_tcp (v : TcpTable) (s : Stack) : Stack :=
  mkStack s.(self_addr) s.(next_udp_ephemeral_port) v s.(udp) s.(sockets) s.(next_socket_id).
Definition set_udp (v : UdpTable) (s : Stack) : Stack :=
  mkStack s.(self_addr) s.(next_udp_ephemeral_port) s.(tcp) v s.(sockets) s.(next_socket_id).
Definition set_sockets (v : gmap SocketId Socket) (s : Stack) : Stack :=
  mkStack s.(self_addr) s.(next_udp_ephemeral_port) s.(tcp) s.(udp) v s.(next_socket_id).
Definition set_next_udp (v : u16) (s : Stack) : Stack :=
  mkStack s.(self_addr) v s.(tcp) s.(udp) s.(sockets) s.(next_socket_id).
Definition set_next_socket_id (v : u64) (s : Stack) : Stack :=
  mkStack s.(self_addr) s.(next_udp_ephemeral_port) s.(tcp) s.(udp) s.(sockets) v.

(** [if let Some(sock) = self.sockets.get_mut(&id) { f(sock) }]. *)
Definition update_socket (id : SocketId) (f : Socket → Socket) (s : Stack) : Stack :=
  match s.(sockets) !! id with
  | Some sock => set_sockets (<[id := f sock]> s.(sockets)) s
  | None => s
  end.

(** [a + b] on [u64]: an overflow is a panic. *)
Definition checked_add64 (a b : u64) : option u64 :=
  if decide (a + b < 2 ^ 64) then Some (a + b) else None.

Definition alloc_socket (s : Stack) (k : SocketKind) : M (SocketId * Stack) :=
  let id := s.(next_socket_id) in
  next ← lift (checked_add64 s.(next_socket_id) 1);
  let s := set_next_socket_id next s in
  mret (id, set_sockets (<[id := socket_new k]> s.(sockets)) s).

(** ** Packets *)

Definition dispatch_ip_packet (s : Stack) (buf : bytes) : M Stack :=
  match parse_ip_header buf with
  | None => mret s
  | Some ip_hdr =>
      ok ← lift (verify_ip_checksum buf);
      if negb ok then mret s
      else
        let header_bytes := (Z.to_nat ip_hdr.(ip_ihl) * 4)%nat in
        if decide (length buf < header_bytes)%nat then mret s
        else
          let payload := drop header_bytes buf in
          if ip_hdr.(ip_protocol) =? 1 then _ ← handle_icmp ip_hdr payload; mret s
          else if ip_hdr.(ip_protocol) =? 17 then
            u ← handle_datagram s.(udp) ip_hdr payload; mret (set_udp u s)
          else if ip_hdr.(ip_protocol) =? 6 then
            t ← handle_segment s.(tcp) ip_hdr payload; mret (set_tcp t s)
          else mret s
  end.

(** [poll] and [tun_read] into a buffer of 2048 bytes: what the next poll
    brings, [None] when it times out.  A longer packet is cut off by
    [read(2)], and its bytes are bytes. *)
Definition tun_poll_read : M (option bytes) := λ w,
  Some ((λ p, as_u8 <$> take 2048 p) <$> w.(w_inbox) w.(w_polls),
        mkWorld w.(w_clock) w.(w_reads) w.(w_rng) w.(w_draws) w.(w_inbox) (S w.(w_polls))
                w.(w_picks) w.(w_picked) w.(w_sent)).

Definition pump_once (s : Stack) : M Stack :=
  r ← tun_poll_read;
  s ← match r with
      | Some buf => if bool_decide (buf = []) then mret s else dispatch_ip_packet s buf
      | None => mret s
      end;
  t ← tick s.(tcp);
  mret (set_tcp t s).

(** [start.elapsed()] is zero when the clock reads earlier than [start]. *)
Definition deadline_elapsed (has_timeout : option Duration) (start : Instant) : M bool :=
  match has_timeout with
  | Some timeout => now ← instant_now; mret (timeout <=? Z.max 0 (now - start))
  | None => mret false
  end.

Definition tcp_remote_closed_no_more_data (s : Stack) (key : ConnectionKey) : bool :=
  match lookup_conn s.(tcp) key with
  | None => true
  | Some c =>
      match c.(state) with
      | CloseWait | LastAck | Closed | TimeWait => true
      | _ => false
      end
  end.

(** ** TCP sockets *)

Definition socket (s : Stack) : M (SocketId * Stack) := alloc_socket s Tcp.

Definition listen (s : Stack) (id : SocketId) (port : u16) : bool * Stack :=
  match s.(sockets) !! id with
  | None => (false, s)
  | Some sock =>
      let reuse := sock.(opts).(reuse_addr) in
      let s := update_socket id (set_listening s.(self_addr) port) s in
      let '(ok, t) := TcpTable.listen s.(tcp) s.(self_addr) port reuse in
      (ok, set_tcp t s)
  end.

(** [if let Some(v) = rcvbuf { set_recv_cap }; if let Some(v) = sndbuf { set_send_cap }]. *)
Definition apply_caps (key : ConnectionKey) (o : SocketOptions) (t : TcpTable) : TcpTable :=
  let t := match o.(rcvbuf) with Some v => TcpTable.set_recv_cap t key v | None => t end in
  match o.(sndbuf) with Some v => TcpTable.set_send_cap t key v | None => t end.

(** The loop of [accept].  The inner [option] is the model's: [None] when the
    fuel did not suffice. *)
Fixpoint accept_loop (fuel : nat) (s : Stack) (laddr : u32) (lport : u16) (o : SocketOptions)
    (start : Instant) : M (option (option SocketId * bool) * Stack) :=
  match fuel with
  | O => mret (None, s)
  | S fuel' =>
      let '(r, t) := TcpTable.accept s.(tcp) laddr lport in
      let s := set_tcp t s in
      match r with
      | Some key =>
          let s := set_tcp (apply_caps key o s.(tcp)) s in
          '(id, s) ← alloc_socket s Tcp;
          mret (Some (Some id, false), update_socket id (set_conn_key (Some key)) s)
      | None =>
          late ← deadline_elapsed o.(rcvtimeo) start;
          if late : bool then mret (Some (None, true), s)
          else s ← pump_once s; accept_loop fuel' s laddr lport o start
      end
  end.

Definition accept (fuel : nat) (s : Stack) (listener : SocketId)
    : M (option (option SocketId * bool) * Stack) :=
  match s.(sockets) !! listener with
  | None => mret (Some (None, false), s)
  | Some l =>
      if negb l.(is_listener) then mret (Some (None, false), s)
      else
        start ← instant_now;
        accept_loop fuel s l.(listen_addr) l.(listen_port) l.(opts) start
  end.

(** [for _ in 0..n] of [connect]. *)
Fixpoint connect_loop (n : nat) (s : Stack) (key : ConnectionKey) : M (bool * Stack) :=
  match n with
  | O => mret (false, s)
  | S n' =>
      if is_established s.(tcp) key then mret (true, s)
      else if is_closed s.(tcp) key then mret (false, s)
      else s ← pump_once s; connect_loop n' s key
  end.

Definition connect (s : Stack) (id : SocketId) (remote_addr : u32) (remote_port : u16) : M (bool * Stack) :=
  match s.(sockets) !! id with
  | None => mret (false, s)
  | Some sock =>
      let o := sock.(opts) in
      '(key, t) ← TcpTable.connect s.(tcp) s.(self_addr) remote_addr remote_port;
      let s := update_socket id (set_conn_key (Some key)) (set_tcp t s) in
      let s := set_tcp (apply_caps key o s.(tcp)) s in
      connect_loop 300 s key
  end.

Definition send (s : Stack) (id : SocketId) (data : bytes) : M (Z * Stack) :=
  match s.(sockets) !! id ≫= conn_key with
  | None => mret (-1, s)
  | Some key =>
      '(n, t) ← TcpTable.send s.(tcp) key data;
      mret (n, set_tcp t s)
  end.

(** The loop of [recv]: the result and the bytes copied to the buffer. *)
Fixpoint recv_loop (fuel : nat) (s : Stack) (key : ConnectionKey) (room : nat) (timeo : option Duration)
    (start : Instant) : M (option (Z * bytes) * Stack) :=
  match fuel with
  | O => mret (None, s)
  | S fuel' =>
      let '(got, t) := TcpTable.recv s.(tcp) key room in
      let s := set_tcp t s in
      if 0 <? len got then mret (Some (len got, got), s)
      else if tcp_remote_closed_no_more_data s key then mret (Some (0, []), s)
      else
        late ← deadline_elapsed timeo start;
        if late : bool then mret (Some (TIMEOUT, []), s)
        else s ← pump_once s; recv_loop fuel' s key room timeo start
  end.

Definition recv (fuel : nat) (s : Stack) (id : SocketId) (room : nat) : M (option (Z * bytes) * Stack) :=
  match s.(sockets) !! id with
  | None => mret (Some (-1, []), s)
  | Some sock =>
      match sock.(conn_key) with
      | None => mret (Some (-1, []), s)
      | Some key =>
          start ← instant_now;
          recv_loop fuel s key room sock.(opts).(rcvtimeo) start
      end
  end.

(** [for _ in 0..n] of [close]. *)
Fixpoint linger (n : nat) (s : Stack) (key : ConnectionKey) : M Stack :=
  match n with
  | O => mret s
  | S n' =>
      if is_closed s.(tcp) key then mret s
      else s ← pump_once s; linger n' s key
  end.

Definition close (s : Stack) (id : SocketId) : M Stack :=
  match s.(sockets) !! id with
  | None => mret s
  | Some sock =>
      let s := set_sockets (delete id s.(sockets)) s in
      match sock.(kind) with
      | Udp =>
          mret (match sock.(udp_key) with
                | Some key => set_udp (udp_unbind s.(udp) key) s
                | None => s
                end)
      | Tcp =>
          match sock.(conn_key) with
          | Some key =>
              t ← TcpTable.close s.(tcp) key;
              linger 50 (set_tcp t s) key
          | None => mret s
          end
      end
  end.

(** ** UDP sockets

    A [SocketAddrV4] is its address as an integer and its port. *)

Abbreviation SocketAddrV4 := (u32 * u16)%type (only parsing).

Definition udp_socket (s : Stack) : M (SocketId * Stack) := alloc_socket s Udp.

Definition bind (s : Stack) (id : SocketId) (addr : SocketAddrV4) : bool * Stack :=
  match s.(sockets) !! id with
  | None => (false, s)
  | Some sock =>
      if negb (bool_decide (sock.(kind) = Udp)) then (false, s)
      else
        let bind_addr := if addr.1 =? 0 then s.(self_addr) else addr.1 in
        let bind_port := addr.2 in
        let cap := default DEFAULT_RECV_QUEUE_CAP_BYTES sock.(opts).(rcvbuf) in
        let '(ok, u) := udp_bind s.(udp) bind_addr bind_port sock.(opts).(reuse_addr) cap in
        let s := set_udp u s in
        (ok, if ok : bool then update_socket id (set_udp_key (Some (bind_addr, bind_port))) s else s)
  end.

(** The automatic binding of an unbound socket. *)
Definition auto_bind (s : Stack) (id : SocketId) (o : SocketOptions) : (u32 * u16) * Stack :=
  let port := s.(next_udp_ephemeral_port) in
  let s := set_next_udp (wadd16 port 1) s in
  let cap := default DEFAULT_RECV_QUEUE_CAP_BYTES o.(rcvbuf) in
  let '(_, u) := udp_bind s.(udp) s.(self_addr) port o.(reuse_addr) cap in
  let s := set_udp u s in
  ((s.(self_addr), port), update_socket id (set_udp_key (Some (s.(self_addr), port))) s).

Definition sendto (s : Stack) (id : SocketId) (data : bytes) (dest : SocketAddrV4) : M (Z * Stack) :=
  match s.(sockets) !! id with
  | None => mret (-1, s)
  | Some sock =>
      if negb (bool_decide (sock.(kind) = Udp)) then mret (-1, s)
      else
        let '(key, s) := match sock.(udp_key) with
                         | Some k => (k, s)
                         | None => auto_bind s id sock.(opts)
                         end in
        _ ← send_datagram key.1 key.2 dest.1 dest.2 data;
        mret (len data, s)
  end.

(** The loop of [recvfrom]: the result, the bytes copied and the sender. *)
Fixpoint recvfrom_loop (fuel : nat) (s : Stack) (key : option (u32 * u16)) (room : nat)
    (timeo : option Duration) (start : Instant) : M (option (Z * bytes * option SocketAddrV4) * Stack) :=
  match fuel with
  | O => mret (None, s)
  | S fuel' =>
      let '(r, u) := match key with Some k => udp_recv s.(udp) k | None => (None, s.(udp)) end in
      let s := set_udp u s in
      match r with
      | Some dg =>
          let n := Nat.min room (length dg.(dg_data)) in
          mret (Some (Z.of_nat n, take n dg.(dg_data), Some (dg.(dg_src_addr), dg.(dg_src_port))), s)
      | None =>
          late ← deadline_elapsed timeo start;
          if late : bool then mret (Some (TIMEOUT, [], None), s)
          else s ← pump_once s; recvfrom_loop fuel' s key room timeo start
      end
  end.

Definition recvfrom (fuel : nat) (s : Stack) (id : SocketId) (room : nat)
    : M (option (Z * bytes * option SocketAddrV4) * Stack) :=
  match s.(sockets) !! id with
  | None => mret (Some (-1, [], None), s)
  | Some sock =>
      if negb (bool_decide (sock.(kind) = Udp)) then mret (Some (-1, [], None), s)
      else
        start ← instant_now;
        recvfrom_loop fuel s sock.(udp_key) room sock.(opts).(rcvtimeo) start
  end.

(** ** Socket options *)

Definition setsockopt (s : Stack) (id : SocketId) (opt : SockOpt) : bool * Stack :=
  match s.(sockets) !! id with
  | None => (false, s)
  | Some sock =>
      let o := sock.(opts) in
      let put o' := update_socket id (set_opts o') s in
      match opt with
      | RcvTimeo d =>
          (true, put (mkSocketOptions (if d =? 0 then None else Some d) o.(reuse_addr) o.(rcvbuf) o.(sndbuf)))
      | ReuseAddr v => (true, put (mkSocketOptions o.(rcvtimeo) v o.(rcvbuf) o.(sndbuf)))
      | RcvBuf v =>
          if v =? 0 then (false, s)
          else
            let s := put (mkSocketOptions o.(rcvtimeo) o.(reuse_addr) (Some v) o.(sndbuf)) in
            (true,
             match sock.(kind) with
             | Tcp => match sock.(conn_key) with
                      | Some key => set_tcp (TcpTable.set_recv_cap s.(tcp) key v) s
                      | None => s
                      end
             | Udp => match sock.(udp_key) with
                      | Some key => set_udp (udp_set_recv_cap s.(udp) key v) s
                      | None => s
                      end
             end)
      | SndBuf v =>
          if v =? 0 then (false, s)
          else
            let s := put (mkSocketOptions o.(rcvtimeo) o.(reuse_addr) o.(rcvbuf) (Some v)) in
            (true,
             match sock.(kind), sock.(conn_key) with
             | Tcp, Some key => set_tcp (TcpTable.set_send_cap s.(tcp) key v) s
             | _, _ => s
             end)
      end
  end.

Definition get_rcvtimeo (s : Stack) (id : SocketId) : option Duration :=
  sock ← s.(sockets) !! id; sock.(opts).(rcvtimeo).

Definition get_reuse_addr (s : Stack) (id : SocketId) : bool :=
  match s.(sockets) !! id with Some sock => sock.(opts).(reuse_addr) | None => false end.

Definition get_rcvbuf (s : Stack) (id : SocketId) : usize :=
  default DEFAULT_RECV_BUFFER_CAP (sock ← s.(sockets) !! id; sock.(opts).(rcvbuf)).

Definition get_sndbuf (s : Stack) (id : SocketId) : usize :=
  default DEFAULT_SEND_BUFFER_CAP (sock ← s.(sockets) !! id; sock.(opts).(sndbuf)).
