(* ===== verification/StackProps.v ===== *)
(** * Properties of the socket layer

    No packet and no socket call makes the stack panic (short of an oversize
    [sendto]); the blocking calls return once their timeout has passed; what
    the calls return; and some behaviour that the documentation does not
    promise. *)

From S2P Require Import Prelude Ip Handler Icmp Udp TcpSegment TcpConn TcpSend TcpReceive TcpTable TcpInv TcpState Stack.

(** ** The invariant of a stack *)

Definition socket_ok (sock : Socket) : Prop :=
  match sock.(udp_key) with Some k => is_u32 k.1 | None => True end.

Record stack_ok (s : Stack) : Prop := {
  so_addr : is_u32 s.(self_addr);
  so_port : is_u16 s.(next_udp_ephemeral_port);
  so_tcp : table_ok s.(tcp);
  so_socks : map_Forall (λ id sock, id < s.(next_socket_id) ∧ socket_ok sock) s.(sockets);
}.

Lemma stack_ok_new addr : is_u32 addr → stack_ok (stack_new addr).
Proof. intros. split; cbn; auto; [by_decide|apply table_ok_new|apply map_Forall_empty]. Qed.

Lemma stack_ok_tcp s t : stack_ok s → table_ok t → stack_ok (set_tcp t s).
Proof. intros [] ?. by split. Qed.

Lemma stack_ok_udp s u : stack_ok s → stack_ok (set_udp u s).
Proof. intros []. by split. Qed.

Lemma stack_ok_update s id f :
  stack_ok s → (∀ sock, s.(sockets) !! id = Some sock → socket_ok sock → socket_ok (f sock)) →
  stack_ok (update_socket id f s).
Proof.
  intros [H1 H2 H3 H4] Hf. unfold update_socket. destruct (sockets s !! id) as [sock|] eqn:E; [|done].
  destruct (map_Forall_lookup_1 _ _ _ _ H4 E) as [Hid Hs]. split; cbn; auto.
  apply map_Forall_insert_2; [|done]. split; auto.
Qed.

Lemma update_socket_next s id f : (update_socket id f s).(next_socket_id) = s.(next_socket_id).
Proof. unfold update_socket. by destruct (sockets s !! id). Qed.

Lemma alloc_socket_ok s k w : stack_ok s → s.(next_socket_id) + 1 < 2 ^ 64 →
  ∃ s', alloc_socket s k w = Some ((s.(next_socket_id), s'), w) ∧ stack_ok s' ∧
    s'.(sockets) = <[s.(next_socket_id) := socket_new k]> s.(sockets) ∧ s'.(tcp) = s.(tcp) ∧
    s'.(udp) = s.(udp).
Proof.
  intros [H1 H2 H3 H4] Hn. unfold alloc_socket, checked_add64. rewrite decide_True by done.
  eexists. split; [reflexivity|]. split; [|done]. split; cbn; auto.
  apply map_Forall_insert_2; [split; [lia|done]|].
  intros id sock [? ?]%H4. split; [lia|done].
Qed.

(** ** Packets *)

(** The dispatcher, against the interface of the handlers. *)
Lemma dispatch_ok s buf w :
  stack_ok s → bytes_ok buf → len buf ≤ 2048 →
  ∃ s' w', dispatch_ip_packet s buf w = Some (s', w') ∧ stack_ok s' ∧
    s'.(sockets) = s.(sockets) ∧ s'.(next_socket_id) = s.(next_socket_id) ∧ world_ext w w'.
Proof.
  intros Hs Hb Hl. unfold dispatch_ip_packet.
  destruct (parse_ip_header buf) as [h|] eqn:Ep; [|by exists s, w].
  destruct (parse_ip_header_ok buf h Hb Ep) as (Hh & _ & _).
  erewrite bind_lift by (by apply verify_ip_checksum_total).
  destruct (negb _); [by exists s, w|]. case_decide as Hd; [by exists s, w|].
  set (payload := drop _ buf). assert (Hpb : bytes_ok payload) by (unfold payload; auto with minitcp).
  assert (Hpl : len payload ≤ 65515) by (unfold payload, len in *; rewrite length_drop; lia).
  destruct (_ =? 1).
  { destruct (handler_total (PacketHandler := icmp_handler) tt h payload w) as ([] & w' & E & _ & Hw); auto.
    exists s, w'. split; [by erewrite bind_Some by exact E|done]. }
  destruct (_ =? 17).
  { destruct (handler_total (PacketHandler := udp_handler) s.(udp) h payload w) as (u & w' & E & _ & Hw); auto.
    eexists _, w'. split; [by erewrite bind_Some by exact E|]. split_and!; try done. by apply stack_ok_udp. }
  destruct (_ =? 6); [|by exists s, w].
  destruct (handler_total (PacketHandler := tcp_handler) s.(tcp) h payload w) as (t & w' & E & Ht & Hw); auto.
  { apply Hs. }
  eexists _, w'. split; [by erewrite bind_Some by exact E|]. split_and!; try done. by apply stack_ok_tcp.
Qed.

(** What a pump does to the world: it reads the clock at least once. *)
Lemma pump_once_ok s w :
  stack_ok s → ∃ s' w', pump_once s w = Some (s', w') ∧ stack_ok s' ∧
    s'.(sockets) = s.(sockets) ∧ s'.(next_socket_id) = s.(next_socket_id) ∧
    world_ext w w' ∧ (w.(w_reads) < w'.(w_reads))%nat.
Proof.
  intros Hs. unfold pump_once. erewrite bind_Some by reflexivity.
  set (w0 := mkWorld _ _ _ _ _ _ _ _ _). assert (H0 : world_ext w w0) by (split; cbn; auto).
  set (r := _ <$> _).
  assert (∃ s1 w1, (match r with
      | Some buf => if bool_decide (buf = []) then mret s else dispatch_ip_packet s buf
      | None => mret s end : M Stack) w0 = Some (s1, w1) ∧ stack_ok s1 ∧
      s1.(sockets) = s.(sockets) ∧ s1.(next_socket_id) = s.(next_socket_id) ∧ world_ext w0 w1)
    as (s1 & w1 & E1 & Hs1 & Hsk & Hid & Hw1).
  { destruct r as [buf|] eqn:Er; [|by exists s, w0]. case_bool_decide; [by exists s, w0|].
    unfold r in Er. apply fmap_Some in Er as (p & _ & ->). apply dispatch_ok; [done| |].
    - apply Forall_fmap, Forall_true. intros z. apply (uN_mod 8). lia.
    - unfold len. rewrite length_fmap, length_take. lia. }
  erewrite bind_Some by exact E1.
  destruct (tick_ok s1.(tcp) w1 (so_tcp s1 Hs1)) as (t & w2 & E2 & Ht & Hw2).
  eexists _, w2. split; [by erewrite bind_Some by exact E2|].
  assert (Hr : (w_reads w1 < w_reads w2)%nat) by (eapply tick_reads_clock; [apply Hs1|exact E2]).
  split_and!; [by apply stack_ok_tcp|done|done|by etrans; [|etrans]|].
  destruct H0, Hw1. lia.
Qed.

(** ** Blocking calls *)

(** From the [N]th clock reading on, the timeout has passed. *)
Definition expires (w : World) (timeo : option Duration) (start : Instant) (N : nat) : Prop :=
  ∃ d, timeo = Some d ∧ ∀ n, (N ≤ n)%nat → d ≤ w.(w_clock) n - start.

Lemma expires_ext w w' timeo start N : world_ext w w' → expires w timeo start N → expires w' timeo start N.
Proof. intros Hw (d & -> & H). exists d. split; [done|]. by rewrite (ext_clock _ _ Hw). Qed.

(** The test that ends a round of waiting. *)
Lemma deadline_ok timeo start w :
  ∃ late w', deadline_elapsed timeo start w = Some (late, w') ∧ world_ext w w' ∧
    ∀ N, expires w timeo start N → (N ≤ w.(w_reads))%nat → late = true.
Proof.
  unfold deadline_elapsed. destruct timeo as [d|].
  - eexists _, (clock_next w). split; [reflexivity|]. split; [apply clock_next_ext|].
    intros N (d' & [= <-] & H) HN. specialize (H _ HN). apply Z.leb_le. lia.
  - exists false, w. split_and!; [done|done|]. by intros N (d & ? & _).
Qed.

(** One round of waiting, after which the loop runs with one unit of fuel
    less on a stack as good as before. *)
Lemma wait_round {A} (k : Stack → M (option A * Stack)) (timed_out : A) s timeo start w fuel N :
  stack_ok s →
  (∀ s2 w2, stack_ok s2 → s2.(next_socket_id) = s.(next_socket_id) → world_ext w w2 →
     (w.(w_reads) < w2.(w_reads))%nat →
     ∃ r s' w', k s2 w2 = Some ((r, s'), w') ∧ stack_ok s' ∧ world_ext w2 w' ∧
       (expires w2 timeo start N → (N < w2.(w_reads) + fuel)%nat → (0 < fuel)%nat → is_Some r)) →
  ∃ r s' w',
    (late ← deadline_elapsed timeo start;
     if late : bool then mret (Some timed_out, s) else s ← pump_once s; k s) w = Some ((r, s'), w') ∧
    stack_ok s' ∧ world_ext w w' ∧
    (expires w timeo start N → (N < w.(w_reads) + S fuel)%nat → is_Some r).
Proof.
  intros Hs Hk. destruct (deadline_ok timeo start w) as (late & w1 & E1 & Hw1 & Hlate).
  erewrite bind_Some by exact E1. destruct late.
  { exists (Some timed_out), s, w1. split_and!; eauto. }
  destruct (pump_once_ok s w1 Hs) as (s2 & w2 & E2 & Hs2 & _ & Hid & Hw2 & Hr2).
  erewrite bind_Some by exact E2. pose proof (ext_reads _ _ Hw1).
  assert (Hw : world_ext w w2) by (by etrans).
  destruct (Hk s2 w2 Hs2 Hid Hw ltac:(lia)) as (r & s' & w' & E & Hs' & Hw' & Hdone).
  exists r, s', w'. split_and!; [done|done|by etrans|]. intros He HN.
  assert (¬ (N ≤ w_reads w)%nat) by (intros ?; by discriminate (Hlate N He)).
  apply Hdone; [by eapply expires_ext|lia|lia].
Qed.

Lemma recv_loop_ok fuel s key room timeo start w N :
  stack_ok s →
  ∃ r s' w', recv_loop fuel s key room timeo start w = Some ((r, s'), w') ∧ stack_ok s' ∧ world_ext w w' ∧
    (expires w timeo start N → (N < w.(w_reads) + fuel)%nat → (0 < fuel)%nat → is_Some r).
Proof.
  revert s w. induction fuel as [|fuel IH]; intros s w Hs; cbn [recv_loop].
  { exists None, s, w. split_and!; try done. lia. }
  pose proof (recv_ok s.(tcp) key room (so_tcp s Hs)) as Ht.
  destruct (TcpTable.recv s.(tcp) key room) as [got t]. cbn in Ht.
  pose proof (stack_ok_tcp s t Hs Ht) as Hs1.
  destruct (0 <? len got). { eexists _, _, w. split; [reflexivity|]. by split_and!. }
  destruct (tcp_remote_closed_no_more_data _ _). { eexists _, _, w. split; [reflexivity|]. by split_and!. }
  destruct (wait_round (λ s, recv_loop fuel s key room timeo start) (TIMEOUT, []) (set_tcp t s) timeo start w fuel N Hs1)
    as (r & s' & w' & E & ? & ? & Hd); [by intros; apply IH|].
  exists r, s', w'. split_and!; [exact E|done|done|]. intros. by apply Hd.
Qed.

Lemma apply_caps_ok key o t : table_ok t → table_ok (apply_caps key o t).
Proof.
  intros Ht. unfold apply_caps. destruct (sndbuf o), (rcvbuf o); auto using set_recv_cap_ok, set_send_cap_ok.
Qed.

Lemma accept_loop_ok fuel s la lp o start w N :
  stack_ok s → s.(next_socket_id) + 1 < 2 ^ 64 →
  ∃ r s' w', accept_loop fuel s la lp o start w = Some ((r, s'), w') ∧ stack_ok s' ∧ world_ext w w' ∧
    (expires w o.(rcvtimeo) start N → (N < w.(w_reads) + fuel)%nat → (0 < fuel)%nat → is_Some r).
Proof.
  revert s w. induction fuel as [|fuel IH]; intros s w Hs Hn; cbn [accept_loop].
  { exists None, s, w. split_and!; try done. lia. }
  pose proof (accept_ok s.(tcp) la lp (so_tcp s Hs)) as Ht.
  destruct (TcpTable.accept s.(tcp) la lp) as [r0 t]. cbn in Ht.
  pose proof (stack_ok_tcp s t Hs Ht) as Hs1. destruct r0 as [key|].
  - pose proof (stack_ok_tcp _ _ Hs1 (apply_caps_ok key o _ Ht)) as Hs2.
    destruct (alloc_socket_ok _ Tcp w Hs2 Hn) as (s' & E & Hs' & _).
    eexists _, _, w. split; [erewrite bind_Some by exact E; reflexivity|]. split_and!; try done.
    by apply stack_ok_update.
  - destruct (wait_round (λ s, accept_loop fuel s la lp o start) (None, true) (set_tcp t s) (rcvtimeo o) start w fuel N Hs1)
      as (r & s' & w' & E & ? & ? & Hd).
    { intros s2 w2 Hs2 Hid _ _. apply IH; [done|]. rewrite Hid. exact Hn. }
    exists r, s', w'. split_and!; [exact E|done|done|]. intros. by apply Hd.
Qed.

Lemma recvfrom_loop_ok fuel s key room timeo start w N :
  stack_ok s →
  ∃ r s' w', recvfrom_loop fuel s key room timeo start w = Some ((r, s'), w') ∧ stack_ok s' ∧ world_ext w w' ∧
    (expires w timeo start N → (N < w.(w_reads) + fuel)%nat → (0 < fuel)%nat → is_Some r).
Proof.
  revert s w. induction fuel as [|fuel IH]; intros s w Hs; cbn [recvfrom_loop].
  { exists None, s, w. split_and!; try done. lia. }
  destruct (match key with Some k => udp_recv (udp s) k | None => (None, udp s) end) as [[dg|] u].
  { eexists _, _, w. split; [reflexivity|]. split_and!; try done. by apply stack_ok_udp. }
  pose proof (stack_ok_udp s u Hs) as Hs1.
  destruct (wait_round (λ s, recvfrom_loop fuel s key room timeo start) (TIMEOUT, [], None) (set_udp u s)
    timeo start w fuel N Hs1) as (r & s' & w' & E & ? & ? & Hd); [by intros; apply IH|].
  exists r, s', w'. split_and!; [exact E|done|done|]. intros. by apply Hd.
Qed.

Lemma connect_loop_ok n s key w :
  stack_ok s → ∃ ok s' w', connect_loop n s key w = Some ((ok, s'), w') ∧ stack_ok s' ∧ world_ext w w' ∧
    (ok = true → is_established s'.(tcp) key = true).
Proof.
  revert s w. induction n as [|n IH]; intros s w Hs; cbn [connect_loop]; [by exists false, s, w|].
  destruct (is_established _ _) eqn:Ee; [by exists true, s, w|].
  destruct (is_closed _ _); [by exists false, s, w|].
  destruct (pump_once_ok s w Hs) as (s1 & w1 & E1 & Hs1 & _ & _ & Hw1 & _).
  erewrite bind_Some by exact E1. destruct (IH s1 w1 Hs1) as (ok & s' & w' & E & ? & ? & ?).
  exists ok, s', w'. split_and!; [done|done|by etrans|done].
Qed.

Lemma linger_ok n s key w :
  stack_ok s → ∃ s' w', linger n s key w = Some (s', w') ∧ stack_ok s' ∧ world_ext w w'.
Proof.
  revert s w. induction n as [|n IH]; intros s w Hs; cbn [linger]; [by exists s, w|].
  destruct (is_closed _ _); [by exists s, w|].
  destruct (pump_once_ok s w Hs) as (s1 & w1 & E1 & Hs1 & _ & _ & Hw1 & _).
  erewrite bind_Some by exact E1. destruct (IH s1 w1 Hs1) as (s' & w' & E & ? & ?).
  exists s', w'. split_and!; [done|done|by etrans].
Qed.

(** ** Runs of the socket API *)

Inductive stack_op :=
  | CallSocket | CallUdpSocket
  | CallListen (id : Z) (port : u16)
  | CallAccept (fuel : nat) (id : Z)
  | CallConnect (id : Z) (addr : u32) (port : u16)
  | CallSend (id : Z) (data : bytes)
  | CallRecv (fuel : nat) (id : Z) (room : nat)
  | CallClose (id : Z)
  | CallBind (id : Z) (addr : u32 * u16)
  | CallSendto (id : Z) (data : bytes) (dest : u32 * u16)
  | CallRecvfrom (fuel : nat) (id : Z) (room : nat)
  | CallSetsockopt (id : Z) (opt : SockOpt)
  | CallPump.

(** Argument types. *)
Definition call_ok (op : stack_op) : Prop :=
  match op with
  | CallConnect _ addr port => is_u32 addr ∧ is_u16 port
  | CallSend _ data => bytes_ok data
  | CallBind _ addr => is_u32 addr.1
  | CallSendto _ data dest => bytes_ok data ∧ is_u32 dest.1
  | _ => True
  end.

(** A datagram that no IPv4 packet can carry, for a UDP socket. *)
Definition oversized (op : stack_op) (s : Stack) : bool :=
  match op with
  | CallSendto id data _ => bool_decide (kind <$> s.(sockets) !! id = Some Udp) && (65507 <? len data)
  | _ => false
  end.

Definition run_call (op : stack_op) (s : Stack) : M Stack :=
  match op with
  | CallSocket => r ← socket s; mret r.2
  | CallUdpSocket => r ← udp_socket s; mret r.2
  | CallListen id port => mret (listen s id port).2
  | CallAccept fuel id => r ← accept fuel s id; mret r.2
  | CallConnect id addr port => r ← connect s id addr port; mret r.2
  | CallSend id data => r ← send s id data; mret r.2
  | CallRecv fuel id room => r ← recv fuel s id room; mret r.2
  | CallClose id => close s id
  | CallBind id addr => mret (bind s id addr).2
  | CallSendto id data dest => r ← sendto s id data dest; mret r.2
  | CallRecvfrom fuel id room => r ← recvfrom fuel s id room; mret r.2
  | CallSetsockopt id opt => mret (setsockopt s id opt).2
  | CallPump => pump_once s
  end.

(** The call returns, on a stack as good as before. *)
Definition returns_ok {A} (m : M (A * Stack)) (w : World) : Prop :=
  ∃ r s' w', m w = Some ((r, s'), w') ∧ stack_ok s' ∧ world_ext w w'.

Lemma accept_call_ok fuel s id w : stack_ok s → s.(next_socket_id) + 1 < 2 ^ 64 → returns_ok (accept fuel s id) w.
Proof.
  intros Hs Hn. unfold accept, returns_ok. destruct (sockets s !! id) as [l|]; [|by eexists _, s, w].
  destruct (negb _); [by eexists _, s, w|]. erewrite bind_Some by reflexivity.
  destruct (accept_loop_ok fuel s (listen_addr l) (listen_port l) (opts l) (w_clock w (w_reads w)) (clock_next w) 0 Hs Hn)
    as (r & s' & w' & E & ? & ? & _).
  exists r, s', w'. split_and!; [exact E|done|]. etrans; [apply clock_next_ext|done].
Qed.

Lemma connect_call_ok s id addr port w :
  stack_ok s → is_u32 addr → is_u16 port →
  ∃ ok s' w', connect s id addr port w = Some ((ok, s'), w') ∧ stack_ok s' ∧ world_ext w w' ∧
    (ok = true → ∃ key, is_established s'.(tcp) key = true).
Proof.
  intros Hs Ha Hp. unfold connect. destruct (sockets s !! id) as [sock|]; [|by exists false, s, w].
  destruct (connect_ok s.(tcp) s.(self_addr) addr port w (so_tcp s Hs) (so_addr s Hs) Ha Hp) as ([key t] & w1 & E & Ht & Hw1).
  erewrite bind_Some by exact E. cbn in Ht.
  set (s1 := update_socket id (set_conn_key (Some key)) (set_tcp t s)).
  assert (Hs1 : stack_ok s1) by (apply stack_ok_update; [by apply stack_ok_tcp|done]).
  set (s2 := set_tcp (apply_caps key (opts sock) s1.(tcp)) s1). assert (Hs2 : stack_ok s2) by (apply stack_ok_tcp; [done|apply apply_caps_ok, Hs1]).
  destruct (connect_loop_ok 300 s2 key w1 Hs2) as (ok & s' & w' & E' & ? & ? & Hest).
  exists ok, s', w'. split_and!; [exact E'|done|by etrans|]. intros Hok. exists key. auto.
Qed.

Lemma send_call_ok s id data w : stack_ok s → bytes_ok data → returns_ok (send s id data) w.
Proof.
  intros Hs Hb. unfold send, returns_ok. destruct (sockets s !! id ≫= conn_key) as [key|]; [|by eexists _, s, w].
  destruct (send_ok s.(tcp) key data w (so_tcp s Hs) Hb) as ([n t] & w' & E & Ht & Hw).
  eexists _, _, w'. split; [by erewrite bind_Some by exact E|]. split; [by apply stack_ok_tcp|done].
Qed.

Lemma recv_call_ok fuel s id room w : stack_ok s → returns_ok (recv fuel s id room) w.
Proof.
  intros Hs. unfold recv, returns_ok. destruct (sockets s !! id) as [sock|]; [|by eexists _, s, w].
  destruct (conn_key sock) as [key|]; [|by eexists _, s, w]. erewrite bind_Some by reflexivity.
  destruct (recv_loop_ok fuel s key room (rcvtimeo (opts sock)) (w_clock w (w_reads w)) (clock_next w) 0 Hs)
    as (r & s' & w' & E & ? & ? & _).
  exists r, s', w'. split_and!; [exact E|done|]. etrans; [apply clock_next_ext|done].
Qed.

Lemma recvfrom_call_ok fuel s id room w : stack_ok s → returns_ok (recvfrom fuel s id room) w.
Proof.
  intros Hs. unfold recvfrom, returns_ok. destruct (sockets s !! id) as [sock|]; [|by eexists _, s, w].
  destruct (negb _); [by eexists _, s, w|]. erewrite bind_Some by reflexivity.
  destruct (recvfrom_loop_ok fuel s (udp_key sock) room (rcvtimeo (opts sock)) (w_clock w (w_reads w)) (clock_next w) 0 Hs)
    as (r & s' & w' & E & ? & ? & _).
  exists r, s', w'. split_and!; [exact E|done|]. etrans; [apply clock_next_ext|done].
Qed.

Lemma close_call_ok s id w : stack_ok s → ∃ s' w', close s id w = Some (s', w') ∧ stack_ok s' ∧ world_ext w w'.
Proof.
  intros Hs. unfold close. destruct (sockets s !! id) as [sock|]; [|by exists s, w].
  set (s1 := set_sockets _ s).
  assert (Hs1 : stack_ok s1) by (destruct Hs; split; cbn; auto; by apply map_Forall_delete).
  destruct (kind sock).
  - destruct (conn_key sock) as [key|]; [|by exists s1, w].
    destruct (close_ok s1.(tcp) key w (so_tcp s1 Hs1)) as (t & w1 & E & Ht & Hw1).
    erewrite bind_Some by exact E.
    destruct (linger_ok 50 (set_tcp t s1) key w1) as (s' & w' & E' & ? & ?); [by apply stack_ok_tcp|].
    exists s', w'. split_and!; [done|done|by etrans].
  - eexists _, w. split; [reflexivity|]. split; [|done]. destruct (udp_key sock); [by apply stack_ok_udp|done].
Qed.

Lemma bind_call_ok s id addr : stack_ok s → is_u32 addr.1 → stack_ok (bind s id addr).2.
Proof.
  intros Hs Ha. unfold bind. destruct (sockets s !! id) as [sock|]; [|done].
  destruct (negb _); [done|]. destruct (udp_bind _ _ _ _ _) as [[] u]; cbn; [|by apply stack_ok_udp].
  apply stack_ok_update; [by apply stack_ok_udp|]. intros ? _ _. unfold socket_ok. cbn.
  destruct (_ =? 0); [apply Hs|done].
Qed.

Lemma auto_bind_ok s id o : stack_ok s → let '(key, s') := auto_bind s id o in stack_ok s' ∧ is_u32 key.1.
Proof.
  intros Hs. unfold auto_bind. set (s1 := set_next_udp _ s).
  assert (Hs1 : stack_ok s1) by (destruct Hs; split; cbn; auto with minitcp).
  destruct (udp_bind _ _ _ _ _) as [b u]. pose proof (stack_ok_udp s1 u Hs1) as Hs2. split; [|apply Hs2].
  apply stack_ok_update; [done|]. intros ? _ _. apply Hs2.
Qed.

(** The address a datagram is sent from. *)
Lemma sender_key_ok s id sock :
  stack_ok s → s.(sockets) !! id = Some sock →
  let '(key, s') := (match udp_key sock with Some k => (k, s) | None => auto_bind s id (opts sock) end) in
  stack_ok s' ∧ is_u32 key.1.
Proof.
  intros Hs E. destruct (udp_key sock) as [k|] eqn:Ek; [|by apply auto_bind_ok]. split; [done|].
  destruct (map_Forall_lookup_1 _ _ _ _ (so_socks s Hs) E) as [_ H]. unfold socket_ok in H. by rewrite Ek in H.
Qed.

Lemma oversized_sendto id data dest s :
  oversized (CallSendto id data dest) s = false → kind <$> s.(sockets) !! id = Some Udp → len data ≤ 65507.
Proof. cbn. intros H E. rewrite bool_decide_eq_true_2 in H by done. by apply Z.ltb_ge. Qed.

Lemma sendto_call_ok s id data dest w :
  stack_ok s → bytes_ok data → is_u32 dest.1 → oversized (CallSendto id data dest) s = false →
  returns_ok (sendto s id data dest) w.
Proof.
  intros Hs Hb Hd Ho. pose proof (oversized_sendto _ _ _ _ Ho) as Hl. unfold sendto, returns_ok.
  destruct (sockets s !! id) as [sock|] eqn:E; [|by eexists _, s, w]. case_bool_decide as Hu; cbn [negb]; [|by eexists _, s, w].
  specialize (Hl (f_equal Some Hu)). pose proof (sender_key_ok s id sock Hs E) as Hk.
  destruct (match udp_key sock with Some k => (k, s) | None => auto_bind s id (opts sock) end) as [key s1].
  destruct Hk as [Hs1 Hk1]. eexists _, s1, _. split; [erewrite bind_Some by (by apply send_datagram_eq); reflexivity|].
  split; [done|apply emit_ext].
Qed.

Lemma sendto_oversized s id data dest w :
  stack_ok s → bytes_ok data → is_u32 dest.1 → oversized (CallSendto id data dest) s = true →
  sendto s id data dest w = None.
Proof.
  intros Hs Hb Hd [Hu Hl]%andb_true_iff. apply bool_decide_eq_true in Hu. apply Z.ltb_lt in Hl. unfold sendto.
  destruct (sockets s !! id) as [sock|] eqn:E; [|done]. injection Hu as Hu. rewrite bool_decide_eq_true_2 by done. cbn [negb].
  pose proof (sender_key_ok s id sock Hs E) as Hk.
  destruct (match udp_key sock with Some k => (k, s) | None => auto_bind s id (opts sock) end) as [key s1].
  destruct Hk as [_ Hk]. unfold mbind, M_bind. by rewrite send_datagram_oversize.
Qed.

Lemma listen_call_ok s id port : stack_ok s → stack_ok (listen s id port).2.
Proof.
  intros Hs. unfold listen. destruct (sockets s !! id) as [sock|]; [|done].
  set (s1 := update_socket id (set_listening (self_addr s) port) s).
  assert (Hs1 : stack_ok s1) by (by apply stack_ok_update).
  pose proof (listen_ok s1.(tcp) s1.(self_addr) port (reuse_addr (opts sock)) (so_tcp s1 Hs1)) as Ht.
  destruct (TcpTable.listen _ _ _ _) as [ok t]. by apply stack_ok_tcp.
Qed.

Lemma setsockopt_ok s id opt : stack_ok s → stack_ok (setsockopt s id opt).2.
Proof.
  intros Hs. unfold setsockopt. destruct (sockets s !! id) as [sock|]; [|done].
  assert (Hput : ∀ o, stack_ok (update_socket id (set_opts o) s)) by (intros; by apply stack_ok_update).
  destruct opt as [d|v|v|v]; cbn [snd]; [done|done| |].
  - destruct (v =? 0); cbn [snd]; [done|]. destruct (kind sock).
    + destruct (conn_key sock); [|done]. apply stack_ok_tcp; [done|]. apply set_recv_cap_ok, Hput.
    + destruct (udp_key sock); [|done]. by apply stack_ok_udp.
  - destruct (v =? 0); cbn [snd]; [done|]. destruct (kind sock); [|done].
    destruct (conn_key sock); [|done]. apply stack_ok_tcp; [done|]. apply set_send_cap_ok, Hput.
Qed.

Lemma returns_ok_run {A} (m : M (A * Stack)) w :
  returns_ok m w → ∃ s' w', (r ← m; mret r.2) w = Some (s', w') ∧ stack_ok s' ∧ world_ext w w'.
Proof.
  intros (r & s' & w' & E & ? & ?). exists s', w'. split; [by erewrite bind_Some by exact E|done].
Qed.

Lemma run_call_ok op s w :
  stack_ok s → s.(next_socket_id) + 1 < 2 ^ 64 → call_ok op → oversized op s = false →
  ∃ s' w', run_call op s w = Some (s', w') ∧ stack_ok s' ∧ world_ext w w'.
Proof.
  intros Hs Hn Hop Hover.
  destruct op; cbn [run_call call_ok] in *;
    try (eexists _, w; split; [reflexivity|]; split; [|done]).
  - apply returns_ok_run. destruct (alloc_socket_ok s Tcp w Hs Hn) as (s' & E & ? & _).
    eexists _, s', w. split; [exact E|done].
  - apply returns_ok_run. destruct (alloc_socket_ok s Udp w Hs Hn) as (s' & E & ? & _).
    eexists _, s', w. split; [exact E|done].
  - by apply listen_call_ok.
  - by apply returns_ok_run, accept_call_ok.
  - apply returns_ok_run. destruct Hop as [Ha Hp].
    destruct (connect_call_ok s id addr port w Hs Ha Hp) as (ok & s' & w' & E & ? & ? & _). by exists ok, s', w'.
  - by apply returns_ok_run, send_call_ok.
  - by apply returns_ok_run, recv_call_ok.
  - by apply close_call_ok.
  - by apply bind_call_ok.
  - destruct Hop as (? & ?). by apply returns_ok_run, sendto_call_ok.
  - by apply returns_ok_run, recvfrom_call_ok.
  - by apply setsockopt_ok.
  - destruct (pump_once_ok s w Hs) as (s' & w' & E & ? & _ & _ & ? & _). by exists s', w'.
Qed.

Lemma run_call_panics op s w :
  stack_ok s → call_ok op → oversized op s = true → run_call op s w = None.
Proof.
  intros Hs Hop Hover. destruct op; try discriminate Hover. destruct Hop as [? ?]. cbn [run_call].
  unfold mbind, M_bind. by rewrite sendto_oversized.
Qed.

Inductive stack_reachable : Stack → World → Prop :=
  | stack_start addr w : is_u32 addr → stack_reachable (stack_new addr) w
  | stack_call s w op s' w' :
      stack_reachable s w → s.(next_socket_id) + 1 < 2 ^ 64 → call_ok op →
      run_call op s w = Some (s', w') → stack_reachable s' w'.

Lemma stack_reachable_ok s w : stack_reachable s w → stack_ok s.
Proof.
  induction 1 as [addr w Ha|s w op s' w' _ IH Hn Hop E]; [by apply stack_ok_new|].
  destruct (oversized op s) eqn:Ho; [by rewrite run_call_panics in E|].
  destruct (run_call_ok op s w IH Hn Hop Ho) as (s2 & w2 & E2 & ? & _). congruence.
Qed.

(** ** Theorems *)



(** C21: the blocking calls do not hang once SO_RCVTIMEO is set.  If the
    clock is past the timeout from its [N]th reading on, then [N + 1] rounds
    of the loop are enough: [recv], [accept] and [recvfrom] return. *)
Theorem blocking_calls_time_out (s : Stack) (w : World) (id : Z) (sock : Socket) (d : Duration)
    (room N fuel : nat) :
  stack_reachable s w → s.(next_socket_id) + 1 < 2 ^ 64 →
  s.(sockets) !! id = Some sock → sock.(opts).(rcvtimeo) = Some d →
  (∀ n, (N ≤ n)%nat → d ≤ w.(w_clock) n - clock_now w) → (N < fuel)%nat →
  (∃ r s' w', recv fuel s id room w = Some ((Some r, s'), w')) ∧
  (∃ r s' w', accept fuel s id w = Some ((Some r, s'), w')) ∧
  (∃ r s' w', recvfrom fuel s id room w = Some ((Some r, s'), w')).
Proof.
  intros Hr Hn Hk Hd Hclock Hf. pose proof (stack_reachable_ok s w Hr) as Hs.
  assert (He : expires (clock_next w) (rcvtimeo (opts sock)) (clock_now w) N) by (by exists d).
  assert (Hlt : (N < w_reads (clock_next w) + fuel)%nat) by lia.
  split_and!.
  - unfold recv. rewrite Hk. destruct (conn_key sock) as [key|]; [|by eexists _, s, w].
    destruct (recv_loop_ok fuel s key room (rcvtimeo (opts sock)) (clock_now w) (clock_next w) N Hs)
      as (r & s' & w' & E & _ & _ & Hdone). destruct (Hdone He Hlt ltac:(lia)) as [r' ->]. by exists r', s', w'.
  - unfold accept. rewrite Hk. destruct (negb _); [by eexists _, s, w|].
    destruct (accept_loop_ok fuel s (listen_addr sock) (listen_port sock) (opts sock) (clock_now w) (clock_next w) N Hs Hn)
      as (r & s' & w' & E & _ & _ & Hdone). destruct (Hdone He Hlt ltac:(lia)) as [r' ->]. by exists r', s', w'.
  - unfold recvfrom. rewrite Hk. destruct (negb _); [by eexists _, s, w|].
    destruct (recvfrom_loop_ok fuel s (udp_key sock) room (rcvtimeo (opts sock)) (clock_now w) (clock_next w) N Hs)
      as (r & s' & w' & E & _ & _ & Hdone). destruct (Hdone He Hlt ltac:(lia)) as [r' ->]. by exists r', s', w'.
Qed.

(** [connect] always returns, after at most 300 rounds of the event
    loop, and reports success only for a connection that is established. *)
Theorem connect_returns (s : Stack) (w : World) (id : Z) (addr : u32) (port : u16) :
  stack_reachable s w → is_u32 addr → is_u16 port →
  ∃ ok s' w', connect s id addr port w = Some ((ok, s'), w') ∧ stack_ok s' ∧
    (ok = true → ∃ key, is_established s'.(tcp) key = true).
Proof.
  intros Hr Ha Hp. destruct (connect_call_ok s id addr port w (stack_reachable_ok s w Hr) Ha Hp)
    as (ok & s' & w' & E & ? & _ & ?). by exists ok, s', w'.
Qed.

Theorem connect_returns_witness :
  ∃ ok s' w', connect (stack_new 1) 7 2 80 demo_world = Some ((ok, s'), w') ∧ stack_ok s'.
Proof.
  destruct (connect_returns (stack_new 1) demo_world 7 2 80) as (ok & s' & w' & E & Hs & _).
  - apply stack_start. by_decide.
  - by_decide.
  - by_decide.
  - exists ok, s', w'. exact (conj E Hs).
Defined.

(** C25: [recv] hands out buffered data at once and reports the end of the
    stream only when there is none: with data and room it returns the first
    bytes of the buffer and removes exactly these, without waiting; without
    data it returns 0 when the connection is gone or the peer has closed. *)
Theorem recv_data_before_eof (s : Stack) (w : World) (id : Z) (sock : Socket) (key : ConnectionKey)
    (room fuel : nat) :
  s.(sockets) !! id = Some sock → sock.(conn_key) = Some key → (0 < room)%nat → (0 < fuel)%nat →
  match s.(tcp).(connections) !! key with
  | Some c =>
      if bool_decide (c.(recv_buffer) = [])
      then c.(state) ∈ [CloseWait; LastAck; Closed; TimeWait] →
           ∃ s', recv fuel s id room w = Some ((Some (0, []), s'), clock_next w)
      else ∃ s', recv fuel s id room w =
             Some ((Some (Z.of_nat (Nat.min room (length c.(recv_buffer))), take room c.(recv_buffer)), s'),
                   clock_next w) ∧
           s'.(tcp).(connections) !! key = Some (set_recv_buffer (drop room c.(recv_buffer)) c)
  | None => ∃ s', recv fuel s id room w = Some ((Some (0, []), s'), clock_next w)
  end.
Proof.
  intros Hk Hc Hroom Hfuel. unfold recv. rewrite Hk, Hc. destruct fuel as [|fuel]; [lia|].
  destruct (connections (tcp s) !! key) as [c|] eqn:E.
  - case_bool_decide as Eb.
    + intros Hst. eexists. erewrite bind_Some by reflexivity. cbn [recv_loop].
      unfold TcpTable.recv. rewrite E. unfold conn_recv. rewrite Eb. cbn [length Nat.min]. rewrite Nat.min_0_r.
      cbn [Nat.ltb Nat.leb]. change (0 <? len []) with false. cbv iota.
      unfold tcp_remote_closed_no_more_data, lookup_conn. cbn [tcp set_tcp]. cbn.
      rewrite lookup_insert_eq. repeat (apply elem_of_cons in Hst as [->|Hst]; [reflexivity|]).
      by apply elem_of_nil in Hst.
    + pose proof (len_pos _ Eb) as Hpos. set (n := Nat.min room (length (recv_buffer c))).
      assert (Hn : (0 < n)%nat) by (unfold n, len in *; lia).
      assert (Et : take n (recv_buffer c) = take room (recv_buffer c))
        by (unfold n; rewrite <- take_take; by rewrite firstn_all).
      assert (Ed : drop n (recv_buffer c) = drop room (recv_buffer c)).
      { unfold n. destruct (Nat.min_spec room (length (recv_buffer c))) as [[_ ->]|[? ->]]; [done|].
        rewrite !drop_ge by lia. done. }
      assert (Hl : len (take room (recv_buffer c)) = Z.of_nat n) by (unfold len; by rewrite length_take).
      eexists. erewrite bind_Some by reflexivity. cbn [recv_loop]. unfold TcpTable.recv. rewrite E.
      unfold conn_recv. fold n. rewrite (proj2 (Nat.ltb_lt _ _) Hn), Et, Ed, Hl.
      rewrite (proj2 (Z.ltb_lt _ _)) by lia. split; [reflexivity|]. cbn. apply lookup_insert_eq.
  - eexists. erewrite bind_Some by reflexivity. cbn [recv_loop]. unfold TcpTable.recv. rewrite E.
    change (0 <? len []) with false. cbv iota. unfold tcp_remote_closed_no_more_data, lookup_conn.
    cbn [tcp set_tcp]. by rewrite E.
Qed.

(** A stack with one TCP socket, number 1, with a timeout of a second and an
    established connection. *)
Definition demo_socket : Socket :=
  mkSocket Tcp (Some (TcpInv.conn_key inflight_conn)) false 0 0 None
    (mkSocketOptions (Some (from_secs 1)) false None None).

Definition demo_stack (c : TcpConnection) : Stack :=
  mkStack 0x0A0A0001 51000 (one_conn c) udp_new {[1 := demo_socket]} 2.

Definition ticking_world : World :=
  mkWorld (λ n, from_millis 400 * Z.of_nat n) 0 (λ _, 0) 0 (λ _, None) 0 (λ _, 0%nat) 0 [].

(** A UDP socket that nothing arrives for: [recvfrom] waits until its timeout. *)
Theorem blocking_calls_time_out_witness :
  ∃ s w s' w', stack_reachable s w ∧ recvfrom 5 s 1 100 w = Some ((Some (TIMEOUT, [], None), s'), w') ∧
    (w.(w_reads) + 3 < w'.(w_reads))%nat.
Proof.
  set (s0 := stack_new 0x0A0A0001).
  set (s1 := set_sockets {[1 := socket_new Udp]} (set_next_socket_id 2 s0)).
  set (s2 := (setsockopt s1 1 (RcvTimeo (from_secs 1))).2).
  assert (H1 : stack_reachable s1 ticking_world).
  { apply (stack_call s0 ticking_world CallUdpSocket).
    - apply stack_start. by_decide.
    - by_decide.
    - exact I.
    - reflexivity. }
  assert (H2 : stack_reachable s2 ticking_world).
  { apply (stack_call s1 ticking_world (CallSetsockopt 1 (RcvTimeo (from_secs 1)))); [done|by_decide|exact I|reflexivity]. }
  destruct (blocking_calls_time_out s2 ticking_world 1
    (set_opts (mkSocketOptions (Some (from_secs 1)) false None None) (socket_new Udp)) (from_secs 1) 100 4 5 H2)
    as (_ & _ & r & s' & w' & E).
  - by_decide.
  - reflexivity.
  - reflexivity.
  - intros n Hn. unfold clock_now, ticking_world, from_secs, from_millis. cbn [w_clock w_reads]. lia.
  - lia.
  - exists s2, ticking_world, s', w'. pose proof E as E0. vm_compute in E0. injection E0 as <- <- <-.
    split; [exact H2|]. split; [exact E|]. cbn. lia.
Defined.

Theorem recv_data_before_eof_witness :
  ∃ s', recv 1 (demo_stack (set_recv_buffer [72; 105; 33] inflight_conn)) 1 2 demo_world =
          Some ((Some (2, [72; 105]), s'), clock_next demo_world).
Proof.
  pose proof (recv_data_before_eof (demo_stack (set_recv_buffer [72; 105; 33] inflight_conn)) demo_world 1
    demo_socket (TcpInv.conn_key inflight_conn) 2 1 eq_refl eq_refl ltac:(lia) ltac:(lia)) as (s' & E & _).
  exists s'. exact E.
Defined.

(** C35: socket options read back as they were set, a zero buffer size is
    refused and changes nothing, and a new receive or send buffer size takes
    effect on the live connection. *)
Theorem sockopt_roundtrip (s : Stack) (id : Z) (sock : Socket) (v : Z) :
  s.(sockets) !! id = Some sock → 0 < v →
  get_rcvtimeo (setsockopt s id (RcvTimeo v)).2 id = Some v ∧
  get_rcvtimeo (setsockopt s id (RcvTimeo 0)).2 id = None ∧
  (∀ b, get_reuse_addr (setsockopt s id (ReuseAddr b)).2 id = b) ∧
  get_rcvbuf (setsockopt s id (RcvBuf v)).2 id = v ∧
  get_sndbuf (setsockopt s id (SndBuf v)).2 id = v ∧
  setsockopt s id (RcvBuf 0) = (false, s) ∧ setsockopt s id (SndBuf 0) = (false, s) ∧
  (∀ key c, sock.(kind) = Tcp → sock.(conn_key) = Some key → s.(tcp).(connections) !! key = Some c →
     (setsockopt s id (RcvBuf v)).2.(tcp).(connections) !! key = Some (set_recv_buffer_cap v c) ∧
     (setsockopt s id (SndBuf v)).2.(tcp).(connections) !! key = Some (set_send_pending_cap v c)).
Proof.
  intros Hk Hv. unfold get_rcvtimeo, get_reuse_addr, get_rcvbuf, get_sndbuf, setsockopt.
  rewrite Hk, (proj2 (Z.eqb_neq v 0)) by lia. unfold update_socket. rewrite Hk.
  split_and!; cbn [snd sockets set_sockets set_tcp set_udp]; try (by rewrite lookup_insert_eq); try done.
  - intros b. by rewrite lookup_insert_eq.
  - by destruct (kind sock), (conn_key sock), (udp_key sock); cbn; rewrite lookup_insert_eq.
  - by destruct (kind sock), (conn_key sock); cbn; rewrite lookup_insert_eq.
  - intros key c -> -> Hc. cbn. unfold TcpTable.set_recv_cap, TcpTable.set_send_cap. cbn. rewrite Hc. cbn.
    split; apply lookup_insert_eq.
Qed.

Theorem sockopt_roundtrip_witness :
  get_rcvbuf (setsockopt (demo_stack inflight_conn) 1 (RcvBuf 4096)).2 1 = 4096.
Proof.
  destruct (sockopt_roundtrip (demo_stack inflight_conn) 1 demo_socket 4096) as (_ & _ & _ & H & _).
  - reflexivity.
  - lia.
  - exact H.
Defined.

(** [accept] can hand out a connection that no longer exists: a reset
    that arrives between the end of the handshake and the call removes the
    connection but not its entry in the accept queue. *)
Theorem accept_returns_dead_connection (t : TcpTable) (h : IpHeader) (payload : bytes) (seg : TcpHeader)
    (data : bytes) (c : TcpConnection) (rest : list ConnectionKey) (w : World) :
  arrives h payload seg data → has_flag seg.(th_flags) TCP_RST = true →
  t.(connections) !! segment_key h seg = Some c → live c.(state) = true →
  t.(accept_queues) !! (h.(ip_dst_addr), seg.(th_dst_port)) = Some (segment_key h seg :: rest) →
  ∃ t', handle_segment t h payload w = Some (t', w) ∧
    let '(r, t'') := TcpTable.accept t' h.(ip_dst_addr) seg.(th_dst_port) in
    r = Some (segment_key h seg) ∧ is_closed t'' (segment_key h seg) = true.
Proof.
  intros Ha Hrst Hk Hl Hq.
  assert (Hp : process_conn (accept_queues t) (segment_key h seg) c seg data w =
               Some ((set_state Closed c, accept_queues t), w))
    by (unfold process_conn; rewrite Hrst; unfold live in Hl; by rewrite Hl).
  eexists. split; [by eapply handle_segment_conn|].
  unfold TcpTable.accept. cbn [accept_queues cleanup_closed_connections set_connections set_accept_queues put_conn].
  rewrite Hq. split; [done|]. unfold is_closed.
  assert (Hnone : (cleanup_closed_connections (set_accept_queues (accept_queues t)
    (put_conn (segment_key h seg) (set_state Closed c) t))).(connections) !! segment_key h seg = None)
    by (eapply cleanup_removes; [apply lookup_insert_eq|done]).
  cbn in Hnone |- *. by rewrite Hnone.
Qed.

Theorem accept_returns_dead_connection_witness :
  let t := set_accept_queues {[(0x0A0A0001, 9292) := [TcpInv.conn_key inflight_conn]]} (one_conn inflight_conn) in
  ∃ t', handle_segment t wire_ip (wire TCP_RST 1001 0) demo_world = Some (t', demo_world) ∧
    (TcpTable.accept t' 0x0A0A0001 9292).1 = Some (TcpInv.conn_key inflight_conn).
Proof.
  intros t. destruct (accept_returns_dead_connection t wire_ip (wire TCP_RST 1001 0) (wire_seg TCP_RST 1001 0) []
    inflight_conn [] demo_world) as (t' & E & H).
  - split; reflexivity.
  - reflexivity.
  - reflexivity.
  - reflexivity.
  - reflexivity.
  - exists t'. split; [exact E|]. change (ip_dst_addr wire_ip) with 0x0A0A0001 in H.
    change (th_dst_port (wire_seg TCP_RST 1001 0)) with 9292 in H.
    destruct (TcpTable.accept t' 0x0A0A0001 9292) as [r t'']. exact (proj1 H).
Defined.

(** A FIN the peer sends again in CLOSE_WAIT is not acknowledged: when
    our first acknowledgement was lost and we have nothing to send, the
    peer's retransmissions get no answer. *)
Theorem close_wait_ignores_fin (t : TcpTable) (h : IpHeader) (payload : bytes) (seg : TcpHeader)
    (data : bytes) (c : TcpConnection) (w : World) :
  arrives h payload seg data → t.(connections) !! segment_key h seg = Some c → c.(state) = CloseWait →
  has_flag seg.(th_flags) TCP_FIN = true → has_flag seg.(th_flags) TCP_RST = false →
  c.(send_pending) = [] → c.(pending_close) = false →
  ∃ t', handle_segment t h payload w = Some (t', w) ∧
    t'.(connections) !! segment_key h seg = Some (process_ack c seg).
Proof.
  intros Ha Hk Hs Hfin Hrst Hp Hc.
  destruct (process_ack_frame c seg) as (Hst & _ & _ & Hpc & _).
  assert (Hpend : send_pending (process_ack c seg) = []).
  { rewrite process_ack_eq. destruct (negb (has_flag _ _)); [done|].
    by destruct (_ <? _), (th_window seg =? 0). }
  assert (E : process_conn (accept_queues t) (segment_key h seg) c seg data w =
              Some ((process_ack c seg, accept_queues t), w)).
  { unfold process_conn, process_close_wait. rewrite Hrst, Hs. cbn [andb].
    by erewrite bind_Some by (apply flush_send_nothing; congruence). }
  eexists. split; [by eapply handle_segment_conn|].
  apply cleanup_keeps; [apply lookup_insert_eq|]. congruence.
Qed.

Theorem close_wait_ignores_fin_witness :
  ∃ t', handle_segment (one_conn (set_send_pending [] (set_state CloseWait inflight_conn))) wire_ip
          (wire fin_flags 1000 5000) demo_world = Some (t', demo_world).
Proof.
  destruct (close_wait_ignores_fin (one_conn (set_send_pending [] (set_state CloseWait inflight_conn))) wire_ip
    (wire fin_flags 1000 5000) (wire_seg fin_flags 1000 5000) [] (set_send_pending [] (set_state CloseWait inflight_conn))
    demo_world) as (t' & E & _).
  - split; reflexivity.
  - reflexivity.
  - reflexivity.
  - reflexivity.
  - reflexivity.
  - reflexivity.
  - reflexivity.
  - exists t'. exact E.
Defined.

(** Bytes handed to [send] after our FIN is queued are counted as
    accepted although they can never go out: in every state but ESTABLISHED
    and CLOSE_WAIT they are only appended to the pending buffer. *)
Theorem send_after_close_accepted (t : TcpTable) (key : ConnectionKey) (c : TcpConnection) (data : bytes)
    (w : World) :
  t.(connections) !! key = Some c → can_send c.(state) = false →
  len c.(send_pending) + len data ≤ c.(send_pending_cap) →
  TcpTable.send t key data w =
    Some ((len data, put_conn key (set_send_pending (c.(send_pending) ++ data) c) t), w).
Proof.
  intros Hk Hs Hroom. unfold TcpTable.send. rewrite Hk.
  pose proof (len_nonneg data). rewrite Z.min_l by lia.
  unfold len at 2. rewrite Nat2Z.id, firstn_all.
  by erewrite bind_Some by (by apply flush_send_idle).
Qed.

Theorem send_after_close_accepted_witness :
  let c := set_state FinWait1 inflight_conn in
  TcpTable.send (one_conn c) (TcpInv.conn_key c) [1; 2] demo_world =
    Some ((2, put_conn (TcpInv.conn_key c) (set_send_pending (c.(send_pending) ++ [1; 2]) c) (one_conn c)), demo_world).
Proof.
  intros c. apply (send_after_close_accepted (one_conn c) (TcpInv.conn_key c) c [1; 2] demo_world);
    [reflexivity|reflexivity|by_decide].
Defined.

(** Closing a listening socket frees the handle but keeps the port
    listening: the TCP table does not change, and a SYN to the port still
    opens a connection that no socket can accept. *)
Theorem close_keeps_listening (s : Stack) (id : Z) (sock : Socket) (w : World) :
  s.(sockets) !! id = Some sock → sock.(kind) = Tcp → sock.(conn_key) = None →
  (s.(self_addr), sock.(listen_port)) ∈ s.(tcp).(listeners) →
  ∃ s', close s id w = Some (s', w) ∧ s'.(sockets) !! id = None ∧
    (s'.(self_addr), sock.(listen_port)) ∈ s'.(tcp).(listeners).
Proof.
  intros Hk Hkind Hc Hl. unfold close. rewrite Hk, Hkind, Hc.
  eexists. split; [reflexivity|]. split; [apply lookup_delete_eq|exact Hl].
Qed.

Theorem close_keeps_listening_witness :
  let s := (listen (mkStack 1 51000 new udp_new {[1 := socket_new Tcp]} 2) 1 80).2 in
  ∃ s', close s 1 demo_world = Some (s', demo_world) ∧ (1, 80) ∈ s'.(tcp).(listeners).
Proof.
  intros s. destruct (close_keeps_listening s 1 (set_listening 1 80 (socket_new Tcp)) demo_world)
    as (s' & E & _ & H).
  - reflexivity.
  - reflexivity.
  - reflexivity.
  - by_decide.
  - exists s'. split; [exact E|]. vm_compute in E. injection E as <-. by_decide.
Defined.

(** An unbound UDP socket that sends takes the next ephemeral port even
    when the binding fails because another socket has that port: the call
    reports success, both sockets now name the same binding, and closing one
    of them takes the other's binding away. *)
Theorem auto_bind_shares_binding (s : Stack) (w : World) (id : Z) (sock : Socket) (b : UdpBinding)
    (data : bytes) (dest : u32 * u16) :
  let key := (s.(self_addr), s.(next_udp_ephemeral_port)) in
  s.(sockets) !! id = Some sock → sock.(kind) = Udp → sock.(udp_key) = None →
  sock.(opts).(reuse_addr) = false → s.(udp).(binds) !! key = Some b →
  is_u32 s.(self_addr) → is_u32 dest.1 → bytes_ok data → len data ≤ 65507 →
  ∃ s' w', sendto s id data dest w = Some ((len data, s'), w') ∧ s'.(udp) = s.(udp) ∧
    s'.(sockets) !! id = Some (set_udp_key (Some key) sock) ∧
    ∃ s'', close s' id w' = Some (s'', w') ∧ s''.(udp).(binds) !! key = None.
Proof.
  intros key Hk Hkind Hu Hre Hb Ha Hd Hbytes Hl.
  assert (E : auto_bind s id (opts sock) =
    (key, update_socket id (set_udp_key (Some key))
            (set_udp s.(udp) (set_next_udp (wadd16 s.(next_udp_ephemeral_port) 1) s)))).
  { unfold auto_bind, udp_bind. cbn. fold key. rewrite bool_decide_eq_true_2 by (by rewrite Hb).
    by rewrite Hre. }
  set (s1 := update_socket _ _ _) in E.
  assert (Hs1 : s1.(sockets) = <[id := set_udp_key (Some key) sock]> s.(sockets) ∧ s1.(udp) = s.(udp))
    by (unfold s1, update_socket; cbn; by rewrite Hk).
  destruct Hs1 as [Hs1 Hu1].
  exists s1, (emit (udp_packet key.1 key.2 dest.1 dest.2 data) w). split_and!.
  - unfold sendto. rewrite Hk, Hkind, Hu, E. rewrite bool_decide_eq_true_2 by done. cbn [negb].
    by erewrite bind_Some by (by apply send_datagram_eq).
  - done.
  - rewrite Hs1. apply lookup_insert_eq.
  - unfold close. rewrite Hs1, lookup_insert_eq. cbn [kind set_udp_key udp_key]. rewrite Hkind.
    eexists. split; [reflexivity|]. cbn. apply lookup_delete_eq.
Qed.

Theorem auto_bind_shares_binding_witness :
  let s := mkStack 1 51000 new (mkUdpTable {[(1, 51000) := udp_binding_default]}) {[1 := socket_new Udp]} 2 in
  ∃ s' w', sendto s 1 [65] (2, 53) demo_world = Some ((1, s'), w').
Proof.
  intros s. destruct (auto_bind_shares_binding s demo_world 1 (socket_new Udp) udp_binding_default [65] (2, 53))
    as (s' & w' & E & _); [reflexivity|reflexivity|reflexivity|reflexivity|reflexivity|by_decide|by_decide|
      by_decide|by_decide|].
  exists s', w'. exact E.
Defined.
