(* ===== verification/StackWire.v ===== *)
(** * What the socket calls write

    The socket calls and the event loop on top of [Wire]: they return, leave
    a well-formed stack with at most one more socket, and everything they
    write is a well-formed packet. *)

From S2P Require Import Prelude Effects Ip Icmp Udp TcpSegment TcpConn TcpTable TcpInv TcpSend Wire Stack StackProps.

(** A stack as good as before; an operation that may make a socket. *)
Definition kept (s s' : Stack) : Prop := stack_ok s' ∧ s'.(next_socket_id) = s.(next_socket_id).

Definition grown (s s' : Stack) : Prop :=
  stack_ok s' ∧ s.(next_socket_id) ≤ s'.(next_socket_id) ≤ s.(next_socket_id) + 1.

Lemma kept_refl s : stack_ok s → kept s s.
Proof. by split. Qed.

Lemma kept_trans s s1 s2 : kept s s1 → kept s1 s2 → kept s s2.
Proof. intros [_ ?] [? ?]. split; [done|congruence]. Qed.

Lemma kept_grown s s' : kept s s' → grown s s'.
Proof. intros [? ?]. split; [done|lia]. Qed.

Lemma kept_tcp s t : stack_ok s → table_ok t → kept s (set_tcp t s).
Proof. intros. split; [by apply stack_ok_tcp|done]. Qed.

Lemma kept_udp s u : stack_ok s → kept s (set_udp u s).
Proof. intros. split; [by apply stack_ok_udp|done]. Qed.

Lemma kept_update s id f :
  stack_ok s → (∀ sock, s.(sockets) !! id = Some sock → socket_ok sock → socket_ok (f sock)) →
  kept s (update_socket id f s).
Proof. intros. split; [by apply stack_ok_update|apply update_socket_next]. Qed.

#[export] Hint Resolve kept_refl kept_tcp kept_udp kept_grown : minitcp.

(** ** The event loop *)

Lemma wire_handle_icmp h payload :
  ip_header_ok h → bytes_ok payload → len payload ≤ 65515 → sends wire_ok (handle_icmp h payload) (λ _, True).
Proof.
  intros Hh Hb Hl. destruct (decide (8 ≤ length payload)%nat) as [Hlen|Hlen].
  - destruct (decide (payload.[0] = ICMP_ECHO_REQUEST)) as [E|E].
    + eapply wp_emit; [intros w; apply handle_icmp_request; auto; lia|]. split; [exact I|].
      by apply Forall_singleton, wire_icmp.
    + unfold handle_icmp, ICMP_HEADER_LEN. rewrite decide_False by lia. rewrite (proj2 (Z.eqb_neq _ _) E). by apply sends_ret.
  - unfold handle_icmp, ICMP_HEADER_LEN. rewrite decide_True by lia. by apply sends_ret.
Qed.

Lemma wire_send_datagram s sp d dp data :
  is_u32 s → is_u32 d → bytes_ok data → len data ≤ 65507 → sends wire_ok (send_datagram s sp d dp data) (λ _, True).
Proof.
  intros. eapply wp_emit; [intros w; by apply send_datagram_eq|]. split; [exact I|]. by apply Forall_singleton, wire_udp.
Qed.

Lemma wire_handle_datagram t h payload :
  ip_header_ok h → bytes_ok payload → len payload ≤ 65515 → sends wire_ok (handle_datagram t h payload) (λ _, True).
Proof.
  intros (_ & _ & _ & _ & _ & _ & _ & _ & _ & Hs & Hd) Hb Hl. unfold handle_datagram, UDP_HEADER_LEN.
  case_decide; [by apply sends_ret|]. cbv zeta. destruct (udp_is_bound _ _); [by apply sends_ret|].
  eapply sends_bind; [|intros; by apply sends_ret]. apply wire_send_datagram; auto with minitcp.
  unfold len in *. rewrite length_drop. lia.
Qed.

Lemma wire_dispatch s buf :
  stack_ok s → bytes_ok buf → len buf ≤ 2048 → sends wire_ok (dispatch_ip_packet s buf) (kept s).
Proof.
  intros Hs Hb Hl. unfold dispatch_ip_packet.
  destruct (parse_ip_header buf) as [h|] eqn:Ep; [|auto with minitcp].
  destruct (parse_ip_header_ok buf h Hb Ep) as (Hh & _ & _).
  eapply sends_bind; [eapply (sends_lift _ _ _ (λ _, True)); [by apply verify_ip_checksum_total|done]|]. intros ok _.
  destruct (negb ok); [auto with minitcp|]. case_decide as Hd; [auto with minitcp|].
  set (payload := drop _ buf). assert (Hpb : bytes_ok payload) by (unfold payload; auto with minitcp).
  assert (Hpl : len payload ≤ 65515) by (unfold payload, len in *; rewrite length_drop; lia).
  destruct (_ =? 1); [|destruct (_ =? 17); [|destruct (_ =? 6); [|auto with minitcp]]].
  - eapply sends_bind; [by apply wire_handle_icmp|]. auto with minitcp.
  - eapply sends_bind; [by apply wire_handle_datagram|]. auto with minitcp.
  - pose proof Hh as (_ & _ & _ & _ & _ & _ & _ & _ & _ & ? & ?).
    eapply sends_bind; [apply wire_handle_segment; auto; [apply Hs|lia]|]. auto with minitcp.
Qed.

Lemma wire_poll_read :
  sends wire_ok tun_poll_read (λ r, ∀ buf, r = Some buf → bytes_ok buf ∧ len buf ≤ 2048).
Proof.
  intros w. eexists _, _, []. rewrite app_nil_r. split; [reflexivity|]. split; [done|].
  split; [split; cbn; auto|]. split; [|done]. intros buf (p & _ & ->)%fmap_Some. split.
  - apply Forall_fmap, Forall_true. intros z. apply (uN_mod 8). lia.
  - unfold len. rewrite length_fmap, length_take. lia.
Qed.

Lemma wire_pump s : stack_ok s → sends wire_ok (pump_once s) (kept s).
Proof.
  intros Hs. eapply sends_bind; [apply wire_poll_read|]. intros r Hr.
  eapply (sends_bind _ _ _ (kept s)).
  { destruct r as [buf|]; [|auto with minitcp]. destruct (Hr buf eq_refl).
    case_bool_decide; [auto with minitcp|]. by apply wire_dispatch. }
  intros s1 Hk. eapply sends_bind; [apply wire_tick, Hk|]. intros t Ht. apply sends_ret.
  eapply kept_trans; [exact Hk|]. apply kept_tcp; [apply Hk|done].
Qed.

(** ** The blocking loops *)

(** One round of waiting. *)
Lemma wire_wait {A} (k : Stack → M (option A * Stack)) (late : A) (Φ : option A * Stack → Prop) s timeo start :
  stack_ok s → Φ (Some late, s) → (∀ s1, kept s s1 → sends wire_ok (k s1) Φ) →
  sends wire_ok (l ← deadline_elapsed timeo start;
                 if l : bool then mret (Some late, s) else s ← pump_once s; k s) Φ.
Proof.
  intros Hs Hr Hk. apply (sends_bind _ _ _ (λ _, True)).
  { unfold deadline_elapsed. destruct timeo; [|by apply sends_ret].
    apply (sends_bind _ _ _ (λ _, True)); [by apply sends_now|]. intros; by apply sends_ret. }
  intros [] _; [by apply sends_ret|]. eapply sends_bind; [by apply wire_pump|]. exact Hk.
Qed.

(** What [recv] gives the caller. *)
Definition received (s : Stack) (r : option (Z * bytes) * Stack) : Prop :=
  kept s r.2 ∧ ∀ n got, r.1 = Some (n, got) → bytes_ok got.

Lemma wire_recv_loop fuel s key room timeo start :
  stack_ok s → sends wire_ok (recv_loop fuel s key room timeo start) (received s).
Proof.
  assert (Hnil : ∀ s s' n, kept s s' → received s (Some (n, []), s')) by (intros; split; [done|intros ? ? [= _ <-]; constructor]).
  revert s. induction fuel as [|fuel IH]; intros s Hs; cbn [recv_loop]; [apply sends_ret; by split; [apply kept_refl|]|].
  pose proof (recv_ok s.(tcp) key room (so_tcp s Hs)) as Ht. pose proof (recv_bytes s.(tcp) key room (so_tcp s Hs)) as Hg.
  destruct (TcpTable.recv s.(tcp) key room) as [got t]. cbn in Ht, Hg. pose proof (kept_tcp s t Hs Ht) as Hk.
  destruct (0 <? len got); [apply sends_ret; split; [done|by intros ? ? [= _ <-]]|].
  destruct (tcp_remote_closed_no_more_data _ _); [by apply sends_ret, Hnil|].
  apply wire_wait; [apply Hk|by apply Hnil|]. intros s1 Hk1.
  eapply sends_mono; [apply IH, Hk1|done|]. intros r [Hr Hb]. split; [|done].
  exact (kept_trans _ _ _ Hk (kept_trans _ _ _ Hk1 Hr)).
Qed.

Lemma wire_recvfrom_loop fuel s key room timeo start :
  stack_ok s → sends wire_ok (recvfrom_loop fuel s key room timeo start) (λ r, kept s r.2).
Proof.
  revert s. induction fuel as [|fuel IH]; intros s Hs; cbn [recvfrom_loop]; [auto with minitcp|].
  destruct (match key with Some k => udp_recv (udp s) k | None => (None, udp s) end) as [[dg|] u];
    pose proof (kept_udp s u Hs) as Hk; [by apply sends_ret|].
  apply wire_wait; [apply Hk|done|]. intros s1 Hk1.
  eapply sends_mono; [apply IH, Hk1|done|]. intros r Hr. exact (kept_trans _ _ _ Hk (kept_trans _ _ _ Hk1 Hr)).
Qed.

Lemma wire_alloc_socket s k :
  stack_ok s → s.(next_socket_id) + 1 < 2 ^ 64 → sends wire_ok (alloc_socket s k) (λ r, grown s r.2).
Proof.
  intros Hs Hn. intros w. destruct (alloc_socket_ok s k w Hs Hn) as (s' & E & Hs' & _).
  eexists _, w, []. rewrite app_nil_r. split; [exact E|]. split_and!; try done.
  split; [exact Hs'|]. revert E. unfold alloc_socket, checked_add64. rewrite decide_True by done. intros [= <-]. cbn. lia.
Qed.

Lemma wire_accept_loop fuel s la lp o start :
  stack_ok s → s.(next_socket_id) + 1 < 2 ^ 64 →
  sends wire_ok (accept_loop fuel s la lp o start) (λ r, grown s r.2).
Proof.
  revert s. induction fuel as [|fuel IH]; intros s Hs Hn; cbn [accept_loop]; [auto with minitcp|].
  pose proof (accept_ok s.(tcp) la lp (so_tcp s Hs)) as Ht.
  destruct (TcpTable.accept s.(tcp) la lp) as [r0 t]. cbn in Ht. pose proof (kept_tcp s t Hs Ht) as Hk.
  destruct r0 as [key|].
  - eapply sends_bind; [apply wire_alloc_socket; [|exact Hn]; apply stack_ok_tcp; [apply Hk|by apply apply_caps_ok]|].
    intros [id s1] [Hs1 Hid]. apply sends_ret. cbn in Hid |- *. split; [by apply stack_ok_update|].
    by rewrite update_socket_next.
  - apply wire_wait; [apply Hk|by apply kept_grown|]. intros s1 [Hs1 Hid1]. cbn in Hid1.
    eapply sends_mono; [apply IH; [done|by rewrite Hid1]|done|]. intros r [? Hr]. split; [done|]. by rewrite <- Hid1.
Qed.

Lemma wire_connect_loop n s key : stack_ok s → sends wire_ok (connect_loop n s key) (λ r, kept s r.2).
Proof.
  revert s. induction n as [|n IH]; intros s Hs; cbn [connect_loop]; [auto with minitcp|].
  destruct (is_established _ _); [auto with minitcp|]. destruct (is_closed _ _); [auto with minitcp|].
  eapply sends_bind; [by apply wire_pump|]. intros s1 Hk.
  eapply sends_mono; [apply IH, Hk|done|]. intros r. by apply kept_trans.
Qed.

Lemma wire_linger n s key : stack_ok s → sends wire_ok (linger n s key) (kept s).
Proof.
  revert s. induction n as [|n IH]; intros s Hs; cbn [linger]; [auto with minitcp|].
  destruct (is_closed _ _); [auto with minitcp|].
  eapply sends_bind; [by apply wire_pump|]. intros s1 Hk.
  eapply sends_mono; [apply IH, Hk|done|]. intros s'. by apply kept_trans.
Qed.

(** ** The calls *)

Lemma wire_call_accept fuel s id :
  stack_ok s → s.(next_socket_id) + 1 < 2 ^ 64 → sends wire_ok (accept fuel s id) (λ r, grown s r.2).
Proof.
  intros Hs Hn. unfold accept. destruct (sockets s !! id) as [l|]; [|auto with minitcp].
  destruct (negb _); [auto with minitcp|]. apply (sends_bind _ _ _ (λ _, True)); [by apply sends_now|].
  intros start _. by apply wire_accept_loop.
Qed.

Lemma wire_call_recv fuel s id room : stack_ok s → sends wire_ok (recv fuel s id room) (received s).
Proof.
  assert (Hnil : stack_ok s → received s (Some (-1, []), s)) by (intros; split; [by apply kept_refl|intros ? ? [= _ <-]; constructor]).
  intros Hs. unfold recv. destruct (sockets s !! id) as [sock|]; [|by apply sends_ret, Hnil].
  destruct (conn_key sock); [|by apply sends_ret, Hnil]. apply (sends_bind _ _ _ (λ _, True)); [by apply sends_now|].
  intros start _. by apply wire_recv_loop.
Qed.

Lemma wire_call_recvfrom fuel s id room : stack_ok s → sends wire_ok (recvfrom fuel s id room) (λ r, kept s r.2).
Proof.
  intros Hs. unfold recvfrom. destruct (sockets s !! id) as [sock|]; [|auto with minitcp].
  destruct (negb _); [auto with minitcp|]. apply (sends_bind _ _ _ (λ _, True)); [by apply sends_now|].
  intros start _. by apply wire_recvfrom_loop.
Qed.

Lemma wire_call_connect s id addr port :
  stack_ok s → is_u32 addr → is_u16 port → sends wire_ok (connect s id addr port) (λ r, kept s r.2).
Proof.
  intros Hs Ha Hp. unfold connect. destruct (sockets s !! id) as [sock|]; [|auto with minitcp].
  eapply sends_bind; [by apply wire_connect; [apply Hs|apply Hs| |]|]. intros [key t] Ht. cbn in Ht.
  set (s1 := update_socket id (set_conn_key (Some key)) (set_tcp t s)).
  assert (Hk1 : kept s s1) by (eapply kept_trans; [by apply kept_tcp|]; apply kept_update; [by apply stack_ok_tcp|done]).
  set (s2 := set_tcp (apply_caps key (opts sock) s1.(tcp)) s1).
  assert (Hk2 : kept s1 s2) by (apply kept_tcp; [apply Hk1|apply apply_caps_ok, Hk1]).
  eapply sends_mono; [apply wire_connect_loop, Hk2|done|]. intros r Hr. exact (kept_trans _ _ _ Hk1 (kept_trans _ _ _ Hk2 Hr)).
Qed.

Lemma wire_call_send s id data : stack_ok s → bytes_ok data → sends wire_ok (send s id data) (λ r, kept s r.2).
Proof.
  intros Hs Hb. unfold send. destruct (sockets s !! id ≫= conn_key) as [key|]; [|auto with minitcp].
  eapply sends_bind; [by apply wire_send; [apply Hs|]|]. intros [n t] Ht. apply sends_ret. by apply kept_tcp.
Qed.

Lemma wire_call_close s id : stack_ok s → sends wire_ok (close s id) (kept s).
Proof.
  intros Hs. unfold close. destruct (sockets s !! id) as [sock|]; [|auto with minitcp].
  set (s1 := set_sockets _ s).
  assert (Hk : kept s s1) by (destruct Hs; split; [split; cbn; auto; by apply map_Forall_delete|done]).
  destruct (kind sock).
  - destruct (conn_key sock) as [key|]; [|by apply sends_ret].
    eapply sends_bind; [apply wire_close, Hk|]. intros t Ht.
    eapply sends_mono; [apply wire_linger, kept_tcp; [apply Hk|exact Ht]|done|].
    intros s' Hs'. eapply kept_trans; [exact Hk|]. eapply kept_trans; [|exact Hs']. apply kept_tcp; [apply Hk|done].
  - apply sends_ret. destruct (udp_key sock); [|done]. eapply kept_trans; [exact Hk|]. apply kept_udp, Hk.
Qed.

Lemma wire_call_sendto s id data dest :
  stack_ok s → bytes_ok data → is_u32 dest.1 → oversized (CallSendto id data dest) s = false →
  sends wire_ok (sendto s id data dest) (λ r, grown s r.2).
Proof.
  intros Hs Hb Hd Ho. pose proof (oversized_sendto _ _ _ _ Ho) as Hl. unfold sendto. destruct (sockets s !! id) as [sock|] eqn:E; [|auto with minitcp].
  case_bool_decide as Hu; cbn [negb]; [|auto with minitcp]. specialize (Hl (f_equal Some Hu)).
  assert (Hk : let '(key, s') := (match udp_key sock with Some k => (k, s) | None => auto_bind s id (opts sock) end) in
            kept s s' ∧ is_u32 key.1).
  { destruct (udp_key sock) as [k|] eqn:Ek.
    - split; [by apply kept_refl|]. destruct (map_Forall_lookup_1 _ _ _ _ (so_socks s Hs) E) as [_ H].
      unfold socket_ok in H. by rewrite Ek in H.
    - pose proof (auto_bind_ok s id (opts sock) Hs) as H. unfold auto_bind in *.
      destruct (udp_bind _ _ _ _ _) as [b u]. destruct H as [H1 H2]. split; [|exact H2]. split; [exact H1|].
      by rewrite update_socket_next. }
  destruct (match udp_key sock with Some k => (k, s) | None => auto_bind s id (opts sock) end) as [key s1].
  destruct Hk as [Hk1 Hk]. eapply sends_bind; [by apply wire_send_datagram|]. intros _ _. apply sends_ret. by apply kept_grown.
Qed.

Lemma kept_listen s id port : stack_ok s → kept s (listen s id port).2.
Proof.
  intros Hs. split; [by apply listen_call_ok|]. unfold listen. destruct (sockets s !! id); [|done].
  destruct (TcpTable.listen _ _ _ _). cbn. apply update_socket_next.
Qed.

Lemma kept_bind s id addr : stack_ok s → is_u32 addr.1 → kept s (bind s id addr).2.
Proof.
  intros Hs Ha. split; [by apply bind_call_ok|]. unfold bind. destruct (sockets s !! id); [|done].
  destruct (negb _); [done|]. destruct (udp_bind _ _ _ _ _) as [[] u]; [|done]. cbn [snd]. by rewrite update_socket_next.
Qed.

Lemma kept_setsockopt s id opt : stack_ok s → kept s (setsockopt s id opt).2.
Proof.
  intros Hs. split; [by apply setsockopt_ok|]. unfold setsockopt. destruct (sockets s !! id) as [sock|]; [|done].
  destruct opt; cbn [snd]; try apply update_socket_next; destruct (_ =? 0); cbn [snd]; try done;
    repeat case_match; apply update_socket_next.
Qed.

(** A call, without its result. *)
Lemma wire_snd {A} (m : M (A * Stack)) (Φ : Stack → Prop) :
  sends wire_ok m (λ r, Φ r.2) → sends wire_ok (r ← m; mret r.2) Φ.
Proof. intros H. eapply sends_bind; [exact H|]. intros r Hr. by apply sends_ret. Qed.

Lemma wire_run_call op s :
  stack_ok s → s.(next_socket_id) + 1 < 2 ^ 64 → call_ok op → oversized op s = false →
  sends wire_ok (run_call op s) (grown s).
Proof.
  assert (Hkept : ∀ m : M Stack, sends wire_ok m (kept s) → sends wire_ok m (grown s))
    by (intros m H; eapply sends_mono; [exact H|done|apply kept_grown]).
  intros Hs Hn Hop Hover. destruct op; cbn [run_call call_ok] in *.
  - by apply wire_snd, wire_alloc_socket.
  - by apply wire_snd, wire_alloc_socket.
  - by apply sends_ret, kept_grown, kept_listen.
  - by apply wire_snd, wire_call_accept.
  - destruct Hop. by apply Hkept, wire_snd, wire_call_connect.
  - by apply Hkept, wire_snd, wire_call_send.
  - apply Hkept, wire_snd. eapply sends_mono; [by apply wire_call_recv|done|by intros r [? _]].
  - by apply Hkept, wire_call_close.
  - by apply sends_ret, kept_grown, kept_bind.
  - destruct Hop as (? & ?). by apply wire_snd, wire_call_sendto.
  - by apply Hkept, wire_snd, wire_call_recvfrom.
  - by apply sends_ret, kept_grown, kept_setsockopt.
  - by apply Hkept, wire_pump.
Qed.

(** C9: the type of the wire.  Whatever socket calls the application makes
    and whatever packets the device delivers, every call returns (a [sendto]
    of more than 65507 bytes apart, which panics before it writes) and each
    buffer it hands to the device is an IPv4 packet with a valid header
    checksum, no options, the length of the buffer in its length field, and
    an ICMP, UDP or TCP message whose own checksum is valid. *)
Theorem stack_writes_wellformed (s : Stack) (w : World) (op : stack_op) :
  stack_reachable s w → s.(next_socket_id) + 1 < 2 ^ 64 → call_ok op → oversized op s = false →
  ∃ s' w' ps, run_call op s w = Some (s', w') ∧ w'.(w_sent) = w.(w_sent) ++ ps ∧ Forall wire_ok ps.
Proof.
  intros Hr Hn Hop Ho. destruct (wire_run_call op s (stack_reachable_ok s w Hr) Hn Hop Ho w)
    as (s' & w' & ps & E & Hs & _ & _ & Hps).
  by exists s', w', ps.
Qed.

(** A connection attempt: the SYN, and its retransmissions. *)
Theorem stack_writes_wellformed_witness :
  ∃ s w s' w' ps, stack_reachable s w ∧
    run_call (CallConnect 1 0x0A0A0002 80) s w = Some (s', w') ∧ w'.(w_sent) = w.(w_sent) ++ ps ∧ Forall wire_ok ps.
Proof.
  pose (s0 := stack_new 0x0A0A0001).
  assert (H0 : stack_reachable s0 demo_world) by (apply stack_start; by_decide).
  destruct (run_call CallSocket s0 demo_world) as [[s w]|] eqn:E; [|discriminate E].
  assert (Hr : stack_reachable s w) by (apply (stack_call s0 demo_world CallSocket); [exact H0|by_decide|exact I|exact E]).
  destruct (stack_writes_wellformed s w (CallConnect 1 0x0A0A0002 80)) as (s' & w' & ps & E' & Hw & Hps).
  - exact Hr.
  - injection E as <- <-. by_decide.
  - split; by_decide.
  - reflexivity.
  - exists s, w, s', w', ps. exact (conj Hr (conj E' (conj Hw Hps))).
Defined.
