(* ===== verification/Tun.v ===== *)
(** * Opening the TUN device ([src/src/tun.rs])

    [tun_alloc] and the constructor [Stack::init].  The system calls are
    parameters: [open] and [ioctl] are arbitrary functions of what the code
    passes them, and the descriptors given to [close] are part of the result.
    Reading and writing the descriptor are the packet streams of the world
    ([tun_poll_read], [tun_write]). *)

From S2P Require Import Prelude Std TcpTable Stack.

Definition IFF_TUN : Z := 0x0001.
Definition IFF_NO_PI : Z := 0x1000.
Definition TUNSETIFF : Z := 0x400454ca.

(** Of the C library. *)
Definition IFNAMSIZ : nat := 16.
Definition O_RDWR : Z := 2.

(** [c_char] is signed. *)
Definition as_c_char (b : u8) : Z := if b <? 128 then b else b - 256.

Record Ifreq := mkIfreq {
  ifr_name : list Z;
  ifr_flags : Z;
  ifr_pad : bytes;
}.

(** [for (i, &b) in bytes.iter().enumerate() { ifr.ifr_name[i] = b }], from [i] on. *)
Fixpoint fill_name (i : nat) (bs : bytes) (name : list Z) : option (list Z) :=
  match bs with
  | [] => Some name
  | b :: bs => name ← set_byte i (as_c_char b) name; fill_name (S i) bs name
  end.

(** The request, from the zeroed structure. *)
Definition tun_request (dev_name : bytes) : option Ifreq :=
  name ← (if bool_decide (dev_name = []) then Some (vec_zero IFNAMSIZ)
          else let n := Nat.min (length dev_name) (IFNAMSIZ - 1) in
               fill_name 0 (take n dev_name) (vec_zero IFNAMSIZ));
  Some (mkIfreq name (Z.lor IFF_TUN IFF_NO_PI) (vec_zero 22)).

(** [take_while(|&&c| c != 0)]. *)
Fixpoint take_while_nonzero (l : list Z) : list Z :=
  match l with
  | [] => []
  | c :: l => if c =? 0 then [] else c :: take_while_nonzero l
  end.

(** The name as read back. *)
Definition name_of (ifr : Ifreq) : bytes := from_utf8_lossy (as_u8 <$> take_while_nonzero ifr.(ifr_name)).

Section Tun.
Context (os_open : bytes → Z → Z) (os_ioctl : Z → Z → Ifreq → Z * Ifreq).

(** The result, the name afterwards, and the descriptors closed. *)
Definition tun_alloc (dev_name : bytes) : option (Z * bytes * list Z) :=
  let fd := os_open (str "/dev/net/tun") O_RDWR in
  if fd <? 0 then Some (-1, dev_name, [])
  else
    ifr ← tun_request dev_name;
    let '(res, ifr) := os_ioctl fd TUNSETIFF ifr in
    if res <? 0 then Some (-1, dev_name, [fd]) else Some (fd, name_of ifr, []).

(** [Stack::init]. *)
Definition init (tun_dev_name : bytes) (addr : u32) : option (option Stack) :=
  '(fd, _, _) ← tun_alloc tun_dev_name;
  Some (if fd <? 0 then None else Some (stack_new addr)).

End Tun.

(** ** The request *)

Lemma fill_name_app pre bs rest :
  (length bs ≤ length rest)%nat →
  fill_name (length pre) bs (pre ++ rest) = Some (pre ++ (as_c_char <$> bs) ++ drop (length bs) rest).
Proof.
  revert pre rest. induction bs as [|b bs IH]; intros pre [|x rest] Hl; cbn in Hl; try lia; cbn [fill_name]; try done.
  rewrite set_byte_app. cbn [mbind option_bind].
  specialize (IH (pre ++ [as_c_char b]) rest ltac:(lia)). rewrite length_app in IH. cbn in IH.
  rewrite Nat.add_1_r, <- !app_assoc in IH. exact IH.
Qed.

(** The name, cut to 15 bytes, and zeros up to 16. *)
Lemma tun_request_eq dev_name :
  let n := Nat.min (length dev_name) 15 in
  tun_request dev_name =
    Some (mkIfreq ((as_c_char <$> take n dev_name) ++ vec_zero (16 - n)) 0x1001 (vec_zero 22)).
Proof.
  cbv zeta. unfold tun_request. case_bool_decide as Hd; [by subst|].
  change (IFNAMSIZ - 1)%nat with 15%nat. set (n := Nat.min (length dev_name) 15).
  pose proof (fill_name_app [] (take n dev_name) (vec_zero IFNAMSIZ)) as Hf. cbn [length app] in Hf. rewrite Hf.
  - cbn [mbind option_bind]. do 3 f_equal. unfold vec_zero. rewrite drop_replicate. f_equal.
    rewrite length_take. change IFNAMSIZ with 16%nat. lia.
  - rewrite length_take, length_vec_zero. change IFNAMSIZ with 16%nat. lia.
Qed.

Lemma as_u8_c_char b : is_u8 b → as_u8 (as_c_char b) = b.
Proof. intros Hb. unfold as_u8, as_c_char. destruct (Z.ltb_spec b 128); zdm. Qed.

Lemma take_while_zeros l n :
  Forall (λ b, is_u8 b ∧ b ≠ 0) l → as_u8 <$> take_while_nonzero ((as_c_char <$> l) ++ vec_zero n) = l.
Proof.
  induction l as [|b l IH]; intros Hl; [by destruct n|]. apply Forall_cons_iff in Hl as [[Hb H0] Hl]. cbn.
  destruct (Z.eqb_spec (as_c_char b) 0) as [E|]; [|cbn; by rewrite as_u8_c_char, IH].
  unfold as_c_char in E. destruct (Z.ltb_spec b 128); unfold uN in Hb; lia.
Qed.
(** [Stack::init] either fails or starts with a fresh stack. *)
Lemma init_total os_open os_ioctl tun addr :
  init os_open os_ioctl tun addr = Some None ∨ init os_open os_ioctl tun addr = Some (Some (stack_new addr)).
Proof.
  unfold init, tun_alloc. destruct (_ <? 0) eqn:E; [by left|]. rewrite tun_request_eq. cbn [mbind option_bind].
  destruct (os_ioctl _ _ _) as [res ifr]. destruct (res <? 0); [by left|]. cbn [mbind option_bind]. rewrite E. by right.
Qed.

(** C38: the request for any device name, however long, is built without an
    out-of-range write and has the layout of [struct ifreq]: 16 + 2 + 22
    bytes, the name in its first 15 bytes and a terminating zero always
    there, so that the kernel never reads past it. *)
Theorem tun_request_wellformed (dev_name : bytes) :
  ∃ ifr, tun_request dev_name = Some ifr ∧ length ifr.(ifr_name) = 16%nat ∧ length ifr.(ifr_pad) = 22%nat ∧
    ifr.(ifr_flags) = 0x1001 ∧ ifr.(ifr_name) !! 15%nat = Some 0 ∧
    (Forall (λ b, is_u8 b ∧ b ≠ 0) dev_name →
     as_u8 <$> take_while_nonzero ifr.(ifr_name) = take 15 dev_name).
Proof.
  pose proof (tun_request_eq dev_name) as E. cbv zeta in E. set (n := Nat.min (length dev_name) 15) in *.
  assert (Hl : length (as_c_char <$> take n dev_name) = n) by (rewrite length_fmap, length_take; lia).
  eexists. split; [exact E|]. cbn [ifr_name ifr_pad ifr_flags]. split_and!; [|apply length_vec_zero|done| |].
  - rewrite length_app, Hl, length_vec_zero. lia.
  - rewrite lookup_app_r by lia. apply lookup_replicate. split; [done|]. lia.
  - intros Hb. rewrite take_while_zeros; [|by apply Forall_take]. unfold n.
    destruct (Nat.min_spec (length dev_name) 15) as [[? ->]|[? ->]]; [|done]. by rewrite !firstn_all2 by lia.
Qed.

Theorem tun_request_wellformed_witness :
  ∃ ifr, tun_request (str "a-very-long-interface-name") = Some ifr ∧
    as_u8 <$> take_while_nonzero ifr.(ifr_name) = str "a-very-long-int".
Proof.
  destruct (tun_request_wellformed (str "a-very-long-interface-name")) as (ifr & E & _ & _ & _ & _ & H).
  exists ifr. split; [exact E|]. apply H. by_decide.
Defined.

(** C39: [tun_alloc] never panics and leaks no descriptor: a negative result
    is -1, leaves the name alone and has closed the descriptor if one was
    opened; any other result is the open descriptor.  A kernel that keeps the
    requested name gives back a plain ASCII name of up to 15 characters
    unchanged. *)
Theorem tun_alloc_no_leak (os_open : bytes → Z → Z) (os_ioctl : Z → Z → Ifreq → Z * Ifreq) (dev_name : bytes) :
  let opened := os_open (str "/dev/net/tun") O_RDWR in
  ∃ fd name closed, tun_alloc os_open os_ioctl dev_name = Some (fd, name, closed) ∧
    (fd < 0 → fd = -1 ∧ name = dev_name ∧ closed = if opened <? 0 then [] else [opened]) ∧
    (0 ≤ fd → fd = opened ∧ closed = [] ∧
       ((∀ req ifr, (os_ioctl opened req ifr).2.(ifr_name) = ifr.(ifr_name)) →
        Forall (λ b, 0 < b < 128) dev_name → (length dev_name ≤ 15)%nat → name = dev_name)).
Proof.
  cbv zeta. unfold tun_alloc. set (opened := os_open _ _). destruct (Z.ltb_spec opened 0).
  { exists (-1), dev_name, []. split; [done|]. split; [done|lia]. }
  rewrite tun_request_eq. cbn [mbind option_bind]. set (n := Nat.min (length dev_name) 15).
  set (req := mkIfreq _ _ _). destruct (os_ioctl opened TUNSETIFF req) as [res ifr] eqn:Ei.
  destruct (Z.ltb_spec res 0).
  { exists (-1), dev_name, [opened]. split; [done|]. split; [done|lia]. }
  exists opened, (name_of ifr), []. split; [done|]. split; [lia|]. intros _. split; [done|]. split; [done|].
  intros Hk Ha Hl. unfold name_of. specialize (Hk TUNSETIFF req). rewrite Ei in Hk. cbn [snd] in Hk. rewrite Hk.
  unfold req. cbn [ifr_name]. unfold n. rewrite (Nat.min_l _ _ Hl), firstn_all.
  rewrite take_while_zeros; [|eapply Forall_impl; [|exact Ha]; cbn; unfold uN; lia].
  apply lossy_ascii; [|done]. eapply Forall_impl; [|exact Ha]. cbn. lia.
Qed.

Theorem tun_alloc_no_leak_witness :
  ∃ closed, tun_alloc (λ _ _, 3) (λ _ _ ifr, (0, ifr)) (str "tun0") = Some (3, str "tun0", closed).
Proof.
  destruct (tun_alloc_no_leak (λ _ _, 3) (λ _ _ ifr, (0, ifr)) (str "tun0")) as (fd & name & closed & E & _ & H).
  exists closed. pose proof E as E'. vm_compute in E'. assert (Hfd : fd = 3) by congruence. subst fd.
  destruct H as (_ & _ & H); [lia|]. rewrite E. by rewrite H by (done || by_decide).
Defined.
