(* ===== verification/Demo.v ===== *)
(** * The programs of [src/src/bin]

    The echo server of the benchmarks, the chat server and client, and the
    bare protocol loop, as clients of the socket layer.  A program is a
    computation over a [Process], the stack it owns and its standard streams;
    it may not return within the fuel given to its loops.  Whether a write to
    a standard stream succeeds is an input, since [println!] and [eprintln!]
    panic when it does not.  The trace flag, which makes the stack itself
    print, has no effect here. *)

From S2P Require Import Prelude Std TcpSegment TcpConn TcpTable Stack Tun.

(** ** The standard streams *)

(** What was handed to standard output and standard error; for each write,
    whether it succeeds; and the number of writes so far. *)
Record Console := mkConsole {
  stdout : bytes;
  stderr : bytes;
  write_ok : nat → bool;
  writes : nat;
}.

Definition put_out (b : bytes) (c : Console) : Console :=
  mkConsole (c.(stdout) ++ b) c.(stderr) c.(write_ok) (S c.(writes)).

Definition put_err (b : bytes) (c : Console) : Console :=
  mkConsole c.(stdout) (c.(stderr) ++ b) c.(write_ok) (S c.(writes)).

(** The next write succeeds, or the program panics. *)
Definition must_write (c : Console) : M unit :=
  lift (if c.(write_ok) c.(writes) then Some tt else None).

(** [println!] and [eprintln!]. *)
Definition println (b : bytes) (c : Console) : M Console := _ ← must_write c; mret (put_out (b ++ [10]) c).

Definition eprintln (b : bytes) (c : Console) : M Console := _ ← must_write c; mret (put_err (b ++ [10]) c).

(** [io::stdout().write_all(b).ok()] and the [flush] after it: an error is
    ignored. *)
Definition write_all_ok (b : bytes) (c : Console) : M Console := mret (put_out b c).

(** ** Programs *)

Record Process := mkProcess {
  stack : Stack;
  console : Console;
}.

(** The inner [option] is [None] when the fuel did not suffice. *)
Definition Prog (A : Type) : Type := Process → M (option A * Process).

Global Instance Prog_ret : MRet Prog := λ A a p, mret (Some a, p).

Global Instance Prog_bind : MBind Prog := λ A B f m p,
  '(r, p) ← m p;
  match r with Some a => f a p | None => mret (None, p) end.

Definition unfinished {A} : Prog A := λ p, mret (None, p).

(** A socket call, one that may block, and one without effects on the world. *)
Definition call {A} (f : Stack → M (A * Stack)) : Prog A := λ p,
  '(a, s) ← f p.(stack); mret (Some a, mkProcess s p.(console)).

Definition call_blocking {A} (f : Stack → M (option A * Stack)) : Prog A := λ p,
  '(a, s) ← f p.(stack); mret (a, mkProcess s p.(console)).

Definition call_pure {A} (f : Stack → A * Stack) : Prog A := call (λ s, mret (f s)).

Definition do_close (id : SocketId) : Prog unit := call (λ s, s ← close s id; mret (tt, s)).

(** Printing. *)
Definition printing (f : Console → M Console) : Prog unit := λ p,
  c ← f p.(console); mret (Some tt, mkProcess p.(stack) c).

(** How a program ends. *)
Inductive Outcome :=
  | Exited (code : Z) (c : Console)
  | Unfinished (p : Process).

Definition run (m : Prog Z) (p : Process) : M Outcome :=
  '(r, p) ← m p;
  mret (match r with Some code => Exited code p.(console) | None => Unfinished p end).

(** [eprintln!] and [std::process::exit]. *)
Definition die (code : Z) (msg : bytes) (c : Console) : M Outcome :=
  c ← eprintln msg c; mret (Exited code c).

(** [std::env::args()]: an argument that is not Unicode is a panic. *)
Definition env_args (args : list bytes) : M (list bytes) :=
  lift (if forallb valid_utf8 args then Some args else None).

(** [parse_addr], with the exit status of the program, and what follows it. *)
Definition parse_addr (code : Z) (s : bytes) (c : Console) (k : u32 → M Outcome) : M Outcome :=
  match parse_ipv4 s with
  | Some addr => k addr
  | None => die code (str "invalid address: " ++ s) c
  end.

(** [args[i].parse().unwrap_or(d)]. *)
Definition parse_or (w d : Z) (s : bytes) : Z := default d (parse_uint w s).

(** ** [bench_echo_server] *)

Record BenchOptions := mkBenchOptions {
  bo_port : u16;
  bo_tun : bytes;
  bo_addr : bytes;
  bo_connections : usize;
}.

Definition bench_defaults : BenchOptions := mkBenchOptions 8080 (str "tun0") (str "10.0.0.2") 1.

(** The argument loop, from the first argument on. *)
Fixpoint bench_args (args : list bytes) (o : BenchOptions) : BenchOptions :=
  match args with
  | [] | [_] => o
  | a :: (v :: rest) as args' =>
      let '(mkBenchOptions port tun addr connections) := o in
      if decide (a = str "--port") then bench_args rest (mkBenchOptions (parse_or 16 port v) tun addr connections)
      else if decide (a = str "--tun") then bench_args rest (mkBenchOptions port v addr connections)
      else if decide (a = str "--addr") then bench_args rest (mkBenchOptions port tun v connections)
      else if decide (a = str "--connections") then
        bench_args rest (mkBenchOptions port tun addr (parse_or 64 connections v))
      else bench_args args' o
  end.

(** [while sent < received]. *)
Fixpoint send_all (fuel : nat) (conn : SocketId) (data : bytes) (sent : nat) : Prog nat :=
  match fuel with
  | O => unfinished
  | S fuel' =>
      if decide (sent < length data)%nat then
        n ← call (λ s, send s conn (drop sent data));
        if n <=? 0 then mret sent else send_all fuel' conn data (sent + Z.to_nat n)
      else mret sent
  end.

(** One round of the session: whether it goes on. *)
Definition echo_step (fuel : nat) (conn : SocketId) : Prog bool :=
  '(received, buf) ← call_blocking (λ s, recv fuel s conn (Z.to_nat (16 * 1024)));
  if received <=? 0 then mret false
  else
    sent ← send_all (S (length buf)) conn buf 0;
    mret (sent =? length buf)%nat.

Fixpoint echo_session (rounds fuel : nat) (conn : SocketId) : Prog unit :=
  match rounds with
  | O => unfinished
  | S rounds' => more ← echo_step fuel conn; if more : bool then echo_session rounds' fuel conn else mret tt
  end.

(** [for _ in 0..connections]. *)
Fixpoint bench_loop (n rounds fuel : nat) (listener : SocketId) : Prog unit :=
  match n with
  | O => mret tt
  | S n' =>
      '(c, _) ← call_blocking (λ s, accept fuel s listener);
      match c with
      | None => bench_loop n' rounds fuel listener
      | Some conn =>
          _ ← echo_session rounds fuel conn;
          _ ← do_close conn;
          bench_loop n' rounds fuel listener
      end
  end.

Definition bench_body (rounds fuel : nat) (o : BenchOptions) : Prog Z :=
  listener ← call socket;
  ok ← call_pure (λ s, listen s listener o.(bo_port));
  if negb ok then
    _ ← printing (eprintln (str "failed to listen on " ++ o.(bo_addr) ++ str ":" ++ display o.(bo_port)));
    mret 1
  else
    _ ← bench_loop (Z.to_nat o.(bo_connections)) rounds fuel listener;
    _ ← do_close listener;
    mret 0.

(** ** [chat_server] *)

Record ServerOptions := mkServerOptions {
  srv_port : u16;
  srv_tun : bytes;
  srv_addr : bytes;
  srv_trace : bool;
}.

Definition server_defaults : ServerOptions := mkServerOptions 8080 (str "tun0") (str "10.0.0.2") false.

Fixpoint server_args (args : list bytes) (o : ServerOptions) : ServerOptions :=
  match args with
  | [] => o
  | a :: args' =>
      let '(mkServerOptions port tun addr trace) := o in
      let other := if decide (a = str "--trace") then mkServerOptions port tun addr true else o in
      match args' with
      | [] => other
      | v :: rest =>
          if decide (a = str "--port") then server_args rest (mkServerOptions (parse_or 16 8080 v) tun addr trace)
          else if decide (a = str "--tun") then server_args rest (mkServerOptions port v addr trace)
          else if decide (a = str "--addr") then server_args rest (mkServerOptions port tun v trace)
          else server_args args' other
      end
  end.

Definition looks_like_http (buf : bytes) : bool :=
  (4 <=? length buf)%nat &&
  bool_decide (take 4 buf ∈ [str "GET "; str "POST"; str "HEAD"; str "PUT "]).

Definition CRLF : bytes := [13; 10].

Definition RESPONSE : bytes :=
  str "HTTP/1.1 200 OK" ++ CRLF ++ str "Content-Length: 6" ++ CRLF ++ str "Connection: close" ++ CRLF ++ CRLF ++
  str "hello" ++ [10].

(** One round of the session: whether it goes on. *)
Definition chat_step (fuel : nat) (conn : SocketId) : Prog bool :=
  '(n, buf) ← call_blocking (λ s, recv fuel s conn (Z.to_nat 4096));
  if n <=? 0 then mret false
  else if looks_like_http buf then
    _ ← call (λ s, send s conn RESPONSE); mret false
  else
    _ ← printing (write_all_ok buf);
    _ ← call (λ s, send s conn buf); mret true.

Fixpoint chat_session (rounds fuel : nat) (conn : SocketId) : Prog unit :=
  match rounds with
  | O => unfinished
  | S rounds' => more ← chat_step fuel conn; if more : bool then chat_session rounds' fuel conn else mret tt
  end.

(** The outer [loop], which never ends. *)
Fixpoint chat_loop (n rounds fuel : nat) (listener : SocketId) : Prog Z :=
  match n with
  | O => unfinished
  | S n' =>
      '(c, _) ← call_blocking (λ s, accept fuel s listener);
      match c with
      | None => chat_loop n' rounds fuel listener
      | Some conn =>
          _ ← printing (println (str "chat_server: client connected"));
          _ ← chat_session rounds fuel conn;
          _ ← printing (println (str "chat_server: client disconnected"));
          _ ← do_close conn;
          chat_loop n' rounds fuel listener
      end
  end.

Definition chat_body (n rounds fuel : nat) (o : ServerOptions) : Prog Z :=
  listener ← call socket;
  _ ← call_pure (λ s, listen s listener o.(srv_port));
  _ ← printing (println (str "chat_server: listening on port " ++ display o.(srv_port) ++ str " (self=" ++
                 o.(srv_addr) ++ str ", tun=" ++ o.(srv_tun) ++ str ")"));
  chat_loop n rounds fuel listener.

(** ** [chat_client] *)

Record ClientOptions := mkClientOptions {
  co_port : u16;
  co_tun : bytes;
  co_addr : bytes;
  co_server : bytes;
  co_trace : bool;
}.

Definition client_defaults : ClientOptions :=
  mkClientOptions 8080 (str "tun1") (str "10.0.1.2") (str "10.0.0.2") false.

Fixpoint client_args (args : list bytes) (o : ClientOptions) : ClientOptions :=
  match args with
  | [] => o
  | a :: args' =>
      let '(mkClientOptions port tun addr server trace) := o in
      let other := if decide (a = str "--trace") then mkClientOptions port tun addr server true else o in
      match args' with
      | [] => other
      | v :: rest =>
          if decide (a = str "--port") then
            client_args rest (mkClientOptions (parse_or 16 8080 v) tun addr server trace)
          else if decide (a = str "--tun") then client_args rest (mkClientOptions port v addr server trace)
          else if decide (a = str "--addr") then client_args rest (mkClientOptions port tun v server trace)
          else if decide (a = str "--server") then client_args rest (mkClientOptions port tun addr v trace)
          else client_args args' other
      end
  end.

(** [for line in stdin.lock().lines()]: the lines without their newlines,
    [None] where reading one fails. *)
Fixpoint client_lines (fuel : nat) (lines : list (option bytes)) (sock : SocketId) : Prog unit :=
  match lines with
  | [] | None :: _ => mret tt
  | Some line :: lines =>
      _ ← call (λ s, send s sock (line ++ [10]));
      '(n, buf) ← call_blocking (λ s, recv fuel s sock (Z.to_nat 2048));
      if n <=? 0 then printing (println (str "chat_client: server closed the connection"))
      else
        _ ← printing (write_all_ok buf);
        client_lines fuel lines sock
  end.

Definition client_body (fuel : nat) (lines : list (option bytes)) (o : ClientOptions) (server_addr : u32) : Prog Z :=
  sock ← call socket;
  ok ← call (λ s, connect s sock server_addr o.(co_port));
  if negb ok then
    _ ← printing (eprintln (str "chat_client: failed to connect to " ++ o.(co_server) ++ str ":" ++ display o.(co_port)));
    mret 1
  else
    _ ← printing (println (str "chat_client: connected to " ++ o.(co_server) ++ str ":" ++ display o.(co_port) ++
                   str " -- type messages, Ctrl+D to quit"));
    _ ← client_lines fuel lines sock;
    _ ← do_close sock;
    mret 0.

(** ** [minitcp] *)

(** [loop { stack.pump_once(200) }]. *)
Fixpoint pump_loop (n : nat) : Prog Z :=
  match n with
  | O => unfinished
  | S n' => _ ← call (λ s, s ← pump_once s; mret (tt, s)); pump_loop n'
  end.

Definition minitcp_trace (args : list bytes) : bool := existsb (λ a, bool_decide (a = str "--trace")) args.

Definition minitcp_body (n : nat) (args : list bytes) : Prog Z :=
  _ ← printing (println (str "MiniTCP listening on tun0" ++ if minitcp_trace args then str " (trace enabled)" else []));
  pump_loop n.

(** ** The [main] functions

    The arguments start with the name of the program.  [last_os_error] is the
    text of the error that the failed call left behind. *)

Section Main.
Context (os_open : bytes → Z → Z) (os_ioctl : Z → Z → Ifreq → Z * Ifreq) (last_os_error : bytes).

(** [match Stack::init { Some(stack) => stack, None => { eprintln!; exit(1) } }]. *)
Definition with_stack (what tun_dev : bytes) (addr : u32) (body : Prog Z) (c : Console) : M Outcome :=
  st ← lift (init os_open os_ioctl tun_dev addr);
  match st with
  | None => die 1 (what ++ str ": " ++ last_os_error) c
  | Some s => run body (mkProcess s c)
  end.

Definition bench_main (rounds fuel : nat) (args : list bytes) (c : Console) : M Outcome :=
  args ← env_args args;
  let o := bench_args (drop 1 args) bench_defaults in
  parse_addr 2 o.(bo_addr) c (λ self_addr,
    with_stack (str "minitcp_init") o.(bo_tun) self_addr (bench_body rounds fuel o) c).

Definition chat_server_main (n rounds fuel : nat) (args : list bytes) (c : Console) : M Outcome :=
  args ← env_args args;
  let o := server_args (drop 1 args) server_defaults in
  parse_addr 1 o.(srv_addr) c (λ self_addr,
    with_stack (str "minitcp_init") o.(srv_tun) self_addr (chat_body n rounds fuel o) c).

Definition chat_client_main (fuel : nat) (lines : list (option bytes)) (args : list bytes) (c : Console) : M Outcome :=
  args ← env_args args;
  let o := client_args (drop 1 args) client_defaults in
  parse_addr 1 o.(co_addr) c (λ self_addr,
    parse_addr 1 o.(co_server) c (λ server_addr,
      with_stack (str "minitcp_init") o.(co_tun) self_addr (client_body fuel lines o server_addr) c)).

Definition minitcp_main (n : nat) (args : list bytes) (c : Console) : M Outcome :=
  args ← env_args args;
  with_stack (str "tun_alloc") (str "tun0") 0 (minitcp_body n (drop 1 args)) c.
End Main.
