(* ===== verification/DemoProps.v ===== *)
(** * Properties of the programs

    What the programs do with their arguments; when they panic, and that they
    write well-formed packets only; the servers answer what they receive. *)

From S2P Require Import Prelude Effects Std Ip TcpSegment TcpConn TcpSend TcpReceive TcpTable TcpInv TcpState TcpSystem Wire Stack StackProps StackWire Tun Demo.

(** ** A logic for programs *)

(** A good stack, and standard streams that take what is written. *)
Record pgood (p : Process) : Prop := {
  pg_stack : stack_ok p.(stack);
  pg_write : ∀ n, p.(console).(write_ok) n = true;
}.

(** From a good process with room for [k] more sockets the program does not
    panic, writes well-formed packets and leaves a good process; when it
    returns, its result satisfies [Φ]. *)
Definition psafe {A} (k : Z) (m : Prog A) (Φ : A → Prop) : Prop :=
  ∀ p, pgood p → p.(stack).(next_socket_id) + k < 2 ^ 64 →
    sends wire_ok (m p) (λ r, pgood r.2 ∧
      r.2.(stack).(next_socket_id) ≤ p.(stack).(next_socket_id) + k ∧ ∀ a, r.1 = Some a → Φ a).

Lemma psafe_ret {A} (a : A) (Φ : A → Prop) : Φ a → psafe 0 (mret a) Φ.
Proof. intros H p Hp _. apply sends_ret. split_and!; [done|cbn; lia|by intros ? [= <-]]. Qed.

Lemma psafe_unfinished {A} (Φ : A → Prop) : psafe 0 unfinished Φ.
Proof. intros p Hp _. apply sends_ret. split_and!; [done|cbn; lia|done]. Qed.

Lemma psafe_bind {A B} k1 k2 (m : Prog A) (f : A → Prog B) (Φ : A → Prop) (Ψ : B → Prop) :
  0 ≤ k2 → psafe k1 m Φ → (∀ a, Φ a → psafe k2 (f a) Ψ) → psafe (k1 + k2) (m ≫= f) Ψ.
Proof.
  intros H2 Hm Hf p Hp Hk. eapply sends_bind; [apply Hm; [done|lia]|]. intros [[a|] p1] (H1 & Hn & Ha); cbn in *.
  - eapply sends_mono; [apply (Hf a (Ha a eq_refl) p1 H1); lia|done|]. intros r (? & ? & ?). split_and!; auto. lia.
  - apply sends_ret. split_and!; [done|cbn; lia|done].
Qed.

Lemma psafe_mono {A} k k' (m : Prog A) (Φ Ψ : A → Prop) :
  psafe k m Φ → k ≤ k' → (∀ a, Φ a → Ψ a) → psafe k' m Ψ.
Proof.
  intros Hm Hk Hi p Hp Hn. eapply sends_mono; [apply Hm; [done|lia]|done|]. intros r (? & ? & ?).
  split_and!; auto. lia.
Qed.

(** A step that makes no socket, with what follows. *)
Lemma psafe_step {A B} k (m : Prog A) (f : A → Prog B) (Φ : A → Prop) (Ψ : B → Prop) :
  0 ≤ k → psafe 0 m Φ → (∀ a, Φ a → psafe k (f a) Ψ) → psafe k (m ≫= f) Ψ.
Proof. intros Hk. replace k with (0 + k) at 3 by lia. by apply psafe_bind. Qed.

Lemma psafe_weaken {A} k (m : Prog A) (Φ : A → Prop) : 0 ≤ k → psafe 0 m Φ → psafe k m Φ.
Proof. intros. by eapply psafe_mono. Qed.

(** Socket calls. *)
Lemma psafe_call {A} k (f : Stack → M (A * Stack)) (Φ : A → Prop) :
  (∀ s, stack_ok s → s.(next_socket_id) + k < 2 ^ 64 →
     sends wire_ok (f s) (λ r, stack_ok r.2 ∧ r.2.(next_socket_id) ≤ s.(next_socket_id) + k ∧ Φ r.1)) →
  psafe k (call f) Φ.
Proof.
  intros H p [Hp Hw] Hn. eapply sends_bind; [by apply H|]. intros [a s] (? & ? & ?). apply sends_ret.
  split_and!; [by split|done|by intros ? [= <-]].
Qed.

Lemma psafe_call_blocking {A} k (f : Stack → M (option A * Stack)) (Φ : A → Prop) :
  (∀ s, stack_ok s → s.(next_socket_id) + k < 2 ^ 64 →
     sends wire_ok (f s) (λ r, stack_ok r.2 ∧ r.2.(next_socket_id) ≤ s.(next_socket_id) + k ∧
       ∀ a, r.1 = Some a → Φ a)) →
  psafe k (call_blocking f) Φ.
Proof.
  intros H p [Hp Hw] Hn. eapply sends_bind; [by apply H|]. intros [a s] (? & ? & ?). apply sends_ret.
  split_and!; [by split|done|done].
Qed.

(** Printing: a write that succeeds. *)
Definition prints (f : Console → M Console) : Prop :=
  ∀ c w, (∀ n, c.(write_ok) n = true) → ∃ c', f c w = Some (c', w) ∧ c'.(write_ok) = c.(write_ok).

Lemma prints_println b : prints (println b).
Proof. intros c w Hw. eexists. unfold println, must_write. by rewrite Hw. Qed.

Lemma prints_eprintln b : prints (eprintln b).
Proof. intros c w Hw. eexists. unfold eprintln, must_write. by rewrite Hw. Qed.

Lemma prints_write_all b : prints (write_all_ok b).
Proof. intros c w _. by eexists. Qed.

Lemma psafe_printing f : prints f → psafe 0 (printing f) (λ _, True).
Proof.
  intros Hf p [Hp Hw] _ w. destruct (Hf p.(console) w Hw) as (c' & E & Hc).
  exists (Some tt, mkProcess p.(stack) c'), w, []. rewrite app_nil_r.
  split; [unfold printing; by erewrite bind_Some by exact E|]. split; [done|]. split; [reflexivity|].
  split; [|done]. split_and!; [split; [done|cbn; by rewrite Hc]|cbn; lia|done].
Qed.

Lemma psafe_recv fuel id room : psafe 0 (call_blocking (λ s, recv fuel s id room)) (λ r, bytes_ok r.2).
Proof.
  apply psafe_call_blocking. intros s Hs _. eapply sends_mono; [by apply wire_call_recv|done|].
  intros r [[? Hn] Hb]. split_and!; [done|lia|]. intros [n got]. apply Hb.
Qed.

Lemma psafe_send id data : bytes_ok data → psafe 0 (call (λ s, send s id data)) (λ _, True).
Proof.
  intros Hd. apply psafe_call. intros s Hs _. eapply sends_mono; [by apply wire_call_send|done|].
  intros r [? Hn]. split_and!; [done|lia|done].
Qed.

Lemma psafe_close id : psafe 0 (do_close id) (λ _, True).
Proof.
  apply psafe_call. intros s Hs _. eapply sends_bind; [by apply wire_call_close|]. intros s' [? Hn]. apply sends_ret.
  split_and!; [done|cbn; lia|done].
Qed.

Lemma psafe_socket : psafe 1 (call socket) (λ _, True).
Proof.
  apply psafe_call. intros s Hs Hn. eapply sends_mono; [by apply wire_alloc_socket|done|].
  intros r [? ?]. split_and!; [done|lia|done].
Qed.

Lemma psafe_listen id port : psafe 0 (call_pure (λ s, listen s id port)) (λ _, True).
Proof.
  apply psafe_call. intros s Hs _. apply sends_ret. destruct (kept_listen s id port Hs) as [? Hn].
  split_and!; [done|lia|done].
Qed.

Lemma psafe_accept fuel id : psafe 1 (call_blocking (λ s, accept fuel s id)) (λ _, True).
Proof.
  apply psafe_call_blocking. intros s Hs Hn. eapply sends_mono; [by apply wire_call_accept|done|].
  intros r [? ?]. split_and!; [done|lia|done].
Qed.

Lemma psafe_connect id addr port :
  is_u32 addr → is_u16 port → psafe 0 (call (λ s, connect s id addr port)) (λ _, True).
Proof.
  intros Ha Hp. apply psafe_call. intros s Hs _. eapply sends_mono; [by apply wire_call_connect|done|].
  intros r [? Hn]. split_and!; [done|lia|done].
Qed.

Create HintDb psafe.

#[export] Hint Resolve psafe_ret psafe_unfinished psafe_printing prints_println prints_eprintln prints_write_all psafe_recv psafe_send psafe_close psafe_socket
  psafe_listen psafe_accept psafe_connect bytes_ok_drop bytes_ok_take : psafe.

(** A step whose result does not matter. *)
Ltac pstep := eapply psafe_step; [lia|by auto with psafe|]; intros.

Lemma psafe_send_all fuel conn data sent : bytes_ok data → psafe 0 (send_all fuel conn data sent) (λ _, True).
Proof.
  intros Hd. revert sent. induction fuel as [|fuel IH]; intros sent; cbn [send_all]; [auto with psafe|].
  case_decide; [|auto with psafe]. pstep. destruct (_ <=? 0); auto with psafe.
Qed.

Lemma psafe_echo_session rounds fuel conn : psafe 0 (echo_session rounds fuel conn) (λ _, True).
Proof.
  induction rounds as [|rounds IH]; cbn [echo_session]; [auto with psafe|].
  apply (psafe_step _ _ _ (λ _, True)); [lia| |intros []; auto with psafe].
  apply (psafe_step _ _ _ (λ r, bytes_ok r.2)); [lia|auto with psafe|]. intros [received buf] Hb. cbn in Hb.
  destruct (_ <=? 0); [auto with psafe|].
  apply (psafe_step _ _ _ (λ _, True)); [lia|by apply psafe_send_all|]. auto with psafe.
Qed.

Lemma psafe_bench_loop n rounds fuel listener : psafe (Z.of_nat n) (bench_loop n rounds fuel listener) (λ _, True).
Proof.
  induction n as [|n IH]; cbn [bench_loop]; [auto with psafe|].
  replace (Z.of_nat (S n)) with (1 + Z.of_nat n) by lia.
  eapply psafe_bind; [lia|by auto with psafe|]. intros [[conn|] late] _; [|exact IH].
  apply (psafe_step _ _ _ (λ _, True)); [lia|apply psafe_echo_session|]. intros _ _. pstep. exact IH.
Qed.

Lemma psafe_bench_body rounds fuel o :
  0 ≤ o.(bo_connections) → psafe (1 + o.(bo_connections)) (bench_body rounds fuel o) (λ _, True).
Proof.
  intros Hc. eapply psafe_bind; [lia|by auto with psafe|]. intros listener _. pstep.
  destruct (negb _); [apply psafe_weaken; [lia|]; pstep; auto with psafe|].
  replace (bo_connections o) with (bo_connections o + 0) at 1 by lia. eapply psafe_bind; [lia| |].
  - rewrite <- (Z2Nat.id (bo_connections o)) at 1 by lia. apply psafe_bench_loop.
  - intros _ _. pstep. auto with psafe.
Qed.

Lemma RESPONSE_ok : bytes_ok RESPONSE.
Proof. by_decide. Qed.
#[export] Hint Resolve RESPONSE_ok : psafe.

Lemma psafe_chat_session rounds fuel conn : psafe 0 (chat_session rounds fuel conn) (λ _, True).
Proof.
  induction rounds as [|rounds IH]; cbn [chat_session]; [auto with psafe|].
  apply (psafe_step _ _ _ (λ _, True)); [lia| |intros []; auto with psafe].
  apply (psafe_step _ _ _ (λ r, bytes_ok r.2)); [lia|auto with psafe|]. intros [n buf] Hb. cbn in Hb.
  destruct (_ <=? 0); [auto with psafe|]. destruct (looks_like_http buf); [pstep; auto with psafe|].
  pstep. pstep. auto with psafe.
Qed.

Lemma psafe_chat_loop n rounds fuel listener : psafe (Z.of_nat n) (chat_loop n rounds fuel listener) (λ _, True).
Proof.
  induction n as [|n IH]; cbn [chat_loop]; [auto with psafe|].
  replace (Z.of_nat (S n)) with (1 + Z.of_nat n) by lia.
  eapply psafe_bind; [lia|by auto with psafe|]. intros [[conn|] late] _; [|exact IH]. pstep.
  apply (psafe_step _ _ _ (λ _, True)); [lia|apply psafe_chat_session|]. intros _ _. pstep. pstep. exact IH.
Qed.

Lemma psafe_chat_body n rounds fuel o : psafe (1 + Z.of_nat n) (chat_body n rounds fuel o) (λ _, True).
Proof.
  eapply psafe_bind; [lia|by auto with psafe|]. intros listener _. pstep. pstep. apply psafe_chat_loop.
Qed.

Lemma psafe_client_lines fuel lines sock :
  Forall (λ l, ∀ b, l = Some b → bytes_ok b) lines → psafe 0 (client_lines fuel lines sock) (λ _, True).
Proof.
  induction lines as [|[line|] lines IH]; intros Hl; cbn [client_lines]; [auto with psafe| |auto with psafe].
  apply Forall_cons_iff in Hl as [Hline Hl]. specialize (Hline line eq_refl).
  apply (psafe_step _ _ _ (λ _, True)); [lia|apply psafe_send, bytes_ok_app; split; [done|by_decide]|]. intros _ _.
  apply (psafe_step _ _ _ (λ r, bytes_ok r.2)); [lia|auto with psafe|]. intros [n buf] Hb.
  destruct (_ <=? 0); [auto with psafe|]. pstep. auto.
Qed.

Lemma psafe_client_body fuel lines o addr :
  Forall (λ l, ∀ b, l = Some b → bytes_ok b) lines → is_u32 addr → is_u16 o.(co_port) →
  psafe 1 (client_body fuel lines o addr) (λ _, True).
Proof.
  intros Hl Ha Hp. apply (psafe_bind 1 0 _ _ (λ _, True)); [lia|auto with psafe|]. intros sock _. pstep.
  destruct (negb _); [pstep; auto with psafe|]. pstep.
  apply (psafe_step _ _ _ (λ _, True)); [lia|by apply psafe_client_lines|]. intros _ _. pstep. auto with psafe.
Qed.

Lemma psafe_minitcp_body n args : psafe 0 (minitcp_body n args) (λ _, True).
Proof.
  unfold minitcp_body. pstep. induction n as [|n IH]; cbn [pump_loop]; [auto with psafe|].
  apply (psafe_step _ _ _ (λ _, True)); [lia| |auto]. apply psafe_call. intros s Hs _.
  eapply sends_bind; [by apply wire_pump|]. intros s' [? Hn]. apply sends_ret. split_and!; [done|cbn; lia|done].
Qed.

(** ** Command lines *)

Lemma parse_or_range w d s : 0 ≤ w → uN w d → uN w (parse_or w d s).
Proof.
  intros Hw Hd. unfold parse_or. destruct (parse_uint w s) as [n|] eqn:E; cbn; [|done]. by eapply parse_uint_range.
Qed.

(** Induction for a loop that takes one or two arguments at a time. *)
Lemma args_ind (P : list bytes → Prop) :
  P [] → (∀ a, P [a]) → (∀ a v rest, P rest → P (v :: rest) → P (a :: v :: rest)) → ∀ args, P args.
Proof.
  intros H0 H1 H2 args. enough (P args ∧ ∀ a, P (a :: args)) by tauto.
  induction args as [|v rest [IH1 IH2]]; split; auto.
Qed.

(** The loops, one round unfolded. *)
Lemma bench_args_cons a v rest port tun addr conns :
  bench_args (a :: v :: rest) (mkBenchOptions port tun addr conns) =
    if decide (a = str "--port") then bench_args rest (mkBenchOptions (parse_or 16 port v) tun addr conns)
    else if decide (a = str "--tun") then bench_args rest (mkBenchOptions port v addr conns)
    else if decide (a = str "--addr") then bench_args rest (mkBenchOptions port tun v conns)
    else if decide (a = str "--connections") then bench_args rest (mkBenchOptions port tun addr (parse_or 64 conns v))
    else bench_args (v :: rest) (mkBenchOptions port tun addr conns).
Proof. reflexivity. Qed.

Lemma client_args_cons a v rest port tun addr server trace :
  client_args (a :: v :: rest) (mkClientOptions port tun addr server trace) =
    if decide (a = str "--port") then client_args rest (mkClientOptions (parse_or 16 8080 v) tun addr server trace)
    else if decide (a = str "--tun") then client_args rest (mkClientOptions port v addr server trace)
    else if decide (a = str "--addr") then client_args rest (mkClientOptions port tun v server trace)
    else if decide (a = str "--server") then client_args rest (mkClientOptions port tun addr v trace)
    else client_args (v :: rest) (if decide (a = str "--trace") then mkClientOptions port tun addr server true
                                  else mkClientOptions port tun addr server trace).
Proof. reflexivity. Qed.

Lemma bench_args_range args o :
  is_u16 o.(bo_port) → uN 64 o.(bo_connections) →
  is_u16 (bench_args args o).(bo_port) ∧ uN 64 (bench_args args o).(bo_connections).
Proof.
  revert o. induction args as [|a|a v rest IH1 IH2] using args_ind; intros [port tun addr conns] Hp Hc; try done.
  cbn in Hp, Hc. rewrite bench_args_cons.
  assert (is_u16 (parse_or 16 port v)) by (apply parse_or_range; [lia|done]).
  assert (uN 64 (parse_or 64 conns v)) by (apply parse_or_range; [lia|done]).
  destruct (decide _); [by apply IH1|]. destruct (decide _); [by apply IH1|].
  destruct (decide _); [by apply IH1|]. destruct (decide _); [by apply IH1|]. by apply IH2.
Qed.

Lemma client_args_range args o : is_u16 o.(co_port) → is_u16 (client_args args o).(co_port).
Proof.
  revert o. induction args as [|a|a v rest IH1 IH2] using args_ind; intros [port tun addr server trace] Hp; try done.
  - cbn [client_args]. by destruct (decide _).
  - cbn in Hp. rewrite client_args_cons.
    assert (is_u16 (parse_or 16 8080 v)) by (apply parse_or_range; [lia|by_decide]).
    destruct (decide _); [by apply IH1|]. destruct (decide _); [by apply IH1|].
    destruct (decide _); [by apply IH1|]. destruct (decide _); [by apply IH1|]. destruct (decide _); by apply IH2.
Qed.

Lemma parse_ipv4_u32 s a : parse_ipv4 s = Some a → is_u32 a.
Proof. intros (b & c & d & e & ? & ? & ? & ? & _ & ->)%parse_ipv4_inv. auto with minitcp. Qed.



Lemma env_args_ok {A} args (k : list bytes → M A) w :
  forallb valid_utf8 args = true → (env_args args ≫= k) w = k args w.
Proof. intros H. unfold env_args. rewrite H. by erewrite bind_lift by reflexivity. Qed.

Lemma env_args_panics {A} args (k : list bytes → M A) w :
  forallb valid_utf8 args = false → (env_args args ≫= k) w = None.
Proof. intros H. unfold env_args. by rewrite H. Qed.


Lemma die_exits code msg c w :
  c.(write_ok) c.(writes) = true → die code msg c w = Some (Exited code (put_err (msg ++ [10]) c), w).
Proof. intros H. unfold die, eprintln, must_write. by rewrite H. Qed.



(** ** When a program panics *)

(** From the start of the program on. *)
Definition fine (m : M Outcome) (w : World) : Prop :=
  ∃ out w' ps, m w = Some (out, w') ∧ w'.(w_sent) = w.(w_sent) ++ ps ∧ Forall wire_ok ps.

Section Panics.
Context (os_open : bytes → Z → Z) (os_ioctl : Z → Z → Ifreq → Z * Ifreq) (last_os_error : bytes).
Context (c : Console) (w : World).
Hypothesis Hc : ∀ n, c.(write_ok) n = true.

Lemma fine_die code msg : fine (die code msg c) w.
Proof. eexists _, w, []. rewrite app_nil_r. split; [by apply die_exits|done]. Qed.

Lemma fine_parse_addr code s k : (∀ a, is_u32 a → fine (k a) w) → fine (parse_addr code s c k) w.
Proof.
  intros Hk. unfold fine, parse_addr. destruct (parse_ipv4 s) as [a|] eqn:E; [|apply fine_die].
  apply Hk. by eapply parse_ipv4_u32.
Qed.

Lemma fine_with_stack what tun addr k body :
  is_u32 addr → psafe k body (λ _, True) → k + 1 < 2 ^ 64 →
  fine (with_stack os_open os_ioctl last_os_error what tun addr body c) w.
Proof.
  intros Ha Hb Hk. unfold fine, with_stack.
  destruct (init_total os_open os_ioctl tun addr) as [E|E]; rewrite E; (erewrite bind_lift by reflexivity).
  { apply fine_die. }
  destruct (Hb (mkProcess (stack_new addr) c) ltac:(split; [by apply stack_ok_new|done]) ltac:(cbn; lia) w)
    as ([r p] & w' & ps & Er & Hs & _ & _ & Hps).
  eexists _, w', ps. split; [|done]. unfold run. by erewrite bind_Some by exact Er.
Qed.
End Panics.

(** C13: when a program panics.  If an argument is not Unicode, it does, before
    anything else.  If all are, and the writes to standard output and standard
    error succeed, then no program panics, whatever its arguments say, and
    whatever the answers of the system calls, the packets that arrive and the
    lines typed; and all packets it writes are well-formed.  (Unless more
    sockets are made than a [u64] can count.  The prints of [--trace] inside
    the stack are writes to standard output like the others.) *)
Theorem programs_panic_conditions (os_open : bytes → Z → Z) (os_ioctl : Z → Z → Ifreq → Z * Ifreq)
    (last_os_error : bytes) (n rounds fuel : nat) (lines : list (option bytes)) (args : list bytes)
    (c : Console) (w : World) :
  Forall (λ l, ∀ b, l = Some b → bytes_ok b) lines →
  let bench := bench_main os_open os_ioctl last_os_error rounds fuel args c in
  let server := chat_server_main os_open os_ioctl last_os_error n rounds fuel args c in
  let client := chat_client_main os_open os_ioctl last_os_error fuel lines args c in
  let bare := minitcp_main os_open os_ioctl last_os_error n args c in
  if forallb valid_utf8 args then
    (∀ i, c.(write_ok) i = true) →
    ((bench_args (drop 1 args) bench_defaults).(bo_connections) + 2 < 2 ^ 64 → fine bench w) ∧
    (Z.of_nat n + 2 < 2 ^ 64 → fine server w) ∧
    fine client w ∧ fine bare w
  else bench w = None ∧ server w = None ∧ client w = None ∧ bare w = None.
Proof.
  intros Hl bench server client bare. destruct (forallb valid_utf8 args) eqn:Hu.
  2:{ unfold bench, bench_main, server, chat_server_main, client, chat_client_main, bare, minitcp_main.
      by rewrite !env_args_panics. }
  intros Hc. unfold fine, bench, bench_main, server, chat_server_main, client, chat_client_main, bare, minitcp_main.
  rewrite !env_args_ok by done. split_and!.
  - intros Hn. destruct (bench_args_range (drop 1 args) bench_defaults) as [_ [H0 _]]; [by_decide..|].
    apply fine_parse_addr; [done|]. intros a Ha. eapply fine_with_stack; [done|done|by apply psafe_bench_body|lia].
  - intros Hn. apply fine_parse_addr; [done|]. intros a Ha.
    eapply fine_with_stack; [done|done|apply psafe_chat_body|lia].
  - assert (Hp : is_u16 (client_args (drop 1 args) client_defaults).(co_port)) by (apply client_args_range; by_decide).
    apply fine_parse_addr; [done|]. intros a Ha. apply fine_parse_addr; [done|]. intros b Hb.
    eapply fine_with_stack; [done|done|by apply psafe_client_body|lia].
  - eapply fine_with_stack; [done|by_decide|apply psafe_minitcp_body|lia].
Qed.

(** Streams that take everything. *)
Definition open_console : Console := mkConsole [] [] (λ _, true) 0.

Theorem programs_panic_conditions_witness :
  (∃ out w', bench_main (λ _ _, 3) (λ _ _ ifr, (0, ifr)) [] 1 1 [str "bench"; str "--connections"; str "2"] open_console
     demo_world = Some (out, w')) ∧
  bench_main (λ _ _, 3) (λ _ _ ifr, (0, ifr)) [] 1 1 [str "bench"; [0xFF]] open_console demo_world = None.
Proof.
  split.
  - destruct (programs_panic_conditions (λ _ _, 3) (λ _ _ ifr, (0, ifr)) [] 0 1 1 []
      [str "bench"; str "--connections"; str "2"] open_console demo_world) as (H & _).
    + constructor.
    + reflexivity.
    + destruct H as (out & w' & ps & E & _); [by_decide|]. exists out, w'. exact E.
  - refine (proj1 (programs_panic_conditions (λ _ _, 3) (λ _ _ ifr, (0, ifr)) [] 0 1 1 []
      [str "bench"; [0xFF]] open_console demo_world _)). constructor.
Defined.


(** ** The servers *)

(** The socket of an open connection. *)
Definition serves (s : Stack) (id : SocketId) (key : ConnectionKey) (r : TcpConnection) : Prop :=
  s.(sockets) !! id ≫= conn_key = Some key ∧ s.(tcp).(connections) !! key = Some r.

(** [recv] with data at hand. *)
Lemma recv_at_once fuel s id key r room w :
  serves s id key r → r.(recv_buffer) ≠ [] → (length r.(recv_buffer) ≤ room)%nat →
  recv (S fuel) s id room w =
    Some ((Some (len r.(recv_buffer), r.(recv_buffer)), set_tcp (put_conn key (set_recv_buffer [] r) s.(tcp)) s),
          clock_next w).
Proof.
  intros [Hk Hr] Hne Hl. destruct (sockets s !! id) as [sock|] eqn:Hs; [|done]. cbn in Hk. unfold recv. rewrite Hs, Hk.
  erewrite bind_Some by reflexivity. cbn [recv_loop]. unfold TcpTable.recv, conn_recv. rewrite Hr.
  rewrite Nat.min_r by done. pose proof (len_pos _ Hne) as Hp. destruct (Nat.ltb_spec 0 (length (recv_buffer r))).
  2:{ unfold len in Hp. lia. }
  rewrite drop_all, firstn_all. by rewrite (proj2 (Z.ltb_lt _ _)) by done.
Qed.

(** [send] on the socket of a connection. *)
Lemma send_serving s id key r data w n t w' :
  serves s id key r → TcpTable.send s.(tcp) key data w = Some ((n, t), w') →
  send s id data w = Some ((n, set_tcp t s), w').
Proof. intros [Hk _] E. unfold send. rewrite Hk. by erewrite bind_Some by exact E. Qed.

(** The connection of a server that has read all there was. *)
Lemma serves_set s id key r t :
  serves s id key r → serves (set_tcp (put_conn key t s.(tcp)) s) id key t.
Proof. intros [Hk _]. split; [exact Hk|apply lookup_insert_eq]. Qed.

(** A call of a program, run. *)
Lemma prog_call {A B} (f : Stack → M (A * Stack)) (k : A → Prog B) p w a s' w' :
  f p.(stack) w = Some ((a, s'), w') → (call f ≫= k) p w = k a (mkProcess s' p.(console)) w'.
Proof. intros E. unfold mbind, Prog_bind, call, mbind, M_bind. by rewrite E. Qed.

Lemma prog_call_blocking {A B} (f : Stack → M (option A * Stack)) (k : A → Prog B) p w a s' w' :
  f p.(stack) w = Some ((Some a, s'), w') → (call_blocking f ≫= k) p w = k a (mkProcess s' p.(console)) w'.
Proof. intros E. unfold mbind, Prog_bind, call_blocking, mbind, M_bind. by rewrite E. Qed.

Lemma prog_bind {A B} (m : Prog A) (k : A → Prog B) p w a p' w' :
  m p w = Some ((Some a, p'), w') → (m ≫= k) p w = k a p' w'.
Proof. intros E. unfold mbind, Prog_bind, mbind, M_bind. by rewrite E. Qed.

(** The send loop when the first [send] takes everything, or nothing. *)
Lemma send_all_taken fuel conn data p w s' w' :
  data ≠ [] → send p.(stack) conn data w = Some ((len data, s'), w') →
  send_all (S (S fuel)) conn data 0 p w = Some ((Some (length data), mkProcess s' p.(console)), w').
Proof.
  intros Hne E. cbn [send_all]. pose proof (len_pos _ Hne) as Hp. rewrite decide_True by (unfold len in Hp; lia).
  rewrite drop_0. rewrite (prog_call _ _ _ _ _ _ _ E). rewrite (proj2 (Z.leb_gt _ _)) by done.
  unfold len. rewrite Nat2Z.id, Nat.add_0_l. rewrite decide_False by lia. done.
Qed.

Lemma send_all_stuck fuel conn data p w s' w' :
  data ≠ [] → send p.(stack) conn data w = Some ((0, s'), w') →
  send_all (S fuel) conn data 0 p w = Some ((Some 0%nat, mkProcess s' p.(console)), w').
Proof.
  intros Hne E. cbn [send_all]. pose proof (len_pos _ Hne) as Hp. rewrite decide_True by (unfold len in Hp; lia).
  rewrite drop_0. by rewrite (prog_call _ _ _ _ _ _ _ E).
Qed.

(** An answer, sent once all that came was read, on its way to the client. *)
Lemma answer_sent s conn key r c snd rcv wnd wnd' client answer w :
  serves s conn key r → idle key snd rcv wnd (set_recv_buffer [] r) →
  client.(connections) !! flip key = Some c → idle (flip key) rcv snd wnd' c →
  bytes_ok answer → len answer ≤ 16384 → len answer ≤ wnd → snd + len answer < 2 ^ 32 →
  let s1 := set_tcp (put_conn key (set_recv_buffer [] r) s.(tcp)) s in
  ∃ s2 w' packets, send s1 conn answer w = Some ((len answer, s2), w') ∧ w'.(w_sent) = w.(w_sent) ++ packets ∧
    ∀ arr wr, (∀ q, q ∈ arr → q ∈ packets) → (∀ q, q ∈ packets → q ∈ arr) →
      payload_bytes arr ≤ DEFAULT_RECV_BUFFER_CAP →
      ∃ client' wr', deliver_all client arr wr = Some (client', wr') ∧
        (TcpTable.recv client' (flip key) (length answer)).1 = answer.
Proof.
  intros Hsv Hi Hc Hj Hb Hl Hwnd Hfit s1. assert (Hv : DEFAULT_SEND_BUFFER_CAP = 1048576) by reflexivity.
  destruct (transfer_packets s1.(tcp) client key (set_recv_buffer [] r) c snd rcv wnd wnd' answer w)
    as (t' & w' & packets & E & Hw & Hgo); auto.
  { apply lookup_insert_eq. }
  rewrite (Z.min_l (len answer)) in * by lia. rewrite (Z.min_l (len answer) wnd Hwnd) in Hgo.
  rewrite firstn_all2 in Hgo by (unfold len; lia).
  exists (set_tcp t' s1), w', packets. split; [|done]. eapply send_serving; [by eapply serves_set|exact E].
Qed.

(** C14: the echo server echoes.  When a message of at most 16 KiB waits on a
    connection with nothing else in flight, and the client's window has room
    for it, one round of the session reads it and sends it back: the packets
    written, delivered to the client in any order and with repetitions, make
    its [recv] hand out exactly the message, and the session goes on. *)
Theorem echo_server_echoes (p : Process) (conn : SocketId) (key : ConnectionKey) (r c : TcpConnection)
    (snd rcv : u32) (wnd wnd' : u16) (client : TcpTable) (fuel : nat) (w : World) :
  serves p.(stack) conn key r → idle key snd rcv wnd (set_recv_buffer [] r) →
  client.(connections) !! flip key = Some c → idle (flip key) rcv snd wnd' c →
  let data := r.(recv_buffer) in
  bytes_ok data → 0 < len data ≤ 16384 → len data ≤ wnd → snd + len data < 2 ^ 32 →
  ∃ p' w' packets,
    echo_step (S fuel) conn p w = Some ((Some true, p'), w') ∧ w'.(w_sent) = w.(w_sent) ++ packets ∧
    ∀ arr wr, (∀ q, q ∈ arr → q ∈ packets) → (∀ q, q ∈ packets → q ∈ arr) →
      payload_bytes arr ≤ DEFAULT_RECV_BUFFER_CAP →
      ∃ client' wr', deliver_all client arr wr = Some (client', wr') ∧
        (TcpTable.recv client' (flip key) (length data)).1 = data.
Proof.
  intros Hsv Hi Hc Hj data Hb Hl Hwnd Hfit. assert (Hne : data ≠ []) by (intros E; rewrite E in Hl; unfold len in Hl; cbn in Hl; lia).
  destruct (answer_sent p.(stack) conn key r c snd rcv wnd wnd' client data (clock_next w))
    as (s2 & w' & packets & Hs & Hw & Hgo); auto; [lia|].
  set (s1 := set_tcp (put_conn key (set_recv_buffer [] r) p.(stack).(tcp)) p.(stack)) in *.
  exists (mkProcess s2 p.(console)), w', packets. split; [|done].
  unfold echo_step. erewrite prog_call_blocking by (apply recv_at_once; [done|done|]; fold data; unfold len in *; lia).
  cbv beta iota. fold data s1. rewrite (proj2 (Z.leb_gt _ _)) by lia. destruct data as [|x data'] eqn:Ed; [done|].
  erewrite prog_bind by (apply (send_all_taken (length data') conn (x :: data') (mkProcess s1 _)); [done|exact Hs]).
  by rewrite Nat.eqb_refl.
Qed.

(** A message with the four bytes of a verb in front is a request. *)
Lemma looks_like_http_spec buf :
  looks_like_http buf = true ↔
    ∃ verb, verb ∈ [str "GET "; str "POST"; str "HEAD"; str "PUT "] ∧ verb `prefix_of` buf.
Proof.
  unfold looks_like_http. rewrite andb_true_iff, bool_decide_eq_true, Nat.leb_le. split.
  - intros [_ Hin]. exists (take 4 buf). split; [done|]. apply prefix_take.
  - intros (verb & Hin & k & ->). assert (Hl : length verb = 4%nat).
    { repeat (apply elem_of_cons in Hin as [->|Hin]; [done|]). by apply elem_of_nil in Hin. }
    split; [rewrite length_app; lia|]. by rewrite <- Hl, take_app_length.
Qed.

(** C15: the chat server.  A message of at most 4 KiB that starts with an HTTP
    verb is answered with the canned response and ends the session; any other
    message is handed to standard output and sent back, and the session goes
    on.  The answer
    reaches the client as [transfer_any_order] describes. *)
Theorem chat_server_answers (p : Process) (conn : SocketId) (key : ConnectionKey) (r c : TcpConnection)
    (snd rcv : u32) (wnd wnd' : u16) (client : TcpTable) (fuel : nat) (w : World) :
  serves p.(stack) conn key r → idle key snd rcv wnd (set_recv_buffer [] r) →
  client.(connections) !! flip key = Some c → idle (flip key) rcv snd wnd' c →
  let data := r.(recv_buffer) in
  let http := bool_decide (Exists (λ verb, verb `prefix_of` data) [str "GET "; str "POST"; str "HEAD"; str "PUT "]) in
  let answer := if http then RESPONSE else data in
  bytes_ok data → 0 < len data ≤ 4096 → len answer ≤ wnd → snd + len answer < 2 ^ 32 →
  ∃ p' w' packets,
    chat_step (S fuel) conn p w = Some ((Some (negb http), p'), w') ∧ w'.(w_sent) = w.(w_sent) ++ packets ∧
    p'.(console).(stdout) = p.(console).(stdout) ++ (if http then [] else data) ∧
    ∀ arr wr, (∀ q, q ∈ arr → q ∈ packets) → (∀ q, q ∈ packets → q ∈ arr) →
      payload_bytes arr ≤ DEFAULT_RECV_BUFFER_CAP →
      ∃ client' wr', deliver_all client arr wr = Some (client', wr') ∧
        (TcpTable.recv client' (flip key) (length answer)).1 = answer.
Proof.
  intros Hsv Hi Hc Hj data http answer Hb Hl Hwnd Hfit.
  assert (Hne : data ≠ []) by (intros E; rewrite E in Hl; unfold len in Hl; cbn in Hl; lia).
  assert (Hh : looks_like_http data = http).
  { apply eq_true_iff_eq. unfold http. rewrite looks_like_http_spec, bool_decide_eq_true, Exists_exists.
    by setoid_rewrite list_elem_of_In. }
  assert (Ha : bytes_ok answer) by (unfold answer; destruct http; [apply RESPONSE_ok|done]).
  assert (Hal : len answer ≤ 16384) by (unfold answer; destruct http; [vm_compute; discriminate|lia]).
  destruct (answer_sent p.(stack) conn key r c snd rcv wnd wnd' client answer (clock_next w))
    as (s2 & w' & packets & Hs & Hw & Hgo); auto.
  set (s1 := set_tcp (put_conn key (set_recv_buffer [] r) p.(stack).(tcp)) p.(stack)) in *.
  exists (mkProcess s2 (if http then p.(console) else put_out data p.(console))), w', packets.
  split; [|split; [done|split; [cbn; destruct http; cbn; by rewrite ?app_nil_r|done]]].
  unfold chat_step. erewrite prog_call_blocking by (apply recv_at_once; [done|done|fold data; unfold len in *; lia]).
  cbv beta iota. fold data s1. rewrite (proj2 (Z.leb_gt _ _)) by lia. rewrite Hh. unfold answer in Hs. destruct http.
  - by erewrite prog_call by exact Hs.
  - erewrite prog_bind by reflexivity. by erewrite prog_call by exact Hs.
Qed.

(** ** The limits of the servers *)

(** The connection whose send buffer is full and whose peer has closed its
    window. *)
Record choked (r : TcpConnection) : Prop := {
  ch_ok : conn_ok r;
  ch_state : r.(state) = Established;
  ch_close : r.(pending_close) = false;
  ch_wnd : r.(snd_wnd) = 0;
  ch_full : r.(send_pending_cap) ≤ len r.(send_pending);
}.

(** [send] then takes nothing and writes nothing. *)
Lemma choked_send t key r data w :
  t.(connections) !! key = Some r → choked r →
  ∃ r' w', TcpTable.send t key data w = Some ((0, put_conn key r' t), w') ∧ w'.(w_sent) = w.(w_sent) ∧
    r'.(recv_buffer) = r.(recv_buffer) ∧ r'.(send_pending) = r.(send_pending) ∧
    r'.(retransmit_queue) = r.(retransmit_queue) ∧ r'.(state) = Established.
Proof.
  intros Hr [Hok Hst Hcl Hwn Hfull]. unfold TcpTable.send. rewrite Hr. pose proof (len_nonneg data).
  rewrite Z.max_l, Z.min_r by lia. change (Z.to_nat 0) with 0%nat. rewrite take_0, app_nil_r.
  set (r0 := set_send_pending (send_pending r) r). assert (Hr0 : r0 = r) by (by destruct r). rewrite Hr0.
  destruct (flush_send_closed r w (conn_ok_ready r Hok)) as (w' & E & Hw & _); [by rewrite Hst|done|done|].
  eexists _, w'. split; [by erewrite bind_Some by exact E|]. split; [exact Hw|]. by split_and!.
Qed.

(** C40: a full send buffer loses the message.  When the buffer is full and the
    client's window closed, the echo server drops a message it has read and
    ends the session, and the chat server drops it and goes on as if it had
    been sent: neither queues any of it, although the connection is alive and
    would take it later. *)
Theorem full_buffer_loses_message (p : Process) (conn : SocketId) (key : ConnectionKey) (r : TcpConnection)
    (fuel : nat) (w : World) :
  serves p.(stack) conn key r → choked r →
  0 < len r.(recv_buffer) ≤ 4096 → looks_like_http r.(recv_buffer) = false →
  let lost (m : Prog bool) (more : bool) := ∃ p' w' r', m p w = Some ((Some more, p'), w') ∧
    w'.(w_sent) = w.(w_sent) ∧ serves p'.(stack) conn key r' ∧ r'.(state) = Established ∧
    r'.(recv_buffer) = [] ∧ r'.(send_pending) = r.(send_pending) ∧ r'.(retransmit_queue) = r.(retransmit_queue) in
  lost (echo_step (S fuel) conn) false ∧ lost (chat_step (S fuel) conn) true.
Proof.
  intros Hsv Hch Hl Hh lost. pose proof (serves_set p.(stack) conn key r (set_recv_buffer [] r) Hsv) as Hsv1.
  assert (Hne : recv_buffer r ≠ []) by (intros E; rewrite E in Hl; unfold len in Hl; cbn in Hl; lia).
  set (s1 := set_tcp (put_conn key (set_recv_buffer [] r) p.(stack).(tcp)) p.(stack)) in *.
  assert (Hch1 : choked (set_recv_buffer [] r)).
  { destruct Hch as [[] ? ? ? ?]. split; cbn; auto. split; cbn; auto; by constructor. }
  destruct (choked_send s1.(tcp) key _ (recv_buffer r) (clock_next w) (proj2 Hsv1) Hch1)
    as (r' & w' & E & Hw & Hb & Hp & Hq & Hst).
  pose proof (send_serving s1 conn key _ _ _ _ _ _ Hsv1 E) as Hs.
  pose proof (serves_set s1 conn key _ r' Hsv1) as Hsv2.
  split.
  - exists (mkProcess (set_tcp (put_conn key r' (tcp s1)) s1) p.(console)), w', r'. split; [|split_and!; done].
    unfold echo_step. erewrite prog_call_blocking by (apply recv_at_once; [done|done|unfold len in *; lia]).
    cbv beta iota. fold s1. rewrite (proj2 (Z.leb_gt _ _)) by lia.
    erewrite prog_bind by (apply send_all_stuck; [done|exact Hs]). by destruct (recv_buffer r).
  - exists (mkProcess (set_tcp (put_conn key r' (tcp s1)) s1) (put_out (recv_buffer r) p.(console))), w', r'.
    split; [|split_and!; done].
    unfold chat_step. erewrite prog_call_blocking by (apply recv_at_once; [done|done|unfold len in *; lia]).
    cbv beta iota. fold s1. rewrite (proj2 (Z.leb_gt _ _)) by lia. rewrite Hh.
    erewrite prog_bind by reflexivity. by erewrite prog_call by exact Hs.
Qed.

(** [send] never takes more than it is given. *)
Lemma send_at_most s id data w n s' w' : send s id data w = Some ((n, s'), w') → n ≤ len data.
Proof.
  pose proof (len_nonneg data). unfold send. destruct (_ ≫= conn_key) as [key|]; [|intros [= <- _ _]; lia].
  unfold TcpTable.send, mbind, M_bind. destruct (connections _ !! key) as [c|]; [|intros [= <- _ _]; lia].
  destruct (flush_send _ w) as [[c' w1]|]; [|done]. intros [= <- _ _]. lia.
Qed.

Lemma send_all_returns fuel conn data sent p w :
  stack_ok p.(stack) → bytes_ok data → (sent ≤ length data)%nat → (length data - sent < fuel)%nat →
  ∃ k p' w', send_all fuel conn data sent p w = Some ((Some k, p'), w') ∧ stack_ok p'.(stack) ∧
    (sent ≤ k ≤ length data)%nat.
Proof.
  revert sent p w. induction fuel as [|fuel IH]; intros sent p w Hp Hd Hs Hf; [lia|]. cbn [send_all].
  case_decide; [|exists sent, p, w; split_and!; done || lia].
  destruct (send_call_ok p.(stack) conn (drop sent data) w Hp) as (n & s' & w' & E & Hs' & _); [auto with minitcp|].
  rewrite (prog_call _ _ _ _ _ _ _ E). destruct (Z.leb_spec n 0).
  - exists sent, (mkProcess s' p.(console)), w'. split_and!; done || lia.
  - pose proof (send_at_most _ _ _ _ _ _ _ E) as Hn. unfold len in Hn. rewrite length_drop in Hn.
    destruct (IH (sent + Z.to_nat n)%nat (mkProcess s' p.(console)) w') as (k & p' & w'' & E' & ? & ?); try (done || lia).
    exists k, p', w''. split_and!; [exact E'|done|lia|lia].
Qed.

(** The echo server's round returns.  If the blocking [recv] of a round
    returns, so does the round: the loop that sends the chunk back ends after
    at most as many calls as the chunk has bytes, without a panic, whatever
    [send] takes each time. *)
Theorem echo_step_returns (fuel : nat) (conn : SocketId) (p : Process) (w : World) (n : Z) (buf : bytes)
    (s1 : Stack) (w1 : World) :
  stack_ok p.(stack) →
  recv fuel p.(stack) conn (Z.to_nat (16 * 1024)) w = Some ((Some (n, buf), s1), w1) →
  ∃ more p' w', echo_step fuel conn p w = Some ((Some more, p'), w') ∧ stack_ok p'.(stack) ∧
    (more = true → 0 < n).
Proof.
  intros Hp E. destruct (wire_call_recv fuel p.(stack) conn (Z.to_nat (16 * 1024)) Hp w) as
    (r & w2 & ps & E' & _ & _ & [[Hs1 _] Hb] & _). rewrite E in E'. injection E' as <- <-. cbn in Hs1.
  specialize (Hb n buf eq_refl). unfold echo_step. rewrite (prog_call_blocking _ _ _ _ _ _ _ E). cbv beta iota.
  destruct (Z.leb_spec n 0); [by exists false, (mkProcess s1 p.(console)), w1|].
  destruct (send_all_returns (S (length buf)) conn buf 0 (mkProcess s1 p.(console)) w1) as (k & p' & w' & Ek & ? & _);
    [done|done|lia|lia|].
  eexists _, p', w'. split; [by erewrite prog_bind by exact Ek|]. done.
Qed.

(** ** Witnesses *)

(** A server connection with [data] to read, its socket and its process. *)
Definition server_conn (wnd : u16) (data : bytes) : TcpConnection :=
  set_recv_buffer data (fresh_conn Established (flip wkey) 2000 wnd 0 1000 0).

Definition server_process (r : TcpConnection) : Process :=
  mkProcess (set_sockets {[1 := set_conn_key (Some (flip wkey)) (socket_new Tcp)]}
               (set_next_socket_id 2 (set_tcp (put_conn (flip wkey) r TcpTable.new) (stack_new 0x0A0A0002)))) open_console.

Definition client_table : TcpTable :=
  put_conn wkey (fresh_conn Established wkey 1000 65535 0 2000 0) TcpTable.new.

Lemma server_serves r : serves (server_process r).(stack) 1 (flip wkey) r.
Proof. split; [reflexivity|apply lookup_insert_eq]. Qed.

Lemma server_idle wnd data : is_u16 wnd → idle (flip wkey) 2000 1000 wnd (set_recv_buffer [] (server_conn wnd data)).
Proof. intros. apply fresh_idle; [split_and!; by_decide|by_decide|done|by_decide]. Qed.

Lemma client_idle : idle (flip (flip wkey)) 1000 2000 65535 (fresh_conn Established wkey 1000 65535 0 2000 0).
Proof. apply fresh_idle; [split_and!; by_decide|by_decide..]. Qed.

Theorem echo_server_echoes_witness :
  ∃ p' w', echo_step 1 1 (server_process (server_conn 65535 [104; 105])) demo_world = Some ((Some true, p'), w').
Proof.
  destruct (echo_server_echoes (server_process (server_conn 65535 [104; 105])) 1 (flip wkey) (server_conn 65535 [104; 105])
    (fresh_conn Established wkey 1000 65535 0 2000 0) 2000 1000 65535 65535 client_table 0 demo_world)
    as (p' & w' & packets & E & _).
  - apply server_serves.
  - apply server_idle. by_decide.
  - apply lookup_insert_eq.
  - apply client_idle.
  - by_decide.
  - by_decide.
  - by_decide.
  - by_decide.
  - exists p', w'. exact E.
Defined.

Theorem chat_server_answers_witness :
  ∃ p' w', chat_step 1 1 (server_process (server_conn 65535 (str "GET / HTTP/1.1"))) demo_world
    = Some ((Some false, p'), w').
Proof.
  destruct (chat_server_answers (server_process (server_conn 65535 (str "GET / HTTP/1.1"))) 1 (flip wkey)
    (server_conn 65535 (str "GET / HTTP/1.1"))
    (fresh_conn Established wkey 1000 65535 0 2000 0) 2000 1000 65535 65535 client_table 0 demo_world)
    as (p' & w' & packets & E & _).
  - apply server_serves.
  - apply server_idle. by_decide.
  - apply lookup_insert_eq.
  - apply client_idle.
  - by_decide.
  - by_decide.
  - vm_compute. discriminate.
  - by_decide.
  - exists p', w'. exact E.
Defined.

(** One byte of room, taken, and the window closed. *)
Definition choked_conn (data : bytes) : TcpConnection :=
  set_send_pending [1] (set_send_pending_cap 1 (server_conn 0 data)).

Theorem full_buffer_loses_message_witness :
  ∃ p' w' r', echo_step 1 1 (server_process (choked_conn [104; 105])) demo_world = Some ((Some false, p'), w') ∧
    serves p'.(stack) 1 (flip wkey) r' ∧ r'.(send_pending) = [1].
Proof.
  destruct (full_buffer_loses_message (server_process (choked_conn [104; 105])) 1 (flip wkey) (choked_conn [104; 105])
    0 demo_world) as ((p' & w' & r' & E & _ & Hs & _ & _ & Hp & _) & _).
  - apply server_serves.
  - split; try done. split; try done; try (by_decide). by exists 2000.
  - by_decide.
  - reflexivity.
  - exists p', w', r'. exact (conj E (conj Hs Hp)).
Defined.

Theorem echo_step_returns_witness :
  ∃ more p' w', echo_step 1 1 (server_process (choked_conn [104; 105])) demo_world = Some ((Some more, p'), w').
Proof.
  destruct (recv 1 (server_process (choked_conn [104; 105])).(stack) 1 (Z.to_nat (16 * 1024)) demo_world)
    as [[[[[n buf]|] s1] w1]|] eqn:E; [|discriminate E..].
  destruct (echo_step_returns 1 1 (server_process (choked_conn [104; 105])) demo_world n buf s1 w1)
    as (more & p' & w' & E' & _).
  - split; [by_decide|by_decide| |].
    + apply table_ok_put; [apply table_ok_new| |reflexivity]. split; try done; try (by_decide). by exists 2000.
    + intros id sock H. cbn in H. apply lookup_singleton_Some in H as [<- <-]. split; [by_decide|exact I].
  - exact E.
  - exists more, p', w'. exact E'.
Defined.
