(* ===== verification/UnitTests.v ===== *)
(** * The crate's unit tests, run on the model

    The tests of [ip.rs], [udp.rs] and [tcp.rs], translated statement by
    statement: an assertion that fails is a panic.  They check the model
    against what the authors expect of the code, for any clock and any visit
    order, and a sample of initial sequence numbers. *)

From S2P Require Import Prelude Std Ip Udp TcpSegment TcpConn TcpTable.

Definition assert (b : bool) : M unit := lift (if b then Some tt else None).

(** [vec![0; n]] headers: [..Default::default()]. *)
Definition ip_header (protocol : u8) (src_addr dst_addr : u32) : IpHeader :=
  mkIpHeader 4 5 0 0 0 0 0 64 protocol 0 src_addr dst_addr.

(** ** [ip.rs] *)

Module IpTests.

Definition known_vector : M unit :=
  let data := [0x00; 0x01; 0xf2; 0x03; 0xf4; 0xf5; 0xf6; 0xf7] in
  csum ← lift (checksum16 data);
  assert (csum =? 0x220d).

Definition build_then_verify_round_trip : M unit :=
  let hdr := mkIpHeader 4 5 0 20 0x1234 0 0 64 1 0 0x0A000001 0x0A000002 in
  packet ← lift (build_ip_header hdr (vec_zero IP_HEADER_LEN));
  ok ← lift (verify_ip_checksum packet);
  _ ← assert ok;
  packet ← lift (set_byte 0 (Z.lxor packet.[0] 0xFF) packet);
  ok ← lift (verify_ip_checksum packet);
  assert (negb ok).

(** [!0xAB00u16]. *)
Definition odd_length : M unit :=
  csum ← lift (checksum16 [0xAB]);
  assert (csum =? 0xFFFF - 0xAB00).

End IpTests.

(** ** [tcp.rs] *)

Module TcpTests.

Definition build_segment_with_window (src_port dst_port : u16) (seq ack : u32) (flags : u8) (window : u16)
    (data : bytes) (src_addr dst_addr : u32) : M bytes :=
  let hdr := mkTcpHeader src_port dst_port seq ack (Z.shiftl 5 4) flags window 0 0 in
  seg ← lift (build_tcp_header hdr (vec_zero (TCP_HEADER_LEN + length data)));
  seg ← lift (if bool_decide (data = []) then Some seg else copy_slice TCP_HEADER_LEN (length seg) data seg);
  csum ← lift (tcp_checksum src_addr dst_addr seg);
  lift (copy_slice 16 18 (u16_to_be_bytes csum) seg).

(** [test_support::build_segment]. *)
Definition build_segment (src_port dst_port : u16) (seq ack : u32) (flags : u8)
    (data : bytes) (src_addr dst_addr : u32) : M bytes :=
  let hdr := mkTcpHeader src_port dst_port seq ack (Z.shiftl 5 4) flags 65535 0 0 in
  seg ← lift (build_tcp_header hdr (vec_zero (TCP_HEADER_LEN + length data)));
  seg ← lift (if bool_decide (data = []) then Some seg else copy_slice TCP_HEADER_LEN (length seg) data seg);
  csum ← lift (tcp_checksum src_addr dst_addr seg);
  lift (copy_slice 16 18 (u16_to_be_bytes csum) seg).

Definition SERVER_ADDR : u32 := 0x0A0A0001.
Definition CLIENT_ADDR : u32 := 0x0A0A0002.
Definition SERVER_PORT : u16 := 9292.
Definition CLIENT_PORT : u16 := 41000.

(** [assert_eq!(table.lookup(key).unwrap().state, s)]. *)
Definition assert_state (table : TcpTable) (key : ConnectionKey) (s : TcpState) : M unit :=
  c ← lift (lookup_conn table key);
  assert (bool_decide (c.(state) = s)).

Definition ip_hdr : IpHeader := ip_header 6 CLIENT_ADDR SERVER_ADDR.

(** A segment of the client, handed to the table. *)
Definition from_client (table : TcpTable) (seq ack : u32) (flags : u8) (data : bytes) : M TcpTable :=
  seg ← build_segment CLIENT_PORT SERVER_PORT seq ack flags data CLIENT_ADDR SERVER_ADDR;
  handle_segment table ip_hdr seg.

Definition key : ConnectionKey := mkConnectionKey SERVER_ADDR SERVER_PORT CLIENT_ADDR CLIENT_PORT.

Definition full_lifecycle_handshake_ooo_and_close : M unit :=
  let '(ok, table) := listen new SERVER_ADDR SERVER_PORT false in
  _ ← assert ok;
  let client_seq := 1000 in
  table ← from_client table client_seq 0 TCP_SYN [];
  _ ← assert_state table key SynRcvd;
  c ← lift (lookup_conn table key);
  let server_iss := c.(iss) in
  let client_seq := client_seq + 1 in
  let ack := wadd32 server_iss 1 in
  table ← from_client table client_seq ack TCP_ACK [];
  _ ← assert_state table key Established;
  let '(a, table) := accept table SERVER_ADDR SERVER_PORT in
  accepted ← lift a;
  _ ← assert (bool_decide (accepted = key));
  table ← from_client table (client_seq + 10) ack (Z.lor TCP_ACK TCP_PSH) (str "CCCCC");
  table ← from_client table client_seq ack (Z.lor TCP_ACK TCP_PSH) (str "AAAAA");
  table ← from_client table (client_seq + 5) ack (Z.lor TCP_ACK TCP_PSH) (str "BBBBB");
  let '(got, table) := recv table accepted 64 in
  _ ← assert (bool_decide (got = str "AAAAABBBBBCCCCC"));
  let client_seq_after_data := client_seq + 15 in
  table ← from_client table client_seq_after_data ack (Z.lor TCP_FIN TCP_ACK) [];
  _ ← assert_state table accepted CloseWait;
  table ← close table accepted;
  _ ← assert_state table accepted LastAck;
  c ← lift (lookup_conn table accepted);
  table ← from_client table (client_seq_after_data + 1) c.(snd_nxt) TCP_ACK [];
  assert (is_closed table accepted).

Definition handshake_to_established (table : TcpTable) (client_iss : u32) : M (ConnectionKey * u32 * u32 * TcpTable) :=
  let '(ok, table) := listen table SERVER_ADDR SERVER_PORT false in
  _ ← assert ok;
  table ← from_client table client_iss 0 TCP_SYN [];
  _ ← assert_state table key SynRcvd;
  c ← lift (lookup_conn table key);
  let server_iss := c.(iss) in
  let client_seq := wadd32 client_iss 1 in
  table ← from_client table client_seq (wadd32 server_iss 1) TCP_ACK [];
  _ ← assert_state table key Established;
  let '(a, table) := accept table SERVER_ADDR SERVER_PORT in
  accepted ← lift a;
  _ ← assert (bool_decide (accepted = key));
  mret (key, server_iss, client_seq, table).

Definition rst_in_established_aborts_connection : M unit :=
  '(key, server_iss, client_seq, table) ← handshake_to_established new 2000;
  table ← from_client table client_seq (wadd32 server_iss 1) TCP_RST [];
  assert (is_closed table key).

Definition rst_in_close_wait_aborts_connection : M unit :=
  '(key, server_iss, client_seq, table) ← handshake_to_established new 3000;
  table ← from_client table client_seq (wadd32 server_iss 1) (Z.lor TCP_FIN TCP_ACK) [];
  _ ← assert_state table key CloseWait;
  table ← from_client table (client_seq + 1) (wadd32 server_iss 1) TCP_RST [];
  assert (is_closed table key).

Definition ooo_buffer_respects_recv_cap : M unit :=
  '(key, server_iss, client_seq, table) ← handshake_to_established new 4000;
  let table := set_recv_cap table key 4 in
  table ← from_client table (client_seq + 10) (wadd32 server_iss 1) (Z.lor TCP_ACK TCP_PSH) (str "12345");
  c ← lift (lookup_conn table key);
  _ ← assert (bool_decide (c.(ooo_buffer) = ∅));
  table ← from_client table (client_seq + 20) (wadd32 server_iss 1) (Z.lor TCP_ACK TCP_PSH) (str "ok");
  c ← lift (lookup_conn table key);
  assert (bool_decide (size c.(ooo_buffer) = 1%nat)).

Definition close_defers_fin_until_send_pending_drains : M unit :=
  let '(ok, table) := listen new SERVER_ADDR SERVER_PORT false in
  _ ← assert ok;
  let client_iss := 5000 in
  table ← from_client table client_iss 0 TCP_SYN [];
  c ← lift (lookup_conn table key);
  let server_iss := c.(iss) in
  let client_seq := wadd32 client_iss 1 in
  ack ← build_segment_with_window CLIENT_PORT SERVER_PORT client_seq (wadd32 server_iss 1) TCP_ACK 5 []
          CLIENT_ADDR SERVER_ADDR;
  table ← handle_segment table ip_hdr ack;
  _ ← assert_state table key Established;
  let '(a, table) := accept table SERVER_ADDR SERVER_PORT in
  accepted ← lift a;
  '(sent, table) ← send table accepted (str "HELLOWORLD");
  _ ← assert (sent =? 10);
  table ← close table accepted;
  _ ← assert_state table accepted Established;
  c ← lift (lookup_conn table accepted);
  window_update ← build_segment_with_window CLIENT_PORT SERVER_PORT client_seq c.(snd_nxt) TCP_ACK 5 []
          CLIENT_ADDR SERVER_ADDR;
  table ← handle_segment table ip_hdr window_update;
  assert_state table accepted FinWait1.

End TcpTests.

(** ** [udp.rs] *)

Module UdpTests.

Definition SERVER_ADDR : u32 := 0x0A0B0001.
Definition CLIENT_ADDR : u32 := 0x0A0B0002.

Definition build_udp_packet (src_port dst_port : u16) (data : bytes) : M bytes :=
  let udp_len := as_u16 (Z.of_nat (UDP_HEADER_LEN + length data)) in
  let pkt := vec_zero (Z.to_nat udp_len) in
  pkt ← lift (copy_slice 0 2 (u16_to_be_bytes src_port) pkt);
  pkt ← lift (copy_slice 2 4 (u16_to_be_bytes dst_port) pkt);
  pkt ← lift (copy_slice 4 6 (u16_to_be_bytes udp_len) pkt);
  lift (if bool_decide (data = []) then Some pkt else copy_slice UDP_HEADER_LEN (length pkt) data pkt).

Definition make_ip_header : IpHeader := ip_header 17 CLIENT_ADDR SERVER_ADDR.

Definition sendto_recvfrom_round_trip : M unit :=
  let '(ok, table) := udp_bind udp_new SERVER_ADDR 9000 false DEFAULT_RECV_QUEUE_CAP_BYTES in
  _ ← assert ok;
  pkt ← build_udp_packet 41000 9000 (str "hello");
  table ← handle_datagram table make_ip_header pkt;
  dg ← lift (udp_recv table (SERVER_ADDR, 9000)).1;
  _ ← assert (dg.(dg_src_addr) =? CLIENT_ADDR);
  _ ← assert (dg.(dg_src_port) =? 41000);
  assert (bool_decide (dg.(dg_data) = str "hello")).

Definition recv_queue_cap_drops_oversized_datagram : M unit :=
  let '(ok, table) := udp_bind udp_new SERVER_ADDR 9100 false 4 in
  _ ← assert ok;
  too_big ← build_udp_packet 41010 9100 (str "12345");
  table ← handle_datagram table make_ip_header too_big;
  let '(r, table) := udp_recv table (SERVER_ADDR, 9100) in
  _ ← assert (bool_decide (r = None));
  fits ← build_udp_packet 41010 9100 (str "ok");
  table ← handle_datagram table make_ip_header fits;
  assert (bool_decide (is_Some (udp_recv table (SERVER_ADDR, 9100)).1)).

(** The [read] from the other end of the socket pair: the packet written. *)
Definition read_back : M bytes := λ w,
  match head (reverse w.(w_sent)) with Some p => Some (p, w) | None => None end.

Definition echo_fallback_when_unbound : M unit :=
  pkt ← build_udp_packet 41001 9001 (str "ping");
  _ ← handle_datagram udp_new make_ip_header pkt;
  buf ← read_back;
  _ ← assert (0 <? len buf);
  reply_hdr ← lift (parse_ip_header buf);
  _ ← assert (reply_hdr.(ip_dst_addr) =? CLIENT_ADDR);
  _ ← assert (reply_hdr.(ip_src_addr) =? SERVER_ADDR);
  assert (bool_decide (drop (IP_HEADER_LEN + UDP_HEADER_LEN) buf = str "ping")).

Definition so_reuseaddr_listen_guard : M unit :=
  let LISTEN_PORT := 9500 in
  let REMOTE_CLIENT_ADDR := 0x0A0B0003 in
  let REMOTE_PORT := 7000 in
  let '(ok, tcp) := listen new SERVER_ADDR LISTEN_PORT false in
  _ ← assert ok;
  let '(ok, tcp) := listen tcp SERVER_ADDR LISTEN_PORT false in
  _ ← assert ok;
  '(key, tcp) ← connect tcp SERVER_ADDR REMOTE_CLIENT_ADDR REMOTE_PORT;
  let local_port := key.(k_local_port) in
  c ← lift (lookup_conn tcp key);
  let client_iss := c.(iss) in
  let ip_hdr := ip_header 6 REMOTE_CLIENT_ADDR SERVER_ADDR in
  let remote_seq := 8000 in
  syn_ack ← TcpTests.build_segment REMOTE_PORT local_port remote_seq (wadd32 client_iss 1) (Z.lor TCP_SYN TCP_ACK) []
              REMOTE_CLIENT_ADDR SERVER_ADDR;
  tcp ← handle_segment tcp ip_hdr syn_ack;
  _ ← TcpTests.assert_state tcp key Established;
  tcp ← close tcp key;
  _ ← TcpTests.assert_state tcp key FinWait1;
  let remote_seq := remote_seq + 1 in
  c ← lift (lookup_conn tcp key);
  fin_ack ← TcpTests.build_segment REMOTE_PORT local_port remote_seq c.(snd_nxt) (Z.lor TCP_FIN TCP_ACK) []
              REMOTE_CLIENT_ADDR SERVER_ADDR;
  tcp ← handle_segment tcp ip_hdr fin_ack;
  _ ← TcpTests.assert_state tcp key TimeWait;
  let '(ok, tcp) := listen tcp SERVER_ADDR local_port false in
  _ ← assert (negb ok);
  let '(ok, _) := listen tcp SERVER_ADDR local_port true in
  assert ok.

End UdpTests.

(** ** The suite *)

Definition all_tests : list (M unit) :=
  [IpTests.known_vector; IpTests.build_then_verify_round_trip; IpTests.odd_length;
   TcpTests.full_lifecycle_handshake_ooo_and_close; TcpTests.rst_in_established_aborts_connection;
   TcpTests.rst_in_close_wait_aborts_connection; TcpTests.ooo_buffer_respects_recv_cap;
   TcpTests.close_defers_fin_until_send_pending_drains;
   UdpTests.sendto_recvfrom_round_trip; UdpTests.recv_queue_cap_drops_oversized_datagram;
   UdpTests.echo_fallback_when_unbound; UdpTests.so_reuseaddr_listen_guard].

Definition passes (t : M unit) (w : World) : bool := match t w with Some _ => true | None => false end.

(** A world in which every random number is [iss]. *)
Definition test_world (clock : nat → Instant) (picks : nat → nat) (iss : u32) : World :=
  mkWorld clock 0 (λ _, iss) 0 (λ _, None) 0 picks 0 [].

Lemma forallb_Forall {A} (f : A → bool) (l : list A) : forallb f l = true → Forall (λ x, f x = true) l.
Proof. intros H. apply Forall_forall. by apply forallb_forall. Qed.

(** The verdict, computed: with each of the ten initial sequence numbers
    listed, the model passes all twelve tests, whatever the clock and the
    visit order.  With the five numbers at which the acknowledgement of the
    first chunk of the last TCP test crosses the end of the sequence space
    that test fails: the acknowledgement compares as old, the window stays
    full, and the deferred FIN never goes out. *)
Theorem unit_tests_verdict (clock : nat → Instant) (picks : nat → nat) :
  Forall (λ iss, Forall (λ t, passes t (test_world clock picks iss) = true) all_tests)
    [0; 1; 1000; 65535; 65536; 0x7FFFFFFF; 0x80000000; 0xFFFFFF00; 2 ^ 32 - 7; 2 ^ 32 - 1] ∧
  Forall (λ iss, passes TcpTests.close_defers_fin_until_send_pending_drains (test_world clock picks iss) = false)
    [2 ^ 32 - 6; 2 ^ 32 - 5; 2 ^ 32 - 4; 2 ^ 32 - 3; 2 ^ 32 - 2].
Proof.
  split.
  - eapply Forall_impl; [intros iss; apply forallb_Forall|]. apply (forallb_Forall (λ iss, forallb _ all_tests)).
    vm_compute. reflexivity.
  - repeat constructor.
Qed.
